(** * A shallow embedding of the DP ticket automation bot (src/main.py)

    The bot drives a browser through Selenium.  Pure parts (the two file
    loaders, the report arithmetic) are plain functions.  Everything that
    talks to the browser lives in a state-and-exception monad over an
    abstract world: the world answers every WebDriver command, may raise
    on any of them, and may deliver an interrupt signal wherever the
    process waits.  Python's [try]/[except]/[finally] become combinators
    of that monad, [for] loops become structural recursion. *)

From Stdlib Require Import ZArith QArith Ascii String List Bool Lia.
From stdpp Require Import base gmap strings list.

Set Warnings "-clear-no-such-hyp".

Local Open Scope string_scope.
Local Open Scope Z_scope.

(** ** Python strings

    A [string] is read as a sequence of code points below 256; the
    white space of [str.strip] in that range is TAB..CR, FS..US, space,
    NEL and the no-break space. *)

Module PyStr.

Definition is_space (c : ascii) : bool :=
  let n := nat_of_ascii c in
  ((9 <=? n) && (n <=? 13) || (28 <=? n) && (n <=? 32)
   || (n =? 133) || (n =? 160))%nat.

Fixpoint lstrip (s : string) : string :=
  match s with
  | EmptyString => EmptyString
  | String c r => if is_space c then lstrip r else s
  end.

Fixpoint rstrip (s : string) : string :=
  match s with
  | EmptyString => EmptyString
  | String c r =>
      match rstrip r with
      | EmptyString => if is_space c then EmptyString else String c EmptyString
      | r' => String c r'
      end
  end.

(** [s.strip()] *)
Definition strip (s : string) : string := rstrip (lstrip s).

(** [s.startswith(p)] *)
Definition startswith (p s : string) : bool := String.prefix p s.

(** truthiness of a [str]: [not s] *)
Definition falsy (s : string) : bool :=
  match s with EmptyString => true | _ => false end.

(** [c.lower()] for a code point below 256 *)
Definition lower_char (c : ascii) : ascii :=
  let n := nat_of_ascii c in
  if ((65 <=? n) && (n <=? 90)
      || (192 <=? n) && (n <=? 222) && negb (n =? 215))%nat
  then ascii_of_nat (n + 32) else c.

Fixpoint lower (s : string) : string :=
  match s with
  | EmptyString => EmptyString
  | String c r => String (lower_char c) (lower r)
  end.

(** [sub in s] *)
Fixpoint contains (sub s : string) : bool :=
  startswith sub s ||
  match s with
  | EmptyString => false
  | String _ r => contains sub r
  end.

End PyStr.

(** ** DataManager.read_daily_input *)

Module DataManager.

(** The [for line in file] loop; [seen_codes] is the Python set,
    [kode_dp_list] the list being appended to. *)
Fixpoint read_lines (lines : list string) (seen_codes : gset string)
    (kode_dp_list : list string) : list string :=
  match lines with
  | [] => kode_dp_list
  | line :: rest =>
      let line := PyStr.strip line in
      if PyStr.falsy line || PyStr.startswith "#" line
         || bool_decide (line ∈ seen_codes)
      then read_lines rest seen_codes kode_dp_list
      else read_lines rest ({[line]} ∪ seen_codes) (kode_dp_list ++ [line])
  end.

(** [file = None] stands for every way the [try] block can raise (no
    file name, missing file, not a file, undecodable bytes): the
    handler returns the empty list.  [Some lines] is the sequence the
    file iterator yields. *)
Definition read_daily_input (file : option (list string)) : list string :=
  match file with
  | None => []
  | Some lines => read_lines lines ∅ []
  end.

(** ** DataManager.load_master_data *)

Record master_entry := MasterEntry {
  City : string;
  RK : string;
  row_number : Z
}.

(** A row of [csv.DictReader]: a dict from the header's names to the
    cell, [None] for a cell the row is too short to have. *)
Abbreviation csv_row := (gmap string (option string)).

(** [row[k].strip() if row[k] else ''], [None] when [row[k]] raises
    [KeyError]. *)
Definition field (row : csv_row) (k : string) : option string :=
  match row !! k with
  | None => None
  | Some None => Some ""
  | Some (Some s) => Some (if PyStr.falsy s then "" else PyStr.strip s)
  end.

(** One turn of [for row_num, row in enumerate(reader, start=2)]; the
    bare [except: continue] leaves the state as it was. *)
Definition load_row (row_num : Z) (row : csv_row)
    (st : gmap string master_entry * Z) : gmap string master_entry * Z :=
  let '(master_data, row_count) := st in
  match field row "Kode_DP" with
  | None => st
  | Some kode_dp =>
    match field row "City" with
    | None => st
    | Some city =>
      match field row "RK" with
      | None => st
      | Some rk =>
          if PyStr.falsy kode_dp || PyStr.falsy city || PyStr.falsy rk
          then st
          else (<[kode_dp := MasterEntry city rk row_num]> master_data,
                row_count + 1)
      end
    end
  end.

Fixpoint load_rows (row_num : Z) (rows : list csv_row)
    (st : gmap string master_entry * Z) : gmap string master_entry * Z :=
  match rows with
  | [] => st
  | row :: rest => load_rows (row_num + 1) rest (load_row row_num row st)
  end.

Record csv_file := CsvFile {
  fieldnames : list string;
  rows : list csv_row
}.

Definition required_fields : list string := ["Kode_DP"; "City"; "RK"].

(** [file = None]: the file cannot be opened or parsed.  The function
    returns [None] for every exception, also for its own [ValueError]s. *)
Definition load_master_data (file : option csv_file)
    : option (gmap string master_entry) :=
  match file with
  | None => None
  | Some f =>
      match fieldnames f with
      | [] => None
      | _ =>
          let cleaned_fieldnames := map PyStr.strip (fieldnames f) in
          let missing_fields :=
            filter (λ fld, fld ∉ cleaned_fieldnames) required_fields in
          match missing_fields with
          | _ :: _ => None
          | [] =>
              let master_data := fst (load_rows 2 (rows f) (∅, 0)) in
              if bool_decide (master_data = ∅) then None
              else Some master_data
          end
      end
  end.

End DataManager.

(** ** Exceptions, results and the monad

    [exc] lists the [Exception] subclasses the code tells apart (and the
    ones the worlds below raise); [KeyboardInterrupt] and [SystemExit]
    derive from [BaseException] only, so [except Exception] lets them
    through while a bare [except:] swallows them. *)

Inductive exc :=
| StaleElementReferenceException
| ElementClickInterceptedException
| TimeoutException
| NoSuchElementException
| WebDriverException
| ValueError
| TypeError
| RuntimeError.

Inductive pyexn :=
| Exc (e : exc)
| KeyboardInterrupt
| SystemExit (code : Z).

Definition is_Exception (e : pyexn) : bool :=
  match e with Exc _ => true | _ => false end.

Inductive res (A : Type) :=
| Ok (a : A)
| Raise (e : pyexn).
Arguments Ok {A} a.
Arguments Raise {A} e.

(** State persists when an exception is raised, as the mutations of a
    Python object do. *)
Definition M (S A : Type) : Type := S → res A * S.

Definition ret {S A} (a : A) : M S A := λ s, (Ok a, s).

Definition raise {S A} (e : pyexn) : M S A := λ s, (Raise e, s).

Definition bind {S A B} (m : M S A) (k : A → M S B) : M S B :=
  λ s, match m s with
       | (Ok a, s') => k a s'
       | (Raise e, s') => (Raise e, s')
       end.

(** [try: body except ...: handler]: [handler e = None] when no clause
    matches [e].  An exception raised by the handler itself propagates. *)
Definition try_except {S A} (body : M S A) (handler : pyexn → option (M S A))
    : M S A :=
  λ s, match body s with
       | (Ok a, s') => (Ok a, s')
       | (Raise e, s') =>
           match handler e with
           | Some h => h s'
           | None => (Raise e, s')
           end
       end.

(** [try: body finally: fin] *)
Definition try_finally {S A} (body : M S A) (fin : M S unit) : M S A :=
  λ s, let '(r, s') := body s in
       match fin s' with
       | (Ok _, s'') => (r, s'')
       | (Raise e, s'') => (Raise e, s'')
       end.

(** the clause [except:] *)
Definition bare {S A} (h : M S A) : pyexn → option (M S A) := λ _, Some h.

(** the clause [except Exception as e:] *)
Definition except_Exception {S A} (h : pyexn → M S A)
    : pyexn → option (M S A) :=
  λ e, if is_Exception e then Some (h e) else None.

Declare Scope py_scope.
Delimit Scope py_scope with py.
Notation "'let*' x ':=' m 'in' k" := (bind m (λ x, k))
  (at level 10, x name, m at level 100, k at level 200) : py_scope.
Notation "m '>>' k" := (bind m (λ _, k))
  (at level 100, k at level 200, right associativity) : py_scope.
Local Open Scope py_scope.

(** ** The browser as a world

    The bot owns one browser session; elements are handles into it. *)

Abbreviation Elem := nat.

Inductive By := XPATH | CSS_SELECTOR | ID.

Inductive keys :=
| Text (s : string)
| CONTROL_a
| DELETE
| ARROW_DOWN
| ENTER
| ESCAPE.

(** Commands that answer with an element. *)
Inductive find_cmd :=
| UntilPresent (b : By) (selector : string) (timeout : Z)
| UntilClickable (b : By) (selector : string) (timeout : Z)
| FindElement (b : By) (selector : string).

(** Commands that answer with a boolean. *)
Inductive test_cmd :=
| IsDisplayed (e : Elem)
| IsEnabled (e : Elem).

(** Commands that answer with a string. *)
Inductive read_cmd :=
| GetText (e : Elem)
| CurrentUrl.

(** Commands whose answer the code does not use. *)
Inductive act_cmd :=
| ScrollIntoView (e : Elem) (smooth : bool)
| ScriptClick (e : Elem)
| Click (e : Elem)
| Clear (e : Elem)
| SendKeys (e : Elem) (k : keys)
| UntilInvisible (selector : string) (timeout : Z)
| UntilReadyStateComplete (timeout : Z)
| Get (url : string)
| Refresh
| NewService
| NewChrome (with_service : bool) (proxy : option string)
| ImplicitlyWait (seconds : Z)
| SetPageLoadTimeout (seconds : Z)
| SetScriptTimeout (seconds : Z)
| ScriptHideAutomation
| Quit
| Close
| ServiceStop.

(** What the world can answer: a value, an exception of the
    [Exception] family, or an interrupt signal reaching the process
    while it waits for the answer. *)
Inductive answer (A : Type) :=
| Returns (a : A)
| Throws (e : exc)
| Interrupted.
Arguments Returns {A} a.
Arguments Throws {A} e.
Arguments Interrupted {A}.

Class Driver (W : Type) := {
  find : find_cmd → W → answer Elem * W;
  test : test_cmd → W → answer bool * W;
  read : read_cmd → W → answer string * W;
  act : act_cmd → W → answer unit * W;
  (** [time.sleep]: does an interrupt signal arrive during the sleep *)
  sleeping : Z → W → bool * W;
  (** [datetime.now()], in microseconds *)
  clock : W → Z * W
}.

(** The history of commands sent to the browser, with their answers. *)
Inductive event :=
| EFind (c : find_cmd) (a : answer Elem)
| ETest (c : test_cmd) (a : answer bool)
| ERead (c : read_cmd) (a : answer string)
| EAct (c : act_cmd) (a : answer unit).

(** ** Log records

    One constructor per [logger] call whose text has parameters; the
    numbers are kept as numbers (the format strings round them). *)

Inductive level := INFO | WARNING | ERROR.

Inductive message :=
| Msg (text : string)
| MsgExn (text : string) (e : pyexn)
| MsgMasterLoaded (entries : Z)
| MsgDailyLoaded (items : Z)
| MsgLoginAttempt (n : Z)
| MsgProcessingItems (total : Z)
| MsgSkipProcessed (index total : Z) (code : string)
| MsgSkipNotInMaster (index total : Z) (code : string)
| MsgProcessing (index total : Z) (code : string)
| MsgAttemptFailed (n : Z)
| MsgAttemptError (n : Z) (e : pyexn)
| MsgSuccess (code : string)
| MsgFailed (code : string)
| MsgErrorProcessing (code : string) (e : pyexn)
| MsgTicketError (code : string) (e : pyexn)
| MsgDuration (microseconds : Z)
| MsgTotals (total successful failed skipped : Z)
| MsgSuccessRate (percent : Q)
| MsgRate (items_per_minute : Q).

Record Env (W : Type) := MkEnv {
  world : W;
  trace : list event;
  logs : list (level * message);
  (** has [main] installed [signal_handler] *)
  handler_installed : bool
}.
Arguments MkEnv {W}.
Arguments world {W}.
Arguments trace {W}.
Arguments logs {W}.
Arguments handler_installed {W}.

(** ** Config *)

Record Config := MkConfig {
  USERNAME : string;
  PASSWORD : string;
  LOGIN_URL : string;
  PROXY_SERVER : option string;
  DEFAULT_TIMEOUT : Z;
  SHORT_TIMEOUT : Z;
  LONG_TIMEOUT : Z;
  MAX_RETRIES : Z;
  RETRY_DELAY : Z;
  DROPDOWN_RETRIES : Z
}.

Module SELECTORS.
Definition login_button : list string :=
  ["#App > div > div.col-lg-5.d-flex.align-items-center.justify-content-center > div > form > div.my-3 > button";
   "button[type='submit']";
   ".btn-primary"].
Definition configuring_menu : list string :=
  ["#sidebar > ul > li:nth-child(3) > ul > li:nth-child(1) > a";
   "a[href*='configuring']"].
Definition dp_menu : list string :=
  ["#menu_0_1 > ul > li:nth-child(4) > a";
   "a[href*='dp']"].
Definition city_input : list string :=
  ["#vs1__combobox > div.vs__selected-options > input";
   "[id*='vs1'] input";
   ".vs__search"].
Definition rk_input : list string :=
  ["#vs2__combobox > div.vs__selected-options > input";
   "[id*='vs2'] input"].
Definition dp_input : list string :=
  ["#vs3__combobox > div.vs__selected-options > input";
   "[id*='vs3'] input"].
Definition filter_button : list string :=
  ["#dp_comp > div > div > div:nth-child(9) > div > a.btn.btn-primary";
   ".btn-primary";
   "button[type='submit']"].
Definition result_dp_code_cell : list string :=
  ["#lists_dp > tbody > tr:first-child > td:nth-child(2)";
   "tbody tr:first-child td:nth-child(2)"].
Definition no_data_message : list string :=
  ["//td[contains(text(),'No data available in table')]";
   "//td[contains(text(),'No data')]";
   ".dataTables_empty"].
Definition create_ticket_icon : list string :=
  ["#lists_dp > tbody > tr:first-child > td:nth-child(9) > a.btn.btn-success.btn-action > i";
   "tbody tr:first-child .btn-success i";
   ".btn-success"].
Definition final_create_button : list string :=
  ["#dp_comp > div > div > div.v--modal-overlay.scrollable > div > div.v--modal-box.v--modal > div.modal-body.card.border-gradient-mask2 > div > div > div > div.row.justify-content-center > div > a";
   ".modal-body .btn-primary";
   ".v--modal .btn"].
Definition confirm_create_button : list string :=
  ["body > div.swal2-container.swal2-center.swal2-backdrop-show > div > div.swal2-actions > button.swal2-confirm.swal2-styled";
   ".swal2-confirm";
   ".swal2-styled"].
Definition loading_overlay : list string :=
  ["div.vld-background"; ".loading"; ".overlay"].
Definition username_input : list string :=
  ["/html/body/div[1]/div/div/div[1]/div[1]/div/form/div[1]/div/input";
   "input[type='text']";
   "input[name='username']";
   "#username"].
Definition password_input : list string :=
  ["/html/body/div[1]/div/div/div[1]/div[1]/div/form/div[2]/div/input";
   "input[type='password']";
   "input[name='password']";
   "#password"].
End SELECTORS.

(** ** The program over a world *)

Section Program.

Context {W : Type} `{Driver W}.
Variable config : Config.

(** The monad of the helper layer: it reaches the browser, the clock
    and the log, nothing of the bot's own counters. *)
Abbreviation B := (M (Env W)).

(** [signal_handler]: with the handler installed an interrupt signal
    logs and calls [sys.exit(0)]; without it Python raises
    [KeyboardInterrupt]. *)
Definition signal_handler {A} : B A :=
  λ env,
    if handler_installed env
    then (Raise (SystemExit 0),
          MkEnv (world env) (trace env)
            (logs env ++ [(INFO, Msg "Received interrupt signal, cleaning up...")])
            (handler_installed env))
    else (Raise KeyboardInterrupt, env).

Definition answered {A} (a : answer A) : B A :=
  match a with
  | Returns v => ret v
  | Throws e => raise (Exc e)
  | Interrupted => signal_handler
  end.

Definition do_find (c : find_cmd) : B Elem :=
  λ env, let '(a, w) := find c (world env) in
         answered a (MkEnv w (trace env ++ [EFind c a]) (logs env)
                       (handler_installed env)).

Definition do_test (c : test_cmd) : B bool :=
  λ env, let '(a, w) := test c (world env) in
         answered a (MkEnv w (trace env ++ [ETest c a]) (logs env)
                       (handler_installed env)).

Definition do_read (c : read_cmd) : B string :=
  λ env, let '(a, w) := read c (world env) in
         answered a (MkEnv w (trace env ++ [ERead c a]) (logs env)
                       (handler_installed env)).

Definition do_act (c : act_cmd) : B unit :=
  λ env, let '(a, w) := act c (world env) in
         answered a (MkEnv w (trace env ++ [EAct c a]) (logs env)
                       (handler_installed env)).

(** [time.sleep(ms / 1000)]; a negative argument is a [ValueError]. *)
Definition sleep (ms : Z) : B unit :=
  λ env,
    if ms <? 0 then (Raise (Exc ValueError), env)
    else
      let '(i, w) := sleeping ms (world env) in
      let env' := MkEnv w (trace env) (logs env) (handler_installed env) in
      if i then signal_handler env' else (Ok tt, env').

Definition now : B Z :=
  λ env, let '(t, w) := clock (world env) in
         (Ok t, MkEnv w (trace env) (logs env) (handler_installed env)).

Definition log (l : level) (m : message) : B unit :=
  λ env, (Ok tt, MkEnv (world env) (trace env) (logs env ++ [(l, m)])
                   (handler_installed env)).

(** *** ElementHelper *)

(** [selectors if isinstance(selectors, list) else [selectors]] *)
Inductive selectors :=
| SelList (l : list string)
| SelStr (s : string).

Definition as_list (s : selectors) : list string :=
  match s with SelList l => l | SelStr s => [s] end.

Definition by_of (selector : string) : By :=
  if PyStr.startswith "//" selector || PyStr.startswith ".//" selector
  then XPATH else CSS_SELECTOR.

(** [timeout or config.DEFAULT_TIMEOUT] *)
Definition timeout_or_default (timeout : option Z) : Z :=
  match timeout with
  | None => DEFAULT_TIMEOUT config
  | Some t => if t =? 0 then DEFAULT_TIMEOUT config else t
  end.

Fixpoint find_element_with_fallback_loop (sels : list string) (timeout : Z)
    : B (option Elem) :=
  match sels with
  | [] => ret None
  | selector :: rest =>
      let* found :=
        try_except
          (let* element := do_find (UntilPresent (by_of selector) selector timeout) in
           ret (Some element))
          (bare (ret None)) in
      match found with
      | Some element => ret (Some element)
      | None => find_element_with_fallback_loop rest timeout
      end
  end.

Definition find_element_with_fallback (sels : selectors) (timeout : option Z)
    : B (option Elem) :=
  find_element_with_fallback_loop (as_list sels) (timeout_or_default timeout).

(** One turn of the loop of [wait_for_element]: [Some element] is the
    [return element], [None] both the [continue] of the handler and the
    fall-through of a false condition. *)
Definition wait_for_selector (selector : string) (timeout : Z)
    (clickable : bool) : B (option Elem) :=
  try_except
    (let* element :=
       if clickable
       then do_find (UntilClickable (by_of selector) selector timeout)
       else do_find (UntilPresent (by_of selector) selector timeout) in
     let* displayed := do_test (IsDisplayed element) in
     if displayed
     then let* enabled := do_test (IsEnabled element) in
          if enabled then ret (Some element) else ret None
     else ret None)
    (bare (ret None)).

Fixpoint wait_for_element_loop (sels : list string) (timeout : Z)
    (clickable : bool) : B (option Elem) :=
  match sels with
  | [] => ret None
  | selector :: rest =>
      let* found := wait_for_selector selector timeout clickable in
      match found with
      | Some element => ret (Some element)
      | None => wait_for_element_loop rest timeout clickable
      end
  end.

Definition wait_for_element (sels : selectors) (timeout : option Z)
    (clickable : bool) : B (option Elem) :=
  wait_for_element_loop (as_list sels) (timeout_or_default timeout) clickable.

(** The first argument of [safe_click]: selectors ([list] or [str]) or
    an element already located. *)
Inductive click_target :=
| BySelectors (s : selectors)
| Located (e : Elem).

(** How one turn of a [for] loop ends. *)
Inductive flow (R C : Type) :=
| Return (r : R)
| Continue (c : C).
Arguments Return {R C} r.
Arguments Continue {R C} c.

Definition safe_click_attempt (target : click_target) (element : Elem)
    (use_js : bool) (attempt : Z) : B (flow bool Elem) :=
  try_except
    (do_act (ScrollIntoView element true) >>
     sleep 500 >>
     (if use_js || (attempt >? 0)
      then do_act (ScriptClick element)
      else try_except (do_act (Click element))
             (λ e, match e with
                   | Exc ElementClickInterceptedException =>
                       Some (do_act (ScriptClick element))
                   | _ => None
                   end)) >>
     ret (Return true))
    (λ e, match e with
          | Exc StaleElementReferenceException =>
              Some match target with
                   | BySelectors s =>
                       let* element := wait_for_element s None true in
                       match element with
                       | None => ret (Return false)
                       | Some element => ret (Continue element)
                       end
                   | Located _ => ret (Return false)
                   end
          | _ => Some (sleep 1000 >> ret (Continue element))
          end).

Fixpoint safe_click_loop (remaining : nat) (attempt : Z)
    (target : click_target) (element : Elem) (use_js : bool) : B bool :=
  match remaining with
  | O => ret false
  | S n =>
      let* r := safe_click_attempt target element use_js attempt in
      match r with
      | Return b => ret b
      | Continue element => safe_click_loop n (attempt + 1) target element use_js
      end
  end.

Definition safe_click (target : click_target) (use_js : bool)
    (max_attempts : Z) : B bool :=
  let* element :=
    match target with
    | BySelectors s => wait_for_element s None true
    | Located e => ret (Some e)
    end in
  match element with
  | None => ret false
  | Some element =>
      safe_click_loop (Z.to_nat max_attempts) 0 target element use_js
  end.

Definition exact_match_xpath (value_to_select : string) : string :=
  "//ul[contains(@class, 'vs__dropdown-menu')]//li[normalize-space()='"
  ++ value_to_select ++ "']".

Definition contains_xpath (value_to_select : string) : string :=
  "//ul[contains(@class, 'vs__dropdown-menu')]//li[contains(normalize-space(), '"
  ++ value_to_select ++ "')]".

(** [for char in value_to_select: send_keys(char); sleep(0.05)] *)
Fixpoint type_chars (input_field : Elem) (value : string) : B unit :=
  match value with
  | EmptyString => ret tt
  | String c r =>
      do_act (SendKeys input_field (Text (String c EmptyString))) >>
      sleep 50 >>
      type_chars input_field r
  end.

(** Strategy (a): the option whose whole text is the value. *)
Definition select_exact (value_to_select : string) : B bool :=
  let* option :=
    wait_for_element (SelList [exact_match_xpath value_to_select]) (Some 5) true in
  match option with
  | None => ret false
  | Some option =>
      let* clicked := safe_click (Located option) false 3 in
      if clicked then sleep 500 >> ret true else ret false
  end.

(** Strategy (b): an option whose text contains the value. *)
Definition select_containing (value_to_select : string) : B bool :=
  let* option :=
    wait_for_element (SelList [contains_xpath value_to_select]) (Some 3) true in
  match option with
  | None => ret false
  | Some option =>
      let* clicked := safe_click (Located option) false 3 in
      if clicked then sleep 500 >> ret true else ret false
  end.

(** Strategy (c): arrow-down then enter, whatever is highlighted. *)
Definition select_by_keyboard (input_field : Elem) : B bool :=
  try_except
    (do_act (SendKeys input_field ARROW_DOWN) >>
     sleep 300 >>
     do_act (SendKeys input_field ENTER) >>
     sleep 500 >>
     ret true)
    (bare (ret false)).

(** Lines 356-377: the option list has had time to render. *)
Definition select_option (input_field : Elem) (value_to_select : string)
    : B bool :=
  let* exact := select_exact value_to_select in
  if exact then ret true
  else
    let* containing := select_containing value_to_select in
    if containing then ret true
    else select_by_keyboard input_field.

(** One turn of [for attempt in range(max_retries)]: [true] is the
    [return True], [false] goes on with the next attempt. *)
Definition dropdown_attempt (input_selectors : selectors)
    (value_to_select : string) : B bool :=
  try_except
    (let* input_field := wait_for_element input_selectors (Some 10) true in
     match input_field with
     | None => ret false
     | Some input_field =>
         do_act (ScrollIntoView input_field false) >>
         sleep 500 >>
         do_act (Click input_field) >>
         sleep 300 >>
         try_except
           (do_act (Clear input_field) >>
            sleep 200 >>
            do_act (SendKeys input_field CONTROL_a) >>
            sleep 100 >>
            do_act (SendKeys input_field DELETE) >>
            sleep 200)
           (bare (ret tt)) >>
         type_chars input_field value_to_select >>
         sleep 1500 >>
         let* selected := select_option input_field value_to_select in
         if selected then ret true
         else
           try_except
             (do_act (SendKeys input_field ESCAPE) >> sleep 500)
             (bare (ret tt)) >>
           ret false
     end)
    (except_Exception (λ _,
       try_except
         (let* input_field := wait_for_element input_selectors (Some 3) true in
          match input_field with
          | Some input_field => do_act (SendKeys input_field ESCAPE)
          | None => ret tt
          end)
         (bare (ret tt)) >>
       sleep 1000 >>
       ret false)).

Fixpoint dropdown_loop (remaining : nat) (input_selectors : selectors)
    (value_to_select : string) : B bool :=
  match remaining with
  | O => ret false
  | S n =>
      let* selected := dropdown_attempt input_selectors value_to_select in
      if selected then ret true
      else dropdown_loop n input_selectors value_to_select
  end.

(** [max_retries or config.DROPDOWN_RETRIES] *)
Definition retries_or_default (max_retries : option Z) : Z :=
  match max_retries with
  | None => DROPDOWN_RETRIES config
  | Some n => if n =? 0 then DROPDOWN_RETRIES config else n
  end.

Definition handle_vue_select_dropdown (input_selectors : selectors)
    (value_to_select : string) (max_retries : option Z) : B bool :=
  dropdown_loop (Z.to_nat (retries_or_default max_retries))
    input_selectors value_to_select.

(** The inner loop of [wait_for_page_load]: stop at the first overlay
    selector whose wait does not raise. *)
Fixpoint wait_overlays (sels : list string) (timeout : Z) : B unit :=
  match sels with
  | [] => ret tt
  | selector :: rest =>
      let* gone :=
        try_except (do_act (UntilInvisible selector timeout) >> ret true)
          (bare (ret false)) in
      if gone then ret tt else wait_overlays rest timeout
  end.

Definition wait_for_page_load (timeout : option Z) : B bool :=
  let timeout := timeout_or_default timeout in
  try_except
    (wait_overlays SELECTORS.loading_overlay timeout >>
     do_act (UntilReadyStateComplete timeout) >>
     sleep 1000 >>
     ret true)
    (bare (ret false)).

(** *** AutomationBot: the workflow engine

    These methods use the session only; they are written for a bot
    whose [initialize] has succeeded, as [main] guarantees before it
    calls [run_automation]. *)

(** One turn of [for attempt in range(3)] in [login]: [true] is the
    [return True], [false] every [continue]. *)
Definition login_attempt (attempt : Z) : B bool :=
  try_except
    (log INFO (MsgLoginAttempt (attempt + 1)) >>
     do_act (Get (LOGIN_URL config)) >>
     let* loaded := wait_for_page_load (Some (LONG_TIMEOUT config)) in
     if negb loaded then ret false
     else
       let* username_field :=
         wait_for_element (SelList SELECTORS.username_input) None true in
       match username_field with
       | None => ret false
       | Some username_field =>
           do_act (Clear username_field) >>
           sleep 200 >>
           do_act (SendKeys username_field (Text (USERNAME config))) >>
           sleep 300 >>
           let* password_field :=
             wait_for_element (SelList SELECTORS.password_input) None true in
           match password_field with
           | None => ret false
           | Some password_field =>
               do_act (Clear password_field) >>
               sleep 200 >>
               do_act (SendKeys password_field (Text (PASSWORD config))) >>
               sleep 300 >>
               let* login_button :=
                 wait_for_element (SelList SELECTORS.login_button) None true in
               match login_button with
               | None => ret false
               | Some login_button =>
                   let* clicked := safe_click (Located login_button) true 3 in
                   if negb clicked then ret false
                   else
                     try_except
                       (do_find (UntilPresent ID "sidebar" (LONG_TIMEOUT config)) >>
                        log INFO (Msg "Login successful") >>
                        let* current_url := do_read CurrentUrl in
                        if negb (PyStr.contains "login" (PyStr.lower current_url))
                        then ret true else ret false)
                       (bare (ret false))
               end
           end
       end)
    (except_Exception (λ _,
       (if attempt <? 2 then sleep (1000 * RETRY_DELAY config) else ret tt) >>
       ret false)).

Fixpoint login_loop (remaining : nat) (attempt : Z) : B bool :=
  match remaining with
  | O => log ERROR (Msg "All login attempts failed") >> ret false
  | S n =>
      let* ok := login_attempt attempt in
      if ok then ret true else login_loop n (attempt + 1)
  end.

Definition login : B bool :=
  if PyStr.falsy (LOGIN_URL config) || PyStr.falsy (USERNAME config)
     || PyStr.falsy (PASSWORD config)
  then log ERROR (Msg "Missing login credentials") >> ret false
  else login_loop 3 0.

(** [not element or not self.helper.safe_click(element, ..., use_js=True)] *)
Definition missing_or_unclicked (element : option Elem) : B bool :=
  match element with
  | None => ret true
  | Some element =>
      let* clicked := safe_click (Located element) true 3 in
      ret (negb clicked)
  end.

Definition navigate_to_dp_menu : B bool :=
  try_except
    (let* configuring_menu :=
       wait_for_element (SelList SELECTORS.configuring_menu) None true in
     let* bad := missing_or_unclicked configuring_menu in
     if bad then ret false
     else
       sleep 2000 >>
       let* dp_menu := wait_for_element (SelList SELECTORS.dp_menu) None true in
       let* bad := missing_or_unclicked dp_menu in
       if bad then ret false
       else
         let* loaded := wait_for_page_load (Some (LONG_TIMEOUT config)) in
         (if negb loaded then log WARNING (Msg "DP page load timeout")
          else ret tt) >>
         let* city_input :=
           wait_for_element (SelList SELECTORS.city_input) (Some 5) true in
         match city_input with
         | Some _ => log INFO (Msg "Navigated to DP page") >> ret true
         | None => ret false
         end)
    (except_Exception (λ e,
       log ERROR (MsgExn "Navigation error" e) >> ret false)).

Inductive validation_status := NO_DATA | MATCH | MISMATCH | VALIDATION_FAILED.

(** The loop over [config.SELECTORS['no_data_message']]: [true] when a
    displayed indicator was found. *)
Fixpoint no_data_displayed (sels : list string) : B bool :=
  match sels with
  | [] => ret false
  | no_data_selector :: rest =>
      let* shown :=
        try_except
          (let* no_data_elem :=
             if PyStr.startswith "//" no_data_selector
             then do_find (FindElement XPATH no_data_selector)
             else do_find (FindElement CSS_SELECTOR no_data_selector) in
           do_test (IsDisplayed no_data_elem))
          (bare (ret false)) in
      if shown then ret true else no_data_displayed rest
  end.

Definition validate_attempt (expected_kode_dp : string)
    (attempt max_attempts : Z) : B (flow (bool * validation_status) unit) :=
  try_except
    (sleep 2000 >>
     let* no_data := no_data_displayed SELECTORS.no_data_message in
     if no_data then ret (Return (false, NO_DATA))
     else
       let* result_cell :=
         wait_for_element (SelList SELECTORS.result_dp_code_cell) (Some 10) false in
       match result_cell with
       | Some result_cell =>
           let* text := do_read (GetText result_cell) in
           let result_dp_text := PyStr.strip text in
           if bool_decide (result_dp_text = expected_kode_dp)
           then ret (Return (true, MATCH))
           else ret (Return (false, MISMATCH))
       | None =>
           (if attempt <? max_attempts - 1 then sleep 1000 else ret tt) >>
           ret (Continue tt)
       end)
    (except_Exception (λ _,
       (if attempt <? max_attempts - 1 then sleep 1000 else ret tt) >>
       ret (Continue tt))).

Fixpoint validate_loop (remaining : nat) (expected_kode_dp : string)
    (attempt max_attempts : Z) : B (bool * validation_status) :=
  match remaining with
  | O => ret (false, VALIDATION_FAILED)
  | S n =>
      let* r := validate_attempt expected_kode_dp attempt max_attempts in
      match r with
      | Return v => ret v
      | Continue _ => validate_loop n expected_kode_dp (attempt + 1) max_attempts
      end
  end.

Definition validate_filter_result (expected_kode_dp : string)
    (max_attempts : Z) : B (bool * validation_status) :=
  validate_loop (Z.to_nat max_attempts) expected_kode_dp 0 max_attempts.

(** [for filter_attempt in range(3)]: [Return false] is the
    [return False] on NO_DATA, [Continue validation_passed] the end of
    the loop, by [break] or by exhaustion. *)
Fixpoint filter_loop (remaining : nat) (filter_button : Elem)
    (kode_dp_value : string) : B (flow bool bool) :=
  match remaining with
  | O => ret (Continue false)
  | S n =>
      let* clicked := safe_click (Located filter_button) true 3 in
      if negb clicked then filter_loop n filter_button kode_dp_value
      else
        wait_for_page_load None >>
        let* validation := validate_filter_result kode_dp_value 3 in
        match snd validation with
        | NO_DATA => ret (Return false)
        | MATCH => ret (Continue true)
        | MISMATCH => sleep 1000 >> filter_loop n filter_button kode_dp_value
        | VALIDATION_FAILED =>
            sleep 1000 >> filter_loop n filter_button kode_dp_value
        end
  end.

(** Lines 710-728: the ticket modal and the confirmation dialog. *)
Definition create_ticket : B bool :=
  let* create_ticket_icon :=
    wait_for_element (SelList SELECTORS.create_ticket_icon) None true in
  let* bad := missing_or_unclicked create_ticket_icon in
  if bad then ret false
  else
    wait_for_page_load None >>
    sleep 2000 >>
    let* final_create_button :=
      wait_for_element (SelList SELECTORS.final_create_button) None true in
    let* bad := missing_or_unclicked final_create_button in
    if bad then ret false
    else
      sleep 1000 >>
      let* confirm_button :=
        wait_for_element (SelList SELECTORS.confirm_create_button) None true in
      let* bad := missing_or_unclicked confirm_button in
      if bad then ret false
      else sleep 3000 >> ret true.

(** Lines 683-708, from the filter button to the end of validation;
    what follows a passed validation is [create_ticket]. *)
Definition filter_and_validate (kode_dp_value : string) : B bool :=
  let* filter_button :=
    wait_for_element (SelList SELECTORS.filter_button) None true in
  match filter_button with
  | None => ret false
  | Some filter_button =>
      let* r := filter_loop 3 filter_button kode_dp_value in
      match r with
      | Return b => ret b
      | Continue validation_passed =>
          if negb validation_passed then ret false else create_ticket
      end
  end.

Definition process_ticket_creation (city rk kode_dp_value : string) : B bool :=
  try_except
    (let* ok := handle_vue_select_dropdown (SelList SELECTORS.city_input) city None in
     if negb ok then ret false
     else
       sleep 500 >>
       let* ok := handle_vue_select_dropdown (SelList SELECTORS.rk_input) rk None in
       if negb ok then ret false
       else
         sleep 500 >>
         let* ok :=
           handle_vue_select_dropdown (SelList SELECTORS.dp_input) kode_dp_value None in
         if negb ok then ret false
         else sleep 1000 >> filter_and_validate kode_dp_value)
    (except_Exception (λ e,
       log ERROR (MsgTicketError kode_dp_value e) >> ret false)).

Definition handle_page_refresh_and_navigation : B bool :=
  try_except
    (do_act Refresh >>
     sleep (1000 * RETRY_DELAY config) >>
     wait_for_page_load (Some (LONG_TIMEOUT config)) >>
     navigate_to_dp_menu)
    (except_Exception (λ e,
       log ERROR (MsgExn "Error during refresh" e) >> ret false)).

(** [for attempt in range(config.MAX_RETRIES)] of [run_automation]:
    the value is the flag [success] after the loop. *)
Definition ticket_attempt (city rk kode_dp_value : string) (attempt : Z)
    : B (flow bool unit) :=
  try_except
    (let* created := process_ticket_creation city rk kode_dp_value in
     if created then ret (Return true)
     else if attempt <? MAX_RETRIES config - 1
     then
       log WARNING (MsgAttemptFailed (attempt + 1)) >>
       let* back := handle_page_refresh_and_navigation in
       if negb back then ret (Return false)
       else sleep (1000 * RETRY_DELAY config) >> ret (Continue tt)
     else ret (Continue tt))
    (except_Exception (λ e,
       log ERROR (MsgAttemptError (attempt + 1) e) >>
       (if attempt <? MAX_RETRIES config - 1
        then sleep (1000 * RETRY_DELAY config) else ret tt) >>
       ret (Continue tt))).

Fixpoint ticket_attempts (remaining : nat) (attempt : Z)
    (city rk kode_dp_value : string) : B bool :=
  match remaining with
  | O => ret false
  | S n =>
      let* r := ticket_attempt city rk kode_dp_value attempt in
      match r with
      | Return success => ret success
      | Continue _ => ticket_attempts n (attempt + 1) city rk kode_dp_value
      end
  end.

(** *** The bot's own state *)

(** [self.driver is not None], [self.service is not None] *)
Record WebDriverManager := MkManager {
  driver : bool;
  service : bool
}.

Record Stats := MkStats {
  successful : Z;
  failed : Z;
  skipped : Z;
  start_time : option Z;
  end_time : option Z
}.

Record Bot := MkBot {
  driver_manager : WebDriverManager;
  processed_dps : gset string;
  stats : Stats
}.

(** [AutomationBot.__init__] *)
Definition new_bot : Bot :=
  MkBot (MkManager false false) ∅ (MkStats 0 0 0 None None).

(** The monad of the methods that also change the bot. *)
Abbreviation T := (M (Bot * Env W)).

Definition lift {A} (m : B A) : T A :=
  λ s, let '(r, env) := m (snd s) in (r, (fst s, env)).

Definition get_bot : T Bot := λ s, (Ok (fst s), s).

Definition update (f : Bot → Bot) : T unit := λ s, (Ok tt, (f (fst s), snd s)).

Definition set_driver (d : bool) (b : Bot) : Bot :=
  MkBot (MkManager d (service (driver_manager b))) (processed_dps b) (stats b).

Definition set_service (v : bool) (b : Bot) : Bot :=
  MkBot (MkManager (driver (driver_manager b)) v) (processed_dps b) (stats b).

Definition set_stats (f : Stats → Stats) (b : Bot) : Bot :=
  MkBot (driver_manager b) (processed_dps b) (f (stats b)).

Definition incr_successful (s : Stats) : Stats :=
  MkStats (successful s + 1) (failed s) (skipped s) (start_time s) (end_time s).

Definition incr_failed (s : Stats) : Stats :=
  MkStats (successful s) (failed s + 1) (skipped s) (start_time s) (end_time s).

Definition incr_skipped (s : Stats) : Stats :=
  MkStats (successful s) (failed s) (skipped s + 1) (start_time s) (end_time s).

Definition set_start_time (t : Z) (s : Stats) : Stats :=
  MkStats (successful s) (failed s) (skipped s) (Some t) (end_time s).

Definition set_end_time (t : Z) (s : Stats) : Stats :=
  MkStats (successful s) (failed s) (skipped s) (start_time s) (Some t).

(** [self.processed_dps.add(code)] *)
Definition add_processed (code : string) (b : Bot) : Bot :=
  MkBot (driver_manager b) ({[code]} ∪ processed_dps b) (stats b).

(** [self.processed_dps.clear()] *)
Definition clear_processed (b : Bot) : Bot :=
  MkBot (driver_manager b) ∅ (stats b).

(** *** WebDriverManager *)

Definition manager_cleanup : T unit :=
  try_except
    (let* bot := get_bot in
     (if driver (driver_manager bot)
      then try_finally
             (try_except (lift (do_act Quit))
                (bare (try_except (lift (do_act Close)) (bare (ret tt)))))
             (update (set_driver false))
      else ret tt) >>
     let* bot := get_bot in
     if service (driver_manager bot)
     then try_finally
            (try_except (lift (do_act ServiceStop)) (bare (ret tt)))
            (update (set_service false))
     else ret tt)
    (except_Exception (λ e, lift (log WARNING (MsgExn "Error during cleanup" e)))).

Definition create_driver : T unit :=
  try_except
    (try_except
       (lift (do_act NewService) >>
        update (set_service true) >>
        lift (do_act (NewChrome true (PROXY_SERVER config))) >>
        update (set_driver true))
       (except_Exception (λ _,
          lift (do_act (NewChrome false (PROXY_SERVER config))) >>
          update (set_driver true))) >>
     lift (do_act (ImplicitlyWait 2)) >>
     lift (do_act (SetPageLoadTimeout (LONG_TIMEOUT config))) >>
     lift (do_act (SetScriptTimeout (DEFAULT_TIMEOUT config))) >>
     lift (do_act ScriptHideAutomation))
    (except_Exception (λ e,
       lift (log ERROR (MsgExn "Failed to create WebDriver" e)) >>
       manager_cleanup >>
       raise e)).

(** *** AutomationBot: lifecycle, report and run loop *)

Definition cleanup : T unit :=
  try_except
    (let* bot := get_bot in
     (match start_time (stats bot), end_time (stats bot) with
      | Some _, None =>
          let* t := lift now in update (set_stats (set_end_time t))
      | _, _ => ret tt
      end) >>
     manager_cleanup)
    (except_Exception (λ e, lift (log WARNING (MsgExn "Error during cleanup" e)))).

(** [create_driver] returns the driver object or raises, and a driver
    object is truthy: the [RuntimeError] of line 525 is never raised.
    The helper made on line 526 holds no state of its own. *)
Definition initialize : T bool :=
  try_except
    (lift (log INFO (Msg "Initializing bot...")) >>
     create_driver >>
     let* t := lift now in
     update (set_stats (set_start_time t)) >>
     lift (log INFO (Msg "Bot initialized")) >>
     ret true)
    (except_Exception (λ e,
       lift (log ERROR (MsgExn "Failed to initialize bot" e)) >>
       cleanup >>
       ret false)).

(** [duration.total_seconds()] *)
Definition total_seconds (microseconds : Z) : Q :=
  inject_Z microseconds / inject_Z 1000000.

(** [successful / new_items * 100], in exact arithmetic *)
Definition success_rate (successful new_items : Z) : Q :=
  inject_Z successful / inject_Z new_items * inject_Z 100.

(** [successful / (duration.total_seconds() / 60)], in exact arithmetic *)
Definition items_per_minute (successful microseconds : Z) : Q :=
  inject_Z successful / (total_seconds microseconds / inject_Z 60).

Definition banner : string :=
  "==================================================".

Definition generate_final_report (total_items : Z) : T unit :=
  try_except
    (let* t := lift now in
     update (set_stats (set_end_time t)) >>
     let* bot := get_bot in
     match start_time (stats bot) with
     | None => raise (Exc TypeError)
     | Some started =>
         let duration := t - started in
         lift (log INFO (Msg banner)) >>
         lift (log INFO (Msg "AUTOMATION COMPLETE")) >>
         lift (log INFO (Msg banner)) >>
         lift (log INFO (MsgDuration duration)) >>
         lift (log INFO (MsgTotals total_items (successful (stats bot))
                           (failed (stats bot)) (skipped (stats bot)))) >>
         let new_items := total_items - skipped (stats bot) in
         (if new_items >? 0
          then lift (log INFO (MsgSuccessRate
                                 (success_rate (successful (stats bot)) new_items)))
          else ret tt) >>
         (if duration >? 0
          then lift (log INFO (MsgRate
                                 (items_per_minute (successful (stats bot)) duration)))
          else ret tt) >>
         lift (log INFO (Msg banner))
     end)
    (except_Exception (λ e, lift (log ERROR (MsgExn "Error generating report" e)))).

(** The body of the [try] inside the item loop, lines 799-842; a
    [continue] is the normal end of the body. *)
Definition process_item (master_data : gmap string DataManager.master_entry)
    (index total_items : Z) (kode_dp_value : string) : T unit :=
  let* bot := get_bot in
  if bool_decide (kode_dp_value ∈ processed_dps bot)
  then
    lift (log INFO (MsgSkipProcessed index total_items kode_dp_value)) >>
    update (set_stats incr_skipped)
  else
    match master_data !! kode_dp_value with
    | None =>
        lift (log WARNING (MsgSkipNotInMaster index total_items kode_dp_value)) >>
        update (set_stats incr_skipped)
    | Some data =>
        let city := DataManager.City data in
        let rk := DataManager.RK data in
        lift (log INFO (MsgProcessing index total_items kode_dp_value)) >>
        let* success :=
          lift (ticket_attempts (Z.to_nat (MAX_RETRIES config)) 0
                  city rk kode_dp_value) in
        (if success
         then update (add_processed kode_dp_value) >>
              update (set_stats incr_successful) >>
              lift (log INFO (MsgSuccess kode_dp_value))
         else update (set_stats incr_failed) >>
              lift (log ERROR (MsgFailed kode_dp_value))) >>
        lift (sleep 1000)
    end.

(** One turn of the item loop with its two handlers: [false] is the
    [break] on [KeyboardInterrupt]. *)
Definition item_turn (master_data : gmap string DataManager.master_entry)
    (index total_items : Z) (kode_dp_value : string) : T bool :=
  try_except
    (process_item master_data index total_items kode_dp_value >> ret true)
    (λ e, match e with
          | KeyboardInterrupt =>
              Some (lift (log INFO (Msg "Process interrupted by user")) >>
                    ret false)
          | Exc _ =>
              Some (lift (log ERROR (MsgErrorProcessing kode_dp_value e)) >>
                    update (set_stats incr_failed) >>
                    ret true)
          | SystemExit _ => None
          end).

(** [for index, kode_dp_value in enumerate(kode_dp_list, 1)] *)
Fixpoint item_loop (master_data : gmap string DataManager.master_entry)
    (index total_items : Z) (codes : list string) : T unit :=
  match codes with
  | [] => ret tt
  | kode_dp_value :: rest =>
      let* go_on := item_turn master_data index total_items kode_dp_value in
      if go_on then item_loop master_data (index + 1) total_items rest
      else ret tt
  end.

(** The two loaders as [run_automation] calls them: the file contents
    found on disk are arguments, the loaders' log lines are kept. *)
Definition load_master_data (file : option DataManager.csv_file)
    : B (option (gmap string DataManager.master_entry)) :=
  match DataManager.load_master_data file with
  | Some master_data =>
      log INFO (MsgMasterLoaded (Z.of_nat (size master_data))) >>
      ret (Some master_data)
  | None => log ERROR (Msg "Error loading master data") >> ret None
  end.

Definition read_daily_input (file : option (list string)) : B (list string) :=
  match file with
  | Some _ =>
      let kode_dp_list := DataManager.read_daily_input file in
      log INFO (MsgDailyLoaded (Z.of_nat (length kode_dp_list))) >>
      ret kode_dp_list
  | None => log ERROR (Msg "Error reading daily input") >> ret []
  end.

Definition run_automation (master_file : option DataManager.csv_file)
    (daily_file : option (list string)) : T bool :=
  try_finally
    (try_except
       (lift (log INFO (Msg "STARTING DP AUTOMATION BY SETIYO_ARYO")) >>
        let* master_data := lift (load_master_data master_file) in
        match master_data with
        | None => lift (log ERROR (Msg "Failed to load master data")) >> ret false
        | Some master_data =>
            let* kode_dp_list := lift (read_daily_input daily_file) in
            match kode_dp_list with
            | [] => lift (log ERROR (Msg "No input data found")) >> ret false
            | _ =>
                let* logged_in := lift login in
                if negb logged_in
                then lift (log ERROR (Msg "Login failed")) >> ret false
                else
                  let* there := lift navigate_to_dp_menu in
                  if negb there
                  then lift (log ERROR (Msg "Navigation failed")) >> ret false
                  else
                    update clear_processed >>
                    let total_items := Z.of_nat (length kode_dp_list) in
                    lift (log INFO (MsgProcessingItems total_items)) >>
                    item_loop master_data 1 total_items kode_dp_list >>
                    generate_final_report total_items >>
                    ret true
            end
        end)
       (except_Exception (λ e,
          lift (log ERROR (MsgExn "Automation error" e)) >> ret false)))
    cleanup.

(** [signal.signal(SIGINT, signal_handler)] *)
Definition install_signal_handler : T unit :=
  λ s, (Ok tt, (fst s, MkEnv (world (snd s)) (trace (snd s)) (logs (snd s)) true)).

(** [main()]; the bot is created inside, so the start state carries
    [new_bot]. *)
Definition main (master_file : option DataManager.csv_file)
    (daily_file : option (list string)) : T bool :=
  install_signal_handler >>
  lift (log INFO (Msg "DP Automation Bot Starting")) >>
  update (λ _, new_bot) >>
  try_finally
    (try_except
       (let* ready := initialize in
        if negb ready
        then lift (log ERROR (Msg "Initialization failed")) >> ret false
        else run_automation master_file daily_file)
       (λ e, match e with
             | KeyboardInterrupt =>
                 Some (lift (log INFO (Msg "Process interrupted")) >> ret false)
             | Exc _ =>
                 Some (lift (log ERROR (MsgExn "Main execution error" e)) >>
                       ret false)
             | SystemExit _ => None
             end))
    cleanup.

End Program.

Arguments Return {R C} r.
Arguments Continue {R C} c.

(** The process as the operating system sees it: [main] from a fresh
    environment, and the exit status of the [__main__] block. *)
Definition start {W} (w : W) : Bot * Env W :=
  (new_bot, MkEnv w [] [] false).

Definition exit_status (r : res bool) : Z :=
  match r with
  | Ok success => if success then 0 else 1
  | Raise (Exc _) => 1
  | Raise (SystemExit code) => code
  | Raise KeyboardInterrupt => 130
  end.

(** ** A simulated browser

    A page that does not change: which selectors locate which element,
    which elements are hidden, disabled or refuse clicks, the text of
    each element, and the options a searchable dropdown shows.  Time
    advances while the process sleeps; an interrupt signal reaches the
    process during every sleep [interrupt_during] selects. *)

Module Sim.

Record Page := MkPage {
  located : list (string * Elem);
  hidden : list Elem;
  disabled : list Elem;
  unclickable : list Elem;
  text_of : list (Elem * string);
  options : list (Elem * string);
  url : string
}.

Record World := MkWorld {
  page : Page;
  now_us : Z;
  interrupt_during : Z → bool
}.

Fixpoint assoc {A} (k : string) (l : list (string * A)) : option A :=
  match l with
  | [] => None
  | (k', v) :: rest => if String.eqb k k' then Some v else assoc k rest
  end.

Fixpoint text_lookup (e : Elem) (l : list (Elem * string)) : string :=
  match l with
  | [] => ""
  | (e', t) :: rest => if Nat.eqb e e' then t else text_lookup e rest
  end.

Definition mem (e : Elem) (l : list Elem) : bool := existsb (Nat.eqb e) l.

(** [s] without the prefix [p] *)
Fixpoint drop_prefix (p s : string) : option string :=
  match p, s with
  | EmptyString, _ => Some s
  | String a p', String b s' => if Ascii.eqb a b then drop_prefix p' s' else None
  | String _ _, EmptyString => None
  end.

(** [s] without the suffix [q] *)
Fixpoint drop_suffix (q s : string) : option string :=
  if String.eqb s q then Some ""
  else match s with
       | EmptyString => None
       | String c r =>
           match drop_suffix q r with
           | Some t => Some (String c t)
           | None => None
           end
       end.

Definition quote_free (s : string) : bool := negb (PyStr.contains "'" s).

(** The literal [v] of a selector [before ++ v ++ after], when [v]
    holds no quote (with one, the XPath would not be this query). *)
Definition literal_between (before after sel : string) : option string :=
  match drop_prefix before sel with
  | None => None
  | Some rest =>
      match drop_suffix after rest with
      | Some v => if quote_free v then Some v else None
      | None => None
      end
  end.

Definition xpath_space (c : ascii) : bool :=
  let n := nat_of_ascii c in
  ((n =? 32) || (n =? 9) || (n =? 10) || (n =? 13))%nat.

(** XPath [normalize-space()] of an already left-trimmed tail;
    [pending] says a run of white space is waiting to become one space. *)
Fixpoint squeeze (pending : bool) (s : string) : string :=
  match s with
  | EmptyString => EmptyString
  | String c r =>
      if xpath_space c then squeeze true r
      else if pending then String " " (String c (squeeze false r))
           else String c (squeeze false r)
  end.

Fixpoint skip_spaces (s : string) : string :=
  match s with
  | EmptyString => EmptyString
  | String c r => if xpath_space c then skip_spaces r else s
  end.

Definition normalize_space (s : string) : string := squeeze false (skip_spaces s).

(** The first option, in document order, that the query selects. *)
Definition first_option (keep : string → bool) (opts : list (Elem * string))
    : option Elem :=
  match filter (λ o, keep (normalize_space (snd o)) = true) opts with
  | [] => None
  | o :: _ => Some (fst o)
  end.

Definition exact_prefix : string :=
  "//ul[contains(@class, 'vs__dropdown-menu')]//li[normalize-space()='".

Definition contains_prefix : string :=
  "//ul[contains(@class, 'vs__dropdown-menu')]//li[contains(normalize-space(), '".

(** What a selector locates on the page. *)
Definition locate (p : Page) (selector : string) : option Elem :=
  match literal_between exact_prefix "']" selector with
  | Some v => first_option (String.eqb v) (options p)
  | None =>
      match literal_between contains_prefix "')]" selector with
      | Some v => first_option (PyStr.contains v) (options p)
      | None => assoc selector (located p)
      end
  end.

Definition on_find (p : Page) (c : find_cmd) : answer Elem :=
  match c with
  | UntilPresent _ selector _ =>
      match locate p selector with
      | Some e => Returns e
      | None => Throws TimeoutException
      end
  | UntilClickable _ selector _ =>
      match locate p selector with
      | Some e =>
          if mem e (hidden p) || mem e (disabled p)
          then Throws TimeoutException else Returns e
      | None => Throws TimeoutException
      end
  | FindElement _ selector =>
      match locate p selector with
      | Some e => Returns e
      | None => Throws NoSuchElementException
      end
  end.

Definition on_test (p : Page) (c : test_cmd) : answer bool :=
  match c with
  | IsDisplayed e => Returns (negb (mem e (hidden p)))
  | IsEnabled e => Returns (negb (mem e (disabled p)))
  end.

Definition on_read (p : Page) (c : read_cmd) : answer string :=
  match c with
  | GetText e => Returns (text_lookup e (text_of p))
  | CurrentUrl => Returns (url p)
  end.

Definition on_act (p : Page) (c : act_cmd) : answer unit :=
  match c with
  | ScriptClick e | Click e =>
      if mem e (unclickable p) then Throws WebDriverException else Returns tt
  | _ => Returns tt
  end.

#[global] Instance driver : Driver World := {
  find c w := (on_find (page w) c, w);
  test c w := (on_test (page w) c, w);
  read c w := (on_read (page w) c, w);
  act c w := (on_act (page w) c, w);
  sleeping ms w :=
    (interrupt_during w ms,
     MkWorld (page w) (now_us w + 1000 * ms) (interrupt_during w));
  clock w := (now_us w, w)
}.

(** A world whose page is part of its type: whatever the program does,
    the page stays [p].  No interrupt reaches the process. *)
Record Still (p : Page) := MkStill { still_now : Z }.
Arguments MkStill {p}.
Arguments still_now {p}.

#[global] Instance still_driver (p : Page) : Driver (Still p) := {
  find c w := (on_find p c, w);
  test c w := (on_test p c, w);
  read c w := (on_read p c, w);
  act c w := (on_act p c, w);
  sleeping ms w := (false, MkStill (still_now w + 1000 * ms));
  clock w := (still_now w, w)
}.

Definition default_config : Config :=
  MkConfig "user" "secret" "https://dp.example/login" None 15 5 30 3 2 3.

Definition never : Z → bool := λ _, false.

Local Open Scope nat_scope.

(** The DP page after a filter that found the row [row_text]: menus,
    the three dropdown inputs, the filter button, the first row's code
    cell (element 20), the row action, the modal and the dialog. *)
Definition dp_page (row_text : string) (opts : list (Elem * string)) : Page :=
  MkPage
    [("input[type='text']", 1); ("input[type='password']", 2);
     ("button[type='submit']", 3); ("sidebar", 4);
     ("a[href*='configuring']", 5); ("a[href*='dp']", 6);
     (".vs__search", 7); ("[id*='vs2'] input", 8); ("[id*='vs3'] input", 9);
     (".btn-primary", 10);
     ("tbody tr:first-child td:nth-child(2)", 20);
     (".btn-success", 21); (".v--modal .btn", 22); (".swal2-confirm", 23)]
    [] [] []
    [(20, row_text)]
    opts
    "https://dp.example/home".

(** The same page with the "no data" cell (element 30) shown. *)
Definition no_data_page (row_text : string) : Page :=
  let p := dp_page row_text [] in
  MkPage ((".dataTables_empty", 30) :: located p) (hidden p) (disabled p)
    (unclickable p) (text_of p) (options p) (url p).

(** The DP page before any filter ran: no filter button, no table. *)
Definition bare_page : Page :=
  MkPage
    [("input[type='text']", 1); ("input[type='password']", 2);
     ("button[type='submit']", 3); ("sidebar", 4);
     ("a[href*='configuring']", 5); ("a[href*='dp']", 6);
     (".vs__search", 7); ("[id*='vs2'] input", 8); ("[id*='vs3'] input", 9)]
    [] [] [] [] [] "https://dp.example/home".

(** A dropdown input (element 7) with its option list rendered. *)
Definition dropdown_page (opts : list (Elem * string)) : Page :=
  MkPage [(".vs__search", 7)] [] [] [] [] opts "https://dp.example/home".

(** Two candidates, the first one hidden. *)
Definition hidden_first_page : Page :=
  MkPage [("#a", 1); ("#b", 2)] [1] [] [] [] [] "https://dp.example/home".

Local Close Scope nat_scope.

Definition world_of (p : Page) : World := MkWorld p 0 never.

(** The same world with an interrupt signal arriving while the process
    sleeps 1.5 s: the wait for the option list of a dropdown, which
    only the processing of an item reaches. *)
Definition interrupted_world_of (p : Page) : World := MkWorld p 0 (Z.eqb 1500).

Definition env_of (p : Page) : Env World := MkEnv (world_of p) [] [] false.

(** The lookup table and the daily list of the end-to-end scenario. *)
Definition row (code city rk : string) : DataManager.csv_row :=
  {[ "Kode_DP" := Some code; "City" := Some city; "RK" := Some rk ]}.

Definition master_file : DataManager.csv_file :=
  DataManager.CsvFile ["Kode_DP"; "City"; "RK"]
    [row "DP001" "X" "Y"; row "DP002" "Z" "W"].

Definition daily_file : list string := ["DP001"; "DP003"; "DP001"].

End Sim.


(** ** Definitions that follow the specification's words *)

Module Spec.

(** "blank lines and lines starting with # ignored": what is left of a
    line once trimmed is a code. *)
Definition is_code (c : string) : bool :=
  negb (PyStr.falsy c) && negb (PyStr.startswith "#" c).

Definition codes_of (lines : list string) : list string :=
  filter (λ c, is_code c = true) (map PyStr.strip lines).

(** "duplicates collapsed keeping first occurrence and original order
    otherwise preserved" *)
Fixpoint first_occurrences (l : list string) : list string :=
  match l with
  | [] => []
  | x :: r => x :: filter (λ y, y ≠ x) (first_occurrences r)
  end.

(** A cell "after trimming"; a cell the row does not have is blank. *)
Definition trimmed (row : DataManager.csv_row) (k : string) : string :=
  match row !! k with
  | Some (Some s) => PyStr.strip s
  | _ => ""
  end.

(** "any of {code, city, region} blank after trimming" *)
Definition incomplete (row : DataManager.csv_row) : Prop :=
  trimmed row "Kode_DP" = "" ∨ trimmed row "City" = "" ∨ trimmed row "RK" = "".

(** The row has all three columns (no [KeyError]). *)
Definition has_columns (row : DataManager.csv_row) : Prop :=
  is_Some (row !! "Kode_DP") ∧ is_Some (row !! "City") ∧ is_Some (row !! "RK").

Definition entry_of (row : DataManager.csv_row) (row_num : Z)
    : DataManager.master_entry :=
  DataManager.MasterEntry (trimmed row "City") (trimmed row "RK") row_num.

#[global] Instance incomplete_dec row : Decision (incomplete row).
Proof. unfold incomplete. apply _. Defined.

(** "each row with any required field blank is silently skipped;
    duplicate ticket-codes: last occurrence wins": the entry of code
    [k] is read off the last complete row that carries [k]; rows are
    numbered from [row_num]. *)
Fixpoint last_complete (k : string) (row_num : Z)
    (rows : list DataManager.csv_row) : option DataManager.master_entry :=
  match rows with
  | [] => None
  | row :: rest =>
      match last_complete k (row_num + 1) rest with
      | Some e => Some e
      | None =>
          if decide (¬ incomplete row ∧ trimmed row "Kode_DP" = k)
          then Some (entry_of row row_num) else None
      end
  end.

End Spec.

(** ** What a run shows to the outside

    The commands a call sent to the browser and the lines it logged. *)

Definition new_logs {W} (before after : Env W) : list (level * message) :=
  drop (length (logs before)) (logs after).

Definition new_trace {W} (before after : Env W) : list event :=
  drop (length (trace before)) (trace after).

(** [m] adds only events that satisfy [P] to the trace. *)
Definition emits {W A} (P : event → Prop) (m : M (Env W) A) : Prop :=
  ∀ env, ∃ tr, trace (snd (m env)) = (trace env ++ tr)%list ∧ Forall P tr.

(** [m] always sends a command: the first event it adds satisfies
    [Q], the later ones [P]. *)
Definition opens_with {W A} (Q P : event → Prop) (m : M (Env W) A) : Prop :=
  ∀ env, ∃ ev rest,
    trace (snd (m env)) = (trace env ++ ev :: rest)%list ∧ Q ev ∧ Forall P rest.

(** The commands of a click: scroll into view, native or script click. *)
Definition is_click (ev : event) : Prop :=
  match ev with
  | EAct (ScrollIntoView _ _) _ | EAct (ScriptClick _) _ | EAct (Click _) _ => True
  | _ => False
  end.

Definition is_test (ev : event) : Prop :=
  match ev with ETest _ _ => True | _ => False end.

(** The codes the log reports as skipped, by reason, and the totals
    lines of the final report. *)
Definition skipped_as_processed (lg : list (level * message)) : list string :=
  omap (λ line, match snd line with
                | MsgSkipProcessed _ _ code => Some code
                | _ => None
                end) lg.

Definition skipped_as_missing (lg : list (level * message)) : list string :=
  omap (λ line, match snd line with
                | MsgSkipNotInMaster _ _ code => Some code
                | _ => None
                end) lg.

Definition reported_totals (lg : list (level * message)) : list (Z * Z * Z * Z) :=
  omap (λ line, match snd line with
                | MsgTotals total s f k => Some (total, s, f, k)
                | _ => None
                end) lg.

(** Has the trace a [quit()] the browser answered? *)
Definition quit_sent (tr : list event) : bool :=
  existsb (λ ev, match ev with EAct Quit (Returns _) => true | _ => false end) tr.

Module Locator.

(** The wait [wait_for_element] sends for one candidate. *)
Definition wait_cmd (selector : string) (timeout : Z) (clickable : bool)
    : find_cmd :=
  if clickable then UntilClickable (by_of selector) selector timeout
  else UntilPresent (by_of selector) selector timeout.

(** The exchange with the browser about one candidate, and what it
    yields: the element when the wait answered with it and the element
    then reported itself displayed and enabled; nothing when the wait
    or either test answered anything else. *)
Inductive candidate (c : find_cmd) : list event → option Elem → Prop :=
| wait_failed a :
    (∀ e, a ≠ Returns e) →
    candidate c [EFind c a] None
| not_displayed e a :
    a ≠ Returns true →
    candidate c [EFind c (Returns e); ETest (IsDisplayed e) a] None
| not_enabled e a :
    a ≠ Returns true →
    candidate c [EFind c (Returns e); ETest (IsDisplayed e) (Returns true);
                 ETest (IsEnabled e) a] None
| usable e :
    candidate c [EFind c (Returns e); ETest (IsDisplayed e) (Returns true);
                 ETest (IsEnabled e) (Returns true)] (Some e).

(** Candidates in declared order: every candidate before the one that
    yields the element was tried and yielded nothing; with no candidate
    left the result is "not found". *)
Inductive in_order (timeout : Z) (clickable : bool)
    : list string → list event → option Elem → Prop :=
| not_found : in_order timeout clickable [] [] None
| found selector rest seg e :
    candidate (wait_cmd selector timeout clickable) seg (Some e) →
    in_order timeout clickable (selector :: rest) seg (Some e)
| next selector rest seg tr r :
    candidate (wait_cmd selector timeout clickable) seg None →
    in_order timeout clickable rest tr r →
    in_order timeout clickable (selector :: rest) (seg ++ tr) r.

(** The reading of the claim for [clickable = False]: presence alone. *)
Inductive present_in_order (timeout : Z)
    : list string → list event → option Elem → Prop :=
| present_not_found : present_in_order timeout [] [] None
| present_found selector rest e :
    present_in_order timeout (selector :: rest)
      [EFind (UntilPresent (by_of selector) selector timeout) (Returns e)] (Some e)
| present_next selector rest a tr r :
    (∀ e, a ≠ Returns e) →
    present_in_order timeout rest tr r →
    present_in_order timeout (selector :: rest)
      (EFind (UntilPresent (by_of selector) selector timeout) a :: tr) r.

End Locator.

Module Dropdown.

Inductive strategy := Exact | Containing | Keyboard.

(** The command that opens each strategy of the dropdown driver: the
    wait on the exact-text query, the wait on the substring query, the
    arrow-down key sent to the input. *)
Definition strategy_of (input_field : Elem) (value : string) (ev : event)
    : option strategy :=
  match ev with
  | EFind (UntilClickable XPATH selector timeout) _ =>
      if String.eqb selector (exact_match_xpath value) && (timeout =? 5)
      then Some Exact
      else if String.eqb selector (contains_xpath value) && (timeout =? 3)
      then Some Containing
      else None
  | EAct (SendKeys e ARROW_DOWN) _ =>
      if Nat.eqb e input_field then Some Keyboard else None
  | _ => None
  end.

(** The strategies a trace shows, in the order they were opened. *)
Definition attempted (input_field : Elem) (value : string) (tr : list event)
    : list strategy :=
  omap (strategy_of input_field value) tr.

(** The elements a trace shows being clicked, natively or by script. *)
Definition clicked (tr : list event) : list Elem :=
  omap (λ ev, match ev with
              | EAct (Click e) (Returns _) | EAct (ScriptClick e) (Returns _) =>
                  Some e
              | _ => None
              end) tr.

End Dropdown.

(** The waits and tests of the element locator. *)
Definition is_locating (ev : event) : Prop :=
  match ev with
  | EFind (UntilPresent _ _ _) _ | EFind (UntilClickable _ _ _) _ | ETest _ _ => True
  | _ => False
  end.

(** The waits of [wait_for_page_load]. *)
Definition is_settling (ev : event) : Prop :=
  match ev with
  | EAct (UntilInvisible _ _) _ | EAct (UntilReadyStateComplete _) _ => True
  | _ => False
  end.

Module Validation.

(** The verdicts a trace shows, in order.  A verdict is read off the
    browser's answers alone: the text of a cell that was read gives
    MATCH or MISMATCH (compared after trimming, as the code does); an
    element just located by [find_element] that reports itself
    displayed is a "no data" indicator.  [pending] is the element the
    previous command located that way, if any. *)
Fixpoint verdicts (expected : string) (pending : option Elem)
    (tr : list event) : list validation_status :=
  match tr with
  | [] => []
  | EFind (FindElement _ _) (Returns e) :: rest => verdicts expected (Some e) rest
  | ETest (IsDisplayed e) (Returns true) :: rest =>
      if decide (pending = Some e)
      then NO_DATA :: verdicts expected None rest
      else verdicts expected None rest
  | ERead (GetText _) (Returns text) :: rest =>
      (if decide (PyStr.strip text = expected) then MATCH else MISMATCH)
      :: verdicts expected None rest
  | _ :: rest => verdicts expected None rest
  end.

(** The reading of the claim: the cell text compared as it is. *)
Fixpoint untrimmed_verdicts (expected : string) (pending : option Elem)
    (tr : list event) : list validation_status :=
  match tr with
  | [] => []
  | EFind (FindElement _ _) (Returns e) :: rest =>
      untrimmed_verdicts expected (Some e) rest
  | ETest (IsDisplayed e) (Returns true) :: rest =>
      if decide (pending = Some e)
      then NO_DATA :: untrimmed_verdicts expected None rest
      else untrimmed_verdicts expected None rest
  | ERead (GetText _) (Returns text) :: rest =>
      (if decide (text = expected) then MATCH else MISMATCH)
      :: untrimmed_verdicts expected None rest
  | _ :: rest => untrimmed_verdicts expected None rest
  end.

(** Events that carry no verdict and leave nothing pending. *)
Definition quiet (ev : event) : Prop :=
  match ev with
  | EFind (FindElement _ _) (Returns _) => False
  | ERead (GetText _) (Returns _) => False
  | _ => True
  end.

(** A stretch of trace that shows exactly the verdicts [vs], wherever
    it stands after a stretch that left nothing pending. *)
Definition yields (expected : string) (vs : list validation_status)
    (tr : list event) : Prop :=
  ∀ rest, verdicts expected None (tr ++ rest)
          = (vs ++ verdicts expected None rest)%list.

(** What the trace of a validation shows when it ends with the pair
    [(b, st)]. *)
Definition settled (expected : string) (tr : list event) (b : bool)
    (st : validation_status) : Prop :=
  match st with
  | NO_DATA =>
      b = false ∧ yields expected [NO_DATA] tr
      ∧ ∃ pre e, tr = (pre ++ [ETest (IsDisplayed e) (Returns true)])%list
  | MATCH =>
      b = true ∧ yields expected [MATCH] tr
      ∧ ∃ pre cell text,
          tr = (pre ++ [ERead (GetText cell) (Returns text)])%list
          ∧ PyStr.strip text = expected
  | MISMATCH => b = false ∧ yields expected [MISMATCH] tr
  | VALIDATION_FAILED => b = false ∧ yields expected [] tr
  end.

(** How the filter stage may end, with [mismatches] earlier turns
    that read a different code:
    - [Return false]: a displayed "no data" indicator, the last thing
      the stage looked at;
    - [Continue true]: a matching cell, the last thing it read;
    - [Continue false]: no conclusive verdict in any turn. *)
Definition stage_outcome (expected : string) (turns : nat) (tr : list event)
    (r : res (flow bool bool)) : Prop :=
  ∃ mismatches : nat,
    (mismatches ≤ turns)%nat ∧
    match r with
    | Ok (Return false) =>
        (mismatches < turns)%nat
        ∧ verdicts expected None tr = (replicate mismatches MISMATCH ++ [NO_DATA])%list
        ∧ ∃ e, last tr = Some (ETest (IsDisplayed e) (Returns true))
    | Ok (Continue true) =>
        (mismatches < turns)%nat
        ∧ verdicts expected None tr = (replicate mismatches MISMATCH ++ [MATCH])%list
        ∧ ∃ cell text, last tr = Some (ERead (GetText cell) (Returns text))
                       ∧ PyStr.strip text = expected
    | Ok (Continue false) =>
        verdicts expected None tr = replicate mismatches MISMATCH
    | Ok (Return true) => False
    | Raise e =>
        is_Exception e = false
        ∧ verdicts expected None tr = replicate mismatches MISMATCH
    end.

(** How many times [button] was clicked by script. *)
Definition script_clicks (button : Elem) (tr : list event) : nat :=
  length (omap (λ ev, match ev with
                      | EAct (ScriptClick e) _ =>
                          if Nat.eqb e button then Some e else None
                      | _ => None
                      end) tr).

End Validation.

Module Ledger.

(** The three counters of RunStatistics. *)
Inductive counter := Successful | Failed | Skipped.

#[global] Instance counter_eq_dec : EqDecision counter.
Proof. solve_decision. Defined.

(** What one turn of the item loop books for its code: one counter,
    or nothing when the turn was interrupted before it counted. *)
Definition book (code : string) (entry : option counter) (bot : Bot) : Bot :=
  match entry with
  | Some Successful => set_stats incr_successful (add_processed code bot)
  | Some Failed => set_stats incr_failed bot
  | Some Skipped => set_stats incr_skipped bot
  | None => bot
  end.

(** A ledger lists the codes that were counted, each with its counter,
    in the order of their turns. *)
Fixpoint book_all (ledger : list (string * counter)) (bot : Bot) : Bot :=
  match ledger with
  | [] => bot
  | (code, c) :: rest => book_all rest (book code (Some c) bot)
  end.

Definition tally (c : counter) (ledger : list (string * counter)) : Z :=
  Z.of_nat (length (filter (λ entry, entry.2 = c) ledger)).

Definition booked_as (c : counter) (ledger : list (string * counter))
    : list string :=
  (filter (λ entry, entry.2 = c) ledger).*1.

(** "skip if already in ProcessedSet for this run, or if absent from
    LookupEntry keys; otherwise run the Workflow Engine": what each
    entry of a ledger must be, given the set processed before it. *)
Fixpoint ledger_ok (master_data : gmap string DataManager.master_entry)
    (processed : gset string) (ledger : list (string * counter)) : Prop :=
  match ledger with
  | [] => True
  | (code, Skipped) :: rest =>
      (code ∈ processed ∨ master_data !! code = None)
      ∧ ledger_ok master_data processed rest
  | (code, Successful) :: rest =>
      (code ∉ processed) ∧ is_Some (master_data !! code)
      ∧ ledger_ok master_data ({[code]} ∪ processed) rest
  | (code, Failed) :: rest =>
      (code ∉ processed) ∧ is_Some (master_data !! code)
      ∧ ledger_ok master_data processed rest
  end.

(** The processed set and the three counters are the same. *)
Definition same_books (bot bot' : Bot) : Prop :=
  processed_dps bot' = processed_dps bot
  ∧ successful (stats bot') = successful (stats bot)
  ∧ failed (stats bot') = failed (stats bot)
  ∧ skipped (stats bot') = skipped (stats bot).

(** A bot whose books are blank, as [__init__] makes them; the session
    and the clock fields are whatever [initialize] left. *)
Definition blank_bot (manager : WebDriverManager) (started ended : option Z)
    : Bot :=
  MkBot manager ∅ (MkStats 0 0 0 started ended).

(** [m] leaves the books alone. *)
Definition keeps {W A} (m : M (Bot * Env W) A) : Prop :=
  ∀ s, same_books (fst s) (fst (snd (m s))).

End Ledger.

(** ** Further properties of a run *)

(** With [signal_handler] installed ([installed] reads the flag off
    the state), [m] leaves it installed and never ends with
    [KeyboardInterrupt]; a [SystemExit] it ends with carries status 0. *)
Definition under_handler {S A} (installed : S → bool) (m : M S A) : Prop :=
  ∀ s, installed s = true →
    installed (snd (m s)) = true
    ∧ match fst (m s) with
      | Raise KeyboardInterrupt => False
      | Raise (SystemExit code) => code = 0
      | _ => True
      end.

(** The flag as the bot's methods see it. *)
Definition bot_handler_installed {W} (s : Bot * Env W) : bool :=
  handler_installed (snd s).

(** When [m] returns a value that satisfies [want], the last event it
    added to the trace satisfies [good]. *)
Definition ends_with {W A} (want : A → Prop) (good : event → Prop)
    (m : M (Env W) A) : Prop :=
  ∀ env, ∃ tr,
    trace (snd (m env)) = (trace env ++ tr)%list
    ∧ ∀ a, fst (m env) = Ok a → want a → ∃ ev, last tr = Some ev ∧ good ev.

(** How many events of a trace [f] selects. *)
Definition count (f : event → bool) (tr : list event) : nat :=
  length (List.filter f tr).

(** [m] adds at most [n] events that [f] selects. *)
Definition at_most {W A} (f : event → bool) (n : nat) (m : M (Env W) A) : Prop :=
  ∀ env, ∃ tr,
    trace (snd (m env)) = (trace env ++ tr)%list ∧ (count f tr ≤ n)%nat.

(** The events of the helper layer below the validation: every action,
    every test, and the two explicit waits for an element. *)
Definition is_helper (ev : event) : Prop :=
  match ev with
  | EAct _ _ | ETest _ _ => True
  | EFind (UntilPresent _ _ _) _ | EFind (UntilClickable _ _ _) _ => True
  | _ => False
  end.

(** A click the browser accepted, native or by script, on [e]. *)
Definition accepted_click (e : Elem) (ev : event) : Prop :=
  ev = EAct (ScriptClick e) (Returns tt) ∨ ev = EAct (Click e) (Returns tt).

Definition is_native_click (ev : event) : bool :=
  match ev with EAct (Click _) _ => true | _ => false end.

Definition is_scroll (ev : event) : bool :=
  match ev with EAct (ScrollIntoView _ _) _ => true | _ => false end.

Definition is_overlay_wait (ev : event) : bool :=
  match ev with EAct (UntilInvisible _ _) _ => true | _ => false end.

(** Any command that loads a page: [get] or [refresh]. *)
Definition is_page_load (ev : event) : bool :=
  match ev with EAct (Get _) _ | EAct Refresh _ => true | _ => false end.

(** [m] is never ended by an exception of the [Exception] family: it
    returns, or an interrupt ends it. *)
Definition only_interrupts {S A} (m : M S A) : Prop :=
  ∀ s x, fst (m s) ≠ Raise (Exc x).

(** [m] returns, whatever happens. *)
Definition never_raises {S A} (m : M S A) : Prop :=
  ∀ s, ∃ a, fst (m s) = Ok a.

(** The element a click on [target] may go to: the located element
    itself, or whatever the selectors resolve to. *)
Definition click_goes_to (target : click_target) (e : Elem) : Prop :=
  match target with Located o => e = o | BySelectors _ => True end.

(** The read of [current_url] that lets [login] report success: the
    URL, in lower case, does not contain "login". *)
Definition left_login_page (ev : event) : Prop :=
  ∃ u, ev = ERead CurrentUrl (Returns u)
       ∧ PyStr.contains "login" (PyStr.lower u) = false.

(** Page loads go to [url] only. *)
Definition loads_only (url : string) (ev : event) : Prop :=
  is_page_load ev = true → ∃ a, ev = EAct (Get url) a.

(** A script click the browser accepted. *)
Definition accepted_script_click (ev : event) : Prop :=
  ∃ e, ev = EAct (ScriptClick e) (Returns tt).

(** What the trace of a call that returned [True] must show about the
    filter result: a matching code cell, read after fewer than three
    mismatching ones and nothing else that carries a verdict. *)
Definition matched {W} (code : string) (m : M (Env W) bool) : Prop :=
  ∀ env, ∃ tr,
    trace (snd (m env)) = (trace env ++ tr)%list
    ∧ (fst (m env) = Ok true →
       ∃ k : nat, (k < 3)%nat
         ∧ Validation.yields code (replicate k MISMATCH ++ [MATCH]) tr).

(** The commands [WebDriverManager.cleanup] sends for a manager that
    holds a driver ([d]) and a service ([s]): [quit()], then [close()]
    only when [quit()] did not answer, then [stop()] for the service. *)
Inductive teardown : bool → bool → list event → Prop :=
| teardown_nothing : teardown false false []
| teardown_stop c : teardown false true [EAct ServiceStop c]
| teardown_quit s rest :
    teardown false s rest →
    teardown true s (EAct Quit (Returns tt) :: rest)
| teardown_close a b s rest :
    a ≠ Returns tt →
    teardown false s rest →
    teardown true s (EAct Quit a :: EAct Close b :: rest).

(** [m] only appends to the list [proj] reads off the state (the
    trace, the log), and what it appends satisfies [P]. *)
Definition appends {S A X} (proj : S → list X) (P : X → Prop) (m : M S A) : Prop :=
  ∀ s, ∃ l, proj (snd (m s)) = (proj s ++ l)%list ∧ Forall P l.

(** The log and the trace as the bot's methods see them. *)
Definition bot_logs {W} (s : Bot * Env W) : list (level * message) := logs (snd s).
Definition bot_trace {W} (s : Bot * Env W) : list event := trace (snd s).

(** The line [signal_handler] logs. *)
Definition interrupt_line : level * message :=
  (INFO, Msg "Received interrupt signal, cleaning up...").

(** The inner [try] of [create_driver], lines 189-193: the driver is
    built with the service, or without it after the first way raised. *)
Definition construct_driver {W} `{Driver W} (config : Config)
    : M (Bot * Env W) unit :=
  try_except
    (lift (do_act NewService) >>
     update (set_service true) >>
     lift (do_act (NewChrome true (PROXY_SERVER config))) >>
     update (set_driver true))
    (except_Exception (λ _,
       lift (do_act (NewChrome false (PROXY_SERVER config))) >>
       update (set_driver true))).

(** The commands that end a successful [create_driver]: the
    constructor that answered, then the three timeouts and the script
    that hides the automation. *)
Definition driver_settings (config : Config) (with_service : bool) : list event :=
  [EAct (NewChrome with_service (PROXY_SERVER config)) (Returns tt);
   EAct (ImplicitlyWait 2) (Returns tt);
   EAct (SetPageLoadTimeout (LONG_TIMEOUT config)) (Returns tt);
   EAct (SetScriptTimeout (DEFAULT_TIMEOUT config)) (Returns tt);
   EAct ScriptHideAutomation (Returns tt)].

(** A configuration with no retry budget at all. *)
Definition no_retries_config : Config :=
  MkConfig "user" "secret" "https://dp.example/login" None 15 5 30 0 2 0.

(** What lets the dropdown driver report a selection: a click on an
    option, or the ENTER key, that the browser accepted. *)
Definition selection_made (ev : event) : Prop :=
  (∃ e, accepted_click e ev) ∨ (∃ e, ev = EAct (SendKeys e ENTER) (Returns tt)).

(** The key events that type [value] into [input_field], one
    character each. *)
Fixpoint keystrokes (input_field : Elem) (value : string) : list event :=
  match value with
  | EmptyString => []
  | String c r =>
      EAct (SendKeys input_field (Text (String c EmptyString))) (Returns tt)
      :: keystrokes input_field r
  end.

(** The exchange that finds [e] usable under [selector]: the wait
    answers with it and it reports itself displayed and enabled. *)
Definition found_usable (timeout : Z) (clickable : bool) (selector : string)
    (e : Elem) : list event :=
  [EFind (Locator.wait_cmd selector timeout clickable) (Returns e);
   ETest (IsDisplayed e) (Returns true);
   ETest (IsEnabled e) (Returns true)].

(** ** Further parts of the program *)

(** *** Config._validate_environment

    The process environment maps names to values; [os.getenv(var)] is
    the lookup, and [not os.getenv(var)] holds for a name that is not
    set and for one set to the empty string. *)

Module Environment.

Definition required_vars : list string := ["USERNAME"; "PASSWORD"; "LOGIN_URL"].

(** [not os.getenv(var)] *)
Definition unset (environ : gmap string string) (var : string) : bool :=
  match environ !! var with
  | None => true
  | Some value => PyStr.falsy value
  end.

(** [[var for var in required_vars if not os.getenv(var)]] *)
Definition missing_vars (environ : gmap string string) : list string :=
  filter (λ var, unset environ var = true) required_vars.

(** The [ValueError] carries the list of missing names. *)
Inductive validation :=
| Valid
| MissingEnvironmentVariables (missing : list string).

Definition validate_environment (environ : gmap string string) : validation :=
  match missing_vars environ with
  | [] => Valid
  | missing => MissingEnvironmentVariables missing
  end.

(** The three class attributes read by [os.getenv] when the class is
    created, lines 60-62.  [Config] keeps a text for each: a name that
    is not set reads as the empty text, which is as falsy as [None]
    for the one test made on it, that of [login]. *)
Definition reads_credentials (environ : gmap string string) (config : Config)
    : Prop :=
  USERNAME config = default "" (environ !! "USERNAME")
  ∧ PASSWORD config = default "" (environ !! "PASSWORD")
  ∧ LOGIN_URL config = default "" (environ !! "LOGIN_URL").

End Environment.

(** *** ProcessTracker (lines 860-877)

    The items are the codes; the clock is the world's. *)

Record ProcessTracker := MkTracker {
  session_start : Z;
  processed_items : gset string
}.

Record SessionStats := MkSessionStats {
  session_duration : Z;
  processed_count : Z;
  (** [list(self.processed_items)]: the items in the order the set
      iterates them, which Python leaves open *)
  processed_list : list string
}.

Section Tracker.
Context {W : Type} `{Driver W}.

(** [ProcessTracker.__init__] *)
Definition new_tracker : M (Env W) ProcessTracker :=
  let* t := now in ret (MkTracker t ∅).

Definition is_processed (item : string) (tracker : ProcessTracker) : bool :=
  bool_decide (item ∈ processed_items tracker).

Definition mark_processed (item : string) (tracker : ProcessTracker)
    : ProcessTracker :=
  MkTracker (session_start tracker) ({[item]} ∪ processed_items tracker).

Definition get_session_stats (tracker : ProcessTracker) : M (Env W) SessionStats :=
  let* t := now in
  ret (MkSessionStats (t - session_start tracker)
         (Z.of_nat (size (processed_items tracker)))
         (elements (processed_items tracker))).

End Tracker.

(** A session of the tracker: the items marked, one after the other. *)
Definition mark_all (items : list string) (tracker : ProcessTracker)
    : ProcessTracker :=
  foldl (λ t item, mark_processed item t) tracker items.

(** ** The filter result in one run of the workflow engine *)

(** What the commands of a call [m] show about the filter result, with
    [mismatches] turns that read another code before:
    - a displayed "no data" indicator, the last thing the call looked
      at: it returns [False];
    - a cell with the expected code;
    - neither: the call does not return [True]. *)
Definition run_shows {W} (expected : string) (m : M (Env W) bool) : Prop :=
  ∀ env, ∃ tr,
    trace (snd (m env)) = (trace env ++ tr)%list
    ∧ ∃ mismatches : nat,
        (mismatches ≤ 3)%nat
        ∧ ((Validation.yields expected (replicate mismatches MISMATCH ++ [NO_DATA]) tr
            ∧ (mismatches < 3)%nat
            ∧ fst (m env) = Ok false
            ∧ ∃ pre e, tr = (pre ++ [ETest (IsDisplayed e) (Returns true)])%list)
           ∨ (Validation.yields expected (replicate mismatches MISMATCH ++ [MATCH]) tr
              ∧ (mismatches < 3)%nat)
           ∨ (Validation.yields expected (replicate mismatches MISMATCH) tr
              ∧ fst (m env) ≠ Ok true)).

(** The same, read off the verdicts of the trace [tr] of a run that
    ended with [r]. *)
Definition engine_run_outcome (expected : string) (tr : list event)
    (r : res bool) : Prop :=
  ∃ mismatches : nat,
    (mismatches ≤ 3)%nat
    ∧ ((Validation.verdicts expected None tr
        = (replicate mismatches MISMATCH ++ [NO_DATA])%list
        ∧ (mismatches < 3)%nat
        ∧ r = Ok false
        ∧ ∃ e, last tr = Some (ETest (IsDisplayed e) (Returns true)))
       ∨ (Validation.verdicts expected None tr
          = (replicate mismatches MISMATCH ++ [MATCH])%list
          ∧ (mismatches < 3)%nat)
       ∨ (Validation.verdicts expected None tr = replicate mismatches MISMATCH
          ∧ r ≠ Ok true)).

(** ** The retry budget of one item *)

(** The books of [bot'] are those of [bot] with [ds], [df] and [dk]
    more in the counters successful, failed and skipped, and with the
    codes [added] in the processed set. *)
Definition books_moved (bot bot' : Bot) (ds df dk : Z) (added : gset string)
    : Prop :=
  successful (stats bot') = successful (stats bot) + ds
  ∧ failed (stats bot') = failed (stats bot) + df
  ∧ skipped (stats bot') = skipped (stats bot) + dk
  ∧ processed_dps bot' = added ∪ processed_dps bot.

Section Attempts.
Context {W : Type} `{Driver W}.
Variable config : Config.
Variables city rk code : string.

(** [attempt_starts start k env]: the retry loop entered in [start]
    begins its attempt number [k], counted from 0, in [env].  Every
    attempt before it failed, with the engine saying [False], and was
    not the last of the budget; the warning was logged, the page
    refreshed and the DP page reached again, and the retry delay has
    passed. *)
Inductive attempt_starts (start : Env W) : Z → Env W → Prop :=
| first_attempt : attempt_starts start 0 start
| next_attempt k env gone back rested :
    attempt_starts start k env →
    k < MAX_RETRIES config - 1 →
    process_ticket_creation config city rk code env = (Ok false, gone) →
    handle_page_refresh_and_navigation config
      (snd (log WARNING (MsgAttemptFailed (k + 1)) gone)) = (Ok true, back) →
    sleep (1000 * RETRY_DELAY config) back = (Ok tt, rested) →
    attempt_starts start (k + 1) rested.

End Attempts.

(** A simulated browser whose page is replaced by [reloaded] at the
    first [refresh()]; no interrupt reaches the process. *)
Module Reloading.

Record World := MkWorld {
  page : Sim.Page;
  reloaded : Sim.Page;
  now_us : Z
}.

#[global] Instance driver : Driver World := {
  find c w := (Sim.on_find (page w) c, w);
  test c w := (Sim.on_test (page w) c, w);
  read c w := (Sim.on_read (page w) c, w);
  act c w :=
    match c with
    | Refresh => (Returns tt, MkWorld (reloaded w) (reloaded w) (now_us w))
    | _ => (Sim.on_act (page w) c, w)
    end;
  sleeping ms w := (false, MkWorld (page w) (reloaded w) (now_us w + 1000 * ms));
  clock w := (now_us w, w)
}.

Definition env_of (p reloaded : Sim.Page) : Env World :=
  MkEnv (MkWorld p reloaded 0) [] [] false.

End Reloading.

(** ** The strategies of the dropdown driver *)

(** A scroll or a click, native or by script, on [e]. *)
Definition aimed_at (e : Elem) (ev : event) : Prop :=
  match ev with
  | EAct (ScrollIntoView e' _) _ | EAct (ScriptClick e') _ | EAct (Click e') _ =>
      e' = e
  | _ => False
  end.

(** What a click strategy adds to the trace, and the option it
    [picked].  The locator's exchange about the one candidate [query]
    comes first.  When it yields an option, scrolls and clicks follow,
    all of them on that option; a click the browser accepts is the
    last event, and it is what picks the option.  Nothing is picked
    otherwise, and nothing is sent when the locator yields nothing. *)
Definition click_strategy (query : string) (timeout : Z) (seg : list event)
    (picked : option Elem) : Prop :=
  ∃ locating found clicks,
    seg = (locating ++ clicks)%list
    ∧ Locator.candidate (UntilClickable XPATH query timeout) locating found
    ∧ match found with
      | None => clicks = [] ∧ picked = None
      | Some e =>
          Forall (aimed_at e) clicks
          ∧ match picked with
            | Some e' =>
                e' = e
                ∧ ∃ pre ev, clicks = (pre ++ [ev])%list
                            ∧ Dropdown.clicked pre = []
                            ∧ accepted_click e ev
            | None => Dropdown.clicked clicks = []
            end
      end.

(** The blind confirm: arrow-down to the input, then ENTER once
    arrow-down was accepted.  It confirms only when the browser
    accepted both keys. *)
Definition keyboard_confirm (input_field : Elem) (seg : list event)
    (confirmed : bool) : Prop :=
  (∃ a, seg = [EAct (SendKeys input_field ARROW_DOWN) a] ∧ confirmed = false)
  ∨ (∃ b, seg = [EAct (SendKeys input_field ARROW_DOWN) (Returns tt);
                 EAct (SendKeys input_field ENTER) b]
          ∧ (confirmed = true → b = Returns tt)).

(** A strategy that picked an option says [True], unless an interrupt
    arrives in the pause that follows the click. *)
Definition selected_or_interrupted (r : res bool) : Prop :=
  r = Ok true ∨ ∃ e, r = Raise e ∧ is_Exception e = false.

(** The trace of lines 356-377 and their result.  The exact-text
    strategy runs first and ends the selection when it picks an
    option.  The substring strategy runs only after the exact one
    picked nothing, the keyboard confirm only after both picked
    nothing, and its answer is then the result.  An interrupt may cut
    the selection short within a click strategy. *)
Inductive selection (input_field : Elem) (value : string)
    : list event → res bool → Prop :=
| by_exact seg e r :
    click_strategy (exact_match_xpath value) 5 seg (Some e) →
    selected_or_interrupted r →
    selection input_field value seg r
| by_containing seg1 seg2 e r :
    click_strategy (exact_match_xpath value) 5 seg1 None →
    click_strategy (contains_xpath value) 3 seg2 (Some e) →
    selected_or_interrupted r →
    selection input_field value (seg1 ++ seg2) r
| by_keyboard seg1 seg2 seg3 confirmed :
    click_strategy (exact_match_xpath value) 5 seg1 None →
    click_strategy (contains_xpath value) 3 seg2 None →
    keyboard_confirm input_field seg3 confirmed →
    selection input_field value (seg1 ++ seg2 ++ seg3) (Ok confirmed)
| cut_in_exact seg e :
    click_strategy (exact_match_xpath value) 5 seg None →
    is_Exception e = false →
    selection input_field value seg (Raise e)
| cut_in_containing seg1 seg2 e :
    click_strategy (exact_match_xpath value) 5 seg1 None →
    click_strategy (contains_xpath value) 3 seg2 None →
    is_Exception e = false →
    selection input_field value (seg1 ++ seg2) (Raise e).

(** The dropdown of [Sim.dropdown_page] listing ABCD before ABC, with
    every click on the option ABC (element 41) refused. *)
Definition refused_option_page : Sim.Page :=
  Sim.MkPage [(".vs__search", 7%nat)] [] [] [41%nat] []
    [(42%nat, "ABCD"); (41%nat, "ABC")] "https://dp.example/home".

(** * Properties *)

Module PyStrFacts.
Import PyStr.

Lemma falsy_spec s : falsy s = true ↔ s = "".
Proof. destruct s; simpl; split; congruence. Qed.

Lemma rstrip_idem s : rstrip (rstrip s) = rstrip s.
Proof.
  induction s as [|c r IH]; [reflexivity|].
  simpl. destruct (rstrip r) as [|c' r'] eqn:E.
  - destruct (is_space c) eqn:Ec; simpl; [reflexivity|]. now rewrite Ec.
  - simpl in *. now rewrite IH.
Qed.

Lemma lstrip_head s c r : lstrip s = String c r → is_space c = false.
Proof.
  induction s as [|a s IH]; simpl; [discriminate|].
  destruct (is_space a) eqn:Ea; [exact IH|].
  intros [= -> _]. exact Ea.
Qed.

Lemma rstrip_head c r c' r' :
  rstrip (String c r) = String c' r' → c' = c.
Proof.
  simpl. destruct (rstrip r); [destruct (is_space c)|]; congruence.
Qed.

Lemma lstrip_fix s :
  match s with String c _ => is_space c = false | _ => True end →
  lstrip s = s.
Proof. destruct s as [|c r]; simpl; [reflexivity|]. now intros ->. Qed.

(** Stripping twice changes nothing: loaded codes are already trimmed. *)
Lemma strip_idem s : strip (strip s) = strip s.
Proof.
  unfold strip.
  rewrite (lstrip_fix (rstrip (lstrip s))); [apply rstrip_idem|].
  destruct (rstrip (lstrip s)) as [|c r] eqn:E; [exact I|].
  destruct (lstrip s) as [|a t] eqn:El; [discriminate|].
  apply rstrip_head in E as ->. eapply lstrip_head, El.
Qed.

Lemma strip_empty : strip "" = "".
Proof. reflexivity. Qed.

End PyStrFacts.

Module DailyInput.
Import DataManager Spec.

Lemma first_occurrences_elem l x : x ∈ first_occurrences l ↔ x ∈ l.
Proof.
  induction l as [|a l IH]; simpl; [reflexivity|].
  rewrite !elem_of_cons, list_elem_of_filter, IH.
  destruct (decide (x = a)); naive_solver.
Qed.

Lemma first_occurrences_NoDup l : NoDup (first_occurrences l).
Proof.
  induction l as [|a l IH]; simpl; [constructor|].
  apply NoDup_cons. split.
  - rewrite list_elem_of_filter. naive_solver.
  - by apply NoDup_filter.
Qed.

Lemma first_occurrences_sublist l : first_occurrences l `sublist_of` l.
Proof.
  induction l as [|a l IH]; simpl; [constructor|].
  apply sublist_skip. etrans; [apply sublist_filter|exact IH].
Qed.

(** The loop, for any state in which [seen_codes] holds exactly the
    codes appended so far. *)
Lemma read_lines_spec lines : ∀ (seen : gset string) (acc : list string),
  (∀ x, x ∈ seen ↔ x ∈ acc) →
  read_lines lines seen acc
  = (acc ++ filter (λ y, y ∉ acc) (first_occurrences (codes_of lines)))%list.
Proof.
  induction lines as [|line rest IH]; intros seen acc Hs; simpl.
  - unfold codes_of. simpl. by rewrite app_nil_r.
  - unfold codes_of in *. simpl.
    destruct (PyStr.falsy (PyStr.strip line)) eqn:Ef; simpl.
    { rewrite filter_cons_False; [by apply IH|].
      unfold is_code. rewrite Ef. simpl. congruence. }
    destruct (PyStr.startswith "#" (PyStr.strip line)) eqn:Eh; simpl.
    { rewrite filter_cons_False; [by apply IH|].
      unfold is_code. rewrite Ef, Eh. simpl. congruence. }
    rewrite filter_cons_True by (unfold is_code; by rewrite Ef, Eh).
    simpl. case_bool_decide as Hin.
    + rewrite IH by done. f_equal.
      rewrite filter_cons_False by (apply Hs in Hin; naive_solver).
      rewrite list_filter_filter. apply list_filter_iff.
      intros y. apply Hs in Hin. naive_solver.
    + rewrite IH.
      2:{ intros x. rewrite elem_of_union, elem_of_singleton, elem_of_app,
            list_elem_of_singleton, Hs. naive_solver. }
      rewrite <- app_assoc. simpl. f_equal.
      rewrite filter_cons_True by (rewrite <- Hs; done).
      f_equal. rewrite list_filter_filter. apply list_filter_iff.
      intros y. rewrite elem_of_app, list_elem_of_singleton. naive_solver.
Qed.

Lemma read_daily_input_eq lines :
  read_daily_input (Some lines) = first_occurrences (codes_of lines).
Proof.
  unfold read_daily_input. rewrite read_lines_spec by set_solver.
  simpl. induction (first_occurrences (codes_of lines)) as [|a l IH];
    [reflexivity|].
  rewrite filter_cons_True by set_solver. by rewrite IH.
Qed.

Lemma read_daily_input_NoDup file : NoDup (read_daily_input file).
Proof.
  destruct file as [lines|]; [|constructor].
  rewrite read_daily_input_eq. apply first_occurrences_NoDup.
Qed.

(** C6.  The loaded list is the list of codes (trimmed lines that are
    neither blank nor comments) with every later duplicate removed:
    no code twice, the same codes, in the order of the file; and the
    lines A, B, A load as A, B.  An unreadable file loads as []. *)
Theorem read_daily_input_first_occurrences (lines : list string) :
  let loaded := read_daily_input (Some lines) in
  loaded = first_occurrences (codes_of lines)
  ∧ NoDup loaded
  ∧ (∀ c, c ∈ loaded ↔ c ∈ codes_of lines)
  ∧ loaded `sublist_of` codes_of lines
  ∧ read_daily_input (Some ["A"; "B"; "A"]) = ["A"; "B"]
  ∧ read_daily_input None = [].
Proof.
  cbv zeta. rewrite read_daily_input_eq. split_and!.
  - reflexivity.
  - apply first_occurrences_NoDup.
  - intros c. apply first_occurrences_elem.
  - apply first_occurrences_sublist.
  - by vm_compute.
  - reflexivity.
Qed.

End DailyInput.

Module MasterData.
Import DataManager Spec.

Lemma field_trimmed (row : csv_row) k :
  field row k = match row !! k with
                | Some _ => Some (trimmed row k)
                | None => None
                end.
Proof.
  unfold field, trimmed. destruct (row !! k) as [[s|]|]; try reflexivity.
  destruct s; reflexivity.
Qed.

Lemma trimmed_missing (row : csv_row) k : row !! k = None → trimmed row k = "".
Proof. unfold trimmed. by intros ->. Qed.

Lemma load_row_incomplete n row st : incomplete row → load_row n row st = st.
Proof.
  intros Hi. destruct st as [m c]. unfold load_row. rewrite !field_trimmed.
  destruct (row !! "Kode_DP") eqn:E1; [|done].
  destruct (row !! "City") eqn:E2; [|done].
  destruct (row !! "RK") eqn:E3; [|done].
  destruct Hi as [->| [->| ->]]; simpl; rewrite ?orb_true_r; done.
Qed.

Lemma load_row_complete n row m c :
  ¬ incomplete row →
  load_row n row (m, c)
  = (<[trimmed row "Kode_DP" := entry_of row n]> m, c + 1).
Proof.
  intros Hc. unfold load_row, entry_of. rewrite !field_trimmed.
  assert (H1 : trimmed row "Kode_DP" ≠ "") by (unfold incomplete in Hc; tauto).
  assert (H2 : trimmed row "City" ≠ "") by (unfold incomplete in Hc; tauto).
  assert (H3 : trimmed row "RK" ≠ "") by (unfold incomplete in Hc; tauto).
  destruct (row !! "Kode_DP") eqn:E1; [|by apply trimmed_missing in E1].
  destruct (row !! "City") eqn:E2; [|by apply trimmed_missing in E2].
  destruct (row !! "RK") eqn:E3; [|by apply trimmed_missing in E3].
  destruct (trimmed row "Kode_DP"); [done|].
  destruct (trimmed row "City"); [done|].
  destruct (trimmed row "RK"); [done|]. reflexivity.
Qed.

Lemma load_rows_lookup rows : ∀ n m c k,
  fst (load_rows n rows (m, c)) !! k
  = match last_complete k n rows with
    | Some e => Some e
    | None => m !! k
    end.
Proof.
  induction rows as [|row rest IH]; intros n m c k;
    cbn [load_rows last_complete]; [done|].
  destruct (decide (incomplete row)) as [Hi|Hc].
  - rewrite load_row_incomplete by done. rewrite IH.
    destruct (last_complete k (n + 1) rest); [done|].
    rewrite decide_False by tauto. done.
  - rewrite load_row_complete by done. rewrite IH.
    destruct (last_complete k (n + 1) rest); [done|].
    case_decide as Hk.
    + destruct Hk as [_ <-]. by rewrite lookup_insert_eq.
    + rewrite lookup_insert_ne; [done|]. tauto.
Qed.

Lemma load_rows_size rows : ∀ n m c,
  (size (fst (load_rows n rows (m, c))) ≤ size m + length rows)%nat.
Proof.
  induction rows as [|row rest IH]; intros n m c;
    cbn [load_rows length]; [simpl; lia|].
  destruct (decide (incomplete row)) as [Hi|Hc].
  - rewrite load_row_incomplete by done. specialize (IH (n + 1) m c). lia.
  - rewrite load_row_complete by done.
    etrans; [apply IH|]. rewrite map_size_insert.
    destruct (m !! trimmed row "Kode_DP"); simpl; lia.
Qed.

Lemma last_complete_Some k rows : ∀ n e,
  last_complete k n rows = Some e →
  k ≠ "" ∧ City e ≠ "" ∧ RK e ≠ "".
Proof.
  induction rows as [|row rest IH]; intros n e; simpl; [done|].
  destruct (last_complete k (n + 1) rest) eqn:E.
  - intros [= <-]. eauto.
  - case_decide as Hk; [|done]. intros [= <-].
    destruct Hk as [Hc <-]. unfold incomplete in Hc. simpl. tauto.
Qed.

(** C7.  The loaded map is read off the complete rows alone: the entry
    of a code is that of the last complete row carrying it; a row with
    a blank code, city or region (after trimming) changes nothing, so
    the map has at most as many entries as there are rows and no entry
    with a blank field; [load_master_data] returns this map or nothing. *)
Theorem load_master_data_complete_rows (header : list string) (rows : list csv_row) :
  let m := fst (load_rows 2 rows (∅, 0)) in
  (∀ k, m !! k = last_complete k 2 rows)
  ∧ (size m ≤ length rows)%nat
  ∧ (∀ k e, m !! k = Some e → k ≠ "" ∧ City e ≠ "" ∧ RK e ≠ "")
  ∧ (∀ n row st, incomplete row → load_row n row st = st)
  ∧ (load_master_data (Some (CsvFile header rows)) = None
     ∨ load_master_data (Some (CsvFile header rows)) = Some m).
Proof.
  cbv zeta.
  assert (L : ∀ k, fst (load_rows 2 rows (∅, 0)) !! k = last_complete k 2 rows).
  { intros k. rewrite load_rows_lookup. rewrite lookup_empty.
    by destruct (last_complete k 2 rows). }
  split_and!.
  - exact L.
  - pose proof (load_rows_size rows 2 ∅ 0) as Hs.
    rewrite map_size_empty in Hs. exact Hs.
  - intros k e. rewrite L. apply last_complete_Some.
  - intros. by apply load_row_incomplete.
  - unfold load_master_data. simpl.
    destruct header; [by left|].
    destruct (filter _ required_fields); [|by left].
    case_bool_decide; [by left|by right].
Qed.

(** Two complete rows with one code, a row without a city between them. *)
Example load_master_data_last_wins :
  load_master_data (Some (CsvFile ["Kode_DP"; "City"; "RK"]
    [ {[ "Kode_DP" := Some "DP001"; "City" := Some "X"; "RK" := Some "Y" ]};
      {[ "Kode_DP" := Some "DP009"; "City" := Some "  "; "RK" := Some "Y" ]};
      {[ "Kode_DP" := Some " DP001 "; "City" := Some "Z"; "RK" := Some "W" ]} ]))
  = Some {[ "DP001" := MasterEntry "Z" "W" 4 ]}.
Proof. by vm_compute. Qed.

End MasterData.

(** Unfolds the monad and the primitive commands. *)
Ltac unfold_monad :=
  unfold bind, ret, raise, try_except, try_finally, bare, except_Exception,
    answered, signal_handler in *.

Ltac simpl_env := cbn [world trace logs handler_installed fst snd] in *.

Section LocatorFacts.
Context {W : Type} `{Driver W}.
Variable config : Config.
Import Locator.

Lemma new_trace_app (env env' : Env W) tr :
  trace env' = (trace env ++ tr)%list → new_trace env env' = tr.
Proof. unfold new_trace. intros ->. apply drop_app_length. Qed.

Lemma wait_for_selector_candidate selector timeout clickable (env : Env W) :
  ∃ r seg env',
    wait_for_selector selector timeout clickable env = (Ok r, env')
    ∧ trace env' = (trace env ++ seg)%list
    ∧ candidate (wait_cmd selector timeout clickable) seg r.
Proof.
  unfold wait_for_selector.
  replace (if clickable
           then do_find (UntilClickable (by_of selector) selector timeout)
           else do_find (UntilPresent (by_of selector) selector timeout))
    with (do_find (wait_cmd selector timeout clickable))
    by (unfold wait_cmd; by destruct clickable).
  generalize (wait_cmd selector timeout clickable). intros c.
  unfold_monad. unfold do_find, do_test.
  destruct (find c (world env)) as [[e| |] w] eqn:Ef; cbn.
  2:{ eexists None, _, _. split_and!; [reflexivity|reflexivity|].
      apply wait_failed. congruence. }
  2:{ destruct (handler_installed env); cbn;
      (eexists None, _, _; split_and!; [reflexivity|reflexivity|];
      apply wait_failed; congruence). }
  destruct (test (IsDisplayed e) w) as [[[|]| |] w1] eqn:Ed; cbn.
  2:{ eexists None, _, _; split_and!; [reflexivity|by rewrite <- app_assoc|].
      apply not_displayed; congruence. }
  2:{ eexists None, _, _; split_and!; [reflexivity|by rewrite <- app_assoc|].
      apply not_displayed; congruence. }
  2:{ destruct (handler_installed env); cbn;
      (eexists None, _, _; split_and!; [reflexivity|by rewrite <- app_assoc|];
       apply not_displayed; congruence). }
  destruct (test (IsEnabled e) w1) as [[[|]| |] w2] eqn:Ee; cbn.
  2:{ eexists None, _, _; split_and!; [reflexivity|by rewrite <- !app_assoc|].
      apply not_enabled; congruence. }
  2:{ eexists None, _, _; split_and!; [reflexivity|by rewrite <- !app_assoc|].
      apply not_enabled; congruence. }
  2:{ destruct (handler_installed env); cbn;
      (eexists None, _, _; split_and!; [reflexivity|by rewrite <- !app_assoc|];
       apply not_enabled; congruence). }
  eexists (Some e), _, _. split_and!; [reflexivity|by rewrite <- !app_assoc|].
  apply usable.
Qed.

Lemma wait_for_element_loop_in_order sels timeout clickable : ∀ env : Env W,
  ∃ r tr env',
    wait_for_element_loop sels timeout clickable env = (Ok r, env')
    ∧ trace env' = (trace env ++ tr)%list
    ∧ in_order timeout clickable sels tr r.
Proof.
  induction sels as [|selector rest IH]; intros env; cbn [wait_for_element_loop].
  - eexists None, [], env. split_and!; [reflexivity|by rewrite app_nil_r|].
    constructor.
  - destruct (wait_for_selector_candidate selector timeout clickable env)
      as (r & seg & env1 & E1 & T1 & C1).
    unfold bind at 1. rewrite E1. destruct r as [e|].
    + eexists (Some e), seg, env1. split_and!; [reflexivity|exact T1|].
      by apply found.
    + destruct (IH env1) as (r & tr & env2 & E2 & T2 & C2).
      eexists r, (seg ++ tr)%list, env2. split_and!; [exact E2| |].
      * by rewrite T2, T1, app_assoc.
      * by apply next.
Qed.

(** C8 (amended).  [wait_for_element] never raises; it tries the
    candidates in declared order and returns the first whose element,
    once the wait has answered (for clickability when required, for
    presence when not), reports itself displayed and enabled; with no
    such candidate it returns [None].  [find_element_with_fallback]
    returns the first candidate whose presence wait answers. *)
Theorem wait_for_element_in_order (sels : selectors) (timeout : option Z)
    (clickable : bool) (env : Env W) :
  (∃ r env',
     wait_for_element config sels timeout clickable env = (Ok r, env')
     ∧ in_order (timeout_or_default config timeout) clickable (as_list sels)
         (new_trace env env') r)
  ∧ (∃ r env',
       find_element_with_fallback config sels timeout env = (Ok r, env')
       ∧ present_in_order (timeout_or_default config timeout) (as_list sels)
           (new_trace env env') r).
Proof.
  split.
  - unfold wait_for_element.
    destruct (wait_for_element_loop_in_order (as_list sels)
                (timeout_or_default config timeout) clickable env)
      as (r & tr & env' & E & T & C).
    exists r, env'. split; [exact E|]. by rewrite (new_trace_app _ _ _ T).
  - unfold find_element_with_fallback.
    generalize (timeout_or_default config timeout) as t. intros t.
    cut (∃ r tr env',
           find_element_with_fallback_loop (as_list sels) t env = (Ok r, env')
           ∧ trace env' = (trace env ++ tr)%list
           ∧ present_in_order t (as_list sels) tr r).
    { intros (r & tr & env' & E & T & C). exists r, env'.
      split; [exact E|]. by rewrite (new_trace_app _ _ _ T). }
    generalize env. clear env.
    induction (as_list sels) as [|selector rest IH]; intros env;
      cbn [find_element_with_fallback_loop].
    + eexists None, [], env. split_and!; [reflexivity|by rewrite app_nil_r|].
      constructor.
    + unfold_monad. unfold do_find.
      destruct (find (UntilPresent (by_of selector) selector t) (world env))
        as [[e| |] w] eqn:Ef; cbn.
      * eexists (Some e), _, _. split_and!; [reflexivity|reflexivity|].
        apply present_found.
      * match goal with |- context [find_element_with_fallback_loop rest t ?e1] =>
          destruct (IH e1) as (r & tr & env2 & E2 & T2 & C2) end.
        eexists r, _, env2. split_and!; [exact E2| |].
        -- rewrite T2. cbn. by rewrite <- app_assoc.
        -- apply present_next; [congruence|exact C2].
      * destruct (handler_installed env) eqn:Eh; cbn;
        match goal with |- context [find_element_with_fallback_loop rest t ?e1] =>
          destruct (IH e1) as (r & tr & env2 & E2 & T2 & C2) end;
        (eexists r, _, env2; split_and!; [exact E2| |];
         [rewrite T2; cbn; by rewrite <- app_assoc
         |apply present_next; [congruence|exact C2]]).
Qed.

End LocatorFacts.

(** C8 as stated fails on a page whose first candidate is present but
    hidden: without [clickable] the locator passes it over and returns
    the second candidate's element. *)
Lemma wait_for_element_presence_counterexample :
  let env := Sim.env_of Sim.hidden_first_page in
  let out := wait_for_element Sim.default_config (SelList ["#a"; "#b"]) None false env in
  fst (find (UntilPresent CSS_SELECTOR "#a" 15) (world env)) = Returns 1%nat
  ∧ fst out = Ok (Some 2%nat)
  ∧ ¬ Locator.present_in_order 15 ["#a"; "#b"] (new_trace env (snd out)) (Some 2%nat).
Proof.
  cbv zeta. split_and!; [by vm_compute|by vm_compute|].
  intros Hp.
  match type of Hp with Locator.present_in_order _ _ ?tr _ =>
    let tr' := eval vm_compute in tr in change tr with tr' in Hp end.
  inversion Hp as [| |? ? a ? ? Ha]; subst.
  by apply (Ha 1%nat).
Qed.


Section Report.
Context {W : Type} `{Driver W}.

Lemma success_rate_is_quotient (s n : Z) :
  0 < n → (success_rate s n * inject_Z n == inject_Z (100 * s))%Q.
Proof.
  intros Hn. unfold success_rate.
  rewrite inject_Z_mult. field.
  intros E. apply (inject_Z_injective n 0) in E. lia.
Qed.

(** C10.  The report logs a success rate exactly when the bot has a
    start time and total - skipped is positive; the value is
    successful / (total - skipped) * 100, a quotient by a positive
    number.  With every item skipped no rate is logged.  The report
    itself never raises. *)
Theorem success_rate_excludes_skipped (total_items : Z) (bot : Bot) (env : Env W) :
  let out := generate_final_report total_items (bot, env) in
  let reported := new_logs env (snd (snd out)) in
  let new_items := total_items - skipped (stats bot) in
  fst out = Ok tt
  ∧ (∀ q, (INFO, MsgSuccessRate q) ∈ reported ↔
          is_Some (start_time (stats bot)) ∧ 0 < new_items
          ∧ q = success_rate (successful (stats bot)) new_items)
  ∧ (skipped (stats bot) = total_items →
     ∀ q, (INFO, MsgSuccessRate q) ∉ reported)
  ∧ (0 < new_items →
     (success_rate (successful (stats bot)) new_items * inject_Z new_items
      == inject_Z (100 * successful (stats bot)))%Q).
Proof.
  cbv zeta.
  assert (Main : fst (generate_final_report total_items (bot, env)) = Ok tt
    ∧ ∀ q, (INFO, MsgSuccessRate q)
           ∈ new_logs env (snd (snd (generate_final_report total_items (bot, env))))
         ↔ is_Some (start_time (stats bot)) ∧ 0 < total_items - skipped (stats bot)
           ∧ q = success_rate (successful (stats bot))
                   (total_items - skipped (stats bot))).
  { unfold generate_final_report, new_logs, try_except, bind, lift, now, update,
      get_bot, log, raise, ret, except_Exception. simpl.
    destruct (clock (world env)) as [t w] eqn:Ec. simpl.
    destruct (start_time (stats bot)) as [started|] eqn:Es; simpl.
    - destruct (total_items - skipped (stats bot) >? 0) eqn:En;
        destruct (t - started >? 0) eqn:Ed; simpl;
        (split; [reflexivity|]); intros q;
        rewrite <- ?app_assoc, drop_app_length; simpl;
        rewrite ?elem_of_cons, elem_of_nil;
        (split; [intros Hq; decompose [or] Hq; try discriminate;
                   try (exfalso; assumption)
                |intros (_ & Hn & ->)]);
        try (match goal with E : _ = (INFO, MsgSuccessRate _) |- _ =>
               injection E as -> end);
        try (split; [by eexists|]; split; [lia|reflexivity]);
        try lia; tauto.
    - split; [reflexivity|]. intros q.
      rewrite <- ?app_assoc, drop_app_length; simpl.
      rewrite ?elem_of_cons, elem_of_nil.
      split; [intros Hq; decompose [or] Hq; try discriminate; done|].
      intros ([? [=]] & _). }
  destruct Main as [M1 M2]. split_and!; [exact M1|exact M2| |].
  - intros E q. rewrite M2. intros (_ & Hn & _). lia.
  - apply success_rate_is_quotient.
Qed.

End Report.

(** ** Which events a computation can add to the trace *)

Section Emits.
Context {W : Type} `{Driver W}.

Lemma emits_ret {A} P (a : A) : emits (W := W) P (ret a).
Proof. intros env. exists []. by rewrite app_nil_r. Qed.

Lemma emits_raise {A} P e : emits (W := W) (A := A) P (raise e).
Proof. intros env. exists []. by rewrite app_nil_r. Qed.

Lemma emits_bind {A C} P (m : M (Env W) A) (k : A → M (Env W) C) :
  emits P m → (∀ a, emits P (k a)) → emits P (bind m k).
Proof.
  intros Hm Hk env. unfold bind. destruct (Hm env) as (tr & T & F).
  destruct (m env) as [[a|e] env1]; simpl in *.
  - destruct (Hk a env1) as (tr2 & T2 & F2). exists (tr ++ tr2)%list.
    rewrite T2, T, app_assoc. split; [done|by apply Forall_app].
  - by exists tr.
Qed.

Lemma emits_try_except {A} P (body : M (Env W) A) handler :
  emits P body → (∀ e h, handler e = Some h → emits P h) →
  emits P (try_except body handler).
Proof.
  intros Hm Hh env. unfold try_except. destruct (Hm env) as (tr & T & F).
  destruct (body env) as [[a|e] env1]; simpl in *.
  - by exists tr.
  - destruct (handler e) as [h|] eqn:E; simpl.
    + destruct (Hh e h E env1) as (tr2 & T2 & F2). exists (tr ++ tr2)%list.
      rewrite T2, T, app_assoc. split; [done|by apply Forall_app].
    + by exists tr.
Qed.

Lemma emits_signal_handler {A} P : emits (W := W) (A := A) P signal_handler.
Proof.
  intros env. exists []. rewrite app_nil_r. unfold signal_handler.
  by destruct (handler_installed env).
Qed.

Lemma emits_answered {A} P (a : answer A) : emits (W := W) P (answered a).
Proof.
  destruct a; [apply emits_ret|apply emits_raise|apply emits_signal_handler].
Qed.

Lemma emits_sleep P ms : emits P (sleep ms).
Proof.
  intros env. exists []. rewrite app_nil_r. unfold sleep.
  destruct (ms <? 0); [done|].
  destruct (sleeping ms (world env)) as [[|] w]; [|done].
  unfold signal_handler. simpl. by destruct (handler_installed env).
Qed.

Lemma emits_log P l m : emits (W := W) P (log l m).
Proof. intros env. exists []. by rewrite app_nil_r. Qed.

Lemma emits_now P : emits P now.
Proof.
  intros env. exists []. rewrite app_nil_r. unfold now.
  by destruct (clock (world env)).
Qed.

Lemma emits_do_act (P : event → Prop) c :
  (∀ a, P (EAct c a)) → emits P (do_act c).
Proof.
  intros HP env. unfold do_act. destruct (act c (world env)) as [a w].
  destruct (emits_answered P a
              (MkEnv w (trace env ++ [EAct c a]) (logs env) (handler_installed env)))
    as (tr & T & F).
  exists (EAct c a :: tr). rewrite T. simpl. rewrite <- app_assoc.
  split; [done|]. constructor; [apply HP|done].
Qed.

Lemma emits_do_find (P : event → Prop) c :
  (∀ a, P (EFind c a)) → emits P (do_find c).
Proof.
  intros HP env. unfold do_find. destruct (find c (world env)) as [a w].
  destruct (emits_answered P a
              (MkEnv w (trace env ++ [EFind c a]) (logs env) (handler_installed env)))
    as (tr & T & F).
  exists (EFind c a :: tr). rewrite T. simpl. rewrite <- app_assoc.
  split; [done|]. constructor; [apply HP|done].
Qed.

Lemma emits_do_test (P : event → Prop) c :
  (∀ a, P (ETest c a)) → emits P (do_test c).
Proof.
  intros HP env. unfold do_test. destruct (test c (world env)) as [a w].
  destruct (emits_answered P a
              (MkEnv w (trace env ++ [ETest c a]) (logs env) (handler_installed env)))
    as (tr & T & F).
  exists (ETest c a :: tr). rewrite T. simpl. rewrite <- app_assoc.
  split; [done|]. constructor; [apply HP|done].
Qed.

Lemma emits_do_read (P : event → Prop) c :
  (∀ a, P (ERead c a)) → emits P (do_read c).
Proof.
  intros HP env. unfold do_read. destruct (read c (world env)) as [a w].
  destruct (emits_answered P a
              (MkEnv w (trace env ++ [ERead c a]) (logs env) (handler_installed env)))
    as (tr & T & F).
  exists (ERead c a :: tr). rewrite T. simpl. rewrite <- app_assoc.
  split; [done|]. constructor; [apply HP|done].
Qed.

Lemma emits_mono {A} (P Q : event → Prop) (m : M (Env W) A) :
  (∀ ev, P ev → Q ev) → emits P m → emits Q m.
Proof.
  intros HPQ Hm env. destruct (Hm env) as (tr & T & F). exists tr.
  split; [done|]. eapply Forall_impl; eauto.
Qed.

Lemma opens_do_act (P : event → Prop) c :
  opens_with (λ ev, ∃ a, ev = EAct c a) P (do_act c).
Proof.
  intros env. unfold do_act. destruct (act c (world env)) as [a w].
  destruct (emits_answered P a
              (MkEnv w (trace env ++ [EAct c a]) (logs env) (handler_installed env)))
    as (tr & T & F).
  exists (EAct c a), tr. rewrite T. simpl. rewrite <- app_assoc.
  split; [done|]. split; [by exists a|done].
Qed.

Lemma opens_bind {A C} Q P (m : M (Env W) A) (k : A → M (Env W) C) :
  opens_with Q P m → (∀ a, emits P (k a)) → opens_with Q P (bind m k).
Proof.
  intros Hm Hk env. unfold bind. destruct (Hm env) as (ev & tr & T & HQ & F).
  destruct (m env) as [[a|e] env1]; simpl in *.
  - destruct (Hk a env1) as (tr2 & T2 & F2). exists ev, (tr ++ tr2)%list.
    rewrite T2, T, <- app_assoc. split; [done|]. split; [done|by apply Forall_app].
  - by exists ev, tr.
Qed.

Lemma opens_try_except {A} Q P (body : M (Env W) A) handler :
  opens_with Q P body → (∀ e h, handler e = Some h → emits P h) →
  opens_with Q P (try_except body handler).
Proof.
  intros Hm Hh env. unfold try_except.
  destruct (Hm env) as (ev & tr & T & HQ & F).
  destruct (body env) as [[a|e] env1]; simpl in *.
  - by exists ev, tr.
  - destruct (handler e) as [h|] eqn:E; simpl.
    + destruct (Hh e h E env1) as (tr2 & T2 & F2). exists ev, (tr ++ tr2)%list.
      rewrite T2, T, <- app_assoc. split; [done|]. split; [done|by apply Forall_app].
    + by exists ev, tr.
Qed.

Lemma opens_with_mono {A} (Q Q' P : event → Prop) (m : M (Env W) A) :
  (∀ ev, Q ev → Q' ev) → opens_with Q P m → opens_with Q' P m.
Proof.
  intros HQ Hm env. destruct (Hm env) as (ev & rest & T & Hev & F).
  exists ev, rest. auto.
Qed.

(** A bare [except:] whose clause returns leaves nothing to raise. *)
Lemma try_except_bare_ok {S A} (body : M S A) (a0 : A) s :
  ∃ a s', try_except body (bare (ret a0)) s = (Ok a, s').
Proof.
  unfold try_except, bare, ret. destruct (body s) as [[a|e] s']; eauto.
Qed.

End Emits.

(** Walks through a computation built from the combinators. *)
Ltac emits_step :=
  first
    [ apply emits_ret | apply emits_raise | apply emits_sleep | apply emits_log
    | apply emits_now | apply emits_signal_handler
    | apply emits_bind; [|intros ?]
    | apply emits_try_except;
      [|let e := fresh "e" in let h := fresh "h" in let E := fresh "E" in
        intros e h E; unfold bare, except_Exception in E;
        try (destruct e as [[]| |]; simpl in E); simplify_eq]
    | apply emits_do_act; intros ?; simpl; tauto
    | apply emits_do_find; intros ?; simpl; tauto
    | apply emits_do_test; intros ?; simpl; tauto
    | apply emits_do_read; intros ?; simpl; tauto
    | match goal with
      | |- emits _ (if ?b then _ else _) => destruct b
      | |- emits _ (match ?x with _ => _ end) => destruct x
      end ].

Ltac emits_auto := repeat emits_step.

Section DropdownFacts.
Context {W : Type} `{Driver W}.
Variable config : Config.
Import Dropdown.

Lemma safe_click_located_emits o js n :
  emits is_click (safe_click config (Located o) js n).
Proof.
  unfold safe_click. apply emits_bind; [apply emits_ret|]. intros [e|]; [|apply emits_ret].
  generalize 0 as attempt. generalize e.
  induction (Z.to_nat n) as [|k IH]; intros el attempt; cbn [safe_click_loop].
  - apply emits_ret.
  - apply emits_bind.
    + unfold safe_click_attempt. emits_auto.
    + intros [b|el']; [apply emits_ret|apply IH].
Qed.

Lemma is_click_no_strategy input v ev :
  is_click ev → strategy_of input v ev = None.
Proof. destruct ev as [| | |[] ?]; simpl; tauto. Qed.

Lemma is_test_no_strategy input v ev :
  is_test ev → strategy_of input v ev = None.
Proof. destruct ev; simpl; tauto. Qed.

Lemma attempted_none input v tr :
  Forall (λ ev, strategy_of input v ev = None) tr → attempted input v tr = [].
Proof.
  unfold attempted. induction 1 as [|ev tr E F IH]; simpl; [done|].
  by rewrite E.
Qed.

Lemma attempted_opened input v s ev rest :
  strategy_of input v ev = Some s →
  Forall (λ ev, strategy_of input v ev = None) rest →
  attempted input v (ev :: rest) = [s].
Proof.
  intros E F. unfold attempted. simpl. rewrite E. f_equal.
  by apply attempted_none.
Qed.

Lemma by_of_exact v : by_of (exact_match_xpath v) = XPATH.
Proof. reflexivity. Qed.

Lemma by_of_contains v : by_of (contains_xpath v) = XPATH.
Proof. reflexivity. Qed.

(** A single candidate: one wait, then at most the two tests. *)
Lemma wait_single selector t (env : Env W) :
  t ≠ 0 →
  ∃ r env' a rest,
    wait_for_element config (SelList [selector]) (Some t) true env = (Ok r, env')
    ∧ trace env' = (trace env
                    ++ EFind (UntilClickable (by_of selector) selector t) a :: rest)%list
    ∧ Forall is_test rest.
Proof.
  intros Ht. unfold wait_for_element. simpl as_list.
  assert (timeout_or_default config (Some t) = t) as ->.
  { unfold timeout_or_default. destruct (Z.eqb_spec t 0); [done|done]. }
  destruct (wait_for_element_loop_in_order [selector] t true env)
    as (r & tr & env' & E & T & C).
  exists r, env'.
  assert (Hc : ∀ seg r', Locator.candidate (Locator.wait_cmd selector t true) seg r' →
            ∃ a rest, seg = EFind (UntilClickable (by_of selector) selector t) a :: rest
                      ∧ Forall is_test rest).
  { intros seg r' Hc. inversion Hc; subst; eexists _, _; (split; [reflexivity|]);
      repeat constructor. }
  inversion C as [|? ? ? ? C1|? ? ? ? ? C1 C2]; subst.
  - destruct (Hc _ _ C1) as (a & rest & -> & F). by exists a, rest.
  - inversion C2; subst. destruct (Hc _ _ C1) as (a & rest & -> & F).
    exists a, rest. by rewrite app_nil_r in T.
Qed.

(** After the wait on one query: click the option found, if any. *)
Lemma click_found_emits input v (option : option Elem) :
  emits (λ ev, strategy_of input v ev = None)
    (match option with
     | None => ret false
     | Some option =>
         let* clicked := safe_click config (Located option) false 3 in
         if clicked then sleep 500 >> ret true else ret false
     end).
Proof.
  destruct option as [o|]; [|apply emits_ret].
  apply emits_bind.
  - eapply emits_mono; [|apply safe_click_located_emits].
    apply is_click_no_strategy.
  - intros []; emits_auto.
Qed.

Lemma wait_single_opens input v selector t s :
  t ≠ 0 →
  (∀ a, strategy_of input v
          (EFind (UntilClickable (by_of selector) selector t) a) = Some s) →
  opens_with (λ ev, strategy_of input v ev = Some s)
    (λ ev, strategy_of input v ev = None)
    (wait_for_element config (SelList [selector]) (Some t) true).
Proof.
  intros Ht Hs env.
  destruct (wait_single selector t env Ht) as (r & env' & a & rest & E & T & F).
  rewrite E. simpl. eexists _, rest. split; [exact T|]. split; [apply Hs|].
  eapply Forall_impl; [exact F|]. apply is_test_no_strategy.
Qed.

Lemma select_exact_opens input v :
  opens_with (λ ev, strategy_of input v ev = Some Exact)
    (λ ev, strategy_of input v ev = None) (select_exact config v).
Proof.
  unfold select_exact. apply opens_bind.
  - apply wait_single_opens; [done|]. intros a. rewrite by_of_exact. simpl.
    by rewrite String.eqb_refl.
  - apply click_found_emits.
Qed.

Lemma select_containing_opens input v :
  opens_with (λ ev, strategy_of input v ev = Some Containing)
    (λ ev, strategy_of input v ev = None) (select_containing config v).
Proof.
  unfold select_containing. apply opens_bind.
  - apply wait_single_opens; [done|]. intros a. rewrite by_of_contains. simpl.
    by rewrite String.eqb_refl.
  - apply click_found_emits.
Qed.

Lemma select_by_keyboard_opens input v :
  opens_with (λ ev, strategy_of input v ev = Some Keyboard)
    (λ ev, strategy_of input v ev = None) (select_by_keyboard input).
Proof.
  unfold select_by_keyboard. apply opens_try_except.
  - apply opens_bind.
    + eapply opens_with_mono; [|apply opens_do_act].
      intros ev [a ->]. simpl. by rewrite Nat.eqb_refl.
    + intros _. emits_auto.
  - intros e h [= <-]. apply emits_ret.
Qed.

Lemma select_option_order input v (env : Env W) :
  let out := select_option config input v env in
  let tried := attempted input v (new_trace env (snd out)) in
  (tried = [Exact] ∧ fst out ≠ Ok false)
  ∨ (tried = [Exact; Containing] ∧ fst out ≠ Ok false)
  ∨ (tried = [Exact; Containing; Keyboard] ∧ ∃ selected, fst out = Ok selected).
Proof.
  cbv zeta. unfold select_option, bind.
  destruct (select_exact_opens input v env) as (ev1 & r1 & T1 & Q1 & F1).
  destruct (select_exact config v env) as [[[|]|e1] env1]; simpl in T1;
    cbn [fst snd].
  - left. split; [|done]. unfold ret. cbn [snd].
    rewrite (new_trace_app _ _ _ T1). by apply attempted_opened.
  - destruct (select_containing_opens input v env1) as (ev2 & r2 & T2 & Q2 & F2).
    destruct (select_containing config v env1) as [[[|]|e2] env2]; simpl in T2;
      cbn [fst snd].
    + right; left. split; [|done]. unfold ret. cbn [snd].
      rewrite T1, <- app_assoc in T2. rewrite (new_trace_app _ _ _ T2).
      unfold attempted. rewrite omap_app.
      fold (attempted input v (ev1 :: r1)). fold (attempted input v (ev2 :: r2)).
      by rewrite (attempted_opened _ _ Exact), (attempted_opened _ _ Containing).
    + right; right.
      destruct (select_by_keyboard_opens input v env2) as (ev3 & r3 & T3 & Q3 & F3).
      destruct (try_except_bare_ok
                  (do_act (SendKeys input ARROW_DOWN) >> sleep 300 >>
                   do_act (SendKeys input ENTER) >> sleep 500 >> ret true)
                  false env2) as (b & env3 & E3).
      unfold select_by_keyboard in *. rewrite E3 in *. simpl in T3. cbn [fst snd].
      split; [|by exists b].
      rewrite T2, T1, <- !app_assoc in T3. rewrite (new_trace_app _ _ _ T3).
      unfold attempted. rewrite !omap_app.
      fold (attempted input v (ev1 :: r1)). fold (attempted input v (ev2 :: r2)).
      fold (attempted input v (ev3 :: r3)).
      by rewrite (attempted_opened _ _ Exact), (attempted_opened _ _ Containing),
        (attempted_opened _ _ Keyboard).
    + right; left. split; [|done].
      rewrite T1, <- app_assoc in T2. rewrite (new_trace_app _ _ _ T2).
      unfold attempted. rewrite omap_app.
      fold (attempted input v (ev1 :: r1)). fold (attempted input v (ev2 :: r2)).
      by rewrite (attempted_opened _ _ Exact), (attempted_opened _ _ Containing).
  - left. split; [|done].
    rewrite (new_trace_app _ _ _ T1). by apply attempted_opened.
Qed.

End DropdownFacts.

(** ** The validation stage *)

Section ValidationFacts.
Context {W : Type} `{Driver W}.
Variable config : Config.
Import Validation.

Lemma yields_nil expected : yields expected [] [].
Proof. intros rest. reflexivity. Qed.

Lemma yields_app expected v1 v2 t1 t2 :
  yields expected v1 t1 → yields expected v2 t2 →
  yields expected (v1 ++ v2) (t1 ++ t2).
Proof.
  intros Y1 Y2 rest. by rewrite <- !app_assoc, Y1, Y2.
Qed.

Lemma yields_quiet expected tr : Forall quiet tr → yields expected [] tr.
Proof.
  induction 1 as [|ev tr Q F IH]; intros rest; [reflexivity|].
  simpl. specialize (IH rest). simpl in IH.
  destruct ev as [[] []|[] [[]| |]|[] []|]; simpl in Q; try tauto; try exact IH.
Qed.

Lemma yields_verdicts expected vs tr :
  yields expected vs tr → verdicts expected None tr = vs.
Proof. intros Y. specialize (Y []). by rewrite !app_nil_r in Y. Qed.

Lemma yields_app_nil_l expected vs t1 t2 :
  yields expected [] t1 → yields expected vs t2 → yields expected vs (t1 ++ t2).
Proof. intros Y1 Y2. by apply (yields_app expected [] vs). Qed.

Lemma yields_app_nil_r expected vs t1 t2 :
  yields expected vs t1 → yields expected [] t2 → yields expected vs (t1 ++ t2).
Proof.
  intros Y1 Y2. rewrite <- (app_nil_r vs). by apply yields_app.
Qed.

Lemma is_locating_quiet ev : is_locating ev → quiet ev.
Proof. destruct ev as [[] ?| | |]; simpl; tauto. Qed.

Lemma is_click_quiet ev : is_click ev → quiet ev.
Proof. destruct ev as [| | |[] ?]; simpl; tauto. Qed.

Lemma is_settling_quiet ev : is_settling ev → quiet ev.
Proof. destruct ev as [| | |[] ?]; simpl; tauto. Qed.

(** *** The helpers called by the stage *)

Lemma sleep_run ms (env : Env W) :
  0 ≤ ms →
  ∃ r env', sleep ms env = (r, env') ∧ trace env' = trace env
            ∧ (r = Ok tt ∨ ∃ e, r = Raise e ∧ is_Exception e = false).
Proof.
  intros Hms. unfold sleep. destruct (Z.ltb_spec ms 0); [lia|].
  destruct (sleeping ms (world env)) as [[|] w].
  - unfold signal_handler. simpl. destruct (handler_installed env);
      eexists _, _; (split; [reflexivity|]); (split; [reflexivity|]);
      right; eexists; done.
  - eexists _, _. split; [reflexivity|]. split; [reflexivity|]. by left.
Qed.

Lemma wait_for_element_run sels timeout clickable (env : Env W) :
  ∃ r env' tr,
    wait_for_element config sels timeout clickable env = (Ok r, env')
    ∧ trace env' = (trace env ++ tr)%list ∧ Forall is_locating tr.
Proof.
  unfold wait_for_element.
  destruct (wait_for_element_loop_in_order (as_list sels)
              (timeout_or_default config timeout) clickable env)
    as (r & tr & env' & E & T & C).
  exists r, env', tr. split; [exact E|]. split; [exact T|].
  clear E T. induction C as [|? ? ? ? C|? ? ? ? ? C ? IH].
  - constructor.
  - unfold Locator.wait_cmd in C. inversion C; subst.
    destruct clickable; repeat constructor.
  - apply Forall_app. split; [|exact IH].
    unfold Locator.wait_cmd in C.
    inversion C; subst; destruct clickable; repeat constructor.
Qed.

Lemma wait_for_page_load_emits timeout :
  emits (W := W) is_settling (wait_for_page_load config timeout).
Proof.
  unfold wait_for_page_load. apply emits_try_except.
  - apply emits_bind; [|intros ?; emits_auto].
    induction SELECTORS.loading_overlay as [|s l IH]; cbn [wait_overlays];
      emits_auto. exact IH.
  - intros e h [= <-]. apply emits_ret.
Qed.

Lemma wait_for_page_load_run timeout (env : Env W) :
  ∃ b env' tr,
    wait_for_page_load config timeout env = (Ok b, env')
    ∧ trace env' = (trace env ++ tr)%list ∧ Forall is_settling tr.
Proof.
  destruct (wait_for_page_load_emits timeout env) as (tr & T & F).
  unfold wait_for_page_load in *.
  match goal with |- context [try_except ?body (bare (ret false)) env] =>
    destruct (try_except_bare_ok body false env) as (b & env' & E) end.
  rewrite E in *. by exists b, env', tr.
Qed.

Lemma safe_click_located_run o js n (env : Env W) :
  ∃ r env' tr,
    safe_click config (Located o) js n env = (r, env')
    ∧ trace env' = (trace env ++ tr)%list ∧ Forall is_click tr
    ∧ match r with Ok _ => True | Raise e => is_Exception e = false end.
Proof.
  destruct (safe_click_located_emits config o js n env) as (tr & T & F).
  destruct (safe_click config (Located o) js n env) as [r env'] eqn:E.
  exists r, env', tr. split; [done|]. split; [exact T|]. split; [exact F|].
  clear T F tr. unfold safe_click, bind, ret in E. cbn in E.
  revert env E. generalize 0 as attempt. generalize o at 2 as el.
  induction (Z.to_nat n) as [|k IH]; intros el attempt env E;
    cbn [safe_click_loop] in E.
  - unfold ret in E. by injection E as <- <-.
  - unfold bind in E.
    destruct (safe_click_attempt config (Located o) el js attempt env)
      as [[[b|el']|e] env1] eqn:E1.
    + unfold ret in E. by injection E as <- <-.
    + by apply IH in E.
    + injection E as <- <-.
      unfold safe_click_attempt, try_except in E1.
      match type of E1 with context [match ?body env with _ => _ end] =>
        destruct (body env) as [[x|e0] env0] end; [done|].
      destruct e0 as [[]| |];
        try (destruct (sleep_run 1000 env0) as (r & env2 & Es & _ & [->|(e2 & -> & He)]);
             [lia|unfold bind in E1; rewrite Es in E1; unfold ret in E1; simplify_eq..]);
        try done.
      all: unfold ret in E1; simplify_eq.
Qed.

(** The loop over the "no data" selectors: it never raises, and it
    says [true] exactly on a displayed indicator, which is then the
    last thing in the trace. *)
Lemma no_data_displayed_run expected sels : ∀ env : Env W,
  ∃ b env' tr,
    no_data_displayed sels env = (Ok b, env')
    ∧ trace env' = (trace env ++ tr)%list
    ∧ if b
      then yields expected [NO_DATA] tr
           ∧ ∃ pre e, tr = (pre ++ [ETest (IsDisplayed e) (Returns true)])%list
      else yields expected [] tr.
Proof.
  induction sels as [|sel rest IH]; intros env; cbn [no_data_displayed].
  - exists false, env, []. split; [done|]. split; [by rewrite app_nil_r|].
    apply yields_nil.
  - set (c := if PyStr.startswith "//" sel then FindElement XPATH sel
              else FindElement CSS_SELECTOR sel).
    assert (Hc : (if PyStr.startswith "//" sel
                  then do_find (FindElement XPATH sel)
                  else do_find (FindElement CSS_SELECTOR sel)) = do_find c)
      by (unfold c; by destruct (PyStr.startswith "//" sel)).
    rewrite Hc.
    assert (Hq : ∀ a, (∀ e, a ≠ Returns e) → quiet (EFind c a)).
    { intros a Ha. unfold c. destruct (PyStr.startswith "//" sel); simpl;
        destruct a; try done; by apply (Ha a). }
    assert (Hy : ∀ e a, a ≠ Returns true →
              yields expected [] [EFind c (Returns e); ETest (IsDisplayed e) a]).
    { intros e a Ha rest0. unfold c.
      destruct (PyStr.startswith "//" sel); simpl;
        destruct a as [[|]| |]; try done. }
    assert (Hn : ∀ e, yields expected [NO_DATA]
                   [EFind c (Returns e); ETest (IsDisplayed e) (Returns true)]).
    { intros e rest0. unfold c.
      destruct (PyStr.startswith "//" sel); simpl; by rewrite decide_True. }
    clearbody c. clear Hc.
    unfold_monad. unfold do_find, do_test.
    destruct (find c (world env)) as [[e|x|] w] eqn:Ef; cbn.
    + destruct (test (IsDisplayed e) w) as [[[|]|x|] w1] eqn:Ed; cbn.
      * eexists true, _, _. split; [reflexivity|].
        split; [by rewrite <- app_assoc|]. split; [apply Hn|].
        by exists [EFind c (Returns e)], e.
      * match goal with |- context [no_data_displayed rest ?e1] =>
          destruct (IH e1) as (b & env2 & tr & E2 & T2 & Y2) end.
        exists b, env2, ([EFind c (Returns e); ETest (IsDisplayed e) (Returns false)] ++ tr)%list.
        split; [exact E2|]. split; [rewrite T2; cbn; by rewrite <- !app_assoc|].
        destruct b.
        -- destruct Y2 as [Y2 (pre & e' & ->)]. split.
           ++ apply yields_app_nil_l; [by apply Hy|exact Y2].
           ++ eexists (_ :: _ :: pre), e'. reflexivity.
        -- apply yields_app_nil_l; [by apply Hy|exact Y2].
      * match goal with |- context [no_data_displayed rest ?e1] =>
          destruct (IH e1) as (b & env2 & tr & E2 & T2 & Y2) end.
        exists b, env2, ([EFind c (Returns e); ETest (IsDisplayed e) (Throws x)] ++ tr)%list.
        split; [exact E2|]. split; [rewrite T2; cbn; by rewrite <- !app_assoc|].
        destruct b.
        -- destruct Y2 as [Y2 (pre & e' & ->)]. split.
           ++ apply yields_app_nil_l; [by apply Hy|exact Y2].
           ++ eexists (_ :: _ :: pre), e'. reflexivity.
        -- apply yields_app_nil_l; [by apply Hy|exact Y2].
      * destruct (handler_installed env); cbn;
        match goal with |- context [no_data_displayed rest ?e1] =>
          destruct (IH e1) as (b & env2 & tr & E2 & T2 & Y2) end;
        (exists b, env2, ([EFind c (Returns e); ETest (IsDisplayed e) Interrupted] ++ tr)%list;
         split; [exact E2|]; split; [rewrite T2; cbn; by rewrite <- !app_assoc|];
         destruct b;
         [destruct Y2 as [Y2 (pre & e' & ->)]; split;
          [apply yields_app_nil_l; [by apply Hy|exact Y2]
          |eexists (_ :: _ :: pre), e'; reflexivity]
         |apply yields_app_nil_l; [by apply Hy|exact Y2]]).
    + match goal with |- context [no_data_displayed rest ?e1] =>
        destruct (IH e1) as (b & env2 & tr & E2 & T2 & Y2) end.
      exists b, env2, ([EFind c (Throws x)] ++ tr)%list.
      split; [exact E2|]. split; [rewrite T2; cbn; by rewrite <- !app_assoc|].
      assert (Y0 : yields expected [] [EFind c (Throws x)]).
      { apply yields_quiet. repeat constructor. by apply Hq. }
      destruct b.
      * destruct Y2 as [Y2 (pre & e' & ->)]. split.
        -- apply yields_app_nil_l; [exact Y0|exact Y2].
        -- eexists (_ :: pre), e'. reflexivity.
      * apply yields_app_nil_l; [exact Y0|exact Y2].
    + assert (Y0 : yields expected [] [EFind c Interrupted]).
      { apply yields_quiet. repeat constructor. by apply Hq. }
      destruct (handler_installed env); cbn;
      match goal with |- context [no_data_displayed rest ?e1] =>
        destruct (IH e1) as (b & env2 & tr & E2 & T2 & Y2) end;
      (exists b, env2, ([EFind c Interrupted] ++ tr)%list;
       split; [exact E2|]; split; [rewrite T2; cbn; by rewrite <- !app_assoc|];
       destruct b;
       [destruct Y2 as [Y2 (pre & e' & ->)]; split;
        [apply yields_app_nil_l; [exact Y0|exact Y2]
        |eexists (_ :: pre), e'; reflexivity]
       |apply yields_app_nil_l; [exact Y0|exact Y2]]).
Qed.

Lemma pause_run (attempt max_attempts : Z) (env : Env W) :
  ∃ r env',
    ((if attempt <? max_attempts - 1 then sleep 1000 else ret tt) >>
     ret (Continue (R := bool * validation_status) tt)) env = (r, env')
    ∧ trace env' = trace env
    ∧ (r = Ok (Continue tt) ∨ ∃ e, r = Raise e ∧ is_Exception e = false).
Proof.
  unfold bind. destruct (attempt <? max_attempts - 1).
  - destruct (sleep_run 1000 env) as (r & env' & E & T & [->|(e & -> & He)]);
      [lia| |]; rewrite E.
    + eexists _, _. split; [reflexivity|]. split; [exact T|]. by left.
    + eexists _, _. split; [reflexivity|]. split; [exact T|]. right. by exists e.
  - eexists _, _. split; [reflexivity|]. split; [reflexivity|]. by left.
Qed.

Lemma yields_read_text expected cell text :
  yields expected
    [if decide (PyStr.strip text = expected) then MATCH else MISMATCH]
    [ERead (GetText cell) (Returns text)].
Proof. intros rest. reflexivity. Qed.

Lemma validate_attempt_run expected attempt max_attempts (env : Env W) :
  ∃ r env' tr,
    validate_attempt config expected attempt max_attempts env = (r, env')
    ∧ trace env' = (trace env ++ tr)%list
    ∧ match r with
      | Ok (Return (b, st)) => settled expected tr b st ∧ st ≠ VALIDATION_FAILED
      | Ok (Continue _) => yields expected [] tr
      | Raise e => is_Exception e = false ∧ yields expected [] tr
      end.
Proof.
  unfold validate_attempt.
  match goal with |- context [try_except ?b _ env] => set (body := b) end.
  assert (Body : ∃ r env' tr,
    body env = (r, env') ∧ trace env' = (trace env ++ tr)%list
    ∧ match r with
      | Ok (Return (b, st)) => settled expected tr b st ∧ st ≠ VALIDATION_FAILED
      | Ok (Continue _) => yields expected [] tr
      | Raise e => yields expected [] tr
      end).
  { unfold body. unfold bind at 1.
    destruct (sleep_run 2000 env) as (r0 & env0 & E0 & T0 & [->|(e & -> & He)]);
      [lia| |]; rewrite E0.
    2:{ exists (Raise e), env0, []. split; [done|].
        split; [by rewrite app_nil_r|]. apply yields_nil. }
    unfold bind at 1.
    destruct (no_data_displayed_run expected SELECTORS.no_data_message env0)
      as (nd & env1 & tr1 & E1 & T1 & Y1).
    rewrite E1. rewrite T0 in T1. destruct nd.
    { exists (Ok (Return (false, NO_DATA))), env1, tr1. split; [done|].
      split; [exact T1|]. split; [|done]. destruct Y1 as [Y1 Hl]. by split. }
    unfold bind at 1.
    destruct (wait_for_element_run (SelList SELECTORS.result_dp_code_cell)
                (Some 10) false env1) as (cell & env2 & tr2 & E2 & T2 & F2).
    rewrite E2. rewrite T1, <- app_assoc in T2.
    assert (Y2 : yields expected [] (tr1 ++ tr2)).
    { apply yields_app_nil_l; [exact Y1|]. apply yields_quiet.
      eapply Forall_impl; [exact F2|]. apply is_locating_quiet. }
    destruct cell as [cell|].
    - unfold bind, do_read.
      destruct (read (GetText cell) (world env2)) as [[text|x|] w]; cbn.
      + case_bool_decide as Hm.
        * eexists _, _, ((tr1 ++ tr2) ++ [ERead (GetText cell) (Returns text)])%list.
          split; [reflexivity|]. cbn. split; [by rewrite T2, <- !app_assoc|].
          split; [|done]. split; [done|]. split.
          -- apply yields_app_nil_l; [exact Y2|].
             pose proof (yields_read_text expected cell text) as Y.
             by rewrite decide_True in Y.
          -- by exists (tr1 ++ tr2)%list, cell, text.
        * eexists _, _, ((tr1 ++ tr2) ++ [ERead (GetText cell) (Returns text)])%list.
          split; [reflexivity|]. cbn. split; [by rewrite T2, <- !app_assoc|].
          split; [|done]. split; [done|].
          apply yields_app_nil_l; [exact Y2|].
          pose proof (yields_read_text expected cell text) as Y.
          by rewrite decide_False in Y.
      + eexists _, _, ((tr1 ++ tr2) ++ [ERead (GetText cell) (Throws x)])%list.
        split; [reflexivity|]. cbn. split; [by rewrite T2, <- !app_assoc|].
        apply yields_app_nil_l; [exact Y2|]. apply yields_quiet. by repeat constructor.
      + unfold signal_handler. cbn. destruct (handler_installed env2);
          (eexists _, _, ((tr1 ++ tr2) ++ [ERead (GetText cell) Interrupted])%list;
           split; [reflexivity|]; cbn; split; [by rewrite T2, <- !app_assoc|];
           apply yields_app_nil_l; [exact Y2|]; apply yields_quiet;
           by repeat constructor).
    - destruct (pause_run attempt max_attempts env2)
        as (r & env3 & E3 & T3 & [->|(e & -> & He)]); rewrite E3.
      + exists (Ok (Continue tt)), env3, (tr1 ++ tr2)%list. split; [done|].
        split; [by rewrite T3|done].
      + exists (Raise e), env3, (tr1 ++ tr2)%list. split; [done|].
        split; [by rewrite T3|done]. }
  destruct Body as (r & env1 & tr & E & T & Hr).
  unfold try_except. rewrite E. destruct r as [[[b st]|[]]|e].
  - by exists (Ok (Return (b, st))), env1, tr.
  - by exists (Ok (Continue tt)), env1, tr.
  - unfold except_Exception. destruct (is_Exception e) eqn:He.
    + destruct (pause_run attempt max_attempts env1)
        as (r & env2 & E2 & T2 & [->|(e2 & -> & He2)]); rewrite E2.
      * exists (Ok (Continue tt)), env2, tr. split; [done|].
        split; [by rewrite T2|done].
      * exists (Raise e2), env2, tr. split; [done|].
        split; [by rewrite T2|done].
    + by exists (Raise e), env1, tr.
Qed.

Lemma settled_app expected t0 tr b st :
  yields expected [] t0 → settled expected tr b st →
  settled expected (t0 ++ tr) b st.
Proof.
  intros Y0. destruct st; simpl.
  - intros (-> & Y & pre & e & ->). split; [done|].
    split; [by apply yields_app_nil_l|]. exists (t0 ++ pre)%list, e.
    by rewrite app_assoc.
  - intros (-> & Y & pre & cell & text & -> & Hs). split; [done|].
    split; [by apply yields_app_nil_l|]. exists (t0 ++ pre)%list, cell, text.
    by rewrite app_assoc.
  - intros (-> & Y). split; [done|]. by apply yields_app_nil_l.
  - intros (-> & Y). split; [done|]. by apply yields_app_nil_l.
Qed.

Lemma validate_loop_run expected max_attempts n : ∀ attempt (env : Env W),
  ∃ r env' tr,
    validate_loop config n expected attempt max_attempts env = (r, env')
    ∧ trace env' = (trace env ++ tr)%list
    ∧ match r with
      | Ok (b, st) => settled expected tr b st
      | Raise e => is_Exception e = false ∧ yields expected [] tr
      end.
Proof.
  induction n as [|n IH]; intros attempt env; cbn [validate_loop].
  - exists (Ok (false, VALIDATION_FAILED)), env, []. split; [done|].
    split; [by rewrite app_nil_r|]. split; [done|apply yields_nil].
  - unfold bind.
    destruct (validate_attempt_run expected attempt max_attempts env)
      as (r & env1 & tr1 & E1 & T1 & H1).
    rewrite E1. destruct r as [[[b st]|[]]|e].
    + exists (Ok (b, st)), env1, tr1. split; [done|]. split; [done|]. tauto.
    + destruct (IH (attempt + 1) env1) as (r & env2 & tr2 & E2 & T2 & H2).
      exists r, env2, (tr1 ++ tr2)%list. split; [done|].
      split; [by rewrite T2, T1, app_assoc|].
      destruct r as [[b st]|e].
      * by apply settled_app.
      * destruct H2. split; [done|]. by apply yields_app_nil_l.
    + by exists (Raise e), env1, tr1.
Qed.

Lemma validate_filter_result_run expected (env : Env W) :
  ∃ r env' tr,
    validate_filter_result config expected 3 env = (r, env')
    ∧ trace env' = (trace env ++ tr)%list
    ∧ match r with
      | Ok (b, st) => settled expected tr b st
      | Raise e => is_Exception e = false ∧ yields expected [] tr
      end.
Proof. apply validate_loop_run. Qed.

(** The filter loop in the form that composes: [k] turns read a
    different code before the turn that decided. *)
Lemma filter_loop_run expected button n : ∀ env : Env W,
  ∃ r env' tr (k : nat),
    filter_loop config n button expected env = (r, env')
    ∧ trace env' = (trace env ++ tr)%list
    ∧ (k ≤ n)%nat
    ∧ match r with
      | Ok (Return false) =>
          (k < n)%nat
          ∧ yields expected (replicate k MISMATCH ++ [NO_DATA]) tr
          ∧ ∃ pre e, tr = (pre ++ [ETest (IsDisplayed e) (Returns true)])%list
      | Ok (Continue true) =>
          (k < n)%nat
          ∧ yields expected (replicate k MISMATCH ++ [MATCH]) tr
          ∧ ∃ pre cell text,
              tr = (pre ++ [ERead (GetText cell) (Returns text)])%list
              ∧ PyStr.strip text = expected
      | Ok (Continue false) => yields expected (replicate k MISMATCH) tr
      | Ok (Return true) => False
      | Raise e => is_Exception e = false ∧ yields expected (replicate k MISMATCH) tr
      end.
Proof.
  induction n as [|n IH]; intros env; cbn [filter_loop].
  - exists (Ok (Continue false)), env, [], 0%nat. split; [done|].
    split; [by rewrite app_nil_r|]. split; [done|]. apply yields_nil.
  - unfold bind at 1.
    destruct (safe_click_located_run button true 3 env)
      as (r0 & env1 & tr0 & E0 & T0 & F0 & H0).
    rewrite E0.
    assert (Y0 : yields expected [] tr0).
    { apply yields_quiet. eapply Forall_impl; [exact F0|]. apply is_click_quiet. }
    destruct r0 as [[|]|e]; cbn [negb].
    3:{ exists (Raise e), env1, tr0, 0%nat. split; [done|]. split; [done|].
        split; [lia|]. by split. }
    2:{ destruct (IH env1) as (r & env2 & tr & k & E & T & Hk & Hr).
        exists r, env2, (tr0 ++ tr)%list, k. split; [done|].
        split; [by rewrite T, T0, app_assoc|]. split; [lia|].
        destruct r as [[[|]|[|]]|e].
        - done.
        - destruct Hr as (Hlt & Y & pre & e & ->). split; [lia|].
          split; [by apply yields_app_nil_l|].
          exists (tr0 ++ pre)%list, e. by rewrite app_assoc.
        - destruct Hr as (Hlt & Y & pre & cell & text & -> & Hs). split; [lia|].
          split; [by apply yields_app_nil_l|].
          exists (tr0 ++ pre)%list, cell, text. by rewrite app_assoc.
        - by apply yields_app_nil_l.
        - destruct Hr as [He Y]. split; [done|]. by apply yields_app_nil_l. }
    unfold bind at 1.
    destruct (wait_for_page_load_run None env1)
      as (b1 & env2 & tr1 & E1 & T1 & F1).
    rewrite E1.
    assert (Y1 : yields expected [] (tr0 ++ tr1)).
    { apply yields_app_nil_l; [exact Y0|]. apply yields_quiet.
      eapply Forall_impl; [exact F1|]. apply is_settling_quiet. }
    rewrite T0, <- app_assoc in T1.
    unfold bind at 1.
    destruct (validate_filter_result_run expected env2)
      as (r2 & env3 & tr2 & E2 & T2 & H2).
    rewrite E2. rewrite T1, <- app_assoc in T2.
    destruct r2 as [[b st]|e].
    2:{ exists (Raise e), env3, ((tr0 ++ tr1) ++ tr2)%list, 0%nat.
        split; [done|]. split; [done|]. split; [lia|].
        destruct H2 as [He Y2]. split; [done|]. by apply yields_app_nil_l. }
    pose proof (settled_app expected (tr0 ++ tr1) tr2 b st Y1 H2) as S2.
    cbn [snd]. destruct st; simpl in S2.
    + exists (Ok (Return false)), env3, ((tr0 ++ tr1) ++ tr2)%list, 0%nat.
      split; [done|]. split; [done|]. split; [lia|]. split; [lia|]. tauto.
    + exists (Ok (Continue true)), env3, ((tr0 ++ tr1) ++ tr2)%list, 0%nat.
      split; [done|]. split; [done|]. split; [lia|]. split; [lia|]. tauto.
    + destruct S2 as [_ Y2]. unfold bind.
      destruct (sleep_run 1000 env3) as (r3 & env4 & E3 & T3 & [->|(e & -> & He)]);
        [lia| |]; rewrite E3.
      * destruct (IH env4) as (r & env5 & tr & k & E & T & Hk & Hr).
        exists r, env5, (((tr0 ++ tr1) ++ tr2) ++ tr)%list, (S k).
        split; [done|]. split; [rewrite T, T3, T2; by rewrite <- !app_assoc|].
        split; [lia|].
        destruct r as [[[|]|[|]]|e]; cbn [replicate].
        -- done.
        -- destruct Hr as (Hlt & Y & pre & e & ->). split; [lia|].
           split; [by apply (yields_app expected [MISMATCH])|].
           exists (((tr0 ++ tr1) ++ tr2) ++ pre)%list, e. by rewrite app_assoc.
        -- destruct Hr as (Hlt & Y & pre & cell & text & -> & Hs). split; [lia|].
           split; [by apply (yields_app expected [MISMATCH])|].
           exists (((tr0 ++ tr1) ++ tr2) ++ pre)%list, cell, text.
           by rewrite app_assoc.
        -- by apply (yields_app expected [MISMATCH]).
        -- destruct Hr as [He Y]. split; [done|].
           by apply (yields_app expected [MISMATCH]).
      * exists (Raise e), env4, ((tr0 ++ tr1) ++ tr2)%list, 1%nat.
        split; [done|]. split; [by rewrite T3|]. split; [lia|]. by split.
    + destruct S2 as [_ Y2]. unfold bind.
      destruct (sleep_run 1000 env3) as (r3 & env4 & E3 & T3 & [->|(e & -> & He)]);
        [lia| |]; rewrite E3.
      * destruct (IH env4) as (r & env5 & tr & k & E & T & Hk & Hr).
        exists r, env5, (((tr0 ++ tr1) ++ tr2) ++ tr)%list, k.
        split; [done|]. split; [rewrite T, T3, T2; by rewrite <- !app_assoc|].
        split; [lia|].
        destruct r as [[[|]|[|]]|e].
        -- done.
        -- destruct Hr as (Hlt & Y & pre & e & ->). split; [lia|].
           split; [by apply yields_app_nil_l|].
           exists (((tr0 ++ tr1) ++ tr2) ++ pre)%list, e. by rewrite app_assoc.
        -- destruct Hr as (Hlt & Y & pre & cell & text & -> & Hs). split; [lia|].
           split; [by apply yields_app_nil_l|].
           exists (((tr0 ++ tr1) ++ tr2) ++ pre)%list, cell, text.
           by rewrite app_assoc.
        -- by apply yields_app_nil_l.
        -- destruct Hr as [He Y]. split; [done|]. by apply yields_app_nil_l.
      * exists (Raise e), env4, ((tr0 ++ tr1) ++ tr2)%list, 0%nat.
        split; [done|]. split; [by rewrite T3|]. split; [lia|]. by split.
Qed.

Lemma filter_loop_stage_outcome expected button n (env : Env W) :
  let out := filter_loop config n button expected env in
  stage_outcome expected n (new_trace env (snd out)) (fst out).
Proof.
  cbv zeta.
  destruct (filter_loop_run expected button n env)
    as (r & env' & tr & k & E & T & Hk & Hr).
  rewrite E. cbn [fst snd]. rewrite (new_trace_app _ _ _ T).
  exists k. split; [exact Hk|].
  destruct r as [[[|]|[|]]|e].
  - done.
  - destruct Hr as (Hlt & Y & pre & e & ->). split; [done|].
    split; [by apply yields_verdicts|]. exists e. by rewrite last_snoc.
  - destruct Hr as (Hlt & Y & pre & cell & text & -> & Hs). split; [done|].
    split; [by apply yields_verdicts|]. exists cell, text. by rewrite last_snoc.
  - by apply yields_verdicts.
  - destruct Hr as [He Y]. split; [done|]. by apply yields_verdicts.
Qed.

(** What follows the stage inside [process_ticket_creation]. *)
Lemma filter_and_validate_after_stage expected (env : Env W) :
  let found := wait_for_element config (SelList SELECTORS.filter_button) None true env in
  match fst found with
  | Ok (Some button) =>
      let stage := filter_loop config 3 button expected (snd found) in
      filter_and_validate config expected env
      = match fst stage with
        | Ok (Return b) => (Ok b, snd stage)
        | Ok (Continue true) => create_ticket config (snd stage)
        | Ok (Continue false) => (Ok false, snd stage)
        | Raise e => (Raise e, snd stage)
        end
  | Ok None => filter_and_validate config expected env = (Ok false, snd found)
  | Raise _ => False
  end.
Proof.
  cbv zeta. unfold filter_and_validate, bind.
  destruct (wait_for_element_run (SelList SELECTORS.filter_button) None true env)
    as (r & env1 & tr & E & _).
  rewrite E. cbn [fst snd]. destruct r as [button|]; [|done].
  destruct (filter_loop config 3 button expected env1) as [[[b|[|]]|e] env2];
    reflexivity.
Qed.

End ValidationFacts.

(** ** The run controller *)

Section RunFacts.
Context {W : Type} `{Driver W}.
Variable config : Config.
Variable master_data : gmap string DataManager.master_entry.
Import Ledger.

(** One turn of the item loop, for every world: what it books and how
    it ends.  [Ok true] goes on with the next code, [Ok false] is the
    [break], [SystemExit] leaves the loop by propagating. *)
Lemma item_turn_run index total code (bot : Bot) (env : Env W) :
  ∃ r bot' env' entry,
    item_turn config master_data index total code (bot, env) = (r, (bot', env'))
    ∧ bot' = book code entry bot
    ∧ (r = Ok true ∨ r = Ok false ∨ ∃ c, r = Raise (SystemExit c))
    ∧ match entry with
      | Some Skipped =>
          (code ∈ processed_dps bot ∨ master_data !! code = None)
          ∧ r = Ok true ∧ world env' = world env ∧ trace env' = trace env
      | Some Successful =>
          (code ∉ processed_dps bot)
          ∧ ∃ data, master_data !! code = Some data
              ∧ fst (ticket_attempts config (Z.to_nat (MAX_RETRIES config)) 0
                       (DataManager.City data) (DataManager.RK data) code
                       (snd (log INFO (MsgProcessing index total code) env)))
                = Ok true
      | Some Failed =>
          (code ∉ processed_dps bot)
          ∧ ∃ data, master_data !! code = Some data
              ∧ fst (ticket_attempts config (Z.to_nat (MAX_RETRIES config)) 0
                       (DataManager.City data) (DataManager.RK data) code
                       (snd (log INFO (MsgProcessing index total code) env)))
                ≠ Ok true
      | None =>
          (code ∉ processed_dps bot) ∧ r ≠ Ok true
          ∧ ∃ data, master_data !! code = Some data
              ∧ fst (ticket_attempts config (Z.to_nat (MAX_RETRIES config)) 0
                       (DataManager.City data) (DataManager.RK data) code
                       (snd (log INFO (MsgProcessing index total code) env)))
                ≠ Ok true
      end.
Proof.
  unfold item_turn, try_except. unfold bind at 1. unfold process_item.
  unfold bind at 1. unfold get_bot at 1. cbn [fst snd].
  case_bool_decide as Hp.
  { cbn. eexists _, _, _, (Some Skipped). split; [reflexivity|].
    split; [reflexivity|]. split; [by left|]. tauto. }
  destruct (master_data !! code) as [data|] eqn:Hm.
  2:{ cbn. eexists _, _, _, (Some Skipped). split; [reflexivity|].
      split; [reflexivity|]. split; [by left|]. tauto. }
  unfold bind at 1. unfold lift at 1, log at 1. cbn [fst snd].
  unfold bind at 1. unfold lift at 1. cbn [fst snd].
  set (env1 := MkEnv (world env) (trace env)
                 (logs env ++ [(INFO, MsgProcessing index total code)])
                 (handler_installed env)).
  change (snd (log INFO (MsgProcessing index total code) env)) with env1.
  destruct (ticket_attempts config (Z.to_nat (MAX_RETRIES config)) 0
              (DataManager.City data) (DataManager.RK data) code env1)
    as [[[|]|e] env2] eqn:Et.
  - (* success *)
    cbn -[sleep]. unfold lift. cbn -[sleep].
    match goal with |- context [sleep 1000 ?e3] =>
      destruct (sleep_run 1000 e3) as (r & env4 & Es & _ & [->|(e & -> & He)]);
        [lia| |]; rewrite Es end.
    + eexists _, _, _, (Some Successful). split; [reflexivity|].
      split; [reflexivity|]. split; [by left|]. split; [done|]. exists data; by rewrite Et.
    + destruct e as [x| |c]; [done| |]; cbn.
      * eexists _, _, _, (Some Successful). split; [reflexivity|].
        split; [reflexivity|]. split; [right; by left|]. split; [done|].
        exists data; by rewrite Et.
      * eexists _, _, _, (Some Successful). split; [reflexivity|].
        split; [reflexivity|]. split; [right; right; by exists c|].
        split; [done|]. exists data; by rewrite Et.
  - (* all attempts used or given up *)
    cbn -[sleep]. unfold lift. cbn -[sleep].
    match goal with |- context [sleep 1000 ?e3] =>
      destruct (sleep_run 1000 e3) as (r & env4 & Es & _ & [->|(e & -> & He)]);
        [lia| |]; rewrite Es end.
    + eexists _, _, _, (Some Failed). split; [reflexivity|].
      split; [reflexivity|]. split; [by left|]. split; [done|]. exists data; by rewrite Et.
    + destruct e as [x| |c]; [done| |]; cbn.
      * eexists _, _, _, (Some Failed). split; [reflexivity|].
        split; [reflexivity|]. split; [right; by left|]. split; [done|].
        exists data; by rewrite Et.
      * eexists _, _, _, (Some Failed). split; [reflexivity|].
        split; [reflexivity|]. split; [right; right; by exists c|].
        split; [done|]. exists data; by rewrite Et.
  - (* the attempts raised *)
    cbn. destruct e as [x| |c]; cbn.
    + eexists _, _, _, (Some Failed). split; [reflexivity|].
      split; [reflexivity|]. split; [by left|]. split; [done|].
      exists data; by rewrite Et.
    + eexists _, _, _, None. split; [reflexivity|].
      split; [reflexivity|]. split; [right; by left|].
      split; [done|]. split; [done|]. exists data; by rewrite Et.
    + eexists _, _, _, None. split; [reflexivity|].
      split; [reflexivity|]. split; [right; right; by exists c|].
      split; [done|]. split; [done|]. exists data; by rewrite Et.
Qed.

(** *** The attempts for one code *)

Lemma ticket_attempts_first city rk code n attempt (env env' : Env W) :
  process_ticket_creation config city rk code env = (Ok true, env') →
  ticket_attempts config (S n) attempt city rk code env = (Ok true, env').
Proof.
  intros E. cbn [ticket_attempts]. unfold bind at 1.
  unfold ticket_attempt, try_except. unfold bind at 1. by rewrite E.
Qed.

(** A run of attempts that says [True] stopped right after an engine
    run that said [True]. *)
Lemma ticket_attempts_true_last city rk code n : ∀ attempt (env env' : Env W),
  ticket_attempts config n attempt city rk code env = (Ok true, env') →
  ∃ env0, process_ticket_creation config city rk code env0 = (Ok true, env').
Proof.
  induction n as [|n IH]; intros attempt env env' E; cbn [ticket_attempts] in E.
  - discriminate.
  - unfold bind at 1 in E.
    destruct (ticket_attempt config city rk code attempt env)
      as [[[b|[]]|e] env1] eqn:Ea.
    + unfold ret in E. injection E as -> <-.
      exists env. unfold ticket_attempt, try_except in Ea.
      unfold bind at 1 in Ea.
      destruct (process_ticket_creation config city rk code env)
        as [[[|]|e] env2].
      * unfold ret in Ea. by injection Ea as <-.
      * exfalso. destruct (attempt <? MAX_RETRIES config - 1).
        -- unfold bind at 1, log at 1 in Ea. cbn [fst snd] in Ea.
           unfold bind at 1 in Ea.
           match type of Ea with context [handle_page_refresh_and_navigation ?c ?e] =>
             destruct (handle_page_refresh_and_navigation c e) as [[[|]|x] env3] end;
             cbn [negb] in Ea.
           ++ unfold bind in Ea.
              destruct (sleep (1000 * RETRY_DELAY config) env3) as [[[]|x] env4];
                unfold ret, except_Exception in Ea; cbn in Ea;
                [done|]. destruct (is_Exception x); [|done]. cbn in Ea.
              unfold bind, log in Ea. cbn in Ea.
              destruct (sleep (1000 * RETRY_DELAY config) _) as [[[]|y] env5];
                unfold ret in Ea; done.
           ++ unfold ret in Ea. done.
           ++ unfold except_Exception in Ea. destruct (is_Exception x); [|done].
              unfold bind, log in Ea. cbn in Ea.
              destruct (sleep (1000 * RETRY_DELAY config) _) as [[[]|y] env5];
                unfold ret in Ea; done.
        -- unfold ret in Ea. done.
      * exfalso. unfold except_Exception in Ea. destruct (is_Exception e); [|done].
        unfold bind, log in Ea. cbn in Ea.
        destruct (attempt <? MAX_RETRIES config - 1).
        -- destruct (sleep (1000 * RETRY_DELAY config) _) as [[[]|y] env5];
             unfold ret in Ea; done.
        -- unfold ret in Ea. done.
    + by apply IH in E.
    + discriminate.
Qed.

Lemma ticket_attempts_never_true city rk code :
  (∀ env : Env W, fst (process_ticket_creation config city rk code env) ≠ Ok true) →
  ∀ n attempt (env : Env W),
    fst (ticket_attempts config n attempt city rk code env) ≠ Ok true.
Proof.
  intros Hf n attempt env Ht.
  destruct (ticket_attempts config n attempt city rk code env) as [r env'] eqn:E.
  cbn in Ht. subst r. apply ticket_attempts_true_last in E as [env0 E0].
  apply (Hf env0). by rewrite E0.
Qed.

End RunFacts.

(** ** The books over a whole run *)

Section Books.
Context {W : Type} `{Driver W}.
Import Ledger.

Lemma same_books_refl bot : same_books bot bot.
Proof. by repeat split. Qed.

Lemma same_books_trans b1 b2 b3 :
  same_books b1 b2 → same_books b2 b3 → same_books b1 b3.
Proof.
  unfold same_books. intros (?&?&?&?) (?&?&?&?). repeat split; congruence.
Qed.

Lemma keeps_ret {A} (a : A) : keeps (W := W) (ret a).
Proof. intros s. apply same_books_refl. Qed.

Lemma keeps_raise {A} e : keeps (W := W) (A := A) (raise e).
Proof. intros s. apply same_books_refl. Qed.

Lemma keeps_get_bot : keeps (W := W) get_bot.
Proof. intros s. apply same_books_refl. Qed.

Lemma keeps_lift {A} (m : M (Env W) A) : keeps (lift m).
Proof.
  intros [bot env]. unfold lift. cbn. destruct (m env). apply same_books_refl.
Qed.

Lemma keeps_update f : (∀ bot, same_books bot (f bot)) → keeps (W := W) (update f).
Proof. intros Hf [bot env]. apply Hf. Qed.

Lemma keeps_bind {A C} (m : M (Bot * Env W) A) (k : A → M (Bot * Env W) C) :
  keeps m → (∀ a, keeps (k a)) → keeps (bind m k).
Proof.
  intros Hm Hk s. unfold bind. specialize (Hm s).
  destruct (m s) as [[a|e] s1]; cbn in *; [|done].
  eapply same_books_trans; [exact Hm|apply Hk].
Qed.

Lemma keeps_try_except {A} (body : M (Bot * Env W) A) handler :
  keeps body → (∀ e h, handler e = Some h → keeps h) →
  keeps (try_except body handler).
Proof.
  intros Hm Hh s. unfold try_except. specialize (Hm s).
  destruct (body s) as [[a|e] s1]; cbn in *; [done|].
  destruct (handler e) as [h|] eqn:E; [|done].
  eapply same_books_trans; [exact Hm|by eapply Hh].
Qed.

Lemma keeps_try_finally {A} (body : M (Bot * Env W) A) fin :
  keeps body → keeps fin → keeps (try_finally body fin).
Proof.
  intros Hm Hf s. unfold try_finally. specialize (Hm s).
  destruct (body s) as [r s1]. specialize (Hf s1).
  destruct (fin s1) as [[[]|e] s2]; cbn in *;
    eapply same_books_trans; eauto.
Qed.

End Books.

Ltac keeps_step :=
  first
    [ apply keeps_ret | apply keeps_raise | apply keeps_get_bot | apply keeps_lift
    | apply keeps_update; intros ?; by repeat split
    | apply keeps_bind; [|intros ?]
    | apply keeps_try_finally
    | apply keeps_try_except;
      [|let e := fresh "e" in let h := fresh "h" in let E := fresh "E" in
        intros e h E; unfold bare, except_Exception in E;
        try (destruct e as [[]| |]; simpl in E); simplify_eq]
    | match goal with
      | |- Ledger.keeps (if ?b then _ else _) => destruct b
      | |- Ledger.keeps (match ?x with _ => _ end) => destruct x
      end ].

Ltac keeps_auto := repeat keeps_step.

Section RunBooks.
Context {W : Type} `{Driver W}.
Variable config : Config.
Import Ledger.

Lemma manager_cleanup_keeps : keeps (W := W) manager_cleanup.
Proof. unfold manager_cleanup. keeps_auto. Qed.

Lemma cleanup_keeps : keeps (W := W) cleanup.
Proof. unfold cleanup. keeps_auto; apply manager_cleanup_keeps. Qed.

Lemma generate_final_report_keeps total : keeps (W := W) (generate_final_report total).
Proof. unfold generate_final_report. keeps_auto. Qed.

Lemma create_driver_keeps : keeps (W := W) (create_driver config).
Proof. unfold create_driver. keeps_auto; apply manager_cleanup_keeps. Qed.

Lemma initialize_keeps : keeps (W := W) (initialize config).
Proof.
  unfold initialize. keeps_auto; first [apply create_driver_keeps|apply cleanup_keeps].
Qed.

(** *** Ledgers *)

Lemma book_all_app l1 l2 bot : book_all (l1 ++ l2) bot = book_all l2 (book_all l1 bot).
Proof. revert bot. induction l1 as [|[code c] l1 IH]; intros bot; simpl; auto. Qed.

Lemma tally_cons c code c' ledger :
  tally c ((code, c') :: ledger)
  = (if decide (c' = c) then 1 else 0) + tally c ledger.
Proof.
  unfold tally. rewrite filter_cons. simpl. destruct (decide (c' = c)); simpl; lia.
Qed.

Lemma booked_as_cons c code c' ledger :
  booked_as c ((code, c') :: ledger)
  = if decide (c' = c) then code :: booked_as c ledger else booked_as c ledger.
Proof.
  unfold booked_as. rewrite filter_cons. simpl. by destruct (decide (c' = c)).
Qed.

Lemma book_all_books ledger : ∀ bot,
  let bot' := book_all ledger bot in
  processed_dps bot' = list_to_set (booked_as Successful ledger) ∪ processed_dps bot
  ∧ successful (stats bot') = successful (stats bot) + tally Successful ledger
  ∧ failed (stats bot') = failed (stats bot) + tally Failed ledger
  ∧ skipped (stats bot') = skipped (stats bot) + tally Skipped ledger
  ∧ driver_manager bot' = driver_manager bot
  ∧ start_time (stats bot') = start_time (stats bot)
  ∧ end_time (stats bot') = end_time (stats bot).
Proof.
  induction ledger as [|[code c] ledger IH]; intros bot; cbv zeta;
    cbn [book_all].
  - unfold tally, booked_as. simpl. split_and!; try done; try lia. set_solver.
  - destruct (IH (book code (Some c) bot)) as (P & S & F & K & D & T1 & T2).
    rewrite P, S, F, K, D, T1, T2, !tally_cons, booked_as_cons.
    destruct c; simpl; split_and!; try done; try lia; set_solver.
Qed.

Lemma booked_as_subseteq c ledger : booked_as c ledger ⊆ ledger.*1.
Proof.
  unfold booked_as. intros x Hx. apply list_elem_of_fmap in Hx as ([code c'] & -> & Hin).
  apply list_elem_of_filter in Hin as [_ Hin]. apply list_elem_of_fmap.
  by exists (code, c').
Qed.

(** Successful entries are codes of the lookup table. *)
Lemma ledger_ok_successful master_data ledger : ∀ processed code,
  ledger_ok master_data processed ledger →
  code ∈ booked_as Successful ledger → is_Some (master_data !! code).
Proof.
  induction ledger as [|[code' c] ledger IH]; intros processed code Hok Hin.
  - unfold booked_as in Hin. simpl in Hin. by apply elem_of_nil in Hin.
  - rewrite booked_as_cons in Hin. destruct c; simpl in *.
    + destruct Hok as (_ & Hs & Hok). apply elem_of_cons in Hin as [->|Hin]; [done|].
      by eapply IH.
    + destruct Hok as (_ & _ & Hok). by eapply IH.
    + destruct Hok as (_ & Hok). by eapply IH.
Qed.

(** With no code twice, a skip can only be a code the table lacks. *)
Lemma ledger_ok_skipped master_data ledger : ∀ processed code,
  ledger_ok master_data processed ledger →
  NoDup ledger.*1 →
  (∀ x, x ∈ processed → x ∉ ledger.*1) →
  (code, Skipped) ∈ ledger → master_data !! code = None.
Proof.
  induction ledger as [|[code' c] ledger IH]; intros processed code Hok Hnd Hfresh Hin.
  - by apply elem_of_nil in Hin.
  - simpl in Hnd. apply NoDup_cons in Hnd as [Hnotin Hnd].
    apply elem_of_cons in Hin as [Heq|Hin].
    + injection Heq as <- <-. simpl in Hok. destruct Hok as ([Hp|Hn] & _); [|done].
      exfalso. apply (Hfresh code Hp). simpl. apply elem_of_cons. by left.
    + destruct c; simpl in Hok.
      * destruct Hok as (_ & _ & Hok). eapply IH; [exact Hok|exact Hnd| |exact Hin].
        intros x Hx. apply elem_of_union in Hx as [Hx|Hx].
        -- apply elem_of_singleton in Hx as ->. exact Hnotin.
        -- intros Hx'. apply (Hfresh x Hx). simpl. apply elem_of_cons. by right.
      * destruct Hok as (_ & _ & Hok). eapply IH; [exact Hok|exact Hnd| |exact Hin].
        intros x Hx Hx'. apply (Hfresh x Hx). simpl. apply elem_of_cons. by right.
      * destruct Hok as (_ & Hok). eapply IH; [exact Hok|exact Hnd| |exact Hin].
        intros x Hx Hx'. apply (Hfresh x Hx). simpl. apply elem_of_cons. by right.
Qed.

(** The item loop, for every world and every start state: it books a
    ledger over a prefix of the codes, every entry as the controller's
    rule says, and ends normally or by [SystemExit]. *)
Lemma item_loop_run master_data total codes : ∀ index (bot : Bot) (env : Env W),
  ∃ r bot' env' ledger,
    item_loop config master_data index total codes (bot, env) = (r, (bot', env'))
    ∧ bot' = book_all ledger bot
    ∧ ledger.*1 `prefix_of` codes
    ∧ ledger_ok master_data (processed_dps bot) ledger
    ∧ (r = Ok tt ∨ ∃ c, r = Raise (SystemExit c)).
Proof.
  induction codes as [|code rest IH]; intros index bot env; cbn [item_loop].
  - exists (Ok tt), bot, env, []. split; [done|]. split; [done|].
    split; [done|]. split; [done|]. by left.
  - unfold bind at 1.
    destruct (item_turn_run config master_data index total code bot env)
      as (r & bot1 & env1 & entry & E & Hb & Hr & He).
    rewrite E.
    assert (Hone : ∀ c, entry = Some c →
              ledger_ok master_data (processed_dps bot) [(code, c)]).
    { intros c ->. destruct c; simpl.
      - destruct He as (Hp & d & Hd & _). rewrite Hd. split; [done|]. by split.
      - destruct He as (Hp & d & Hd & _). rewrite Hd. split; [done|]. by split.
      - destruct He as (Hs & _). by split. }
    destruct r as [[|]|e].
    + (* on to the next code *)
      destruct entry as [c|].
      2:{ destruct He as (_ & Hne & _). done. }
      destruct (IH (index + 1) bot1 env1) as (r & bot2 & env2 & ledger & E2 & Hb2 & Hpre & Hok & Hr2).
      exists r, bot2, env2, ((code, c) :: ledger). split; [exact E2|].
      split; [by rewrite Hb2, Hb|]. split; [simpl; by apply prefix_cons|].
      split; [|exact Hr2].
      specialize (Hone c eq_refl). subst bot1.
      destruct c; simpl in *.
      * destruct Hone as (? & ? & _). split; [done|]. split; [done|]. exact Hok.
      * destruct Hone as (? & ? & _). split; [done|]. split; [done|]. exact Hok.
      * destruct Hone as (? & _). split; [done|]. exact Hok.
    + (* break *)
      exists (Ok tt), bot1, env1, (match entry with Some c => [(code, c)] | None => [] end).
      split; [done|]. destruct entry as [c|].
      * split; [by rewrite Hb|]. split; [simpl; apply prefix_cons, prefix_nil|].
        split; [by apply Hone|by left].
      * split; [by rewrite Hb|]. split; [apply prefix_nil|]. split; [done|by left].
    + destruct Hr as [?|[?|[c [= ->]]]]; [done|done|].
      exists (Raise (SystemExit c)), bot1, env1,
        (match entry with Some c => [(code, c)] | None => [] end).
      split; [done|]. destruct entry as [c'|].
      * split; [by rewrite Hb|]. split; [simpl; apply prefix_cons, prefix_nil|].
        split; [by apply Hone|right; by exists c].
      * split; [by rewrite Hb|]. split; [apply prefix_nil|].
        split; [done|right; by exists c].
Qed.

Lemma same_books_book_all ledger b1 b2 :
  same_books b1 b2 → same_books (book_all ledger b1) (book_all ledger b2).
Proof.
  intros (P & S & F & K).
  destruct (book_all_books ledger b1) as (P1 & S1 & F1 & K1 & _).
  destruct (book_all_books ledger b2) as (P2 & S2 & F2 & K2 & _).
  unfold same_books. rewrite P1, S1, F1, K1, P2, S2, F2, K2, P, S, F, K. done.
Qed.

(** What a run leaves in the books: either it stopped before the item
    loop and the books are as they were, or the loop booked a ledger
    from a cleared processed set. *)
Lemma run_automation_books master_file daily_file (bot : Bot) (env : Env W) :
  let out := run_automation config master_file daily_file (bot, env) in
  let bot' := fst (snd out) in
  let codes := DataManager.read_daily_input daily_file in
  let master_data := default ∅ (DataManager.load_master_data master_file) in
  same_books bot bot'
  ∨ ∃ ledger,
      same_books (book_all ledger (clear_processed bot)) bot'
      ∧ ledger.*1 `prefix_of` codes
      ∧ ledger_ok master_data ∅ ledger.
Proof.
  cbv zeta. unfold run_automation.
  match goal with |- context [try_finally (try_except ?b ?h) cleanup] =>
    set (body := b); set (handler := h) end.
  set (Q := λ bot' : Bot,
    same_books bot bot'
    ∨ ∃ ledger,
        same_books (book_all ledger (clear_processed bot)) bot'
        ∧ ledger.*1 `prefix_of` DataManager.read_daily_input daily_file
        ∧ ledger_ok (default ∅ (DataManager.load_master_data master_file)) ∅ ledger).
  assert (HQ : ∀ b1 b2, Q b1 → same_books b1 b2 → Q b2).
  { intros b1 b2 [Hs|(ledger & Hs & Hp & Hok)] H12.
    - left. by eapply same_books_trans.
    - right. exists ledger. split; [by eapply same_books_trans|done]. }
  assert (Body : Q (fst (snd (body (bot, env))))).
  { unfold body. unfold bind at 1. unfold lift at 1, log at 1. cbn [fst snd].
    unfold bind at 1. unfold lift at 1, load_master_data at 1. cbn [fst snd].
    destruct (DataManager.load_master_data master_file) as [m|] eqn:Em.
    2:{ cbn. left. apply same_books_refl. }
    unfold bind at 1, log at 1. cbn [fst snd]. unfold ret at 1. cbn [fst snd].
    unfold bind at 1. unfold lift at 1, read_daily_input at 1.
    destruct daily_file as [lines|].
    2:{ cbn. left. apply same_books_refl. }
    unfold bind at 1, log at 1. cbn [fst snd]. unfold ret at 1. cbn [fst snd].
    remember (DataManager.read_daily_input (Some lines)) as codes eqn:Ec in |- *.
    destruct codes as [|c0 cs].
    { cbn. left. apply same_books_refl. }
    unfold bind at 1. unfold lift at 1. cbn [fst snd].
    match goal with |- context [login config ?e] =>
      destruct (login config e) as [[[|]|x] env1] end.
    2:{ cbn. left. apply same_books_refl. }
    2:{ cbn. left. apply same_books_refl. }
    cbn [negb]. unfold bind at 1. unfold lift at 1. cbn [fst snd].
    destruct (navigate_to_dp_menu config env1) as [[[|]|x] env2].
    2:{ cbn. left. apply same_books_refl. }
    2:{ cbn. left. apply same_books_refl. }
    cbn [negb]. unfold bind at 1. unfold update at 1. cbn [fst snd].
    unfold bind at 1. unfold lift at 1, log at 1. cbn [fst snd].
    unfold bind at 1.
    match goal with |- context [item_loop config m 1 ?t ?cs (?b0, ?e0)] =>
      destruct (item_loop_run m t cs 1 b0 e0)
        as (r & bot3 & env3 & ledger & E3 & Hb & Hp & Hok & Hr) end.
    rewrite E3.
    assert (Q3 : Q bot3).
    { right. exists ledger. subst bot3. split; [apply same_books_refl|].
      split; [by rewrite <- Ec|]. exact Hok. }
    destruct r as [[]|x]; [|exact Q3].
    unfold bind at 1.
    match goal with |- context [generate_final_report ?t ?s] =>
      pose proof (generate_final_report_keeps t s) as Hk;
      destruct (generate_final_report t s) as [[[]|x] [bot4 env4]] end;
      cbn [fst snd] in *; by eapply HQ. }
  unfold try_finally, try_except.
  destruct (body (bot, env)) as [[b|e] [bot1 env1]]; cbn [fst snd] in Body.
  - pose proof (cleanup_keeps (bot1, env1)) as Hc.
    destruct (cleanup (bot1, env1)) as [[[]|x] [bot2 env2]]; cbn [fst snd] in *;
      by eapply HQ.
  - assert (Hh : ∃ r bot2 env2, match handler e with
                  | Some h => h (bot1, env1)
                  | None => (Raise e, (bot1, env1))
                  end = (r, (bot2, env2)) ∧ Q bot2).
    { unfold handler, except_Exception. destruct (is_Exception e).
      - cbn. eexists _, _, _. split; [reflexivity|exact Body].
      - eexists _, _, _. split; [reflexivity|exact Body]. }
    destruct Hh as (r & bot2 & env2 & -> & Q2).
    pose proof (cleanup_keeps (bot2, env2)) as Hc.
    destruct (cleanup (bot2, env2)) as [[[]|x] [bot3 env3]]; cbn [fst snd] in *;
      by eapply HQ.
Qed.

End RunBooks.

Lemma tally_total ledger :
  Ledger.tally Ledger.Successful ledger + Ledger.tally Ledger.Failed ledger
  + Ledger.tally Ledger.Skipped ledger = Z.of_nat (length ledger).
Proof.
  induction ledger as [|[code c] ledger IH]; [reflexivity|].
  rewrite !tally_cons. cbn [length]. destruct c; simpl; lia.
Qed.

Lemma prefix_NoDup {A} (l1 l2 : list A) : l1 `prefix_of` l2 → NoDup l2 → NoDup l1.
Proof. intros [k ->] Hnd. by apply NoDup_app in Hnd as (? & _). Qed.

Lemma prefix_elem_of {A} (l1 l2 : list A) x : l1 `prefix_of` l2 → x ∈ l1 → x ∈ l2.
Proof. intros [k ->] Hx. apply elem_of_app. by left. Qed.

(** A run from blank books fills them from a ledger: the shared part
    of C4 and C5. *)
Lemma run_automation_ledger {W : Type} `{Driver W} (config : Config)
    master_file daily_file manager started ended (env : Env W) :
  let out := run_automation config master_file daily_file
               (Ledger.blank_bot manager started ended, env) in
  let bot' := fst (snd out) in
  let codes := DataManager.read_daily_input daily_file in
  let master_data := default ∅ (DataManager.load_master_data master_file) in
  ∃ ledger,
    NoDup ledger.*1 ∧ ledger.*1 `prefix_of` codes
    ∧ Ledger.ledger_ok master_data ∅ ledger
    ∧ successful (stats bot') = Ledger.tally Ledger.Successful ledger
    ∧ failed (stats bot') = Ledger.tally Ledger.Failed ledger
    ∧ skipped (stats bot') = Ledger.tally Ledger.Skipped ledger
    ∧ processed_dps bot' = list_to_set (Ledger.booked_as Ledger.Successful ledger).
Proof.
  cbv zeta.
  pose proof (DailyInput.read_daily_input_NoDup daily_file) as Hnd.
  destruct (run_automation_books config master_file daily_file
              (Ledger.blank_bot manager started ended) env)
    as [(P & S & F & K)|(ledger & (P & S & F & K) & Hp & Hok)].
  - exists []. rewrite P, S, F, K. split_and!; try done; try constructor.
    apply prefix_nil.
  - exists ledger.
    change (clear_processed (Ledger.blank_bot manager started ended))
      with (Ledger.blank_bot manager started ended) in *.
    destruct (book_all_books ledger (Ledger.blank_bot manager started ended))
      as (P1 & S1 & F1 & K1 & _).
    rewrite P, S, F, K, P1, S1, F1, K1. cbn.
    split_and!; try done; try lia.
    + by eapply prefix_NoDup.
    + set_solver.
Qed.

(** C4.  Whatever the browser does, a run from blank books leaves books
    that a ledger explains: the ledger lists a prefix of the loaded
    codes, no code twice, each with the one counter it was booked in;
    the three counters are the tallies of the ledger and the processed
    set is the set of codes booked as successful.  Hence the processed
    set lies within the lookup keys and the daily list, and the
    counters add up to at most the number of codes.  No turn of the
    item loop, and so no run of it, removes a code from the set. *)
Theorem run_controller_invariants {W : Type} `{Driver W} (config : Config)
    (master_file : option DataManager.csv_file)
    (daily_file : option (list string))
    (manager : WebDriverManager) (started ended : option Z) (env : Env W) :
  let out := run_automation config master_file daily_file
               (Ledger.blank_bot manager started ended, env) in
  let bot' := fst (snd out) in
  let codes := DataManager.read_daily_input daily_file in
  let master_data := default ∅ (DataManager.load_master_data master_file) in
  (∃ ledger,
     NoDup ledger.*1 ∧ ledger.*1 `prefix_of` codes
     ∧ successful (stats bot') = Ledger.tally Ledger.Successful ledger
     ∧ failed (stats bot') = Ledger.tally Ledger.Failed ledger
     ∧ skipped (stats bot') = Ledger.tally Ledger.Skipped ledger
     ∧ processed_dps bot' = list_to_set (Ledger.booked_as Ledger.Successful ledger))
  ∧ processed_dps bot' ⊆ dom master_data ∩ list_to_set codes
  ∧ successful (stats bot') + failed (stats bot') + skipped (stats bot')
    ≤ Z.of_nat (length codes)
  ∧ (∀ master index total code bot0 (env0 : Env W),
       processed_dps bot0
       ⊆ processed_dps (fst (snd (item_turn config master index total code (bot0, env0)))))
  ∧ (∀ master index total items bot0 (env0 : Env W),
       processed_dps bot0
       ⊆ processed_dps (fst (snd (item_loop config master index total items (bot0, env0))))).
Proof.
  cbv zeta.
  destruct (run_automation_ledger config master_file daily_file
              manager started ended env)
    as (ledger & Hnd & Hp & Hok & S & F & K & P).
  split_and!.
  - exists ledger. by split_and!.
  - rewrite P. intros code Hc. apply elem_of_list_to_set in Hc.
    apply elem_of_intersection. split.
    + apply elem_of_dom. by eapply ledger_ok_successful.
    + apply elem_of_list_to_set. eapply prefix_elem_of; [exact Hp|].
      exact (booked_as_subseteq Ledger.Successful ledger code Hc).
  - rewrite S, F, K, tally_total. apply Nat2Z.inj_le.
    destruct Hp as [k Hk]. rewrite Hk, length_app, length_fmap. lia.
  - intros master index total code bot0 env0.
    destruct (item_turn_run config master index total code bot0 env0)
      as (r & bot1 & env1 & entry & E & -> & _).
    rewrite E. cbn [fst snd]. destruct entry as [[| |]|]; cbn; set_solver.
  - intros master index total items bot0 env0.
    destruct (item_loop_run config master total items index bot0 env0)
      as (r & bot1 & env1 & ledger' & E & -> & _).
    rewrite E. cbn [fst snd].
    destruct (book_all_books ledger' bot0) as (P' & _). rewrite P'. set_solver.
Qed.

(** C5 (amended).  A code already in the processed set is skipped:
    the turn logs the skip, increments [skipped] and sends nothing to
    the browser.  A code that stands twice in the daily file is loaded
    once, so in a run from a new bot no code has two turns and every
    skip is a code the lookup table lacks.  In the scenario DP001,
    DP003, DP001 two items are processed: DP001 is created, DP003 is
    the one skip. *)
Theorem processed_code_is_skipped {W : Type} `{Driver W} (config : Config)
    (master_file : option DataManager.csv_file)
    (daily_file : option (list string))
    (master : gmap string DataManager.master_entry)
    (index total : Z) (code : string) (bot : Bot)
    (manager : WebDriverManager) (started ended : option Z) (env : Env W) :
  item_turn config master index total code (add_processed code bot, env)
  = (Ok true, (set_stats incr_skipped (add_processed code bot),
               snd (log INFO (MsgSkipProcessed index total code) env)))
  ∧ (let out := run_automation config master_file daily_file
                  (Ledger.blank_bot manager started ended, env) in
     let codes := DataManager.read_daily_input daily_file in
     let master_data := default ∅ (DataManager.load_master_data master_file) in
     NoDup codes
     ∧ ∃ ledger,
         NoDup ledger.*1 ∧ ledger.*1 `prefix_of` codes
         ∧ skipped (stats (fst (snd out))) = Ledger.tally Ledger.Skipped ledger
         ∧ ∀ c, (c, Ledger.Skipped) ∈ ledger → master_data !! c = None)
  ∧ (let out := main Sim.default_config (Some Sim.master_file)
                  (Some Sim.daily_file)
                  (start (Sim.world_of (Sim.dp_page "DP001" []))) in
     DataManager.read_daily_input (Some Sim.daily_file) = ["DP001"; "DP003"]
     ∧ fst out = Ok true
     ∧ successful (stats (fst (snd out))) = 1
     ∧ failed (stats (fst (snd out))) = 0
     ∧ skipped (stats (fst (snd out))) = 1
     ∧ skipped_as_missing (logs (snd (snd out))) = ["DP003"]
     ∧ skipped_as_processed (logs (snd (snd out))) = []
     ∧ reported_totals (logs (snd (snd out))) = [(2, 1, 0, 1)]).
Proof.
  split_and!.
  - unfold item_turn, try_except. unfold bind at 1. unfold process_item.
    unfold bind at 1. unfold get_bot at 1. cbn [fst snd].
    rewrite bool_decide_eq_true_2 by (cbn; set_solver). reflexivity.
  - cbv zeta. split; [apply DailyInput.read_daily_input_NoDup|].
    destruct (run_automation_ledger config master_file daily_file
                manager started ended env)
      as (ledger & Hnd & Hp & Hok & S & F & K & P).
    exists ledger. split_and!; try done.
    intros c Hc. eapply ledger_ok_skipped; [exact Hok|exact Hnd| |exact Hc].
    intros x Hx. set_solver.
  - cbv zeta. split_and!; by vm_compute.
Qed.

(** C5 as stated has the later DP001 "counted as a skip".  In the run
    of the scenario the list holds two codes, [skipped] ends at 1, for
    DP003, and no line reports DP001 as already processed. *)
Lemma duplicate_line_counterexample :
  let out := main Sim.default_config (Some Sim.master_file)
               (Some ["DP001"; "DP003"; "DP001"])
               (start (Sim.world_of (Sim.dp_page "DP001" []))) in
  length (DataManager.read_daily_input (Some ["DP001"; "DP003"; "DP001"])) = 2%nat
  ∧ skipped (stats (fst (snd out))) = 1
  ∧ skipped_as_missing (logs (snd (snd out))) = ["DP003"]
  ∧ skipped_as_processed (logs (snd (snd out))) = []
  ∧ reported_totals (logs (snd (snd out))) = [(2, 1, 0, 1)]
  ∧ ¬ (1 < skipped (stats (fst (snd out)))).
Proof. cbv zeta. split_and!; by vm_compute. Qed.

(** ** Interrupts and teardown *)

Section Teardown.
Context {W : Type} `{Driver W}.
Variable config : Config.

Lemma quit_or_close_run (bot : Bot) (env : Env W) :
  ∃ env',
    try_except (lift (do_act Quit))
      (bare (try_except (lift (do_act Close)) (bare (ret tt)))) (bot, env)
    = (Ok tt, (bot, env')).
Proof.
  unfold try_except, bare, lift, ret. cbn [fst snd].
  destruct (do_act Quit env) as [[[]|e] env1]; [by eexists|].
  cbn [fst snd]. destruct (do_act Close env1) as [[[]|e'] env2]; by eexists.
Qed.

Lemma service_stop_run (bot : Bot) (env : Env W) :
  ∃ env',
    try_except (lift (do_act ServiceStop)) (bare (ret tt)) (bot, env)
    = (Ok tt, (bot, env')).
Proof.
  unfold try_except, bare, lift, ret. cbn [fst snd].
  destruct (do_act ServiceStop env) as [[[]|e] env1]; by eexists.
Qed.

(** [WebDriverManager.cleanup] never raises and leaves no session. *)
Lemma manager_cleanup_run (bot : Bot) (env : Env W) :
  ∃ env',
    manager_cleanup (bot, env)
    = (Ok tt, (MkBot (MkManager false false) (processed_dps bot) (stats bot), env')).
Proof.
  unfold manager_cleanup. unfold try_except at 1. unfold bind at 1.
  unfold get_bot at 1. cbn [fst snd].
  destruct bot as [[d s] p st]. cbn [driver_manager driver service].
  assert (Step1 : ∃ env1,
    (if d
     then try_finally
            (try_except (lift (do_act Quit))
               (bare (try_except (lift (do_act Close)) (bare (ret tt)))))
            (update (set_driver false))
     else ret tt) (MkBot (MkManager d s) p st, env)
    = (Ok tt, (MkBot (MkManager false s) p st, env1))).
  { destruct d.
    - unfold try_finally.
      destruct (quit_or_close_run (MkBot (MkManager true s) p st) env) as [env1 ->].
      cbn. by eexists.
    - by eexists. }
  destruct Step1 as [env1 E1]. unfold bind at 1. rewrite E1.
  unfold bind at 1. unfold get_bot at 1. cbn [fst snd driver_manager service].
  destruct s.
  - unfold try_finally.
    destruct (service_stop_run (MkBot (MkManager false true) p st) env1) as [env2 ->].
    cbn. by eexists.
  - cbn. by eexists.
Qed.

(** [AutomationBot.cleanup] never raises and leaves no session; it
    touches the books no more than the end time. *)
Lemma cleanup_run (bot : Bot) (env : Env W) :
  ∃ bot' env',
    cleanup (bot, env) = (Ok tt, (bot', env'))
    ∧ driver_manager bot' = MkManager false false.
Proof.
  unfold cleanup. unfold try_except at 1. unfold bind at 1.
  unfold get_bot at 1. cbn [fst snd].
  assert (Step1 : ∃ bot1 env1,
    (match start_time (stats bot), end_time (stats bot) with
     | Some _, None => let* t := lift now in update (set_stats (set_end_time t))
     | _, _ => ret tt
     end) (bot, env) = (Ok tt, (bot1, env1))).
  { destruct (start_time (stats bot)), (end_time (stats bot));
      try (by eexists _, _).
    unfold bind, lift, now, update. cbn [fst snd].
    destruct (clock (world env)) as [t w]. cbn. by eexists _, _. }
  destruct Step1 as (bot1 & env1 & E1). unfold bind at 1. rewrite E1.
  destruct (manager_cleanup_run bot1 env1) as [env2 ->].
  by eexists _, _.
Qed.

(** Whatever happens, [main] ends with the session torn down. *)
Lemma main_tears_down master_file daily_file (s : Bot * Env W) :
  driver_manager (fst (snd (main config master_file daily_file s)))
  = MkManager false false.
Proof.
  unfold main. unfold bind at 1. unfold install_signal_handler at 1.
  cbn [fst snd]. unfold bind at 1. unfold lift at 1, log at 1. cbn [fst snd].
  unfold bind at 1. unfold update at 1. cbn [fst snd].
  unfold try_finally.
  match goal with |- context [let '(r, s') := ?body ?s0 in _] =>
    destruct (body s0) as [r [bot1 env1]] end.
  destruct (cleanup_run bot1 env1) as (bot2 & env2 & -> & Hd).
  exact Hd.
Qed.

(** With [signal_handler] installed, an interrupt during a sleep is a
    [SystemExit], which none of the item loop's clauses catches. *)
Lemma interrupted_sleep_exits ms (env : Env W) :
  0 ≤ ms → handler_installed env = true →
  fst (sleeping ms (world env)) = true →
  fst (sleep ms env) = Raise (SystemExit 0).
Proof.
  intros Hms Hh Hi. unfold sleep. destruct (Z.ltb_spec ms 0); [lia|].
  destruct (sleeping ms (world env)) as [i w]. cbn in Hi. subst i.
  unfold signal_handler. cbn. by rewrite Hh.
Qed.

End Teardown.

(** C9.  The session is torn down whatever happens, but the summary is
    not always attempted.  [main] installs [signal_handler], which
    turns an interrupt into [sys.exit(0)]; the item loop catches
    [KeyboardInterrupt] and [Exception] only.  With the signal
    arriving while the first item waits for its dropdown, the process
    ends with status 0, nothing counted, the browser quit, and no
    totals line in the log; the same interrupt without the handler
    installed breaks the loop and the summary is logged. *)
Theorem interrupt_skips_final_report :
  (∀ {W : Type} `{Driver W} config master_file daily_file (s : Bot * Env W),
     driver_manager (fst (snd (main config master_file daily_file s)))
     = MkManager false false)
  ∧ (let out := main Sim.default_config (Some Sim.master_file)
                  (Some ["DP001"; "DP003"])
                  (start (Sim.interrupted_world_of (Sim.dp_page "DP001" []))) in
     fst out = Raise (SystemExit 0)
     ∧ exit_status (fst out) = 0
     ∧ (successful (stats (fst (snd out))), failed (stats (fst (snd out))),
        skipped (stats (fst (snd out)))) = (0, 0, 0)
     ∧ reported_totals (logs (snd (snd out))) = []
     ∧ last (logs (snd (snd out)))
       = Some (INFO, Msg "Received interrupt signal, cleaning up...")
     ∧ quit_sent (trace (snd (snd out))) = true
     ∧ driver_manager (fst (snd out)) = MkManager false false)
  ∧ (let out := (let* ready := initialize Sim.default_config in
                 run_automation Sim.default_config (Some Sim.master_file)
                   (Some ["DP001"; "DP003"]))
                  (start (Sim.interrupted_world_of (Sim.dp_page "DP001" []))) in
     fst out = Ok true
     ∧ reported_totals (logs (snd (snd out))) = [(2, 0, 0, 0)]
     ∧ quit_sent (trace (snd (snd out))) = true).
Proof.
  split_and!.
  - intros. apply main_tears_down.
  - cbv zeta. split_and!; by vm_compute.
  - cbv zeta. split_and!; by vm_compute.
Qed.

(** ** The process under its signal handler *)

Section UnderHandler.
Context {S : Type} (installed : S → bool).

Lemma uh_ret {A} (a : A) : under_handler installed (ret a).
Proof. intros s Hs. by split. Qed.

Lemma uh_raise {A} (e : exc) : under_handler installed (raise (A := A) (Exc e)).
Proof. intros s Hs. by split. Qed.

Lemma uh_bind {A C} (m : M S A) (k : A → M S C) :
  under_handler installed m → (∀ a, under_handler installed (k a)) →
  under_handler installed (bind m k).
Proof.
  intros Hm Hk s Hs. unfold bind. destruct (Hm s Hs) as [H1 H2].
  destruct (m s) as [[a|e] s1]; cbn in *.
  - by apply Hk.
  - by split.
Qed.

Lemma uh_try_except {A} (body : M S A) handler :
  under_handler installed body →
  (∀ e h, handler e = Some h → under_handler installed h) →
  under_handler installed (try_except body handler).
Proof.
  intros Hb Hh s Hs. unfold try_except. destruct (Hb s Hs) as [H1 H2].
  destruct (body s) as [[a|e] s1]; cbn in *; [by split|].
  destruct (handler e) as [h|] eqn:E; [by apply (Hh e h E)|by split].
Qed.

Lemma uh_try_finally {A} (body : M S A) fin :
  under_handler installed body → under_handler installed fin →
  under_handler installed (try_finally body fin).
Proof.
  intros Hb Hf s Hs. unfold try_finally. destruct (Hb s Hs) as [H1 H2].
  destruct (body s) as [r s1]; cbn in *.
  destruct (Hf s1 H1) as [H3 H4].
  destruct (fin s1) as [[[]|e] s2]; cbn in *; by split.
Qed.

End UnderHandler.

Section UnderHandlerProgram.
Context {W : Type} `{Driver W}.
Variable config : Config.


Lemma uh_signal_handler {A} :
  under_handler (handler_installed (W := W)) (signal_handler (A := A)).
Proof. intros env He. unfold signal_handler. rewrite He. by split. Qed.

Lemma uh_answered {A} (a : answer A) :
  under_handler (handler_installed (W := W)) (answered a).
Proof.
  destruct a; [apply uh_ret|apply uh_raise|apply uh_signal_handler].
Qed.

Lemma uh_do_find c : under_handler (handler_installed (W := W)) (do_find c).
Proof.
  intros env He. unfold do_find. destruct (find c (world env)) as [a w].
  by apply uh_answered.
Qed.

Lemma uh_do_test c : under_handler (handler_installed (W := W)) (do_test c).
Proof.
  intros env He. unfold do_test. destruct (test c (world env)) as [a w].
  by apply uh_answered.
Qed.

Lemma uh_do_read c : under_handler (handler_installed (W := W)) (do_read c).
Proof.
  intros env He. unfold do_read. destruct (read c (world env)) as [a w].
  by apply uh_answered.
Qed.

Lemma uh_do_act c : under_handler (handler_installed (W := W)) (do_act c).
Proof.
  intros env He. unfold do_act. destruct (act c (world env)) as [a w].
  by apply uh_answered.
Qed.

Lemma uh_sleep ms : under_handler (handler_installed (W := W)) (sleep ms).
Proof.
  intros env He. unfold sleep. destruct (ms <? 0); [by split|].
  destruct (sleeping ms (world env)) as [[|] w]; [|by split].
  by apply uh_signal_handler.
Qed.

Lemma uh_now : under_handler (handler_installed (W := W)) now.
Proof. intros env He. unfold now. destruct (clock (world env)). by split. Qed.

Lemma uh_log l m : under_handler (handler_installed (W := W)) (log l m).
Proof. intros env He. by split. Qed.

Lemma uh_lift {A} (m : M (Env W) A) :
  under_handler (handler_installed (W := W)) m
  → under_handler (bot_handler_installed (W := W)) (lift m).
Proof.
  intros Hm [bot env] He. unfold lift, bot_handler_installed in *. cbn in *.
  destruct (Hm env He) as [H1 H2]. by destruct (m env).
Qed.

Lemma uh_get_bot : under_handler (bot_handler_installed (W := W)) get_bot.
Proof. intros s Hs. by split. Qed.

Lemma uh_update f : under_handler (bot_handler_installed (W := W)) (update f).
Proof. intros s Hs. by split. Qed.

End UnderHandlerProgram.

Ltac uh_step :=
  first
    [ simple apply uh_ret | simple apply uh_raise | simple apply uh_sleep
    | simple apply uh_log | simple apply uh_now | simple apply uh_signal_handler
    | simple apply uh_get_bot | simple apply uh_update
    | simple apply uh_do_act | simple apply uh_do_find
    | simple apply uh_do_test | simple apply uh_do_read
    | simple apply uh_bind; [|intros ?]
    | simple apply uh_try_finally
    | simple apply uh_try_except;
      [|let e := fresh "e" in let h := fresh "h" in let E := fresh "E" in
        intros e h E; unfold bare, except_Exception in E;
        try (destruct e as [[]| |]; simpl in E); simplify_eq]
    | match goal with
      | |- under_handler _ (if ?b then _ else _) => destruct b
      | |- under_handler _ (match ?x with _ => _ end) => destruct x
      | |- under_handler _ (let _ := _ in _) => cbv zeta
      end ].

Ltac uh_auto := repeat uh_step.

Section UnderHandlerEngine.
Context {W : Type} `{Driver W}.
Variable config : Config.


Lemma uh_wait_for_element sels timeout clickable :
  under_handler (handler_installed (W := W))
    (wait_for_element config sels timeout clickable).
Proof.
  unfold wait_for_element. generalize (timeout_or_default config timeout).
  intros t. induction (as_list sels) as [|sel rest IH]; cbn [wait_for_element_loop].
  - uh_auto.
  - apply uh_bind; [unfold wait_for_selector; uh_auto|].
    intros [e|]; [uh_auto|apply IH].
Qed.

Lemma uh_safe_click target js n :
  under_handler (handler_installed (W := W)) (safe_click config target js n).
Proof.
  unfold safe_click. apply uh_bind.
  { destruct target; [apply uh_wait_for_element|uh_auto]. }
  intros [element|]; [|uh_auto].
  generalize 0 as attempt. revert element.
  induction (Z.to_nat n) as [|k IH]; intros el attempt; cbn [safe_click_loop].
  - uh_auto.
  - apply uh_bind.
    + unfold safe_click_attempt. uh_auto; apply uh_wait_for_element.
    + intros [b|el']; [uh_auto|apply IH].
Qed.

Lemma uh_type_chars input value :
  under_handler (handler_installed (W := W)) (type_chars input value).
Proof. induction value as [|c r IH]; cbn [type_chars]; uh_auto. apply IH. Qed.

Lemma uh_select_option input value :
  under_handler (handler_installed (W := W)) (select_option config input value).
Proof.
  unfold select_option, select_exact, select_containing, select_by_keyboard.
  uh_auto; try first [apply uh_wait_for_element|apply uh_safe_click].
Qed.

Lemma uh_handle_vue_select_dropdown sels value retries :
  under_handler (handler_installed (W := W))
    (handle_vue_select_dropdown config sels value retries).
Proof.
  unfold handle_vue_select_dropdown.
  induction (Z.to_nat (retries_or_default config retries)) as [|k IH];
    cbn [dropdown_loop]; [uh_auto|].
  apply uh_bind; [|intros []; [uh_auto|apply IH]].
  unfold dropdown_attempt.
  uh_auto; try first [apply uh_wait_for_element|apply uh_type_chars
                 |apply uh_select_option].
Qed.

Lemma uh_wait_for_page_load timeout :
  under_handler (handler_installed (W := W)) (wait_for_page_load config timeout).
Proof.
  unfold wait_for_page_load. uh_auto.
  induction SELECTORS.loading_overlay as [|sel rest IH]; cbn [wait_overlays];
    uh_auto. apply IH.
Qed.

Lemma uh_login : under_handler (handler_installed (W := W)) (login config).
Proof.
  unfold login. destruct (_ || _); [uh_auto|].
  generalize 0 as attempt. generalize 3%nat as n.
  induction n as [|k IH]; intros attempt; cbn [login_loop]; [uh_auto|].
  apply uh_bind; [|intros []; [uh_auto|apply IH]].
  unfold login_attempt.
  uh_auto; try first [apply uh_wait_for_element|apply uh_wait_for_page_load
                 |apply uh_safe_click].
Qed.

Lemma uh_missing_or_unclicked element :
  under_handler (handler_installed (W := W)) (missing_or_unclicked config element).
Proof. unfold missing_or_unclicked. uh_auto; try apply uh_safe_click. Qed.

Lemma uh_navigate_to_dp_menu :
  under_handler (handler_installed (W := W)) (navigate_to_dp_menu config).
Proof.
  unfold navigate_to_dp_menu.
  uh_auto; try first [apply uh_wait_for_element|apply uh_wait_for_page_load
                 |apply uh_missing_or_unclicked].
Qed.

Lemma uh_no_data_displayed sels :
  under_handler (handler_installed (W := W)) (no_data_displayed sels).
Proof. induction sels as [|sel rest IH]; cbn [no_data_displayed]; uh_auto. apply IH. Qed.

Lemma uh_validate_filter_result expected max_attempts :
  under_handler (handler_installed (W := W))
    (validate_filter_result config expected max_attempts).
Proof.
  unfold validate_filter_result. generalize 0 as attempt.
  induction (Z.to_nat max_attempts) as [|k IH]; intros attempt;
    cbn [validate_loop]; [uh_auto|].
  apply uh_bind; [|intros [v|[]]; [uh_auto|apply IH]].
  unfold validate_attempt.
  uh_auto; try first [apply uh_no_data_displayed|apply uh_wait_for_element].
Qed.

Lemma uh_filter_loop n button code :
  under_handler (handler_installed (W := W)) (filter_loop config n button code).
Proof.
  induction n as [|k IH]; cbn [filter_loop]; [uh_auto|].
  uh_auto; try first [apply uh_safe_click|apply uh_wait_for_page_load
                 |apply uh_validate_filter_result|apply IH].
Qed.

Lemma uh_create_ticket :
  under_handler (handler_installed (W := W)) (create_ticket config).
Proof.
  unfold create_ticket.
  uh_auto; try first [apply uh_wait_for_element|apply uh_wait_for_page_load
                 |apply uh_missing_or_unclicked].
Qed.

Lemma uh_process_ticket_creation city rk code :
  under_handler (handler_installed (W := W))
    (process_ticket_creation config city rk code).
Proof.
  unfold process_ticket_creation, filter_and_validate.
  uh_auto; try first [apply uh_handle_vue_select_dropdown|apply uh_wait_for_element
                 |apply uh_filter_loop|apply uh_create_ticket].
Qed.

Lemma uh_handle_page_refresh_and_navigation :
  under_handler (handler_installed (W := W))
    (handle_page_refresh_and_navigation config).
Proof.
  unfold handle_page_refresh_and_navigation.
  uh_auto; try first [apply uh_wait_for_page_load|apply uh_navigate_to_dp_menu].
Qed.

Lemma uh_ticket_attempts n city rk code : ∀ attempt,
  under_handler (handler_installed (W := W))
    (ticket_attempts config n attempt city rk code).
Proof.
  induction n as [|k IH]; intros attempt; cbn [ticket_attempts]; [uh_auto|].
  apply uh_bind; [|intros [b|[]]; [uh_auto|apply IH]].
  unfold ticket_attempt.
  uh_auto; try first [apply uh_process_ticket_creation
                 |apply uh_handle_page_refresh_and_navigation].
Qed.

Lemma uh_manager_cleanup :
  under_handler (bot_handler_installed (W := W)) manager_cleanup.
Proof. unfold manager_cleanup. uh_auto; try (apply uh_lift; uh_auto). Qed.

Lemma uh_cleanup : under_handler (bot_handler_installed (W := W)) cleanup.
Proof.
  unfold cleanup. uh_auto; try first [apply uh_manager_cleanup|apply uh_lift; uh_auto].
Qed.

Lemma uh_create_driver :
  under_handler (bot_handler_installed (W := W)) (create_driver config).
Proof.
  unfold create_driver.
  uh_auto; try first [apply uh_manager_cleanup|apply uh_lift; uh_auto].
Qed.

Lemma uh_initialize :
  under_handler (bot_handler_installed (W := W)) (initialize config).
Proof.
  unfold initialize.
  uh_auto; try first [apply uh_create_driver|apply uh_cleanup|apply uh_lift; uh_auto].
Qed.

Lemma uh_generate_final_report total :
  under_handler (bot_handler_installed (W := W)) (generate_final_report total).
Proof. unfold generate_final_report. uh_auto; try (apply uh_lift; uh_auto). Qed.

Lemma uh_process_item master_data index total code :
  under_handler (bot_handler_installed (W := W))
    (process_item config master_data index total code).
Proof.
  unfold process_item.
  uh_auto; try (apply uh_lift; first [apply uh_ticket_attempts|uh_auto]).
Qed.

Lemma uh_item_turn master_data index total code :
  under_handler (bot_handler_installed (W := W))
    (item_turn config master_data index total code).
Proof.
  unfold item_turn.
  uh_auto; try first [apply uh_process_item|apply uh_lift; uh_auto].
Qed.

Lemma uh_item_loop master_data total codes : ∀ index,
  under_handler (bot_handler_installed (W := W))
    (item_loop config master_data index total codes).
Proof.
  induction codes as [|code rest IH]; intros index; cbn [item_loop]; [uh_auto|].
  apply uh_bind; [apply uh_item_turn|]. intros []; [apply IH|uh_auto].
Qed.

Lemma uh_run_automation master_file daily_file :
  under_handler (bot_handler_installed (W := W))
    (run_automation config master_file daily_file).
Proof.
  unfold run_automation.
  apply uh_try_finally; [|apply uh_cleanup].
  apply uh_try_except.
  2:{ intros e h E. unfold except_Exception in E.
      destruct e as [x| |]; simpl in E; simplify_eq.
      uh_auto. apply uh_lift. uh_auto. }
  apply uh_bind; [apply uh_lift; uh_auto|]. intros _.
  apply uh_bind.
  { apply uh_lift. unfold load_master_data.
    destruct (DataManager.load_master_data master_file); uh_auto. }
  intros [master_data|]; [|uh_auto; try (apply uh_lift; uh_auto)].
  apply uh_bind.
  { apply uh_lift. unfold read_daily_input. destruct daily_file; uh_auto. }
  intros [|code codes]; [uh_auto; try (apply uh_lift; uh_auto)|].
  apply uh_bind; [apply uh_lift, uh_login|]. intros logged_in.
  destruct (negb logged_in); [uh_auto; try (apply uh_lift; uh_auto)|].
  apply uh_bind; [apply uh_lift, uh_navigate_to_dp_menu|]. intros there.
  destruct (negb there); [uh_auto; try (apply uh_lift; uh_auto)|].
  uh_auto; try first [apply uh_item_loop|apply uh_generate_final_report
                 |apply uh_lift; uh_auto].
Qed.

End UnderHandlerEngine.

Section RunUnderHandler.
Context {W : Type} `{Driver W}.
Variable config : Config.
Import Ledger.

(** With the handler installed no turn of the item loop ends in the
    [break]. *)
Lemma item_turn_goes_on master_data index total code (s : Bot * Env W) :
  bot_handler_installed s = true →
  fst (item_turn config master_data index total code s) ≠ Ok false.
Proof.
  intros Hs. unfold item_turn, try_except.
  assert (Hb : under_handler (bot_handler_installed (W := W))
                 (process_item config master_data index total code >> ret true)).
  { apply uh_bind; [apply uh_process_item|intros; apply uh_ret]. }
  destruct (Hb s Hs) as [_ H2].
  assert (Hok : ∀ b, fst ((process_item config master_data index total code >>
                          ret true) s) = Ok b → b = true).
  { intros b. unfold bind, ret.
    destruct (process_item config master_data index total code s) as [[[]|e] s1];
      cbn; congruence. }
  destruct ((process_item config master_data index total code >> ret true) s)
    as [[b|[x| |c]] s1]; cbn in *.
  - rewrite (Hok b eq_refl). done.
  - done.
  - done.
  - done.
Qed.

(** So a loop that ends normally has booked every code. *)
Lemma item_loop_complete master_data total codes : ∀ index (bot : Bot) (env : Env W),
  handler_installed env = true →
  fst (item_loop config master_data index total codes (bot, env)) = Ok tt →
  ∃ ledger,
    fst (snd (item_loop config master_data index total codes (bot, env)))
    = book_all ledger bot
    ∧ ledger.*1 = codes
    ∧ ledger_ok master_data (processed_dps bot) ledger.
Proof.
  induction codes as [|code rest IH]; intros index bot env Hi; cbn [item_loop].
  - intros _. by exists [].
  - unfold bind at 1 2.
    pose proof (item_turn_goes_on master_data index total code (bot, env) Hi) as Hgo.
    destruct (uh_item_turn config master_data index total code (bot, env) Hi)
      as [Hi1 _].
    destruct (item_turn_run config master_data index total code bot env)
      as (r & bot1 & env1 & entry & E & Hb & Hr & He).
    rewrite E in *. cbn [fst snd] in *.
    destruct r as [[|]|e]; [|done|done].
    intros Hend.
    destruct entry as [c|]; [|by destruct He as (_ & Hne & _)].
    destruct (IH (index + 1) bot1 env1 Hi1 Hend) as (ledger & Hl & Hcodes & Hok).
    exists ((code, c) :: ledger). split; [by rewrite Hl, Hb|].
    split; [rewrite fmap_cons; cbn [fst]; by f_equal|].
    subst bot1. destruct c; simpl in *.
    + destruct He as (Hp & d & Hd & _). rewrite Hd. split; [done|]. by split.
    + destruct He as (Hp & d & Hd & _). rewrite Hd. split; [done|]. by split.
    + destruct He as (Hs & _). by split.
Qed.

(** A run that returns [True] went through every stage. *)
Lemma run_automation_true master_file daily_file (bot : Bot) (env : Env W) :
  fst (run_automation config master_file daily_file (bot, env)) = Ok true →
  ∃ master_data env2 s3 s4,
    DataManager.load_master_data master_file = Some master_data
    ∧ DataManager.read_daily_input daily_file ≠ []
    ∧ (handler_installed env = true → handler_installed env2 = true)
    ∧ item_loop config master_data 1
        (Z.of_nat (length (DataManager.read_daily_input daily_file)))
        (DataManager.read_daily_input daily_file) (clear_processed bot, env2)
      = (Ok tt, s3)
    ∧ generate_final_report
        (Z.of_nat (length (DataManager.read_daily_input daily_file))) s3
      = (Ok tt, s4)
    ∧ snd (run_automation config master_file daily_file (bot, env))
      = snd (cleanup s4).
Proof.
  unfold run_automation.
  match goal with |- context [try_finally (try_except ?b ?h) cleanup] =>
    set (body := b); set (handler := h) end.
  assert (Body : ∀ r s, body (bot, env) = (r, s) →
    match r with
    | Ok true =>
        ∃ master_data env2 s3,
          DataManager.load_master_data master_file = Some master_data
          ∧ DataManager.read_daily_input daily_file ≠ []
          ∧ (handler_installed env = true → handler_installed env2 = true)
          ∧ item_loop config master_data 1
              (Z.of_nat (length (DataManager.read_daily_input daily_file)))
              (DataManager.read_daily_input daily_file) (clear_processed bot, env2)
            = (Ok tt, s3)
          ∧ generate_final_report
              (Z.of_nat (length (DataManager.read_daily_input daily_file))) s3
            = (Ok tt, s)
    | _ => True
    end).
  { intros r s. unfold body. unfold bind at 1. unfold lift at 1, log at 1.
    cbn [fst snd].
    unfold bind at 1. unfold lift at 1, load_master_data at 1. cbn [fst snd].
    destruct (DataManager.load_master_data master_file) as [m|] eqn:Em.
    2:{ cbn. intros [= <- <-]. done. }
    unfold bind at 1, log at 1. cbn [fst snd]. unfold ret at 1. cbn [fst snd].
    unfold bind at 1. unfold lift at 1, read_daily_input at 1.
    destruct daily_file as [lines|].
    2:{ cbn. intros [= <- <-]. done. }
    unfold bind at 1, log at 1. cbn [fst snd]. unfold ret at 1. cbn [fst snd].
    remember (DataManager.read_daily_input (Some lines)) as codes eqn:Ec in |- *.
    destruct codes as [|c0 cs].
    { cbn. intros [= <- <-]. done. }
    unfold bind at 1. unfold lift at 1. cbn [fst snd].
    match goal with |- context [login config ?e] =>
      pose proof (uh_login config e) as Hl;
      destruct (login config e) as [[[|]|x] env1] end.
    2:{ cbn. intros [= <- <-]. done. }
    2:{ cbn. intros [= <- <-]. done. }
    cbn [negb]. unfold bind at 1. unfold lift at 1. cbn [fst snd].
    pose proof (uh_navigate_to_dp_menu config env1) as Hn.
    destruct (navigate_to_dp_menu config env1) as [[[|]|x] env2].
    2:{ cbn. intros [= <- <-]. done. }
    2:{ cbn. intros [= <- <-]. done. }
    cbn [negb]. unfold bind at 1. unfold update at 1. cbn [fst snd].
    unfold bind at 1. unfold lift at 1, log at 1. cbn [fst snd].
    unfold bind at 1.
    match goal with |- context [item_loop config m 1 ?t ?cs ?s0] =>
      destruct (item_loop config m 1 t cs s0) as [[[]|x] s3] eqn:E3 end.
    2:{ intros [= <- <-]. done. }
    unfold bind at 1.
    match goal with |- context [generate_final_report ?t ?s] =>
      destruct (generate_final_report t s) as [[[]|x] s4] eqn:E4 end.
    2:{ intros [= <- <-]. done. }
    cbn. intros [= <- <-].
    eexists m, _, s3. split; [done|]. split; [done|].
    split; [|split; [exact E3|exact E4]].
    intros Hi. cbn in Hl, Hn.
    destruct (Hl Hi) as [Hi1 _]. cbn in Hi1.
    destruct (Hn Hi1) as [Hi2 _]. exact Hi2. }
  unfold try_finally, try_except.
  destruct (body (bot, env)) as [[b|e] [bot1 env1]] eqn:Eb.
  - specialize (Body _ _ eq_refl). cbv beta iota zeta.
    destruct (cleanup_run bot1 env1) as (bot2 & env2 & Ec & _).
    rewrite Ec. cbn [fst snd]. intros [= ->].
    destruct Body as (m & e2 & s3 & Hm & Hc & Hi & E3 & E4).
    exists m, e2, s3, (bot1, env1). rewrite Ec. done.
  - unfold handler, except_Exception.
    destruct (is_Exception e); cbv beta iota zeta.
    + unfold bind at 1. unfold lift at 1, log at 1. cbn [fst snd].
      unfold ret at 1.
      match goal with |- context [cleanup (?b0, ?e0)] =>
        destruct (cleanup_run b0 e0) as (bot2 & env2 & Ec & _) end.
      rewrite Ec. cbn [fst snd]. done.
    + destruct (cleanup_run bot1 env1) as (bot2 & env2 & Ec & _).
      rewrite Ec. cbn [fst snd]. done.
Qed.

(** Every booked code that is skipped is one the lookup table lacks,
    when no booked code was processed before. *)
Lemma tally_skipped master_data ledger : ∀ processed,
  ledger_ok master_data processed ledger →
  NoDup ledger.*1 →
  (∀ x, x ∈ processed → x ∉ ledger.*1) →
  tally Skipped ledger
  = Z.of_nat (length (filter (λ c, master_data !! c = None) ledger.*1)).
Proof.
  induction ledger as [|[code c] ledger IH]; intros processed Hok Hnd Hdis; [done|].
  rewrite fmap_cons in *. cbn [fst] in *. apply NoDup_cons in Hnd as [Hc Hnd].
  rewrite tally_cons, filter_cons.
  destruct c; cbn [ledger_ok] in Hok.
  - destruct Hok as (Hp & [d Hd] & Hok).
    rewrite decide_False by done. rewrite decide_False by congruence.
    rewrite (IH ({[code]} ∪ processed)); [lia|done|done|].
    intros x [->%elem_of_singleton|Hx]%elem_of_union; [done|].
    intros Hin. apply (Hdis x Hx). by right.
  - destruct Hok as (Hp & [d Hd] & Hok).
    rewrite decide_False by done. rewrite decide_False by congruence.
    rewrite (IH processed); [lia|done|done|].
    intros x Hx Hin. apply (Hdis x Hx). by right.
  - destruct Hok as ([Hp|Hm] & Hok).
    { destruct (Hdis code Hp). by left. }
    rewrite decide_True by done. rewrite decide_True by done.
    rewrite (IH processed); [cbn [length]; lia|done|done|].
    intros x Hx Hin. apply (Hdis x Hx). by right.
Qed.

End RunUnderHandler.

(** X1.  Started through [main], the process ends in one of two ways
    only: [main] returns a boolean, or an interrupt ends it with
    [SystemExit(0)].  No [KeyboardInterrupt] and no exception of the
    [Exception] family leaves [main], so the exit status is 0 or 1, and
    it is 1 exactly when [main] returned [False]. *)
Theorem main_returns_or_exits_zero {W : Type} `{Driver W} (config : Config)
    (master_file : option DataManager.csv_file)
    (daily_file : option (list string)) (s : Bot * Env W) :
  let out := main config master_file daily_file s in
  ((∃ success, fst out = Ok success) ∨ fst out = Raise (SystemExit 0))
  ∧ (exit_status (fst out) = 0 ∨ exit_status (fst out) = 1)
  ∧ (exit_status (fst out) = 1 ↔ fst out = Ok false).
Proof.
  cbv zeta.
  assert (Hmain : (∃ success, fst (main config master_file daily_file s) = Ok success)
                  ∨ fst (main config master_file daily_file s) = Raise (SystemExit 0)).
  { unfold main.
    match goal with |- context [try_finally (try_except ?b ?h) cleanup] =>
      set (body := b); set (handler := h) end.
    assert (Hb : under_handler (bot_handler_installed (W := W)) body).
    { unfold body. apply uh_bind; [apply uh_initialize|]. intros ready.
      destruct (negb ready); [uh_auto; apply uh_lift; uh_auto|].
      apply uh_run_automation. }
    unfold bind, install_signal_handler, lift, log, update, try_finally, try_except.
    cbn [fst snd].
    match goal with |- context [body ?s0] =>
      destruct (Hb s0 eq_refl) as [_ Hr];
      destruct (body s0) as [[b|[x| |c]] [bot1 env1]] end;
      unfold handler; cbn [fst snd] in *.
    - destruct (cleanup_run bot1 env1) as (bot2 & env2 & -> & _). left. by eexists.
    - unfold bind, lift, log, ret. cbn [fst snd].
      match goal with |- context [cleanup (?b0, ?e0)] =>
        destruct (cleanup_run b0 e0) as (bot2 & env2 & -> & _) end.
      left. by eexists.
    - done.
    - subst c. destruct (cleanup_run bot1 env1) as (bot2 & env2 & -> & _).
      by right. }
  destruct Hmain as [[[|] E]| E]; rewrite E; cbn.
  - split; [left; by eexists|]. split; [by left|]. split; done.
  - split; [left; by eexists|]. split; [by right|]. split; done.
  - split; [by right|]. split; [by left|]. split; done.
Qed.

(** X2.  With the signal handler installed, a run that returns [True]
    has counted every loaded code exactly once: the books are those of
    a ledger that lists the whole daily list in order, so the three
    counters add up to the number of codes, and the skipped counter is
    the number of loaded codes the lookup table does not have. *)
Theorem run_true_counts_every_code {W : Type} `{Driver W} (config : Config)
    (master_file : option DataManager.csv_file)
    (daily_file : option (list string))
    (manager : WebDriverManager) (started ended : option Z) (env : Env W) :
  handler_installed env = true →
  let out := run_automation config master_file daily_file
               (Ledger.blank_bot manager started ended, env) in
  let bot' := fst (snd out) in
  let codes := DataManager.read_daily_input daily_file in
  let master_data := default ∅ (DataManager.load_master_data master_file) in
  fst out = Ok true →
  (∃ ledger,
     ledger.*1 = codes
     ∧ Ledger.ledger_ok master_data ∅ ledger
     ∧ successful (stats bot') = Ledger.tally Ledger.Successful ledger
     ∧ failed (stats bot') = Ledger.tally Ledger.Failed ledger
     ∧ skipped (stats bot') = Ledger.tally Ledger.Skipped ledger
     ∧ processed_dps bot' = list_to_set (Ledger.booked_as Ledger.Successful ledger))
  ∧ successful (stats bot') + failed (stats bot') + skipped (stats bot')
    = Z.of_nat (length codes)
  ∧ skipped (stats bot')
    = Z.of_nat (length (filter (λ c, master_data !! c = None) codes)).
Proof.
  intros Hi. cbv zeta. intros Htrue.
  destruct (run_automation_true config master_file daily_file _ _ Htrue)
    as (m & env2 & s3 & s4 & Hm & Hne & Hi2 & E3 & E4 & Hout).
  rewrite Hout, Hm. cbn [default].
  change (clear_processed (Ledger.blank_bot manager started ended))
    with (Ledger.blank_bot manager started ended) in E3.
  destruct (item_loop_complete config m
              (Z.of_nat (length (DataManager.read_daily_input daily_file)))
              (DataManager.read_daily_input daily_file) 1
              (Ledger.blank_bot manager started ended) env2 (Hi2 Hi))
    as (ledger & Hl & Hc & Hok).
  { by rewrite E3. }
  rewrite E3 in Hl. cbn [fst snd] in Hl.
  pose proof (generate_final_report_keeps
                (Z.of_nat (length (DataManager.read_daily_input daily_file))) s3) as K4.
  rewrite E4 in K4.
  pose proof (cleanup_keeps s4) as K5. cbn [fst snd] in K4.
  destruct (same_books_trans _ _ _ K4 K5) as (P & S & F & K).
  destruct (book_all_books ledger (Ledger.blank_bot manager started ended))
    as (P1 & S1 & F1 & K1 & _).
  rewrite <- Hl in P1, S1, F1, K1.
  assert (Hex : successful (stats (cleanup s4).2.1) = Ledger.tally Ledger.Successful ledger
    ∧ failed (stats (cleanup s4).2.1) = Ledger.tally Ledger.Failed ledger
    ∧ skipped (stats (cleanup s4).2.1) = Ledger.tally Ledger.Skipped ledger
    ∧ processed_dps (cleanup s4).2.1
      = list_to_set (Ledger.booked_as Ledger.Successful ledger)).
  { rewrite P, S, F, K, P1, S1, F1, K1. cbn. split_and!; try lia. set_solver. }
  destruct Hex as (HS & HF & HK & HP).
  split_and!.
  - exists ledger. by split_and!.
  - rewrite HS, HF, HK, tally_total, <- Hc. by rewrite length_fmap.
  - rewrite HK, <- Hc.
    apply (tally_skipped m ledger ∅); [done| |set_solver].
    rewrite Hc. apply DailyInput.read_daily_input_NoDup.
Qed.

Lemma run_true_counts_every_code_witness :
  let env := MkEnv (Sim.world_of (Sim.dp_page "DP001" [])) [] [] true in
  let out := run_automation Sim.default_config (Some Sim.master_file)
               (Some ["DP001"; "DP003"])
               (Ledger.blank_bot (MkManager true true) (Some 0) None, env) in
  successful (stats (fst (snd out))) + failed (stats (fst (snd out)))
  + skipped (stats (fst (snd out))) = 2.
Proof.
  cbv zeta.
  refine (proj1 (proj2 (run_true_counts_every_code Sim.default_config
            (Some Sim.master_file) (Some ["DP001"; "DP003"])
            (MkManager true true) (Some 0) None
            (MkEnv (Sim.world_of (Sim.dp_page "DP001" [])) [] [] true) _ _))).
  - reflexivity.
  - vm_compute. reflexivity.
Defined.

(** ** The helper layer: what a result tells about the trace *)

Section Trace.
Context {W : Type} `{Driver W}.

Lemma emits_silent {A} (P : event → Prop) (m : M (Env W) A) :
  emits (λ _, False) m → emits P m.
Proof. apply emits_mono. tauto. Qed.

Lemma emits_silent_trace {A} (m : M (Env W) A) env :
  emits (λ _, False) m → trace (snd (m env)) = trace env.
Proof.
  intros Hm. destruct (Hm env) as (tr & E & F).
  destruct tr as [|ev tr]; [by rewrite app_nil_r in E|].
  by apply Forall_cons in F as [[] _].
Qed.

Lemma ew_ret {A} (want : A → Prop) good (a : A) :
  ¬ want a → ends_with (W := W) want good (ret a).
Proof.
  intros Hn env. exists []. split; [by rewrite app_nil_r|].
  intros a' [= <-] Hw. done.
Qed.

Lemma ew_raise {A} (want : A → Prop) good e :
  ends_with (W := W) want good (raise e).
Proof. intros env. exists []. split; [by rewrite app_nil_r|]. intros a' [=]. Qed.

Lemma ew_mono {A} (want want' : A → Prop) (good good' : event → Prop)
    (m : M (Env W) A) :
  (∀ a, want' a → want a) → (∀ ev, good ev → good' ev) →
  ends_with want good m → ends_with want' good' m.
Proof.
  intros Hw Hg Hm env. destruct (Hm env) as (tr & E & L). exists tr.
  split; [done|]. intros a Ea Ha. destruct (L a Ea (Hw a Ha)) as (ev & ? & ?).
  exists ev. auto.
Qed.

(** The value comes from the continuation, and the continuation ends
    with a good event. *)
Lemma ew_bind {A C} (want : C → Prop) good (m : M (Env W) A) k :
  emits (λ _, True) m → (∀ a, ends_with want good (k a)) →
  ends_with want good (bind m k).
Proof.
  intros Hm Hk env. unfold bind. destruct (Hm env) as (t1 & E1 & _).
  destruct (m env) as [[a|e] env1]; cbn [fst snd] in *.
  - destruct (Hk a env1) as (t2 & E2 & L). exists (t1 ++ t2)%list.
    split; [by rewrite E2, E1, app_assoc|].
    intros c Ec Hc. destruct (L c Ec Hc) as (ev & Hl & Hg). exists ev.
    split; [|done]. destruct t2 as [|x t2]; [done|].
    by rewrite last_app, Hl.
  - exists t1. split; [done|]. intros c [=].
Qed.

(** The good event comes from [m]; the continuation adds nothing and
    returns a wanted value only for values [m] is trusted on. *)
Lemma ew_bind_silent {A C} (want' : A → Prop) (want : C → Prop) good
    (m : M (Env W) A) k :
  ends_with want' good m → (∀ a, emits (λ _, False) (k a)) →
  (∀ a env c, fst (k a env) = Ok c → want c → want' a) →
  ends_with want good (bind m k).
Proof.
  intros Hm Hk Hw env. unfold bind. destruct (Hm env) as (t1 & E1 & L).
  destruct (m env) as [[a|e] env1] eqn:Em; cbn [fst snd] in *.
  - exists t1. split; [by rewrite (emits_silent_trace (k a) env1 (Hk a))|].
    intros c Ec Hc. apply (L a eq_refl). by eapply Hw.
  - exists t1. split; [done|]. intros c [=].
Qed.

Lemma ew_try_except {A} (want : A → Prop) good (body : M (Env W) A) handler :
  ends_with want good body →
  (∀ e h, handler e = Some h → ends_with want good h) →
  ends_with want good (try_except body handler).
Proof.
  intros Hb Hh env. unfold try_except. destruct (Hb env) as (t1 & E1 & L).
  destruct (body env) as [[a|e] env1]; cbn [fst snd] in *.
  - exists t1. split; [done|]. exact L.
  - destruct (handler e) as [h|] eqn:Eh.
    + destruct (Hh e h Eh env1) as (t2 & E2 & L2). exists (t1 ++ t2)%list.
      split; [by rewrite E2, E1, app_assoc|].
      intros c Ec Hc. destruct (L2 c Ec Hc) as (ev & Hl & Hg). exists ev.
      split; [|done]. destruct t2 as [|x t2]; [done|].
      by rewrite last_app, Hl.
    + exists t1. split; [done|]. intros c [=].
Qed.

(** A computation that never returns a wanted value. *)
Lemma ew_unwanted {A} (want : A → Prop) good (m : M (Env W) A) :
  emits (λ _, True) m → (∀ env a, fst (m env) = Ok a → ¬ want a) →
  ends_with want good m.
Proof.
  intros Hm Hn env. destruct (Hm env) as (tr & E & _). exists tr.
  split; [done|]. intros a Ea Ha. by destruct (Hn env a Ea).
Qed.

Lemma ew_do_act (want : unit → Prop) (good : event → Prop) c :
  good (EAct c (Returns tt)) → ends_with want good (do_act c).
Proof.
  intros Hg env. unfold do_act, answered, ret, raise, signal_handler.
  destruct (act c (world env)) as [[[]|x|] w];
    [| |destruct (handler_installed env)]; cbn;
    (eexists [_]; split; [reflexivity|]); [|intros a [=]..].
  intros _ _ _. by eexists.
Qed.

Lemma ew_do_test (want : bool → Prop) (good : event → Prop) c :
  (∀ b, want b → good (ETest c (Returns b))) → ends_with want good (do_test c).
Proof.
  intros Hg env. unfold do_test, answered, ret, raise, signal_handler.
  destruct (test c (world env)) as [[b|x|] w];
    [| |destruct (handler_installed env)]; cbn;
    (eexists [_]; split; [reflexivity|]); [|intros a [=]..].
  intros a [= <-] Ha. eexists. split; [done|]. by apply Hg.
Qed.

Lemma ew_do_read (want : string → Prop) (good : event → Prop) c :
  (∀ s, want s → good (ERead c (Returns s))) → ends_with want good (do_read c).
Proof.
  intros Hg env. unfold do_read, answered, ret, raise, signal_handler.
  destruct (read c (world env)) as [[b|x|] w];
    [| |destruct (handler_installed env)]; cbn;
    (eexists [_]; split; [reflexivity|]); [|intros a [=]..].
  intros a [= <-] Ha. eexists. split; [done|]. by apply Hg.
Qed.

(** *** Counting *)

Lemma count_app f (t1 t2 : list event) :
  count f (t1 ++ t2) = (count f t1 + count f t2)%nat.
Proof. unfold count. by rewrite List.filter_app, length_app. Qed.

Lemma count_none f (tr : list event) :
  Forall (λ ev, f ev = false) tr → count f tr = 0%nat.
Proof.
  unfold count. induction 1 as [|ev tr E F IH]; [done|].
  cbn. by rewrite E.
Qed.

Lemma count_one f (ev : event) : (count f [ev] ≤ 1)%nat.
Proof. unfold count. cbn. destruct (f ev); cbn; lia. Qed.

Lemma am_emits {A} f n (m : M (Env W) A) :
  emits (λ ev, f ev = false) m → at_most f n m.
Proof.
  intros Hm env. destruct (Hm env) as (tr & E & F). exists tr.
  split; [done|]. rewrite (count_none f tr F). lia.
Qed.

Lemma am_mono {A} f (n n' : nat) (m : M (Env W) A) :
  (n ≤ n')%nat → at_most f n m → at_most f n' m.
Proof.
  intros Hn Hm env. destruct (Hm env) as (tr & E & F). exists tr.
  split; [done|lia].
Qed.

Lemma am_bind {A C} f (n1 n2 : nat) (m : M (Env W) A) (k : A → M (Env W) C) :
  at_most f n1 m → (∀ a, at_most f n2 (k a)) → at_most f (n1 + n2) (bind m k).
Proof.
  intros Hm Hk env. unfold bind. destruct (Hm env) as (t1 & E1 & C1).
  destruct (m env) as [[a|e] env1]; cbn [fst snd] in *.
  - destruct (Hk a env1) as (t2 & E2 & C2). exists (t1 ++ t2)%list.
    split; [by rewrite E2, E1, app_assoc|]. rewrite count_app. lia.
  - exists t1. split; [done|lia].
Qed.

Lemma am_try_except {A} f (n1 n2 : nat) (body : M (Env W) A) handler :
  at_most f n1 body → (∀ e h, handler e = Some h → at_most f n2 h) →
  at_most f (n1 + n2) (try_except body handler).
Proof.
  intros Hb Hh env. unfold try_except. destruct (Hb env) as (t1 & E1 & C1).
  destruct (body env) as [[a|e] env1]; cbn [fst snd] in *.
  - exists t1. split; [done|lia].
  - destruct (handler e) as [h|] eqn:Eh.
    + destruct (Hh e h Eh env1) as (t2 & E2 & C2). exists (t1 ++ t2)%list.
      split; [by rewrite E2, E1, app_assoc|]. rewrite count_app. lia.
    + exists t1. split; [done|lia].
Qed.

Lemma am_do_act f c : at_most f 1 (do_act c).
Proof.
  intros env. unfold do_act, answered, ret, raise, signal_handler.
  destruct (act c (world env)) as [a w].
  exists [EAct c a]. split; [|apply count_one].
  destruct a; [done|done|]. by destruct (handler_installed env).
Qed.

End Trace.

(** *** The helper layer sends helper events only *)

Section HelperEvents.
Context {W : Type} `{Driver W}.
Variable config : Config.
Variable P : event → Prop.
Hypothesis helper : ∀ ev, is_helper ev → P ev.

Lemma helper_locating ev : is_locating ev → P ev.
Proof. intros Hl. apply helper. by destruct ev as [[]| | |]. Qed.

Lemma helper_click ev : is_click ev → P ev.
Proof. intros Hl. apply helper. by destruct ev as [| | |[]]. Qed.

Lemma helper_settling ev : is_settling ev → P ev.
Proof. intros Hl. apply helper. by destruct ev as [| | |[]]. Qed.

Lemma wait_for_element_helper sels timeout clickable :
  emits P (wait_for_element config sels timeout clickable).
Proof.
  intros env.
  destruct (wait_for_element_run config sels timeout clickable env)
    as (r & env' & tr & E & Et & F).
  exists tr. rewrite E. split; [done|].
  eapply Forall_impl; [exact F|apply helper_locating].
Qed.

Lemma wait_for_page_load_helper timeout :
  emits (W := W) P (wait_for_page_load config timeout).
Proof.
  eapply emits_mono; [apply helper_settling|apply wait_for_page_load_emits].
Qed.

Lemma safe_click_helper target js n : emits P (safe_click config target js n).
Proof.
  unfold safe_click. apply emits_bind.
  { destruct target; [apply wait_for_element_helper|apply emits_ret]. }
  intros [element|]; [|apply emits_ret].
  generalize 0 as attempt. revert element.
  induction (Z.to_nat n) as [|k IH]; intros el attempt; cbn [safe_click_loop].
  - apply emits_ret.
  - apply emits_bind.
    + unfold safe_click_attempt.
      repeat first
        [ apply wait_for_element_helper
        | apply emits_ret | apply emits_sleep
        | apply emits_bind; [|intros ?]
        | apply emits_try_except;
          [|let e := fresh "e" in let h := fresh "h" in let E := fresh "E" in
            intros e h E; try (destruct e as [[]| |]; simpl in E); simplify_eq]
        | apply emits_do_act; intros ?; by apply helper
        | match goal with
          | |- emits _ (if ?b then _ else _) => destruct b
          | |- emits _ (match ?x with _ => _ end) => destruct x
          end ].
    + intros [b|el']; [apply emits_ret|apply IH].
Qed.

End HelperEvents.

(** *** Failure by value *)

Section OnlyInterrupts.
Context {S : Type}.

Lemma oi_ret {A} (a : A) : only_interrupts (S := S) (ret a).
Proof. by intros s x. Qed.

Lemma oi_raise {A} (e : pyexn) :
  is_Exception e = false → only_interrupts (S := S) (A := A) (raise e).
Proof. intros He s x. cbn. intros [= ->]. done. Qed.

Lemma oi_never_raises {A} (m : M S A) : never_raises m → only_interrupts m.
Proof. intros Hm s x. destruct (Hm s) as [a ->]. done. Qed.

Lemma oi_bind {A C} (m : M S A) (k : A → M S C) :
  only_interrupts m → (∀ a, only_interrupts (k a)) → only_interrupts (bind m k).
Proof.
  intros Hm Hk s x. unfold bind. specialize (Hm s x).
  destruct (m s) as [[a|e] s1]; cbn in *; [apply Hk|].
  intros [= ->]. by apply Hm.
Qed.

(** A [try] whose handlers catch every [Exception]. *)
Lemma oi_try_catch {A} (body : M S A) handler :
  (∀ x, is_Some (handler (Exc x))) →
  (∀ e h, handler e = Some h → only_interrupts h) →
  only_interrupts (try_except body handler).
Proof.
  intros Hc Hh s x. unfold try_except.
  destruct (body s) as [[a|e] s1]; cbn; [done|].
  destruct (handler e) as [h|] eqn:Eh; [by apply (Hh e h Eh)|].
  cbn. intros [= ->]. destruct (Hc x) as [h Eh']. congruence.
Qed.

Lemma oi_try_except {A} (body : M S A) handler :
  only_interrupts body →
  (∀ e h, handler e = Some h → only_interrupts h) →
  only_interrupts (try_except body handler).
Proof.
  intros Hb Hh s x. unfold try_except. specialize (Hb s x).
  destruct (body s) as [[a|e] s1]; cbn in *; [done|].
  destruct (handler e) as [h|] eqn:Eh; [by apply (Hh e h Eh)|done].
Qed.

Lemma oi_try_finally {A} (body : M S A) fin :
  only_interrupts body → only_interrupts fin →
  only_interrupts (try_finally body fin).
Proof.
  intros Hb Hf s x. unfold try_finally. specialize (Hb s x).
  destruct (body s) as [r s1]. specialize (Hf s1 x).
  destruct (fin s1) as [[[]|e] s2]; cbn in *; [done|].
  intros [= ->]. by apply Hf.
Qed.

Lemma nr_ret {A} (a : A) : never_raises (S := S) (ret a).
Proof. intros s. by exists a. Qed.

Lemma nr_bind {A C} (m : M S A) (k : A → M S C) :
  never_raises m → (∀ a, never_raises (k a)) → never_raises (bind m k).
Proof.
  intros Hm Hk s. unfold bind. destruct (Hm s) as [a Ea].
  destruct (m s) as [[a'|e] s1]; cbn in *; [apply Hk|done].
Qed.

(** A [try] with a bare [except:] whose handler returns. *)
Lemma nr_try_bare {A} (body : M S A) (h : M S A) :
  never_raises h → never_raises (try_except body (bare h)).
Proof.
  intros Hh s. unfold try_except, bare.
  destruct (body s) as [[a|e] s1]; cbn; [by eexists|apply Hh].
Qed.

End OnlyInterrupts.

Section OnlyInterruptsProgram.
Context {W : Type} `{Driver W}.
Variable config : Config.

Lemma oi_signal_handler {A} : only_interrupts (signal_handler (W := W) (A := A)).
Proof. intros env x. unfold signal_handler. by destruct (handler_installed env). Qed.

Lemma oi_sleep ms : 0 ≤ ms → only_interrupts (sleep ms).
Proof.
  intros Hms env x. unfold sleep. destruct (Z.ltb_spec ms 0); [lia|].
  destruct (sleeping ms (world env)) as [[|] w]; [apply oi_signal_handler|done].
Qed.

Lemma nr_log l m : never_raises (log (W := W) l m).
Proof. intros env. by eexists. Qed.

Lemma nr_now : never_raises now.
Proof. intros env. unfold now. destruct (clock (world env)). by eexists. Qed.

Lemma nr_lift {A} (m : M (Env W) A) : never_raises m → never_raises (lift m).
Proof.
  intros Hm [bot env]. unfold lift. cbn. destruct (Hm env) as [a Ea].
  destruct (m env) as [r env']. cbn in *. by exists a.
Qed.

Lemma oi_lift {A} (m : M (Env W) A) : only_interrupts m → only_interrupts (lift m).
Proof.
  intros Hm [bot env] x. unfold lift. cbn. specialize (Hm env x).
  by destruct (m env) as [r env'].
Qed.

Lemma nr_get_bot : never_raises (get_bot (W := W)).
Proof. intros s. by eexists. Qed.

Lemma nr_update f : never_raises (update (W := W) f).
Proof. intros s. by eexists. Qed.

Lemma nr_wait_for_element sels timeout clickable :
  never_raises (wait_for_element config sels timeout clickable).
Proof.
  intros env.
  destruct (wait_for_element_run config sels timeout clickable env)
    as (r & env' & tr & E & _). rewrite E. by exists r.
Qed.

Lemma nr_wait_for_page_load timeout :
  never_raises (wait_for_page_load config timeout).
Proof. unfold wait_for_page_load. cbv zeta. apply nr_try_bare, nr_ret. Qed.

End OnlyInterruptsProgram.

Ltac oi_step :=
  first
    [ simple apply oi_ret | simple apply oi_signal_handler
    | simple apply oi_sleep; lia
    | simple apply oi_never_raises;
      first [ simple apply nr_log | simple apply nr_now
            | simple apply nr_wait_for_element | simple apply nr_wait_for_page_load
            | simple apply nr_get_bot | simple apply nr_update
            | simple apply nr_try_bare; simple apply nr_ret ]
    | simple apply oi_bind; [|intros ?]
    | simple apply oi_try_finally
    | simple apply oi_try_catch;
      [ let x := fresh "x" in intros x; unfold bare, except_Exception; cbn;
        try destruct x; by eexists
      | let e := fresh "e" in let h := fresh "h" in let E := fresh "E" in
        intros e h E; unfold bare, except_Exception in E;
        try (destruct e as [[]| |]; simpl in E); simplify_eq ]
    | match goal with
      | |- only_interrupts (if ?b then _ else _) => destruct b
      | |- only_interrupts (match ?x with _ => _ end) => destruct x
      | |- only_interrupts (let _ := _ in _) => cbv zeta
      end ].

Ltac oi_auto := repeat oi_step.

Section OnlyInterruptsEngine.
Context {W : Type} `{Driver W}.
Variable config : Config.

Lemma oi_safe_click target js n : only_interrupts (safe_click config target js n).
Proof.
  unfold safe_click. apply oi_bind.
  { destruct target; oi_auto. }
  intros [element|]; [|oi_auto].
  generalize 0 as attempt. revert element.
  induction (Z.to_nat n) as [|k IH]; intros el attempt; cbn [safe_click_loop].
  - oi_auto.
  - apply oi_bind.
    + unfold safe_click_attempt. oi_auto.
    + intros [b|el']; [oi_auto|apply IH].
Qed.

Lemma oi_handle_vue_select_dropdown sels value retries :
  only_interrupts (handle_vue_select_dropdown config sels value retries).
Proof.
  unfold handle_vue_select_dropdown.
  induction (Z.to_nat (retries_or_default config retries)) as [|k IH];
    cbn [dropdown_loop]; [oi_auto|].
  apply oi_bind; [|intros []; [oi_auto|apply IH]].
  unfold dropdown_attempt. oi_auto.
Qed.

Lemma oi_validate_filter_result expected max_attempts :
  only_interrupts (validate_filter_result config expected max_attempts).
Proof.
  unfold validate_filter_result. generalize 0 as attempt.
  induction (Z.to_nat max_attempts) as [|k IH]; intros attempt;
    cbn [validate_loop]; [oi_auto|].
  apply oi_bind; [|intros [v|[]]; [oi_auto|apply IH]].
  unfold validate_attempt. oi_auto.
Qed.

Lemma oi_process_ticket_creation city rk code :
  only_interrupts (process_ticket_creation config city rk code).
Proof. unfold process_ticket_creation. oi_auto. Qed.

Lemma oi_navigate_to_dp_menu : only_interrupts (navigate_to_dp_menu config).
Proof. unfold navigate_to_dp_menu. oi_auto. Qed.

Lemma oi_handle_page_refresh_and_navigation :
  only_interrupts (handle_page_refresh_and_navigation config).
Proof. unfold handle_page_refresh_and_navigation. oi_auto. Qed.

Lemma oi_login : 0 ≤ RETRY_DELAY config → only_interrupts (login config).
Proof.
  intros Hd. unfold login. destruct (_ || _); [oi_auto|].
  generalize 0 as attempt. generalize 3%nat as n.
  induction n as [|k IH]; intros attempt; cbn [login_loop]; [oi_auto|].
  apply oi_bind; [|intros []; [oi_auto|apply IH]].
  unfold login_attempt. oi_auto.
Qed.

Lemma oi_ticket_attempts n city rk code : ∀ attempt,
  0 ≤ RETRY_DELAY config →
  only_interrupts (ticket_attempts config n attempt city rk code).
Proof.
  induction n as [|k IH]; intros attempt Hd; cbn [ticket_attempts]; [oi_auto|].
  apply oi_bind; [|intros [b|[]]; [oi_auto|by apply IH]].
  unfold ticket_attempt. oi_auto.
Qed.

End OnlyInterruptsEngine.

(** *** safe_click *)

Section SafeClick.
Context {W : Type} `{Driver W}.
Variable config : Config.

Lemma bind_ok_inv {S A C} (m : M S A) (k : A → M S C) s c :
  fst (bind m k s) = Ok c →
  ∃ a s1, m s = (Ok a, s1) ∧ fst (k a s1) = Ok c.
Proof.
  unfold bind. destruct (m s) as [[a|e] s1]; cbn; [|done].
  intros E. by exists a, s1.
Qed.

Lemma safe_click_attempt_ends target el js attempt :
  ends_with (λ r, r = Return true) (accepted_click el)
    (safe_click_attempt config target el js attempt).
Proof.
  unfold safe_click_attempt. apply ew_try_except.
  - apply ew_bind; [apply emits_do_act; done|]. intros _.
    apply ew_bind; [apply emits_sleep|]. intros _.
    apply ew_bind_silent with (want' := λ _, True).
    + destruct (js || (attempt >? 0)).
      * apply ew_do_act. by left.
      * apply ew_try_except; [apply ew_do_act; by right|].
        intros e h E. destruct e as [[]| |]; simplify_eq.
        apply ew_do_act. by left.
    + intros _. apply emits_ret.
    + done.
  - intros e h E.
    assert (Hn : ∀ m : M (Env W) (flow bool Elem),
              emits (λ _, True) m →
              (∀ env r, fst (m env) = Ok r → r ≠ Return true) →
              ends_with (λ r, r = Return true) (accepted_click el) m).
    { intros m Hm Hr. apply ew_unwanted; [done|]. intros env a Ea Ha.
      by apply (Hr env a). }
    destruct e as [[]| |]; simplify_eq;
      try (apply Hn;
           [apply emits_bind; [apply emits_sleep|intros; apply emits_ret]
           |intros env r; unfold bind, ret;
            destruct (sleep 1000 env) as [[[]|?] ?]; cbn; congruence]).
    destruct target as [s|o]; [|by apply ew_ret].
    apply Hn.
    + apply emits_bind; [apply wait_for_element_helper; done|].
      intros [?|]; apply emits_ret.
    + intros env r. unfold bind, ret.
      destruct (wait_for_element config s None true env) as [[[?|]|?] ?]; cbn;
        congruence.
Qed.

Lemma safe_click_attempt_goes_to target el js attempt (env : Env W) el' :
  click_goes_to target el →
  fst (safe_click_attempt config target el js attempt env) = Ok (Continue el') →
  click_goes_to target el'.
Proof.
  intros Hg. destruct target as [s|o]; [done|]. cbn in *. subst el.
  unfold safe_click_attempt, try_except.
  match goal with |- context [match ?body env with _ => _ end] =>
    destruct (body env) as [[x|e0] env0] eqn:Eb end.
  - assert (Ex : fst (Ok (A := flow bool Elem) x, env0) = Ok x) by done.
    rewrite <- Eb in Ex.
    apply bind_ok_inv in Ex as (? & ? & _ & Ex).
    apply bind_ok_inv in Ex as (? & ? & _ & Ex).
    apply bind_ok_inv in Ex as (? & ? & _ & Ex).
    cbn in Ex. cbn. congruence.
  - destruct e0 as [[]| |]; cbn; unfold bind, ret;
      try (destruct (sleep 1000 env0) as [[[]|?] ?]; cbn); congruence.
Qed.

Lemma safe_click_loop_ends target js k : ∀ el attempt,
  click_goes_to target el →
  ends_with (λ b, b = true)
    (λ ev, ∃ e, accepted_click e ev ∧ click_goes_to target e)
    (safe_click_loop config k attempt target el js).
Proof.
  induction k as [|k IH]; intros el attempt Hg; cbn [safe_click_loop].
  - by apply ew_ret.
  - intros env. unfold bind.
    destruct (safe_click_attempt_ends target el js attempt env) as (t1 & E1 & L1).
    pose proof (safe_click_attempt_goes_to target el js attempt env) as Hgo.
    destruct (safe_click_attempt config target el js attempt env)
      as [[[b|el']|e] env1]; cbn [fst snd] in *.
    + exists t1. split; [done|]. intros a [= <-] ->.
      destruct (L1 _ eq_refl eq_refl) as (ev & Hl & Ha). exists ev.
      split; [done|]. by exists el.
    + destruct (IH el' (attempt + 1) (Hgo el' Hg eq_refl) env1) as (t2 & E2 & L2).
      exists (t1 ++ t2)%list. split; [by rewrite E2, E1, app_assoc|].
      intros a Ea Ha. destruct (L2 a Ea Ha) as (ev & Hl & Hev). exists ev.
      split; [|done]. destruct t2 as [|x t2]; [done|]. by rewrite last_app, Hl.
    + exists t1. split; [done|]. intros a [=].
Qed.

Lemma safe_click_located_eq o js n :
  safe_click config (Located o) js n
  = safe_click_loop config (Z.to_nat n) 0 (Located o) o js.
Proof. reflexivity. Qed.

Lemma safe_click_ends target js n :
  ends_with (λ b, b = true)
    (λ ev, ∃ e, accepted_click e ev ∧ click_goes_to target e)
    (safe_click config target js n).
Proof.
  destruct target as [s|o].
  - unfold safe_click. apply ew_bind; [apply wait_for_element_helper; done|].
    intros [el|]; [by apply safe_click_loop_ends|by apply ew_ret].
  - rewrite safe_click_located_eq. by apply safe_click_loop_ends.
Qed.

Lemma wait_for_element_locating sels timeout clickable :
  emits is_locating (wait_for_element config sels timeout clickable).
Proof.
  intros env.
  destruct (wait_for_element_run config sels timeout clickable env)
    as (r & env' & tr & E & Et & F).
  exists tr. rewrite E. by split.
Qed.

Lemma wait_for_element_none f sels timeout clickable :
  (∀ ev, is_locating ev → f ev = false) →
  emits (λ ev, f ev = false) (wait_for_element config sels timeout clickable).
Proof. intros Hf. eapply emits_mono; [exact Hf|apply wait_for_element_locating]. Qed.

Lemma is_locating_no_scroll ev : is_locating ev → is_scroll ev = false.
Proof. by destruct ev as [[]| | |]. Qed.

Lemma is_locating_no_native_click ev : is_locating ev → is_native_click ev = false.
Proof. by destruct ev as [[]| | |]. Qed.

(** What one attempt adds: the scroll, then clicks; a native click
    only on the first attempt of a call without [use_js]. *)
Lemma safe_click_attempt_counts target el js attempt :
  at_most is_scroll 1 (safe_click_attempt config target el js attempt)
  ∧ at_most is_native_click (if js || (attempt >? 0) then 0 else 1)
      (safe_click_attempt config target el js attempt).
Proof.
  unfold safe_click_attempt. split.
  - apply (am_mono _ (1 + 0 + 0)); [lia|]. apply am_try_except.
    + apply am_bind; [apply am_do_act|]. intros _. apply am_emits.
      emits_auto.
    + intros e h E. apply am_emits.
      destruct e as [[]| |]; simplify_eq; emits_auto;
        apply wait_for_element_none, is_locating_no_scroll.
  - apply (am_mono _ (0 + (if js || (attempt >? 0) then 0 else 1) + 0)%nat);
      [lia|].
    apply am_try_except.
    + apply am_bind; [apply am_emits; emits_auto|]. intros _.
      apply (am_mono _ (0 + (if js || (attempt >? 0) then 0 else 1))%nat); [lia|].
      apply am_bind; [apply am_emits; emits_auto|]. intros _.
      destruct (js || (attempt >? 0)).
      * apply am_emits. emits_auto.
      * apply (am_mono _ (1 + 0)); [lia|]. apply am_bind.
        -- apply (am_mono _ (1 + 0)); [lia|]. apply am_try_except.
           ++ apply am_do_act.
           ++ intros e h E. apply am_emits.
              destruct e as [[]| |]; simplify_eq. emits_auto.
        -- intros _. apply am_emits. emits_auto.
    + intros e h E. apply am_emits.
      destruct e as [[]| |]; simplify_eq; emits_auto;
        apply wait_for_element_none, is_locating_no_native_click.
Qed.

Lemma safe_click_loop_counts target js k : ∀ el attempt,
  0 ≤ attempt →
  at_most is_scroll k (safe_click_loop config k attempt target el js)
  ∧ at_most is_native_click (if js || (attempt >? 0) then 0 else 1)
      (safe_click_loop config k attempt target el js).
Proof.
  induction k as [|k IH]; intros el attempt Ha; cbn [safe_click_loop].
  - split; apply am_emits, emits_ret.
  - destruct (safe_click_attempt_counts target el js attempt) as [S1 N1].
    split.
    + change (S k) with (1 + k)%nat. apply am_bind; [exact S1|].
      intros [b|el']; [apply am_emits, emits_ret|].
      apply IH. lia.
    + apply (am_mono _ ((if js || (attempt >? 0) then 0 else 1) + 0)%nat); [lia|].
      apply am_bind; [exact N1|].
      intros [b|el']; [apply am_emits, emits_ret|].
      destruct (IH el' (attempt + 1)) as [_ N2]; [lia|].
      replace (attempt + 1 >? 0) with true in N2 by lia.
      by rewrite orb_true_r in N2.
Qed.

Lemma safe_click_counts target js n :
  at_most is_scroll (Z.to_nat n) (safe_click config target js n)
  ∧ at_most is_native_click (if js then 0 else 1) (safe_click config target js n).
Proof.
  assert (Hl : ∀ el,
    at_most is_scroll (Z.to_nat n)
      (safe_click_loop config (Z.to_nat n) 0 target el js)
    ∧ at_most is_native_click (if js then 0 else 1)
        (safe_click_loop config (Z.to_nat n) 0 target el js)).
  { intros el. destruct (safe_click_loop_counts target js (Z.to_nat n) el 0) as [S1 N1];
      [lia|]. split; [done|]. by rewrite orb_false_r in N1. }
  unfold safe_click. split.
  - apply (am_mono _ (0 + Z.to_nat n)); [lia|]. apply am_bind.
    + apply am_emits. destruct target; [|apply emits_ret].
      apply wait_for_element_none, is_locating_no_scroll.
    + intros [el|]; [apply Hl|apply am_emits, emits_ret].
  - apply (am_mono _ (0 + (if js then 0 else 1))%nat); [lia|]. apply am_bind.
    + apply am_emits. destruct target; [|apply emits_ret].
      apply wait_for_element_none, is_locating_no_native_click.
    + intros [el|]; [apply Hl|apply am_emits, emits_ret].
Qed.

End SafeClick.

(** X3.  What [safe_click] tells its caller.  It returns [True] only
    right after a click the browser accepted (one on the element
    itself when it was given an element); no exception of the
    [Exception] family leaves it; it scrolls, and so tries, at most
    [max_attempts] times, none for [max_attempts <= 0]; and it sends a
    native click at most once, never with [use_js]. *)
Theorem safe_click_outcome {W : Type} `{Driver W} (config : Config)
    (target : click_target) (use_js : bool) (max_attempts : Z) (env : Env W) :
  let out := safe_click config target use_js max_attempts env in
  let tr := new_trace env (snd out) in
  (fst out = Ok true →
   ∃ e ev, last tr = Some ev ∧ accepted_click e ev ∧ click_goes_to target e)
  ∧ (∀ x, fst out ≠ Raise (Exc x))
  ∧ (count is_scroll tr ≤ Z.to_nat max_attempts)%nat
  ∧ (count is_native_click tr ≤ if use_js then 0 else 1)%nat
  ∧ (max_attempts ≤ 0 → fst out ≠ Ok true).
Proof.
  cbv zeta.
  destruct (safe_click_ends config target use_js max_attempts env) as (t1 & E1 & L1).
  destruct (safe_click_counts config target use_js max_attempts) as [S1 N1].
  destruct (S1 env) as (t2 & E2 & C2). destruct (N1 env) as (t3 & E3 & C3).
  rewrite (new_trace_app _ _ _ E1).
  assert (t2 = t1) as -> by (rewrite E1 in E2; by apply app_inv_head in E2).
  assert (t3 = t1) as -> by (rewrite E1 in E3; by apply app_inv_head in E3).
  split_and!.
  - intros Ht. destruct (L1 true Ht eq_refl) as (ev & Hl & e & Ha & Hg).
    by exists e, ev.
  - apply oi_safe_click.
  - exact C2.
  - exact C3.
  - intros Hn Ht. destruct (L1 true Ht eq_refl) as (ev & Hl & _).
    replace (Z.to_nat max_attempts) with 0%nat in C2 by lia.
    destruct t1 as [|x t1]; [done|].
    clear -Ht Hn. unfold safe_click, bind in Ht.
    replace (Z.to_nat max_attempts) with 0%nat in Ht by lia.
    destruct target; cbn in Ht.
    + destruct (wait_for_element config s None true env) as [[[?|]|?] ?];
        cbn in Ht; congruence.
    + congruence.
Qed.

Lemma safe_click_outcome_witness :
  let env := Sim.env_of (Sim.dp_page "DP001" []) in
  let out := safe_click Sim.default_config (Located 10%nat) false 3 env in
  ∃ e ev, last (new_trace env (snd out)) = Some ev
          ∧ accepted_click e ev ∧ click_goes_to (Located 10%nat) e.
Proof.
  cbv zeta.
  refine (proj1 (safe_click_outcome Sim.default_config (Located 10%nat) false 3
                   (Sim.env_of (Sim.dp_page "DP001" []))) _).
  vm_compute. reflexivity.
Defined.


(** *** wait_for_page_load *)

Section PageLoad.
Context {W : Type} `{Driver W}.
Variable config : Config.

Lemma wait_overlays_counts sels timeout :
  at_most (W := W) is_overlay_wait (length sels) (wait_overlays sels timeout).
Proof.
  induction sels as [|sel rest IH]; cbn [wait_overlays length].
  - apply am_emits, emits_ret.
  - change (S (length rest)) with (1 + length rest)%nat. apply am_bind.
    + apply (am_mono _ (1 + 0)); [lia|]. apply am_try_except.
      * apply (am_mono _ (1 + 0)); [lia|]. apply am_bind; [apply am_do_act|].
        intros _. apply am_emits, emits_ret.
      * intros e h [= <-]. apply am_emits, emits_ret.
    + intros []; [apply am_emits, emits_ret|apply IH].
Qed.

Lemma wait_overlays_emits sels timeout :
  emits (W := W) (λ _, True) (wait_overlays sels timeout).
Proof.
  induction sels as [|sel rest IH]; cbn [wait_overlays]; emits_auto. apply IH.
Qed.

Lemma wait_for_page_load_counts timeout :
  at_most (W := W) is_overlay_wait 3 (wait_for_page_load config timeout).
Proof.
  unfold wait_for_page_load. cbv zeta.
  apply (am_mono _ (3 + 0 + 0)); [lia|]. apply am_try_except.
  - apply am_bind; [apply (wait_overlays_counts SELECTORS.loading_overlay)|].
    intros _. apply am_emits. emits_auto.
  - intros e h [= <-]. apply am_emits, emits_ret.
Qed.

Lemma wait_for_page_load_ends timeout :
  ends_with (W := W) (λ b, b = true)
    (λ ev, ev = EAct (UntilReadyStateComplete (timeout_or_default config timeout))
                  (Returns tt))
    (wait_for_page_load config timeout).
Proof.
  unfold wait_for_page_load. cbv zeta. apply ew_try_except.
  - apply ew_bind.
    { apply wait_overlays_emits. }
    intros _. apply ew_bind_silent with (want' := λ _, True).
    + by apply ew_do_act.
    + intros _. emits_auto.
    + done.
  - intros e h [= <-]. by apply ew_ret.
Qed.

End PageLoad.

(** X4.  [wait_for_page_load] always returns: whatever stops a wait,
    an interrupt included, is swallowed and reported as [False].  It
    sends overlay waits (at most one per overlay selector) and the
    ready-state wait only, and it returns [True] only when the last
    command was the ready-state wait and the browser answered it. *)
Theorem wait_for_page_load_outcome {W : Type} `{Driver W} (config : Config)
    (timeout : option Z) (env : Env W) :
  let out := wait_for_page_load config timeout env in
  let tr := new_trace env (snd out) in
  (∃ loaded, fst out = Ok loaded)
  ∧ Forall is_settling tr
  ∧ (count is_overlay_wait tr ≤ 3)%nat
  ∧ (fst out = Ok true →
     last tr = Some (EAct (UntilReadyStateComplete
                             (timeout_or_default config timeout)) (Returns tt))).
Proof.
  cbv zeta.
  destruct (wait_for_page_load_emits config timeout env) as (t1 & E1 & F1).
  destruct (wait_for_page_load_counts config timeout env) as (t2 & E2 & C2).
  destruct (wait_for_page_load_ends config timeout env) as (t3 & E3 & L3).
  rewrite (new_trace_app _ _ _ E1).
  assert (t2 = t1) as -> by (rewrite E1 in E2; by apply app_inv_head in E2).
  assert (t3 = t1) as -> by (rewrite E1 in E3; by apply app_inv_head in E3).
  split_and!; [apply nr_wait_for_page_load|done|done|].
  intros Ht. by destruct (L3 true Ht eq_refl) as (ev & -> & ->).
Qed.

(** *** login *)

Section Login.
Context {W : Type} `{Driver W}.
Variable config : Config.

Ltac emits_any :=
  first [ apply wait_for_element_helper; done
        | apply wait_for_page_load_helper; done
        | apply safe_click_helper; done
        | emits_auto ].

Lemma login_attempt_ends attempt :
  ends_with (λ b, b = true) left_login_page (login_attempt config attempt).
Proof.
  unfold login_attempt. apply ew_try_except.
  2:{ intros e h E. unfold except_Exception in E.
      destruct e as [x| |]; simpl in E; simplify_eq.
      apply ew_unwanted; [emits_auto|].
      intros env a Ea. apply bind_ok_inv in Ea as (? & ? & _ & Ea).
      cbn in Ea. congruence. }
  repeat first
    [ apply ew_ret; discriminate
    | apply ew_try_except; [|intros e h [= <-]; apply ew_ret; discriminate]
    | match goal with
      | |- ends_with _ _ (bind (do_read CurrentUrl) _) => fail 1
      | |- ends_with _ _ (bind _ _) => apply ew_bind; [emits_any|intros ?]
      | |- ends_with _ _ (if ?b then _ else _) => destruct b
      | |- ends_with _ _ (match ?x with _ => _ end) => destruct x
      end ].
  apply ew_bind_silent
    with (want' := λ u, PyStr.contains "login" (PyStr.lower u) = false).
  - apply ew_do_read. intros s Hs. by exists s.
  - intros u. emits_auto.
  - intros u env c.
    destruct (PyStr.contains "login" (PyStr.lower u)); cbn; intros ? ?; congruence.
Qed.

Lemma login_ends :
  ends_with (λ b, b = true) left_login_page (login config).
Proof.
  unfold login. destruct (_ || _).
  { apply ew_bind; [apply emits_log|]. intros _. apply ew_ret. discriminate. }
  generalize 0 as attempt. generalize 3%nat as n.
  induction n as [|k IH]; intros attempt; cbn [login_loop].
  - apply ew_bind; [apply emits_log|]. intros _. apply ew_ret. discriminate.
  - intros env. unfold bind.
    destruct (login_attempt_ends attempt env) as (t1 & E1 & L1).
    destruct (login_attempt config attempt env) as [[[|]|e] env1];
      cbn [fst snd] in *.
    + exists t1. split; [done|]. intros a _ _. by apply (L1 true).
    + destruct (IH (attempt + 1) env1) as (t2 & E2 & L2).
      exists (t1 ++ t2)%list. split; [by rewrite E2, E1, app_assoc|].
      intros a Ea Ha. destruct (L2 a Ea Ha) as (ev & Hl & Hev). exists ev.
      split; [|done]. destruct t2 as [|x t2]; [done|]. by rewrite last_app, Hl.
    + exists t1. split; [done|]. intros a [=].
Qed.

Lemma no_load_locating ev : is_locating ev → is_page_load ev = false.
Proof. by destruct ev as [[]| | |]. Qed.

Lemma no_load_settling ev : is_settling ev → is_page_load ev = false.
Proof. by destruct ev as [| | |[]]. Qed.

Lemma no_load_click ev : is_click ev → is_page_load ev = false.
Proof. by destruct ev as [| | |[]]. Qed.

Ltac emits_no_load :=
  repeat first
    [ apply wait_for_element_none, no_load_locating
    | eapply emits_mono; [apply no_load_settling|apply wait_for_page_load_emits]
    | eapply emits_mono; [apply no_load_click|apply safe_click_located_emits]
    | emits_step ].

Lemma login_attempt_counts attempt :
  at_most is_page_load 1 (login_attempt config attempt)
  ∧ emits (loads_only (LOGIN_URL config)) (login_attempt config attempt).
Proof.
  unfold login_attempt. split.
  - apply (am_mono _ (0 + (1 + 0) + 0)); [lia|]. apply am_try_except.
    + apply am_bind; [apply am_emits, emits_log|]. intros _.
      apply am_bind; [apply am_do_act|]. intros _.
      apply am_emits. emits_no_load.
    + intros e h E. unfold except_Exception in E.
      destruct e as [x| |]; simpl in E; simplify_eq. apply am_emits. emits_auto.
  - assert (Hn : ∀ ev, is_page_load ev = false → loads_only (LOGIN_URL config) ev).
    { intros ev Hev Ht. congruence. }
    apply emits_try_except.
    + apply emits_bind; [apply emits_log|]. intros _.
      apply emits_bind.
      { apply emits_do_act. intros a _. by exists a. }
      intros _. eapply emits_mono; [exact Hn|]. emits_no_load.
    + intros e h E. unfold except_Exception in E.
      destruct e as [x| |]; simpl in E; simplify_eq. emits_auto.
Qed.

Lemma login_counts :
  at_most is_page_load 3 (login config)
  ∧ emits (loads_only (LOGIN_URL config)) (login config).
Proof.
  unfold login. destruct (_ || _).
  { split; [apply am_emits|]; emits_auto. }
  generalize 0 as attempt. generalize 3%nat as n.
  induction n as [|k IH]; intros attempt; cbn [login_loop].
  - split; [apply am_emits|]; emits_auto.
  - destruct (login_attempt_counts attempt) as [C1 L1].
    destruct (IH (attempt + 1)) as [C2 L2]. split.
    + change (S k) with (1 + k)%nat. apply am_bind; [exact C1|].
      intros []; [apply am_emits, emits_ret|exact C2].
    + apply emits_bind; [exact L1|]. intros []; [apply emits_ret|exact L2].
Qed.

End Login.

(** X5.  [login] reports success only right after it read a current
    URL that, in lower case, does not contain "login".  With a
    credential or the login URL missing it returns [False] at once,
    without a command to the browser. *)
Theorem login_success_means_left_login_page {W : Type} `{Driver W}
    (config : Config) (env : Env W) :
  let out := login config env in
  (fst out = Ok true →
   ∃ u, last (new_trace env (snd out)) = Some (ERead CurrentUrl (Returns u))
        ∧ PyStr.contains "login" (PyStr.lower u) = false)
  ∧ (PyStr.falsy (LOGIN_URL config) || PyStr.falsy (USERNAME config)
     || PyStr.falsy (PASSWORD config) = true →
     fst out = Ok false
     ∧ new_trace env (snd out) = []
     ∧ new_logs env (snd out) = [(ERROR, Msg "Missing login credentials")]).
Proof.
  cbv zeta. split.
  - intros Ht. destruct (login_ends config env) as (tr & E & L).
    rewrite (new_trace_app _ _ _ E).
    destruct (L true Ht eq_refl) as (ev & Hl & u & -> & Hu). by exists u.
  - intros Hm. unfold login. rewrite Hm. cbn.
    unfold new_trace, new_logs. cbn.
    rewrite drop_all, drop_app_length. done.
Qed.

Lemma login_success_means_left_login_page_witness :
  let env := Sim.env_of (Sim.dp_page "DP001" []) in
  let out := login Sim.default_config env in
  ∃ u, last (new_trace env (snd out)) = Some (ERead CurrentUrl (Returns u))
       ∧ PyStr.contains "login" (PyStr.lower u) = false.
Proof.
  cbv zeta.
  refine (proj1 (login_success_means_left_login_page Sim.default_config
                   (Sim.env_of (Sim.dp_page "DP001" []))) _).
  vm_compute. reflexivity.
Defined.

(** X6.  [login] gives up after three attempts: it loads a page at
    most three times, always the login URL, and never refreshes.  With
    a retry delay that is not negative, no exception of the
    [Exception] family leaves it. *)
Theorem login_loads_at_most_three_times {W : Type} `{Driver W}
    (config : Config) (env : Env W) :
  let out := login config env in
  let tr := new_trace env (snd out) in
  (count is_page_load tr ≤ 3)%nat
  ∧ Forall (loads_only (LOGIN_URL config)) tr
  ∧ (0 ≤ RETRY_DELAY config → ∀ x, fst out ≠ Raise (Exc x)).
Proof.
  cbv zeta. destruct (login_counts config) as [C L].
  destruct (C env) as (t1 & E1 & C1). destruct (L env) as (t2 & E2 & F2).
  rewrite (new_trace_app _ _ _ E1).
  assert (t2 = t1) as -> by (rewrite E1 in E2; by apply app_inv_head in E2).
  split_and!; [done|done|]. intros Hd. by apply oi_login.
Qed.

(** ** The workflow engine: when a ticket is reported created *)

Section EngineEvents.
Context {W : Type} `{Driver W}.
Variable config : Config.
Variable P : event → Prop.
Hypothesis helper : ∀ ev, is_helper ev → P ev.

Ltac emits_helper :=
  repeat first
    [ apply wait_for_element_helper; exact helper
    | apply wait_for_page_load_helper; exact helper
    | apply safe_click_helper; exact helper
    | apply emits_do_act; intros ?; by apply helper
    | apply emits_do_test; intros ?; by apply helper
    | emits_step ].

Lemma type_chars_helper input value : emits P (type_chars input value).
Proof.
  induction value as [|c r IH]; cbn [type_chars]; emits_helper. apply IH.
Qed.

Lemma handle_vue_select_dropdown_helper sels value retries :
  emits P (handle_vue_select_dropdown config sels value retries).
Proof.
  unfold handle_vue_select_dropdown.
  induction (Z.to_nat (retries_or_default config retries)) as [|k IH];
    cbn [dropdown_loop]; [apply emits_ret|].
  apply emits_bind; [|intros []; [apply emits_ret|apply IH]].
  unfold dropdown_attempt, select_option, select_exact, select_containing,
    select_by_keyboard.
  repeat first [ apply type_chars_helper | emits_helper ].
Qed.

Lemma missing_or_unclicked_helper element :
  emits P (missing_or_unclicked config element).
Proof. unfold missing_or_unclicked. emits_helper. Qed.

Lemma create_ticket_helper : emits P (create_ticket config).
Proof.
  unfold create_ticket.
  repeat first [ apply missing_or_unclicked_helper | emits_helper ].
Qed.

End EngineEvents.

Section TicketCreation.
Context {W : Type} `{Driver W}.
Variable config : Config.
Import Validation.

Lemma is_helper_quiet ev : is_helper ev → quiet ev.
Proof. by destruct ev as [[]| | |]. Qed.

Lemma count_last_none f (tr : list event) ev :
  last tr = Some ev → count f tr = 0%nat → f ev = false.
Proof.
  intros Hl Hc. apply last_Some in Hl as [pre ->].
  rewrite count_app in Hc. unfold count in Hc. cbn in Hc.
  destruct (f ev); [cbn in Hc; lia|done].
Qed.

(** With [use_js] the accepted click is a script click. *)
Lemma safe_click_js_ends target n :
  ends_with (λ b, b = true) accepted_script_click (safe_click config target true n).
Proof.
  intros env.
  destruct (safe_click_ends config target true n env) as (tr & E & L).
  destruct (safe_click_counts config target true n) as [_ N].
  destruct (N env) as (t2 & E2 & C2).
  assert (t2 = tr) as -> by (rewrite E in E2; by apply app_inv_head in E2).
  exists tr. split; [done|]. intros a Ea Ha.
  destruct (L a Ea Ha) as (ev & Hl & e & [->| ->] & _).
  - exists (EAct (ScriptClick e) (Returns tt)). split; [done|]. by exists e.
  - assert (C0 : count is_native_click tr = 0%nat) by lia.
    by pose proof (count_last_none _ _ _ Hl C0).
Qed.

Lemma missing_or_unclicked_ends element :
  ends_with (λ bad, bad = false) accepted_script_click
    (missing_or_unclicked config element).
Proof.
  unfold missing_or_unclicked. destruct element as [e|]; [|by apply ew_ret].
  apply ew_bind_silent with (want' := λ b, b = true).
  - apply safe_click_js_ends.
  - intros b. apply emits_ret.
  - intros [|] env c; cbn; congruence.
Qed.

Lemma create_ticket_ends :
  ends_with (λ b, b = true) accepted_script_click (create_ticket config).
Proof.
  unfold create_ticket.
  apply ew_bind; [apply wait_for_element_helper; done|]. intros icon.
  apply ew_bind; [apply missing_or_unclicked_helper; done|].
  intros []; [by apply ew_ret|].
  apply ew_bind; [apply wait_for_page_load_helper; done|]. intros _.
  apply ew_bind; [apply emits_sleep|]. intros _.
  apply ew_bind; [apply wait_for_element_helper; done|]. intros final.
  apply ew_bind; [apply missing_or_unclicked_helper; done|].
  intros []; [by apply ew_ret|].
  apply ew_bind; [apply emits_sleep|]. intros _.
  apply ew_bind; [apply wait_for_element_helper; done|]. intros confirm.
  apply ew_bind_silent with (want' := λ bad, bad = false).
  - apply missing_or_unclicked_ends.
  - intros []; emits_auto.
  - intros [|] env c; [cbn; congruence|done].
Qed.

Lemma filter_and_validate_ends code :
  ends_with (λ b, b = true) accepted_script_click (filter_and_validate config code).
Proof.
  unfold filter_and_validate.
  apply ew_bind; [apply wait_for_element_helper; done|].
  intros [button|]; [|by apply ew_ret].
  intros env. unfold bind.
  destruct (filter_loop_run config code button 3 env)
    as (r & env1 & t1 & k & E1 & Et1 & Hk & Hr).
  rewrite E1. destruct r as [[[|]|[|]]|e]; cbn [fst snd negb].
  - done.
  - exists t1. split; [done|]. intros a [= <-] [=].
  - destruct (create_ticket_ends env1) as (t2 & E2 & L2).
    exists (t1 ++ t2)%list. split; [by rewrite E2, Et1, app_assoc|].
    intros a Ea Ha. destruct (L2 a Ea Ha) as (ev & Hl & Hev). exists ev.
    split; [|done]. destruct t2 as [|x t2]; [done|]. by rewrite last_app, Hl.
  - exists t1. split; [done|]. intros a [= <-] [=].
  - exists t1. split; [done|]. intros a [=].
Qed.

Lemma process_ticket_creation_ends city rk code :
  ends_with (λ b, b = true) accepted_script_click
    (process_ticket_creation config city rk code).
Proof.
  unfold process_ticket_creation. apply ew_try_except.
  - apply ew_bind; [apply handle_vue_select_dropdown_helper; done|].
    intros []; cbn [negb]; [|by apply ew_ret].
    apply ew_bind; [apply emits_sleep|]. intros _.
    apply ew_bind; [apply handle_vue_select_dropdown_helper; done|].
    intros []; cbn [negb]; [|by apply ew_ret].
    apply ew_bind; [apply emits_sleep|]. intros _.
    apply ew_bind; [apply handle_vue_select_dropdown_helper; done|].
    intros []; cbn [negb]; [|by apply ew_ret].
    apply ew_bind; [apply emits_sleep|]. intros _.
    apply filter_and_validate_ends.
  - intros e h E. unfold except_Exception in E.
    destruct e as [x| |]; simpl in E; simplify_eq.
    apply ew_bind; [apply emits_log|]. intros _. by apply ew_ret.
Qed.

(** *** The verdicts a created ticket rests on *)

Lemma matched_ret_false code : matched (W := W) code (ret false).
Proof. intros env. exists []. split; [by rewrite app_nil_r|]. intros [=]. Qed.

Lemma matched_bind {A} code (m : M (Env W) A) k :
  emits quiet m → (∀ a, matched code (k a)) → matched code (bind m k).
Proof.
  intros Hm Hk env. unfold bind. destruct (Hm env) as (t1 & E1 & F1).
  destruct (m env) as [[a|e] env1]; cbn [fst snd] in *.
  - destruct (Hk a env1) as (t2 & E2 & L). exists (t1 ++ t2)%list.
    split; [by rewrite E2, E1, app_assoc|].
    intros Ht. destruct (L Ht) as (j & Hj & Hy). exists j. split; [done|].
    apply yields_app_nil_l; [by apply yields_quiet|done].
  - exists t1. split; [done|]. intros [=].
Qed.

Lemma filter_and_validate_matched code :
  matched code (filter_and_validate config code).
Proof.
  unfold filter_and_validate.
  apply matched_bind.
  { apply wait_for_element_helper, is_helper_quiet. }
  intros [button|]; [|apply matched_ret_false].
  intros env. unfold bind.
  destruct (filter_loop_run config code button 3 env)
    as (r & env1 & t1 & k & E1 & Et1 & Hk & Hr).
  rewrite E1. destruct r as [[[|]|[|]]|e]; cbn [fst snd negb].
  - done.
  - exists t1. split; [done|]. intros [=].
  - destruct (create_ticket_helper config quiet is_helper_quiet env1)
      as (t2 & E2 & F2).
    destruct Hr as (Hlt & Hy & _).
    exists (t1 ++ t2)%list. split; [by rewrite E2, Et1, app_assoc|].
    intros _. exists k. split; [done|].
    apply yields_app_nil_r; [done|by apply yields_quiet].
  - exists t1. split; [done|]. intros [=].
  - exists t1. split; [done|]. intros [=].
Qed.

Lemma process_ticket_creation_matched city rk code :
  matched code (process_ticket_creation config city rk code).
Proof.
  assert (Hbody : matched code
    (let* ok := handle_vue_select_dropdown config (SelList SELECTORS.city_input)
                  city None in
     if negb ok then ret false
     else
       sleep 500 >>
       let* ok := handle_vue_select_dropdown config (SelList SELECTORS.rk_input)
                    rk None in
       if negb ok then ret false
       else
         sleep 500 >>
         let* ok := handle_vue_select_dropdown config
                      (SelList SELECTORS.dp_input) code None in
         if negb ok then ret false
         else sleep 1000 >> filter_and_validate config code)).
  { apply matched_bind.
    { apply handle_vue_select_dropdown_helper, is_helper_quiet. }
    intros []; cbn [negb]; [|apply matched_ret_false].
    apply matched_bind; [apply emits_sleep|]. intros _.
    apply matched_bind.
    { apply handle_vue_select_dropdown_helper, is_helper_quiet. }
    intros []; cbn [negb]; [|apply matched_ret_false].
    apply matched_bind; [apply emits_sleep|]. intros _.
    apply matched_bind.
    { apply handle_vue_select_dropdown_helper, is_helper_quiet. }
    intros []; cbn [negb]; [|apply matched_ret_false].
    apply matched_bind; [apply emits_sleep|]. intros _.
    apply filter_and_validate_matched. }
  intros env. unfold process_ticket_creation, try_except.
  destruct (Hbody env) as (t1 & E1 & L1).
  match goal with |- context [match ?b env with _ => _ end] =>
    change b with
      (let* ok := handle_vue_select_dropdown config (SelList SELECTORS.city_input)
                    city None in
       if negb ok then ret false
       else
         sleep 500 >>
         let* ok := handle_vue_select_dropdown config (SelList SELECTORS.rk_input)
                      rk None in
         if negb ok then ret false
         else
           sleep 500 >>
           let* ok := handle_vue_select_dropdown config
                        (SelList SELECTORS.dp_input) code None in
           if negb ok then ret false
           else sleep 1000 >> filter_and_validate config code);
    destruct (b env) as [[a|e] env1] end; cbn [fst snd] in *.
  - exists t1. by split.
  - unfold except_Exception. destruct (is_Exception e); cbn.
    + eexists t1. split; [done|]. intros [=].
    + exists t1. split; [done|]. intros [=].
Qed.

End TicketCreation.

(** X7.  [process_ticket_creation] reports a ticket created only when
    the filter result matched: the trace then shows a code cell whose
    trimmed text is the expected code, read after at most two
    mismatching ones, with no "no data" indicator before or after it;
    and the last command is a script click the browser accepted (the
    confirmation).  No exception of the [Exception] family leaves it. *)
Theorem ticket_created_only_after_match {W : Type} `{Driver W} (config : Config)
    (city rk code : string) (env : Env W) :
  let out := process_ticket_creation config city rk code env in
  let tr := new_trace env (snd out) in
  (fst out = Ok true →
   (∃ k : nat, (k < 3)%nat
      ∧ Validation.verdicts code None tr = (replicate k MISMATCH ++ [MATCH])%list)
   ∧ ∃ e, last tr = Some (EAct (ScriptClick e) (Returns tt)))
  ∧ (∀ x, fst out ≠ Raise (Exc x)).
Proof.
  cbv zeta. split; [|apply oi_process_ticket_creation].
  intros Ht.
  destruct (process_ticket_creation_matched config city rk code env)
    as (t1 & E1 & L1).
  destruct (process_ticket_creation_ends config city rk code env)
    as (t2 & E2 & L2).
  assert (t2 = t1) as -> by (rewrite E1 in E2; by apply app_inv_head in E2).
  rewrite (new_trace_app _ _ _ E1). split.
  - destruct (L1 Ht) as (k & Hk & Hy). exists k. split; [done|].
    by apply yields_verdicts.
  - destruct (L2 true Ht eq_refl) as (ev & Hl & e & ->). by exists e.
Qed.

Lemma ticket_created_only_after_match_witness :
  let env := Sim.env_of (Sim.dp_page "DP001" []) in
  let out := process_ticket_creation Sim.default_config "X" "Y" "DP001" env in
  (∃ k : nat, (k < 3)%nat
     ∧ Validation.verdicts "DP001" None (new_trace env (snd out))
       = (replicate k MISMATCH ++ [MATCH])%list)
  ∧ ∃ e, last (new_trace env (snd out)) = Some (EAct (ScriptClick e) (Returns tt)).
Proof.
  cbv zeta.
  refine (proj1 (ticket_created_only_after_match Sim.default_config "X" "Y" "DP001"
                   (Sim.env_of (Sim.dp_page "DP001" []))) _).
  vm_compute. reflexivity.
Defined.

(** ** The filter result in one run of the workflow engine *)

Section EngineRun.
Context {W : Type} `{Driver W}.
Variable config : Config.
Import Validation.

Lemma run_shows_ret_false code : run_shows (W := W) code (ret false).
Proof.
  intros env. exists []. split; [by rewrite app_nil_r|].
  exists 0%nat. split; [lia|]. right; right. split; [apply yields_nil|done].
Qed.

Lemma run_shows_bind {A} code (m : M (Env W) A) k :
  emits quiet m → (∀ a, run_shows code (k a)) → run_shows code (bind m k).
Proof.
  intros Hm Hk env. unfold bind. destruct (Hm env) as (t1 & E1 & F1).
  destruct (m env) as [[a|e] env1]; cbn [fst snd] in *.
  - destruct (Hk a env1) as (t2 & E2 & j & Hj & Hc). exists (t1 ++ t2)%list.
    split; [by rewrite E2, E1, app_assoc|].
    exists j. split; [done|].
    destruct Hc as [(Hy & Hlt & Hr & pre & e & ->)|[(Hy & Hlt)|(Hy & Hr)]].
    + left. split; [apply yields_app_nil_l; [by apply yields_quiet|done]|].
      split; [done|]. split; [done|]. exists (t1 ++ pre)%list, e.
      by rewrite app_assoc.
    + right; left. split; [|done].
      apply yields_app_nil_l; [by apply yields_quiet|done].
    + right; right. split; [|done].
      apply yields_app_nil_l; [by apply yields_quiet|done].
  - exists t1. split; [done|]. exists 0%nat. split; [lia|]. right; right.
    split; [by apply yields_quiet|done].
Qed.

Lemma filter_and_validate_shows code :
  run_shows code (filter_and_validate config code).
Proof.
  unfold filter_and_validate. apply run_shows_bind.
  { apply wait_for_element_helper, is_helper_quiet. }
  intros [button|]; [|apply run_shows_ret_false].
  intros env. unfold bind.
  destruct (filter_loop_run config code button 3 env)
    as (r & env1 & t1 & k & E1 & Et1 & Hk & Hr).
  rewrite E1. destruct r as [[[|]|[|]]|e]; cbn [fst snd negb].
  - done.
  - exists t1. split; [done|]. exists k. split; [done|]. left.
    destruct Hr as (Hlt & Hy & Hl). by split_and!.
  - destruct (create_ticket_helper config quiet is_helper_quiet env1)
      as (t2 & E2 & F2).
    destruct Hr as (Hlt & Hy & _).
    exists (t1 ++ t2)%list. split; [by rewrite E2, Et1, app_assoc|].
    exists k. split; [done|]. right; left. split; [|done].
    apply yields_app_nil_r; [done|by apply yields_quiet].
  - exists t1. split; [done|]. exists k. split; [done|]. right; right.
    by split.
  - exists t1. split; [done|]. exists k. split; [done|]. right; right.
    destruct Hr as [_ Hy]. by split.
Qed.

Lemma process_ticket_creation_shows city rk code :
  run_shows code (process_ticket_creation config city rk code).
Proof.
  assert (Hbody : run_shows code
    (let* ok := handle_vue_select_dropdown config (SelList SELECTORS.city_input)
                  city None in
     if negb ok then ret false
     else
       sleep 500 >>
       let* ok := handle_vue_select_dropdown config (SelList SELECTORS.rk_input)
                    rk None in
       if negb ok then ret false
       else
         sleep 500 >>
         let* ok := handle_vue_select_dropdown config
                      (SelList SELECTORS.dp_input) code None in
         if negb ok then ret false
         else sleep 1000 >> filter_and_validate config code)).
  { apply run_shows_bind.
    { apply handle_vue_select_dropdown_helper, is_helper_quiet. }
    intros []; cbn [negb]; [|apply run_shows_ret_false].
    apply run_shows_bind; [apply emits_sleep|]. intros _.
    apply run_shows_bind.
    { apply handle_vue_select_dropdown_helper, is_helper_quiet. }
    intros []; cbn [negb]; [|apply run_shows_ret_false].
    apply run_shows_bind; [apply emits_sleep|]. intros _.
    apply run_shows_bind.
    { apply handle_vue_select_dropdown_helper, is_helper_quiet. }
    intros []; cbn [negb]; [|apply run_shows_ret_false].
    apply run_shows_bind; [apply emits_sleep|]. intros _.
    apply filter_and_validate_shows. }
  intros env. unfold process_ticket_creation, try_except.
  destruct (Hbody env) as (t1 & E1 & k & Hk & Hc).
  match goal with |- context [match ?b env with _ => _ end] =>
    change b with
      (let* ok := handle_vue_select_dropdown config (SelList SELECTORS.city_input)
                    city None in
       if negb ok then ret false
       else
         sleep 500 >>
         let* ok := handle_vue_select_dropdown config (SelList SELECTORS.rk_input)
                      rk None in
         if negb ok then ret false
         else
           sleep 500 >>
           let* ok := handle_vue_select_dropdown config
                        (SelList SELECTORS.dp_input) code None in
           if negb ok then ret false
           else sleep 1000 >> filter_and_validate config code);
    destruct (b env) as [[a|e] env1] end; cbn [fst snd] in *.
  - exists t1. split; [done|]. by exists k.
  - assert (Hn : ∃ mismatches : nat, (mismatches ≤ 3)%nat
      ∧ ((yields code (replicate mismatches MISMATCH ++ [MATCH]) t1
          ∧ (mismatches < 3)%nat)
         ∨ yields code (replicate mismatches MISMATCH) t1)).
    { exists k. split; [done|].
      destruct Hc as [(_ & _ & [=] & _)|[?|[? _]]]; [by left|by right]. }
    clear Hc. destruct Hn as (j & Hj & Hc).
    unfold except_Exception. destruct (is_Exception e); cbn.
    + exists t1. split; [done|]. exists j. split; [done|].
      destruct Hc as [?|?]; [right; by left|right; right; by split].
    + exists t1. split; [done|]. exists j. split; [done|].
      destruct Hc as [?|?]; [right; by left|right; right; by split].
Qed.

Lemma process_ticket_creation_outcome city rk code (env : Env W) :
  let out := process_ticket_creation config city rk code env in
  engine_run_outcome code (new_trace env (snd out)) (fst out).
Proof.
  cbv zeta.
  destruct (process_ticket_creation_shows city rk code env)
    as (tr & E & k & Hk & Hc).
  rewrite (new_trace_app _ _ _ E). exists k. split; [done|].
  destruct Hc as [(Hy & Hlt & Hr & pre & e & ->)|[(Hy & Hlt)|(Hy & Hr)]].
  - left. split; [by apply yields_verdicts|]. split; [done|]. split; [done|].
    exists e. by rewrite last_snoc.
  - right; left. split; [by apply yields_verdicts|done].
  - right; right. split; [by apply yields_verdicts|done].
Qed.

End EngineRun.

(** C1 (amended).  For every world and every expected code, the filter
    stage of [process_ticket_creation] ends in one of these ways, told
    by the browser's answers alone: a displayed "no data" indicator
    fails the run of the engine at once, being the last thing the run
    looked at; a first-row code cell whose text, once trimmed, is the
    expected code lets the workflow go on to the ticket modal; a cell
    with another code makes the stage filter again, at most three turns
    in all, after which the run fails.  Before the deciding turn only
    mismatches were read.  The same holds of the whole run of the
    engine, whatever its dropdowns did before.  The three scenarios of
    the specification run on a simulated page. *)
Theorem validation_stage_outcomes {W : Type} `{Driver W} (config : Config)
    (filter_button : Elem) (city rk expected : string) (env : Env W) :
  (let out := filter_loop config 3 filter_button expected env in
   Validation.stage_outcome expected 3 (new_trace env (snd out)) (fst out))
  ∧ (let found :=
       wait_for_element config (SelList SELECTORS.filter_button) None true env in
     match fst found with
     | Ok (Some button) =>
         let stage := filter_loop config 3 button expected (snd found) in
         filter_and_validate config expected env
         = match fst stage with
           | Ok (Return b) => (Ok b, snd stage)
           | Ok (Continue true) => create_ticket config (snd stage)
           | Ok (Continue false) => (Ok false, snd stage)
           | Raise e => (Raise e, snd stage)
           end
     | Ok None => filter_and_validate config expected env = (Ok false, snd found)
     | Raise _ => False
     end)
  ∧ (let out := process_ticket_creation config city rk expected env in
     engine_run_outcome expected (new_trace env (snd out)) (fst out))
  ∧ (let out := filter_and_validate Sim.default_config "DP001"
                  (Sim.env_of (Sim.dp_page "DP001" [])) in
     fst out = Ok true
     ∧ Validation.verdicts "DP001" None (trace (snd out)) = [MATCH]
     ∧ Validation.script_clicks 10 (trace (snd out)) = 1%nat
     ∧ Dropdown.clicked (trace (snd out)) = [10; 21; 22; 23]%nat)
  ∧ (let out := filter_and_validate Sim.default_config "DP001"
                  (Sim.env_of (Sim.dp_page "DP002" [])) in
     fst out = Ok false
     ∧ Validation.verdicts "DP001" None (trace (snd out))
       = [MISMATCH; MISMATCH; MISMATCH]
     ∧ Validation.script_clicks 10 (trace (snd out)) = 3%nat
     ∧ Dropdown.clicked (trace (snd out)) = [10; 10; 10]%nat)
  ∧ (let out := filter_and_validate Sim.default_config "DP001"
                  (Sim.env_of (Sim.no_data_page "DP001")) in
     fst out = Ok false
     ∧ Validation.verdicts "DP001" None (trace (snd out)) = [NO_DATA]
     ∧ Validation.script_clicks 10 (trace (snd out)) = 1%nat
     ∧ Dropdown.clicked (trace (snd out)) = [10]%nat).
Proof.
  split_and!.
  - apply filter_loop_stage_outcome.
  - apply filter_and_validate_after_stage.
  - apply process_ticket_creation_outcome.
  - cbv zeta. split_and!; by vm_compute.
  - cbv zeta. split_and!; by vm_compute.
  - cbv zeta. split_and!; by vm_compute.
Qed.

(** C1 as stated fails in two ways.  It compares the cell text
    "exactly": a cell whose text ends in a space differs from the
    expected code, yet the stage takes it for a match, with one filter
    click, no second turn, and the workflow going on to create the
    ticket.  And it lets a "no data" indicator fail the item with no
    further filter attempt: on a page that shows the indicator, the
    turn of the item loop for the code runs the engine three times,
    the retry budget, each run clicking the filter button and finding
    the indicator again, before the item is counted as failed. *)
Lemma validation_stage_counterexample :
  (let env := Sim.env_of (Sim.dp_page "DP001 " []) in
   let stage := filter_loop Sim.default_config 3 10%nat "DP001" env in
   "DP001 " ≠ "DP001"
   ∧ fst (read (GetText 20%nat) (world env)) = Returns "DP001 "
   ∧ fst (validate_filter_result Sim.default_config "DP001" 3 env) = Ok (true, MATCH)
   ∧ fst stage = Ok (Continue true)
   ∧ Validation.untrimmed_verdicts "DP001" None (trace (snd stage)) = [MISMATCH]
   ∧ Validation.script_clicks 10 (trace (snd stage)) = 1%nat
   ∧ fst (filter_and_validate Sim.default_config "DP001" env) = Ok true)
  ∧ (let master_data : gmap string DataManager.master_entry :=
       {[ "DP001" := DataManager.MasterEntry "X" "Y" 2 ]} in
     let out := item_turn Sim.default_config master_data 1 1 "DP001"
                  (new_bot, Sim.env_of (Sim.no_data_page "DP001")) in
     let tr := trace (snd (snd out)) in
     MAX_RETRIES Sim.default_config = 3
     ∧ fst out = Ok true
     ∧ Validation.verdicts "DP001" None tr = [NO_DATA; NO_DATA; NO_DATA]
     ∧ Validation.script_clicks 10 tr = 3%nat
     ∧ failed (stats (fst (snd out))) = 1).
Proof. cbv zeta. split; split_and!; by vm_compute. Qed.

(** ** The log and the trace only grow *)

Section Appends.
Context {S X : Type} (proj : S → list X).

Lemma ap_ret {A} P (a : A) : appends proj P (ret a).
Proof. intros s. exists []. split; [by rewrite app_nil_r|constructor]. Qed.

Lemma ap_raise {A} P e : appends proj P (raise (A := A) e).
Proof. intros s. exists []. split; [by rewrite app_nil_r|constructor]. Qed.

Lemma ap_bind {A C} P (m : M S A) (k : A → M S C) :
  appends proj P m → (∀ a, appends proj P (k a)) → appends proj P (bind m k).
Proof.
  intros Hm Hk s. unfold bind. destruct (Hm s) as (l1 & E1 & F1).
  destruct (m s) as [[a|e] s1]; cbn [fst snd] in *.
  - destruct (Hk a s1) as (l2 & E2 & F2). exists (l1 ++ l2)%list.
    split; [by rewrite E2, E1, app_assoc|by apply Forall_app].
  - by exists l1.
Qed.

Lemma ap_try_except {A} P (body : M S A) handler :
  appends proj P body → (∀ e h, handler e = Some h → appends proj P h) →
  appends proj P (try_except body handler).
Proof.
  intros Hb Hh s. unfold try_except. destruct (Hb s) as (l1 & E1 & F1).
  destruct (body s) as [[a|e] s1]; cbn [fst snd] in *; [by exists l1|].
  destruct (handler e) as [h|] eqn:Eh; [|by exists l1].
  destruct (Hh e h Eh s1) as (l2 & E2 & F2). exists (l1 ++ l2)%list.
  split; [by rewrite E2, E1, app_assoc|by apply Forall_app].
Qed.

Lemma ap_try_finally {A} P (body : M S A) fin :
  appends proj P body → appends proj P fin → appends proj P (try_finally body fin).
Proof.
  intros Hb Hf s. unfold try_finally. destruct (Hb s) as (l1 & E1 & F1).
  destruct (body s) as [r s1]; cbn [fst snd] in *.
  destruct (Hf s1) as (l2 & E2 & F2).
  destruct (fin s1) as [[[]|e] s2]; cbn [fst snd] in *;
    (exists (l1 ++ l2)%list;
     split; [by rewrite E2, E1, app_assoc|by apply Forall_app]).
Qed.

Lemma ap_mono {A} (P Q : X → Prop) (m : M S A) :
  (∀ x, P x → Q x) → appends proj P m → appends proj Q m.
Proof.
  intros HPQ Hm s. destruct (Hm s) as (l & E & F). exists l.
  split; [done|]. by eapply Forall_impl.
Qed.

(** A computation that leaves the list alone. *)
Lemma ap_same {A} P (m : M S A) :
  (∀ s, proj (snd (m s)) = proj s) → appends proj P m.
Proof. intros Hm s. exists []. split; [by rewrite app_nil_r, Hm|constructor]. Qed.

End Appends.

Section AppendsProgram.
Context {W : Type} `{Driver W}.

Lemma ap_lift_logs {A} P (m : M (Env W) A) :
  appends logs P m → appends bot_logs P (lift m).
Proof.
  intros Hm [bot env]. unfold lift, bot_logs. cbn [fst snd].
  destruct (Hm env) as (l & E & F). exists l. by destruct (m env).
Qed.

Lemma ap_lift_trace {A} P (m : M (Env W) A) :
  appends trace P m → appends bot_trace P (lift m).
Proof.
  intros Hm [bot env]. unfold lift, bot_trace. cbn [fst snd].
  destruct (Hm env) as (l & E & F). exists l. by destruct (m env).
Qed.

Lemma ap_emits {A} P (m : M (Env W) A) : emits P m ↔ appends trace P m.
Proof. done. Qed.

(** The log: the primitive commands add at most the line of the
    signal handler. *)
Lemma lg_signal_handler {A} (P : level * message → Prop) :
  P interrupt_line → appends logs P (signal_handler (W := W) (A := A)).
Proof.
  intros HP env. unfold signal_handler. destruct (handler_installed env); cbn.
  - exists [interrupt_line]. split; [done|by constructor].
  - exists []. split; [by rewrite app_nil_r|constructor].
Qed.

Lemma lg_answered {A} (P : level * message → Prop) (a : answer A) :
  P interrupt_line → appends logs P (answered (W := W) a).
Proof.
  intros HP. destruct a; [apply ap_ret|apply ap_raise|by apply lg_signal_handler].
Qed.

Lemma lg_do_act (P : level * message → Prop) c :
  P interrupt_line → appends logs P (do_act c).
Proof.
  intros HP env. unfold do_act. destruct (act c (world env)) as [a w].
  match goal with |- context [answered a ?e] => exact (lg_answered P a HP e) end.
Qed.

Lemma lg_do_find (P : level * message → Prop) c :
  P interrupt_line → appends logs P (do_find c).
Proof.
  intros HP env. unfold do_find. destruct (find c (world env)) as [a w].
  match goal with |- context [answered a ?e] => exact (lg_answered P a HP e) end.
Qed.

Lemma lg_do_test (P : level * message → Prop) c :
  P interrupt_line → appends logs P (do_test c).
Proof.
  intros HP env. unfold do_test. destruct (test c (world env)) as [a w].
  match goal with |- context [answered a ?e] => exact (lg_answered P a HP e) end.
Qed.

Lemma lg_do_read (P : level * message → Prop) c :
  P interrupt_line → appends logs P (do_read c).
Proof.
  intros HP env. unfold do_read. destruct (read c (world env)) as [a w].
  match goal with |- context [answered a ?e] => exact (lg_answered P a HP e) end.
Qed.

Lemma lg_sleep (P : level * message → Prop) ms :
  P interrupt_line → appends logs P (sleep ms).
Proof.
  intros HP env. unfold sleep. destruct (ms <? 0).
  { exists []. split; [by rewrite app_nil_r|constructor]. }
  destruct (sleeping ms (world env)) as [[|] w].
  - match goal with |- context [signal_handler ?e] =>
      exact (lg_signal_handler P HP e) end.
  - exists []. split; [by rewrite app_nil_r|constructor].
Qed.

Lemma lg_now (P : level * message → Prop) : appends logs P now.
Proof.
  intros env. unfold now. destruct (clock (world env)).
  exists []. split; [by rewrite app_nil_r|constructor].
Qed.

Lemma lg_log (P : level * message → Prop) l m :
  P (l, m) → appends logs P (log (W := W) l m).
Proof. intros HP env. exists [(l, m)]. split; [done|by constructor]. Qed.

Lemma lg_get_bot (P : level * message → Prop) :
  appends bot_logs P (get_bot (W := W)).
Proof. by apply ap_same. Qed.

Lemma lg_update (P : level * message → Prop) f :
  appends bot_logs P (update (W := W) f).
Proof. by apply ap_same. Qed.

Lemma tr_get_bot (P : event → Prop) : appends bot_trace P (get_bot (W := W)).
Proof. by apply ap_same. Qed.

Lemma tr_update (P : event → Prop) f : appends bot_trace P (update (W := W) f).
Proof. by apply ap_same. Qed.

End AppendsProgram.

(** Steps through a computation of the bot; [tac] settles the side
    conditions on the appended items and the calls it knows. *)
Ltac ap_step tac :=
  first
    [ simple apply ap_ret | simple apply ap_raise
    | simple apply lg_get_bot | simple apply lg_update
    | simple apply tr_get_bot | simple apply tr_update
    | simple apply lg_now
    | simple apply lg_sleep; tac
    | simple apply lg_log; tac
    | simple apply lg_do_act; tac | simple apply lg_do_find; tac
    | simple apply lg_do_test; tac | simple apply lg_do_read; tac
    | simple apply lg_signal_handler; tac
    | simple apply ap_lift_logs
    | simple apply ap_lift_trace; apply ap_emits
    | simple apply ap_bind; [|intros ?]
    | simple apply ap_try_finally
    | simple apply ap_try_except;
      [|let e := fresh "e" in let h := fresh "h" in let E := fresh "E" in
        intros e h E; unfold bare, except_Exception in E;
        try (destruct e as [[]| |]; simpl in E); simplify_eq]
    | match goal with
      | |- appends _ _ (if ?b then _ else _) => destruct b
      | |- appends _ _ (match ?x with _ => _ end) => destruct x
      | |- appends _ _ (let _ := _ in _) => cbv zeta
      end
    | tac ].

Ltac ap_auto tac := repeat (ap_step tac).

(** ** Session lifecycle *)

Section Lifecycle.
Context {W : Type} `{Driver W}.
Variable config : Config.

(** With nothing to release, [WebDriverManager.cleanup] does nothing. *)
Lemma manager_cleanup_released processed st (env : Env W) :
  manager_cleanup (MkBot (MkManager false false) processed st, env)
  = (Ok tt, (MkBot (MkManager false false) processed st, env)).
Proof. reflexivity. Qed.

(** What [AutomationBot.cleanup] leaves: the session released, the end
    time stamped if the bot was started and had none, the rest of the
    bot as it was. *)
Lemma cleanup_run_full (bot : Bot) (env : Env W) :
  ∃ ended env',
    cleanup (bot, env)
    = (Ok tt, (MkBot (MkManager false false) (processed_dps bot)
                 (MkStats (successful (stats bot)) (failed (stats bot))
                    (skipped (stats bot)) (start_time (stats bot)) ended), env'))
    ∧ match start_time (stats bot), end_time (stats bot) with
      | Some _, None => ended = Some (fst (clock (world env)))
      | _, _ => ended = end_time (stats bot)
      end.
Proof.
  unfold cleanup. unfold try_except at 1. unfold bind at 1.
  unfold get_bot at 1. cbn [fst snd].
  destruct bot as [mgr processed [s f k started ended]].
  cbn [stats start_time end_time successful failed skipped processed_dps].
  destruct started as [t0|], ended as [t1|];
    try (unfold bind at 1, ret at 1; cbn [fst snd];
         match goal with |- context [manager_cleanup (?b, ?e)] =>
           destruct (manager_cleanup_run b e) as [env' ->] end;
         by eexists _, _).
  unfold bind at 1 2, lift at 1, now at 1, update at 1. cbn [fst snd].
  destruct (clock (world env)) as [t w]. cbn [fst snd].
  match goal with |- context [manager_cleanup (?b, ?e)] =>
    destruct (manager_cleanup_run b e) as [env' ->] end.
  by eexists _, _.
Qed.

End Lifecycle.

(** X8.  [AutomationBot.cleanup] always returns, whatever the browser
    answers and even when an interrupt arrives while it runs.  It
    leaves the driver and the service released and the counters and
    the processed set untouched; it stamps the end time only for a bot
    that was started and has none.  A second call does nothing at all:
    it sends no command, logs nothing and changes no field. *)
Theorem cleanup_is_idempotent {W : Type} `{Driver W} (bot : Bot) (env : Env W) :
  let out := cleanup (bot, env) in
  let bot' := fst (snd out) in
  fst out = Ok tt
  ∧ driver_manager bot' = MkManager false false
  ∧ Ledger.same_books bot bot'
  ∧ start_time (stats bot') = start_time (stats bot)
  ∧ (end_time (stats bot') =
     match start_time (stats bot), end_time (stats bot) with
     | Some _, None => Some (fst (clock (world env)))
     | _, _ => end_time (stats bot)
     end)
  ∧ cleanup (snd out) = (Ok tt, snd out).
Proof.
  cbv zeta.
  destruct (cleanup_run_full bot env) as (ended & env' & E & He).
  rewrite E. cbn [fst snd driver_manager stats start_time end_time].
  split_and!; try done.
  - destruct (start_time (stats bot)), (end_time (stats bot)); by subst.
  - unfold cleanup, try_except, bind, get_bot. cbn [fst snd stats start_time end_time].
    destruct (start_time (stats bot)) as [t0|] eqn:Es.
    + destruct ended as [t1|].
      * reflexivity.
      * destruct (end_time (stats bot)); done.
    + reflexivity.
Qed.

Section Teardown2.
Context {W : Type} `{Driver W}.

Lemma do_act_trace c (env : Env W) :
  ∃ a, trace (snd (do_act c env)) = (trace env ++ [EAct c a])%list
       ∧ (fst (do_act c env) = Ok tt ↔ a = Returns tt).
Proof.
  unfold do_act, answered, ret, raise, signal_handler.
  destruct (act c (world env)) as [[[]|x|] w];
    [| |destruct (handler_installed env)]; cbn; eexists; (split; [reflexivity|]);
    split; congruence.
Qed.

Lemma manager_cleanup_teardown (bot : Bot) (env : Env W) :
  teardown (driver (driver_manager bot)) (service (driver_manager bot))
    (new_trace env (snd (snd (manager_cleanup (bot, env))))).
Proof.
  destruct bot as [[d s] processed st]. cbn [driver_manager driver service].
  assert (Hstop : ∀ env0 : Env W,
    ∃ rest, trace (snd (snd (manager_cleanup
                     (MkBot (MkManager false s) processed st, env0))))
            = (trace env0 ++ rest)%list ∧ teardown false s rest).
  { intros env0. destruct s.
    - unfold manager_cleanup, try_except, bind, get_bot, try_finally, lift, update,
        bare, ret. cbn [fst snd driver_manager driver service].
      destruct (do_act_trace ServiceStop env0) as (c & Et & _).
      destruct (do_act ServiceStop env0) as [[[]|e] env1]; cbn [fst snd] in *;
        exists [EAct ServiceStop c]; (split; [exact Et|constructor]).
    - exists []. split; [by rewrite app_nil_r|constructor]. }
  destruct d.
  2:{ destruct (Hstop env) as (rest & E & T).
      by rewrite (new_trace_app _ _ _ E). }
  destruct (do_act_trace Quit env) as (a & Eq & Hq).
  destruct (do_act Quit env) as [[[]|e] env1] eqn:EQ; cbn [fst snd] in *.
  - destruct (Hstop env1) as (rest & E & T).
    assert (Ha : a = Returns tt) by by apply Hq. subst a.
    assert (Em : manager_cleanup (MkBot (MkManager true s) processed st, env)
                 = manager_cleanup (MkBot (MkManager false s) processed st, env1)).
    { unfold manager_cleanup, try_except, bind, get_bot, try_finally, lift, update,
        bare, ret. cbn [fst snd driver_manager driver service]. rewrite EQ.
      reflexivity. }
    rewrite Em.
    erewrite new_trace_app; [|by rewrite E, Eq, <- app_assoc].
    by constructor.
  - destruct (do_act_trace Close env1) as (b & Ec & _).
    destruct (do_act Close env1) as [r2 env2] eqn:EC; cbn [fst snd] in *.
    destruct (Hstop env2) as (rest & E & T).
    assert (Ha : a ≠ Returns tt) by (intros Ha; by apply Hq in Ha).
    assert (Em : manager_cleanup (MkBot (MkManager true s) processed st, env)
                 = manager_cleanup (MkBot (MkManager false s) processed st, env2)).
    { unfold manager_cleanup, try_except, bind, get_bot, try_finally, lift, update,
        bare, ret. cbn [fst snd driver_manager driver service]. rewrite EQ.
      cbn [fst snd]. rewrite EC. by destruct r2 as [[]|?]. }
    rewrite Em.
    erewrite new_trace_app; [|by rewrite E, Ec, Eq, <- !app_assoc].
    by constructor.
Qed.

End Teardown2.

(** X9.  [WebDriverManager.cleanup] always returns and leaves neither
    driver nor service.  Its commands are, in this order: [quit()] if
    there is a driver, [close()] only when [quit()] did not answer,
    [stop()] if there is a service; with nothing to release it sends
    nothing. *)
Theorem manager_cleanup_commands {W : Type} `{Driver W} (bot : Bot) (env : Env W) :
  let out := manager_cleanup (bot, env) in
  fst out = Ok tt
  ∧ fst (snd out)
    = MkBot (MkManager false false) (processed_dps bot) (stats bot)
  ∧ teardown (driver (driver_manager bot)) (service (driver_manager bot))
      (new_trace env (snd (snd out))).
Proof.
  cbv zeta. destruct (manager_cleanup_run bot env) as [env' E].
  split_and!; [by rewrite E|by rewrite E|apply manager_cleanup_teardown].
Qed.

Section Creation.
Context {W : Type} `{Driver W}.
Variable config : Config.

Lemma manager_cleanup_logs :
  appends bot_logs (λ _, True) (manager_cleanup (W := W)).
Proof. unfold manager_cleanup. ap_auto ltac:(exact I). Qed.

Lemma cleanup_logs : appends bot_logs (λ _, True) (cleanup (W := W)).
Proof.
  unfold cleanup. ap_auto ltac:(first [exact I|apply manager_cleanup_logs]).
Qed.

Lemma lift_do_act_ok c (s s' : Bot * Env W) :
  lift (do_act c) s = (Ok tt, s') →
  fst s' = fst s
  ∧ trace (snd s') = (trace (snd s) ++ [EAct c (Returns tt)])%list.
Proof.
  unfold lift. destruct (do_act_trace c (snd s)) as (a & Et & Ha).
  destruct (do_act c (snd s)) as [r env1]. cbn [fst snd] in *.
  intros [= -> <-]. cbn [fst snd]. split; [done|].
  by rewrite Et, (proj1 Ha eq_refl).
Qed.

Lemma construct_driver_ok (s s' : Bot * Env W) :
  construct_driver config s = (Ok tt, s') →
  driver (driver_manager (fst s')) = true
  ∧ Ledger.same_books (fst s) (fst s')
  ∧ ∃ pre with_service,
      trace (snd s')
      = (trace (snd s) ++ pre
         ++ [EAct (NewChrome with_service (PROXY_SERVER config)) (Returns tt)])%list.
Proof.
  destruct s as [bot env]. unfold construct_driver, try_except.
  unfold bind at 1. unfold lift at 1. cbn [fst snd].
  destruct (do_act_trace NewService env) as (a & Ea & Ha).
  destruct (do_act NewService env) as [[[]|e] env1]; cbn [fst snd] in *.
  - unfold bind at 1, update at 1. cbn [fst snd].
    unfold bind at 1. unfold lift at 1. cbn [fst snd].
    destruct (do_act_trace (NewChrome true (PROXY_SERVER config)) env1)
      as (b & Eb & Hb).
    destruct (do_act (NewChrome true (PROXY_SERVER config)) env1)
      as [[[]|e] env2]; cbn [fst snd] in *.
    + unfold update. cbn. intros [= <-]. cbn. split; [done|]. split; [done|].
      exists [EAct NewService a], true.
      by rewrite Eb, Ea, (proj1 Hb eq_refl), <- app_assoc.
    + unfold except_Exception. destruct (is_Exception e); [|done].
      unfold bind at 1. unfold lift at 1. cbn [fst snd].
      destruct (do_act_trace (NewChrome false (PROXY_SERVER config)) env2)
        as (c & Ec & Hc).
      destruct (do_act (NewChrome false (PROXY_SERVER config)) env2)
        as [[[]|e'] env3]; cbn [fst snd] in *; [|done].
      unfold update. cbn. intros [= <-]. cbn. split; [done|]. split; [done|].
      exists [EAct NewService a; EAct (NewChrome true (PROXY_SERVER config)) b], false.
      by rewrite Ec, Eb, Ea, (proj1 Hc eq_refl), <- !app_assoc.
  - unfold except_Exception. destruct (is_Exception e); [|done].
    unfold bind at 1. unfold lift at 1. cbn [fst snd].
    destruct (do_act_trace (NewChrome false (PROXY_SERVER config)) env1)
      as (c & Ec & Hc).
    destruct (do_act (NewChrome false (PROXY_SERVER config)) env1)
      as [[[]|e'] env3]; cbn [fst snd] in *; [|done].
    unfold update. cbn. intros [= <-]. cbn. split; [done|]. split; [done|].
    exists [EAct NewService a], false.
    by rewrite Ec, Ea, (proj1 Hc eq_refl), <- !app_assoc.
Qed.

Lemma bind_ok_inv_state {S A C} (m : M S A) (k : A → M S C) s c s' :
  bind m k s = (Ok c, s') →
  ∃ a s1, m s = (Ok a, s1) ∧ k a s1 = (Ok c, s').
Proof.
  unfold bind. destruct (m s) as [[a|e] s1]; [|done].
  intros E. by exists a, s1.
Qed.

Lemma create_driver_eq :
  create_driver config
  = try_except
      (construct_driver config >>
       lift (do_act (ImplicitlyWait 2)) >>
       lift (do_act (SetPageLoadTimeout (LONG_TIMEOUT config))) >>
       lift (do_act (SetScriptTimeout (DEFAULT_TIMEOUT config))) >>
       lift (do_act ScriptHideAutomation))
      (except_Exception (λ e,
         lift (log ERROR (MsgExn "Failed to create WebDriver" e)) >>
         manager_cleanup >>
         raise e)).
Proof. reflexivity. Qed.

Lemma create_driver_run (s : Bot * Env W) :
  let out := create_driver config s in
  let bot' := fst (snd out) in
  (fst out = Ok tt →
   driver (driver_manager bot') = true
   ∧ ∃ pre with_service,
       new_trace (snd s) (snd (snd out))
       = (pre ++ driver_settings config with_service)%list)
  ∧ (∀ x, fst out = Raise (Exc x) →
     driver_manager bot' = MkManager false false
     ∧ (ERROR, MsgExn "Failed to create WebDriver" (Exc x))
       ∈ new_logs (snd s) (snd (snd out))).
Proof.
  cbv zeta. rewrite create_driver_eq.
  match goal with |- context [try_except ?b ?h] => set (body := b) end.
  assert (Hlogs : appends bot_logs (λ _, True) body).
  { unfold body, construct_driver. ap_auto ltac:(exact I). }
  unfold try_except. destruct (Hlogs s) as (l1 & El1 & _).
  destruct (body s) as [[[]|e] s1] eqn:Eb; cbn [fst snd] in *.
  - split; [|done]. intros _. unfold body in Eb.
    apply bind_ok_inv_state in Eb as ([] & sA & EA & Eb).
    apply bind_ok_inv_state in Eb as ([] & sB & EB & Eb).
    apply bind_ok_inv_state in Eb as ([] & sC & EC & Eb).
    apply bind_ok_inv_state in Eb as ([] & sD & ED & EE).
    apply construct_driver_ok in EA as (Hd & _ & pre & ws & Et).
    apply lift_do_act_ok in EB as (HbB & EtB).
    apply lift_do_act_ok in EC as (HbC & EtC).
    apply lift_do_act_ok in ED as (HbD & EtD).
    apply lift_do_act_ok in EE as (HbE & EtE).
    split; [by rewrite HbE, HbD, HbC, HbB|].
    exists pre, ws. apply new_trace_app.
    rewrite EtE, EtD, EtC, EtB, Et. unfold driver_settings.
    by rewrite <- !app_assoc.
  - unfold except_Exception. destruct e as [x0| |]; cbn [is_Exception];
      [|by split..].
    assert (Hh : ∃ bot3 env3 l3,
      (lift (log ERROR (MsgExn "Failed to create WebDriver" (Exc x0))) >>
       manager_cleanup >> raise (A := unit) (Exc x0)) s1
      = (Raise (Exc x0), (bot3, env3))
      ∧ driver_manager bot3 = MkManager false false
      ∧ logs env3
        = (logs (snd s1)
           ++ (ERROR, MsgExn "Failed to create WebDriver" (Exc x0)) :: l3)%list).
    { unfold bind at 1. unfold lift at 1, log at 1. cbn [fst snd].
      unfold bind at 1.
      match goal with |- context [manager_cleanup ?s0] =>
        destruct (manager_cleanup_logs s0) as (l3 & El3 & _);
        destruct (manager_cleanup_run (fst s0) (snd s0)) as [env' Ec] end.
      cbn [fst snd] in Ec. rewrite Ec in *. unfold raise.
      eexists _, _, l3. split; [reflexivity|]. split; [done|].
      unfold bot_logs in El3. cbn [fst snd] in El3.
      rewrite El3. cbn [logs]. by rewrite <- app_assoc. }
    destruct Hh as (bot3 & env3 & l3 & -> & Hm & Hl). cbn [fst snd].
    split; [done|]. intros x [= <-]. split; [done|].
    unfold bot_logs in El1. unfold new_logs.
    rewrite Hl, El1, <- !app_assoc, drop_app_length.
    rewrite elem_of_app, elem_of_cons. right. by left.
Qed.

End Creation.

(** X10.  [create_driver] either returns with a driver, after a
    constructor answered (the one without the service only after the
    first way raised) and the three timeouts and the script were
    accepted in that order; or, when an exception of the [Exception]
    family stops it, it logs the failure, releases whatever it had
    started and raises the same exception again.  It leaves the
    counters and the processed set alone. *)
Theorem create_driver_outcome {W : Type} `{Driver W} (config : Config)
    (s : Bot * Env W) :
  let out := create_driver config s in
  let bot' := fst (snd out) in
  (fst out = Ok tt →
   driver (driver_manager bot') = true
   ∧ ∃ pre with_service,
       new_trace (snd s) (snd (snd out))
       = (pre ++ driver_settings config with_service)%list)
  ∧ (∀ x, fst out = Raise (Exc x) →
     driver_manager bot' = MkManager false false
     ∧ (ERROR, MsgExn "Failed to create WebDriver" (Exc x))
       ∈ new_logs (snd s) (snd (snd out)))
  ∧ Ledger.same_books (fst s) bot'.
Proof.
  cbv zeta. destruct (create_driver_run config s) as [H1 H2].
  split_and!; [exact H1|exact H2|apply create_driver_keeps].
Qed.

Lemma create_driver_outcome_witness :
  let s := start (Sim.world_of Sim.bare_page) in
  let out := create_driver Sim.default_config s in
  driver (driver_manager (fst (snd out))) = true
  ∧ ∃ pre with_service,
      new_trace (snd s) (snd (snd out))
      = (pre ++ driver_settings Sim.default_config with_service)%list.
Proof.
  cbv zeta.
  refine (proj1 (create_driver_outcome Sim.default_config
                   (start (Sim.world_of Sim.bare_page))) _).
  vm_compute. reflexivity.
Defined.

Section Initialize.
Context {W : Type} `{Driver W}.
Variable config : Config.

Lemma create_driver_logs :
  appends bot_logs (λ _, True) (create_driver (W := W) config).
Proof.
  unfold create_driver.
  ap_auto ltac:(first [exact I|apply manager_cleanup_logs]).
Qed.

Lemma initialize_run (s : Bot * Env W) :
  let out := initialize config s in
  let bot' := fst (snd out) in
  (fst out = Ok true →
   driver (driver_manager bot') = true
   ∧ is_Some (start_time (stats bot'))
   ∧ last (logs (snd (snd out))) = Some (INFO, Msg "Bot initialized"))
  ∧ (fst out = Ok false →
     driver_manager bot' = MkManager false false
     ∧ ∃ x, (ERROR, MsgExn "Failed to initialize bot" (Exc x))
            ∈ new_logs (snd s) (snd (snd out)))
  ∧ (∀ x, fst out ≠ Raise (Exc x)).
Proof.
  cbv zeta. unfold initialize.
  match goal with |- context [try_except ?b ?h] => set (body := b) end.
  assert (Hlogs : appends bot_logs (λ _, True) body).
  { unfold body. ap_auto ltac:(first [exact I|apply create_driver_logs]). }
  assert (Hbody : ∀ b s1, body s = (Ok b, s1) →
            b = true ∧ driver (driver_manager (fst s1)) = true
            ∧ is_Some (start_time (stats (fst s1)))
            ∧ last (logs (snd s1)) = Some (INFO, Msg "Bot initialized")).
  { intros b s1 Eb. unfold body in Eb.
    apply bind_ok_inv_state in Eb as ([] & sA & EA & Eb).
    apply bind_ok_inv_state in Eb as ([] & sB & EB & Eb).
    apply bind_ok_inv_state in Eb as (t & sC & EC & Eb).
    apply bind_ok_inv_state in Eb as ([] & sD & ED & Eb).
    apply bind_ok_inv_state in Eb as ([] & sE & EE & Eb).
    destruct (create_driver_run config sA) as [Hd _].
    rewrite EB in Hd. cbn [fst snd] in Hd. destruct (Hd eq_refl) as [Hdrv _].
    unfold lift, now in EC. destruct (clock (world (snd sB))) as [t' w].
    injection EC as <- <-. unfold update in ED. injection ED as <-.
    unfold lift, log in EE. cbn [fst snd] in EE. injection EE as <-.
    unfold ret in Eb. injection Eb as <- <-. cbn.
    split_and!; [done|done|by eexists|by rewrite last_snoc]. }
  unfold try_except. destruct (Hlogs s) as (l1 & El1 & _).
  destruct (body s) as [[b|e] s1] eqn:Eb; cbn [fst snd] in *.
  - destruct (Hbody b s1 eq_refl) as (-> & Hd & Hs & Hl).
    split_and!; [done|done|done].
  - unfold except_Exception. destruct e as [x0| |]; cbn [is_Exception];
      [|by split_and!..].
    assert (Hh : ∃ bot3 env3 l3,
      (lift (log ERROR (MsgExn "Failed to initialize bot" (Exc x0))) >>
       cleanup >> ret false) s1
      = (Ok false, (bot3, env3))
      ∧ driver_manager bot3 = MkManager false false
      ∧ logs env3
        = (logs (snd s1)
           ++ (ERROR, MsgExn "Failed to initialize bot" (Exc x0)) :: l3)%list).
    { unfold bind at 1. unfold lift at 1, log at 1. cbn [fst snd].
      unfold bind at 1.
      match goal with |- context [cleanup ?s0] =>
        destruct (cleanup_logs s0) as (l3 & El3 & _);
        destruct (cleanup_run (fst s0) (snd s0)) as (bot3 & env3 & Ec & Hm) end.
      cbn [fst snd] in Ec. rewrite Ec in *. unfold ret.
      eexists _, _, l3. split; [reflexivity|]. split; [done|].
      unfold bot_logs in El3. cbn [fst snd] in El3.
      rewrite El3. cbn [logs]. by rewrite <- app_assoc. }
    destruct Hh as (bot3 & env3 & l3 & -> & Hm & Hl). cbn [fst snd].
    split_and!; [done| |done]. intros _. split; [done|]. exists x0.
    unfold bot_logs in El1. unfold new_logs.
    rewrite Hl, El1, <- !app_assoc, drop_app_length.
    rewrite elem_of_app, elem_of_cons. right. by left.
Qed.

End Initialize.

(** X11.  [initialize] reports by value.  It returns [True] only with
    a driver created, the start time set, and "Bot initialized" as the
    last line logged; it returns [False] only after it logged the
    failure and released the session; no exception of the [Exception]
    family leaves it, and the counters and the processed set stay as
    they were. *)
Theorem initialize_outcome {W : Type} `{Driver W} (config : Config)
    (s : Bot * Env W) :
  let out := initialize config s in
  let bot' := fst (snd out) in
  (fst out = Ok true →
   driver (driver_manager bot') = true
   ∧ is_Some (start_time (stats bot'))
   ∧ last (logs (snd (snd out))) = Some (INFO, Msg "Bot initialized"))
  ∧ (fst out = Ok false →
     driver_manager bot' = MkManager false false
     ∧ ∃ x, (ERROR, MsgExn "Failed to initialize bot" (Exc x))
            ∈ new_logs (snd s) (snd (snd out)))
  ∧ (∀ x, fst out ≠ Raise (Exc x))
  ∧ Ledger.same_books (fst s) bot'.
Proof.
  cbv zeta. destruct (initialize_run config s) as (H1 & H2 & H3).
  split_and!; [exact H1|exact H2|exact H3|apply initialize_keeps].
Qed.

Lemma initialize_outcome_witness :
  let s := start (Sim.world_of Sim.bare_page) in
  let out := initialize Sim.default_config s in
  driver (driver_manager (fst (snd out))) = true
  ∧ is_Some (start_time (stats (fst (snd out))))
  ∧ last (logs (snd (snd out))) = Some (INFO, Msg "Bot initialized").
Proof.
  cbv zeta.
  refine (proj1 (initialize_outcome Sim.default_config
                   (start (Sim.world_of Sim.bare_page))) _).
  vm_compute. reflexivity.
Defined.

(** X12.  What [generate_final_report] logs.  For a bot that was
    started it logs one totals line, carrying the item count it was
    given and the three counters as they stand, the duration since the
    start, and an items-per-minute line exactly when that duration is
    positive.  For a bot that was never started it logs a single error
    line and no totals.  Either way it returns, overwrites the end
    time with the current time and leaves counters and processed set
    alone. *)
Theorem final_report_lines {W : Type} `{Driver W} (total_items : Z)
    (bot : Bot) (env : Env W) :
  let out := generate_final_report total_items (bot, env) in
  let bot' := fst (snd out) in
  let reported := new_logs env (snd (snd out)) in
  let t := fst (clock (world env)) in
  fst out = Ok tt
  ∧ Ledger.same_books bot bot'
  ∧ end_time (stats bot') = Some t
  ∧ match start_time (stats bot) with
    | None =>
        reported = [(ERROR, MsgExn "Error generating report" (Exc TypeError))]
    | Some started =>
        reported_totals reported
        = [(total_items, successful (stats bot), failed (stats bot),
            skipped (stats bot))]
        ∧ (INFO, MsgDuration (t - started)) ∈ reported
        ∧ ∀ q, (INFO, MsgRate q) ∈ reported ↔
               0 < t - started
               ∧ q = items_per_minute (successful (stats bot)) (t - started)
    end.
Proof.
  cbv zeta. split; [|split; [apply (generate_final_report_keeps total_items (bot, env))|]].
  { unfold generate_final_report, try_except, bind, lift, now, update,
      get_bot, log, raise, ret, except_Exception. simpl.
    destruct (clock (world env)) as [t w]. simpl.
    destruct (start_time (stats bot)); simpl; [|done].
    destruct (total_items - skipped (stats bot) >? 0);
      destruct (t - z >? 0); done. }
  unfold generate_final_report, new_logs, try_except, bind, lift, now, update,
    get_bot, log, raise, ret, except_Exception. simpl.
  destruct (clock (world env)) as [t w] eqn:Ec. simpl.
  destruct (start_time (stats bot)) as [started|] eqn:Es; simpl.
  - destruct (total_items - skipped (stats bot) >? 0) eqn:En;
      destruct (t - started >? 0) eqn:Ed; simpl;
      (split; [reflexivity|]);
      rewrite <- ?app_assoc, drop_app_length; simpl;
      (split; [reflexivity|]);
      (split; [rewrite ?elem_of_cons; tauto|]);
      intros q; rewrite ?elem_of_cons, elem_of_nil;
      (split; [intros Hq; decompose [or] Hq; try discriminate;
                 try (exfalso; assumption)
              |intros (Hn & ->)]);
      try (match goal with E : _ = (INFO, MsgRate _) |- _ =>
             injection E as -> end);
      try (split; [lia|reflexivity]);
      try lia; tauto.
  - split; [reflexivity|]. by rewrite drop_app_length.
Qed.

(** ** The two loaders: how their results compose *)

Module DailyInputMore.
Import DataManager Spec.

Lemma filter_all {A} (P : A → Prop) `{!∀ x, Decision (P x)} (l : list A) :
  Forall P l → filter P l = l.
Proof.
  induction 1 as [|x l Hx _ IH]; [done|].
  by rewrite filter_cons_True, IH.
Qed.

Lemma filter_none {A} (P : A → Prop) `{!∀ x, Decision (P x)} (l : list A) :
  Forall (λ x, ¬ P x) l → filter P l = [].
Proof.
  induction 1 as [|x l Hx _ IH]; [done|].
  by rewrite filter_cons_False.
Qed.

Lemma first_occurrences_app (a b : list string) :
  first_occurrences (a ++ b)
  = (first_occurrences a
     ++ filter (λ y, y ∉ first_occurrences a) (first_occurrences b))%list.
Proof.
  induction a as [|x a IH]; cbn [app first_occurrences].
  - symmetry. apply filter_all.
    apply Forall_forall. intros y _. apply not_elem_of_nil.
  - rewrite IH, filter_app. cbn [app]. f_equal. f_equal.
    rewrite list_filter_filter. apply list_filter_iff. intros y.
    rewrite not_elem_of_cons, list_elem_of_filter.
    tauto.
Qed.

Lemma first_occurrences_id (l : list string) :
  NoDup l → first_occurrences l = l.
Proof.
  induction 1 as [|x l Hx Hl IH]; cbn [first_occurrences]; [done|].
  rewrite IH. f_equal. apply filter_all, Forall_forall.
  intros y Hy ->. done.
Qed.

Lemma codes_of_app (l1 l2 : list string) :
  codes_of (l1 ++ l2) = (codes_of l1 ++ codes_of l2)%list.
Proof. unfold codes_of. by rewrite map_app, filter_app. Qed.

(** A list of codes read as a file gives the same codes. *)
Lemma codes_of_codes lines : codes_of (codes_of lines) = codes_of lines.
Proof.
  unfold codes_of. induction lines as [|x lines IH]; [done|].
  cbn [map]. rewrite filter_cons.
  destruct (decide (is_code (PyStr.strip x) = true)) as [Hc|Hc].
  - cbn [map]. rewrite filter_cons, PyStrFacts.strip_idem.
    rewrite decide_True by done. by rewrite IH.
  - exact IH.
Qed.

Lemma codes_of_sublist (l : list string) :
  codes_of (first_occurrences (codes_of l)) = first_occurrences (codes_of l).
Proof.
  assert (Hfix : ∀ l0 : list string,
            Forall (λ c, PyStr.strip c = c ∧ is_code c = true) l0 →
            codes_of l0 = l0).
  { induction 1 as [|c l0 [Hs Hc] _ IH]; [done|].
    unfold codes_of in *. cbn [map]. rewrite filter_cons, Hs.
    rewrite decide_True by done. by rewrite IH. }
  apply Hfix. apply Forall_forall. intros c Hc.
  apply (proj1 (DailyInput.first_occurrences_elem _ _)) in Hc.
  unfold codes_of in Hc. apply list_elem_of_filter in Hc as [Hc Hin].
  apply list_elem_of_fmap in Hin as (x & -> & _).
  split; [apply PyStrFacts.strip_idem|done].
Qed.

End DailyInputMore.

(** X13.  [read_daily_input] composes.  Reading a file that is one
    file followed by another gives the codes of the first, then those
    codes of the second that the first did not have; reading its own
    result (one code per line) gives that result back; so does
    reading the file with all its lines repeated. *)
Theorem read_daily_input_composes (lines more : list string) :
  let loaded := DataManager.read_daily_input (Some lines) in
  DataManager.read_daily_input (Some (lines ++ more)%list)
  = (loaded ++ filter (λ c, c ∉ loaded)
                 (DataManager.read_daily_input (Some more)))%list
  ∧ DataManager.read_daily_input (Some loaded) = loaded
  ∧ DataManager.read_daily_input (Some (lines ++ lines)%list) = loaded.
Proof.
  cbv zeta. rewrite !DailyInput.read_daily_input_eq.
  split_and!.
  - by rewrite DailyInputMore.codes_of_app, DailyInputMore.first_occurrences_app.
  - rewrite DailyInputMore.codes_of_sublist.
    apply DailyInputMore.first_occurrences_id, DailyInput.first_occurrences_NoDup.
  - rewrite DailyInputMore.codes_of_app, DailyInputMore.first_occurrences_app.
    rewrite DailyInputMore.filter_none; [by rewrite app_nil_r|].
    apply Forall_forall. tauto.
Qed.

Module MasterDataMore.
Import DataManager Spec.

Lemma last_complete_none rows : ∀ n,
  (∀ k, last_complete k n rows = None) ↔ Forall incomplete rows.
Proof.
  induction rows as [|row rest IH]; intros n; cbn [last_complete].
  - split; [constructor|done].
  - split.
    + intros Hn. assert (Hrest : ∀ k, last_complete k (n + 1) rest = None).
      { intros k. specialize (Hn k).
        by destruct (last_complete k (n + 1) rest). }
      constructor; [|by apply (IH (n + 1))].
      specialize (Hn (trimmed row "Kode_DP")). rewrite Hrest in Hn.
      destruct (decide (incomplete row)) as [|Hc]; [done|].
      by rewrite decide_True in Hn.
    + intros Hall k. apply Forall_cons in Hall as [Hrow Hrest].
      rewrite (proj2 (IH (n + 1)) Hrest k).
      rewrite decide_False; [done|]. by intros [? _].
Qed.

Lemma load_rows_empty rows n c :
  fst (load_rows n rows (∅, c)) = ∅ ↔ Forall incomplete rows.
Proof.
  rewrite <- (last_complete_none rows n). split.
  - intros He k. pose proof (MasterData.load_rows_lookup rows n ∅ c k) as Hl.
    rewrite He, lookup_empty in Hl. by destruct (last_complete k n rows).
  - intros Hn. apply map_eq. intros k.
    rewrite (MasterData.load_rows_lookup rows n ∅ c k), Hn.
    by rewrite !lookup_empty.
Qed.

Lemma missing_fields_nil (cleaned : list string) :
  filter (λ fld, fld ∉ cleaned) required_fields = []
  ↔ ∀ c, c ∈ required_fields → c ∈ cleaned.
Proof.
  split.
  - intros Hf c Hc. destruct (decide (c ∈ cleaned)) as [|Hn]; [done|].
    by destruct (filter_nil_not_elem_of _ _ c Hf Hn).
  - intros Hall. apply DailyInputMore.filter_none, Forall_forall.
    intros c Hc Hn. by apply Hn, Hall.
Qed.

End MasterDataMore.

(** X14.  When [load_master_data] gives a table.  It returns one
    exactly when the header, its names trimmed, has the three required
    columns and at least one row is complete; the table is then the
    one the row loop built.  It never returns an empty table: a file
    whose rows are all incomplete, or lack one of the three keys,
    gives [None], as a file that cannot be read does. *)
Theorem load_master_data_some_iff (header : list string)
    (rows : list DataManager.csv_row) :
  let file := Some (DataManager.CsvFile header rows) in
  let table := fst (DataManager.load_rows 2 rows (∅, 0)) in
  (DataManager.load_master_data file = Some table
   ↔ (∀ c, c ∈ DataManager.required_fields → c ∈ map PyStr.strip header)
     ∧ ∃ row, row ∈ rows ∧ ¬ Spec.incomplete row)
  ∧ (∀ loaded, DataManager.load_master_data file = Some loaded →
       loaded = table ∧ loaded ≠ ∅)
  ∧ ((∀ row, row ∈ rows →
        row !! "Kode_DP" = None ∨ row !! "City" = None ∨ row !! "RK" = None) →
     DataManager.load_master_data file = None)
  ∧ DataManager.load_master_data None = None.
Proof.
  cbv zeta.
  assert (Hcases : ∀ loaded,
    DataManager.load_master_data (Some (DataManager.CsvFile header rows)) = Some loaded
    ↔ (∀ c, c ∈ DataManager.required_fields → c ∈ map PyStr.strip header)
      ∧ loaded = fst (DataManager.load_rows 2 rows (∅, 0)) ∧ loaded ≠ ∅).
  { intros loaded. unfold DataManager.load_master_data.
    cbn [DataManager.fieldnames DataManager.rows].
    rewrite <- MasterDataMore.missing_fields_nil.
    destruct header as [|h header'] eqn:Eh.
    { split; [done|]. intros (Hf & _).
      pose proof (proj1 (MasterDataMore.missing_fields_nil _) Hf "Kode_DP") as Hk.
      assert (Hin : "Kode_DP" ∈ DataManager.required_fields) by by left.
      by apply Hk, elem_of_nil in Hin. }
    rewrite <- Eh. clear Eh.
    destruct (filter _ DataManager.required_fields) as [|f fs].
    - case_bool_decide as He.
      + split; [done|]. intros (_ & -> & Hne). done.
      + split; [intros [= <-]; done|]. by intros (_ & -> & _).
    - split; [done|]. by intros ([=] & _). }
  assert (Hne : fst (DataManager.load_rows 2 rows (∅, 0)) ≠ ∅
                ↔ ∃ row, row ∈ rows ∧ ¬ Spec.incomplete row).
  { pose proof (MasterDataMore.load_rows_empty rows 2 0) as He. split.
    - intros Hn. apply Exists_exists, not_Forall_Exists; [apply _|].
      intros Hall. apply Hn, He. eapply Forall_impl; [exact Hall|].
      intros row Hr. by destruct (decide (Spec.incomplete row)).
    - intros (row & Hin & Hc) Hm. apply He in Hm.
      apply Hc. exact (proj1 (Forall_forall _ _) Hm row Hin). }
  split_and!.
  - rewrite Hcases, Hne. naive_solver.
  - intros loaded Hl. apply Hcases in Hl. tauto.
  - intros Hkeys.
    destruct (DataManager.load_master_data _) as [loaded|] eqn:El; [|done].
    destruct (proj1 (Hcases loaded) eq_refl) as (_ & -> & Hn).
    apply Hne in Hn as (row & Hin & Hc).
    destruct Hc. unfold Spec.incomplete.
    destruct (Hkeys row Hin) as [Hk|[Hk|Hk]];
      rewrite (MasterData.trimmed_missing _ _ Hk); tauto.
  - reflexivity.
Qed.

(** ** The run: edge cases *)

Section RunEdges.
Context {W : Type} `{Driver W}.
Variable config : Config.
Import Ledger.

(** [AutomationBot.cleanup] is [WebDriverManager.cleanup] after the
    end time was stamped: same session, same trace, same log. *)
Lemma cleanup_as_manager_cleanup (bot : Bot) (env : Env W) :
  ∃ bot1 env1,
    cleanup (bot, env) = manager_cleanup (bot1, env1)
    ∧ driver_manager bot1 = driver_manager bot
    ∧ trace env1 = trace env ∧ logs env1 = logs env.
Proof.
  unfold cleanup. unfold try_except at 1. unfold bind at 1.
  unfold get_bot at 1. cbn [fst snd].
  assert (Hstamp : ∃ bot1 env1,
    (match start_time (stats bot), end_time (stats bot) with
     | Some _, None => let* t := lift now in update (set_stats (set_end_time t))
     | _, _ => ret tt
     end) (bot, env) = (Ok tt, (bot1, env1))
    ∧ driver_manager bot1 = driver_manager bot
    ∧ trace env1 = trace env ∧ logs env1 = logs env).
  { destruct (start_time (stats bot)), (end_time (stats bot));
      try (by eexists _, _).
    unfold bind, lift, now, update. cbn [fst snd].
    destruct (clock (world env)) as [t w]. cbn. by eexists _, _. }
  destruct Hstamp as (bot1 & env1 & E & Hd & Ht & Hl).
  unfold bind at 1. rewrite E.
  destruct (manager_cleanup_run bot1 env1) as [env2 E2]. rewrite E2.
  exists bot1, env1. by rewrite E2.
Qed.

Lemma cleanup_teardown (bot : Bot) (env : Env W) :
  teardown (driver (driver_manager bot)) (service (driver_manager bot))
    (new_trace env (snd (snd (cleanup (bot, env))))).
Proof.
  destruct (cleanup_as_manager_cleanup bot env) as (bot1 & env1 & -> & Hd & Ht & _).
  pose proof (manager_cleanup_teardown bot1 env1) as T. rewrite Hd in T.
  unfold new_trace in *. by rewrite <- Ht.
Qed.

End RunEdges.

(** X15.  A retry budget that is not positive fails everything without
    touching the browser.  With [DROPDOWN_RETRIES <= 0] the workflow
    engine returns [False] at once and leaves the environment as it
    was.  With [MAX_RETRIES <= 0] the engine is never invoked: a code
    that is in the lookup table and not yet processed is counted as
    failed, with no command sent. *)
Theorem retries_not_positive {W : Type} `{Driver W} (config : Config)
    (master_data : gmap string DataManager.master_entry)
    (index total_items : Z) (city rk code : string)
    (data : DataManager.master_entry) (bot : Bot) (env : Env W) :
  (DROPDOWN_RETRIES config ≤ 0 →
   process_ticket_creation config city rk code env = (Ok false, env))
  ∧ (MAX_RETRIES config ≤ 0 →
     code ∉ processed_dps bot →
     master_data !! code = Some data →
     let out := item_turn config master_data index total_items code (bot, env) in
     fst (snd out) = set_stats incr_failed bot
     ∧ trace (snd (snd out)) = trace env
     ∧ (ERROR, MsgFailed code) ∈ logs (snd (snd out))).
Proof.
  split.
  - intros Hd. unfold process_ticket_creation, try_except, bind,
      handle_vue_select_dropdown, retries_or_default.
    replace (Z.to_nat (DROPDOWN_RETRIES config)) with 0%nat by lia.
    reflexivity.
  - intros Hm Hp Hd. cbv zeta.
    unfold item_turn, try_except, process_item, bind, get_bot. cbn [fst snd].
    rewrite bool_decide_eq_false_2 by done. rewrite Hd.
    replace (Z.to_nat (MAX_RETRIES config)) with 0%nat by lia.
    cbn [ticket_attempts]. unfold lift, log, ret, update. cbn [fst snd].
    unfold sleep. cbn [Z.ltb Z.compare]. cbn [world trace logs handler_installed].
    destruct (sleeping 1000 (world env)) as [[|] w]; cbn [fst snd].
    + unfold signal_handler. cbn [handler_installed].
      destruct (handler_installed env); cbn;
        (split_and!; [done|done|rewrite ?elem_of_app, !list_elem_of_singleton; tauto]).
    + cbn. split_and!; [done|done|].
      rewrite ?elem_of_app, !list_elem_of_singleton. tauto.
Qed.

Lemma retries_not_positive_witness :
  let env := Sim.env_of (Sim.dp_page "DP001" []) in
  let master_data : gmap string DataManager.master_entry :=
    {[ "DP001" := DataManager.MasterEntry "X" "Y" 2 ]} in
  process_ticket_creation no_retries_config "X" "Y" "DP001" env = (Ok false, env)
  ∧ (let out := item_turn no_retries_config master_data 1 1 "DP001" (new_bot, env) in
     fst (snd out) = set_stats incr_failed new_bot
     ∧ trace (snd (snd out)) = trace env
     ∧ (ERROR, MsgFailed "DP001") ∈ logs (snd (snd out))).
Proof.
  cbv zeta.
  pose proof (retries_not_positive no_retries_config
                {[ "DP001" := DataManager.MasterEntry "X" "Y" 2 ]} 1 1
                "X" "Y" "DP001" (DataManager.MasterEntry "X" "Y" 2) new_bot
                (Sim.env_of (Sim.dp_page "DP001" []))) as [H1 H2].
  split.
  - apply H1. vm_compute. discriminate.
  - apply H2.
    + vm_compute. discriminate.
    + apply not_elem_of_empty.
    + apply lookup_singleton_eq.
Defined.

(** X16.  Without data the run never reaches the browser's pages.
    When the lookup table cannot be loaded, or the daily list is
    empty, [run_automation] logs the reason and returns [False]; the
    only commands it sends are those of the teardown, the session is
    released, and counters and processed set are as before. *)
Theorem run_stops_without_data {W : Type} `{Driver W} (config : Config)
    (master_file : option DataManager.csv_file)
    (daily_file : option (list string)) (bot : Bot) (env : Env W) :
  DataManager.load_master_data master_file = None
  ∨ DataManager.read_daily_input daily_file = [] →
  let out := run_automation config master_file daily_file (bot, env) in
  let bot' := fst (snd out) in
  fst out = Ok false
  ∧ teardown (driver (driver_manager bot)) (service (driver_manager bot))
      (new_trace env (snd (snd out)))
  ∧ driver_manager bot' = MkManager false false
  ∧ Ledger.same_books bot bot'
  ∧ ((ERROR, Msg "Failed to load master data") ∈ new_logs env (snd (snd out))
     ∨ (ERROR, Msg "No input data found") ∈ new_logs env (snd (snd out))).
Proof.
  intros Hdata. cbv zeta.
  assert (Hbody : ∃ env1 line,
    run_automation config master_file daily_file (bot, env)
    = (let '(r, s) := cleanup (bot, env1) in
       match r with Ok _ => (Ok false, s) | Raise e => (Raise e, s) end)
    ∧ trace env1 = trace env
    ∧ (∃ pre, logs env1 = (logs env ++ pre ++ [(ERROR, Msg line)])%list)
    ∧ (line = "Failed to load master data" ∨ line = "No input data found")).
  { unfold run_automation, try_finally, try_except.
    unfold bind at 1. unfold lift at 1, log at 1. cbn [fst snd].
    unfold bind at 1. unfold lift at 1, load_master_data at 1. cbn [fst snd].
    destruct (DataManager.load_master_data master_file) as [m|] eqn:Em.
    2:{ cbn. eexists _, _. split; [reflexivity|]. cbn [trace logs].
        split; [done|]. split; [|by left].
        eexists [_; _]. by rewrite <- !app_assoc. }
    destruct Hdata as [|Hd]; [done|].
    unfold bind at 1, log at 1. cbn [fst snd]. unfold ret at 1. cbn [fst snd].
    unfold bind at 1. unfold lift at 1, read_daily_input at 1.
    destruct daily_file as [lines|].
    - rewrite Hd. cbn. eexists _, _. split; [reflexivity|]. cbn [trace logs].
      split; [done|]. split; [|by right].
      eexists [_; _; _]. by rewrite <- !app_assoc.
    - cbn. eexists _, _. split; [reflexivity|]. cbn [trace logs].
      split; [done|]. split; [|by right].
      eexists [_; _; _]. by rewrite <- !app_assoc. }
  destruct Hbody as (env1 & line & -> & Ht & (pre & Hl) & Hline).
  destruct (cleanup_run_full bot env1) as (ended & env2 & Ec & _).
  pose proof (cleanup_teardown bot env1) as T.
  destruct (cleanup_logs (bot, env1)) as (l3 & El3 & _).
  rewrite Ec in *. cbn [fst snd] in *.
  split_and!.
  - done.
  - unfold new_trace in *. by rewrite <- Ht.
  - done.
  - by repeat split.
  - unfold bot_logs in El3. cbn [fst snd] in El3. unfold new_logs.
    rewrite El3, Hl, <- !app_assoc, drop_app_length.
    destruct Hline as [-> | ->]; [left|right];
      rewrite !elem_of_app, list_elem_of_singleton; tauto.
Qed.

Lemma run_stops_without_data_witness :
  let s := start (Sim.world_of (Sim.dp_page "DP001" [])) in
  let out := run_automation Sim.default_config None (Some ["DP001"]) s in
  fst out = Ok false
  ∧ teardown false false (new_trace (snd s) (snd (snd out))).
Proof.
  cbv zeta.
  pose proof (run_stops_without_data Sim.default_config None (Some ["DP001"])
                new_bot (MkEnv (Sim.world_of (Sim.dp_page "DP001" [])) [] [] false))
    as Hrun.
  cbv zeta in Hrun. destruct Hrun as (H1 & H2 & _).
  - left. reflexivity.
  - split; [exact H1|exact H2].
Defined.

(** ** The retry budget of one item *)

Section RetryBudget.
Context {W : Type} `{Driver W}.
Variable config : Config.
Variable master_data : gmap string DataManager.master_entry.

(** What a turn books, read off the way the attempts ended. *)
Lemma item_turn_books index total code data (bot : Bot) (env : Env W) :
  code ∉ processed_dps bot →
  master_data !! code = Some data →
  let out := item_turn config master_data index total code (bot, env) in
  let attempts :=
    ticket_attempts config (Z.to_nat (MAX_RETRIES config)) 0
      (DataManager.City data) (DataManager.RK data) code
      (snd (log INFO (MsgProcessing index total code) env)) in
  match fst attempts with
  | Ok true => fst (snd out) = set_stats incr_successful (add_processed code bot)
  | Ok false => fst (snd out) = set_stats incr_failed bot
  | Raise (Exc _) => fst (snd out) = set_stats incr_failed bot ∧ fst out = Ok true
  | Raise _ => fst (snd out) = bot ∧ fst out ≠ Ok true
  end.
Proof.
  intros Hp Hm. cbv zeta.
  set (env1 := snd (log INFO (MsgProcessing index total code) env)).
  destruct (item_turn config master_data index total code (bot, env))
    as [r [bot' env']] eqn:E. cbn [fst snd].
  unfold item_turn, try_except in E. unfold bind at 1 in E.
  unfold process_item in E.
  unfold bind at 1 in E. unfold get_bot at 1 in E. cbn [fst snd] in E.
  rewrite bool_decide_false in E by done. rewrite Hm in E.
  unfold bind at 1 in E. unfold lift at 1, log at 1 in E. cbn [fst snd] in E.
  unfold bind at 1 in E. unfold lift at 1 in E. cbn [fst snd] in E.
  change (MkEnv (world env) (trace env)
            (logs env ++ [(INFO, MsgProcessing index total code)])
            (handler_installed env)) with env1 in E.
  clearbody env1.
  destruct (ticket_attempts config (Z.to_nat (MAX_RETRIES config)) 0
              (DataManager.City data) (DataManager.RK data) code env1)
    as [[[|]|e] env2] eqn:Et; cbn [fst].
  - cbn -[sleep] in E. unfold lift in E. cbn -[sleep] in E.
    match type of E with context [sleep 1000 ?e3] =>
      destruct (sleep_run 1000 e3) as (r1 & env4 & Es & _ & [->|(e & -> & He)]);
        [lia| |] end; rewrite Es in E; [|destruct e as [x| |c]; [done|..]];
      cbn in E; unfold ret in E; by simplify_eq.
  - cbn -[sleep] in E. unfold lift in E. cbn -[sleep] in E.
    match type of E with context [sleep 1000 ?e3] =>
      destruct (sleep_run 1000 e3) as (r1 & env4 & Es & _ & [->|(e & -> & He)]);
        [lia| |] end; rewrite Es in E; [|destruct e as [x| |c]; [done|..]];
      cbn in E; unfold ret in E; by simplify_eq.
  - cbn in E. destruct e as [x| |c]; cbn in E; unfold ret in E; by simplify_eq.
Qed.

Lemma attempt_starts_index city rk code (start : Env W) k env :
  attempt_starts config city rk code start k env → 0 ≤ k.
Proof. induction 1; lia. Qed.

(** The loop from its start is the loop from any attempt it reaches. *)
Lemma ticket_attempts_from city rk code (start : Env W) k env :
  attempt_starts config city rk code start k env →
  k < MAX_RETRIES config →
  ticket_attempts config (Z.to_nat (MAX_RETRIES config)) 0 city rk code start
  = ticket_attempts config (Z.to_nat (MAX_RETRIES config - k)) k city rk code env.
Proof.
  induction 1 as [|k env gone back rested Hs IH Hk Hgone Hback Hrest]; intros Hlt.
  - by rewrite Z.sub_0_r.
  - pose proof (attempt_starts_index _ _ _ _ _ _ Hs) as H0.
    rewrite IH by lia.
    replace (Z.to_nat (MAX_RETRIES config - k))
      with (S (Z.to_nat (MAX_RETRIES config - (k + 1)))) by lia.
    cbn [ticket_attempts]. unfold bind at 1.
    unfold ticket_attempt, try_except. unfold bind at 1. rewrite Hgone.
    replace (k <? MAX_RETRIES config - 1) with true by lia.
    unfold bind at 1.
    change (log WARNING (MsgAttemptFailed (k + 1)) gone)
      with (Ok tt, snd (log WARNING (MsgAttemptFailed (k + 1)) gone)).
    cbn [fst snd]. unfold bind at 1. rewrite Hback. cbn [negb].
    unfold bind at 1. by rewrite Hrest.
Qed.

Lemma ticket_attempts_last city rk code k (env gone : Env W) :
  k = MAX_RETRIES config - 1 →
  process_ticket_creation config city rk code env = (Ok false, gone) →
  ticket_attempts config 1 k city rk code env = (Ok false, gone).
Proof.
  intros -> Hgone. cbn [ticket_attempts]. unfold bind at 1.
  unfold ticket_attempt, try_except. unfold bind at 1. rewrite Hgone.
  by rewrite Z.ltb_irrefl.
Qed.

End RetryBudget.

(** C3.  For a code that is in the lookup table and not yet processed,
    one turn of the item loop books exactly one of the counters
    successful and failed, once, or nothing when an interrupt cut the
    turn short; it never raises an exception of its own.  In numbers:
    when the attempts end without a success, [failed] has grown by
    one and nothing else has moved, whatever the number of attempts;
    when they end with a success, [successful] has grown by one and
    the code has joined the processed set.  The attempts are those of
    the budget: an engine run that succeeds at any attempt the loop
    reaches is the success that is booked, also after failed attempts;
    a failure is final only at attempt [MAX_RETRIES - 1].  With the
    signal handler installed the turn never ends in the [break], so the
    loop goes on with the next code. *)
Theorem retry_budget_counts_once {W : Type} `{Driver W} (config : Config)
    (master_data : gmap string DataManager.master_entry)
    (index total_items : Z) (code : string) (data : DataManager.master_entry)
    (bot : Bot) (env : Env W) :
  code ∉ processed_dps bot →
  master_data !! code = Some data →
  let out := item_turn config master_data index total_items code (bot, env) in
  let bot' := fst (snd out) in
  let env1 := snd (log INFO (MsgProcessing index total_items code) env) in
  let engine :=
    process_ticket_creation config (DataManager.City data) (DataManager.RK data) code in
  let attempts :=
    ticket_attempts config (Z.to_nat (MAX_RETRIES config)) 0
      (DataManager.City data) (DataManager.RK data) code env1 in
  let starts :=
    attempt_starts config (DataManager.City data) (DataManager.RK data) code env1 in
  (∃ entry,
     bot' = Ledger.book code entry bot
     ∧ entry ≠ Some Ledger.Skipped
     ∧ (entry = Some Ledger.Successful ↔ fst attempts = Ok true)
     ∧ (entry = None → fst out ≠ Ok true))
  ∧ (fst out = Ok true ∨ fst out = Ok false ∨ ∃ c, fst out = Raise (SystemExit c))
  ∧ (handler_installed env = true → fst out ≠ Ok false)
  ∧ match fst attempts with
    | Ok true => books_moved bot bot' 1 0 0 {[code]}
    | Ok false | Raise (Exc _) => books_moved bot bot' 0 1 0 ∅
    | Raise _ => books_moved bot bot' 0 0 0 ∅ ∧ fst out ≠ Ok true
    end
  ∧ ((∀ e, fst (engine e) ≠ Ok true) →
     (fst out = Ok true → books_moved bot bot' 0 1 0 ∅)
     ∧ (books_moved bot bot' 0 1 0 ∅ ∨ bot' = bot))
  ∧ (fst attempts = Ok true → ∃ e0, engine e0 = (Ok true, snd attempts))
  ∧ (∀ k e e', starts k e → k < MAX_RETRIES config →
       engine e = (Ok true, e') →
       attempts = (Ok true, e') ∧ books_moved bot bot' 1 0 0 {[code]})
  ∧ (∀ k e e', starts k e → k = MAX_RETRIES config - 1 →
       engine e = (Ok false, e') →
       attempts = (Ok false, e') ∧ books_moved bot bot' 0 1 0 ∅).
Proof.
  intros Hp Hm. cbv zeta.
  pose proof (item_turn_books config master_data index total_items code data
                bot env Hp Hm) as Hb. cbv zeta in Hb.
  destruct (item_turn_run config master_data index total_items code bot env)
    as (r & bot' & env' & entry & E & Hbook & Hr & He).
  pose proof (item_turn_goes_on config master_data index total_items code
                (bot, env)) as Hgo.
  rewrite E in Hb, Hgo |- *. cbn [fst snd] in Hb, Hgo |- *.
  set (env1 := snd (log INFO (MsgProcessing index total_items code) env)) in *.
  set (attempts := ticket_attempts config (Z.to_nat (MAX_RETRIES config)) 0
                     (DataManager.City data) (DataManager.RK data) code env1) in *.
  assert (Hsucc : set_stats incr_successful (add_processed code bot) = bot' →
                  books_moved bot bot' 1 0 0 {[code]}).
  { intros <-. split_and!; cbn; [lia..|done]. }
  assert (Hfail : set_stats incr_failed bot = bot' →
                  books_moved bot bot' 0 1 0 ∅).
  { intros <-. split_and!; cbn; [lia..|set_solver]. }
  assert (Hsame : bot = bot' → books_moved bot bot' 0 0 0 ∅).
  { intros <-. split_and!; [lia..|set_solver]. }
  assert (A : entry ≠ Some Ledger.Skipped
    ∧ (entry = Some Ledger.Successful ↔ fst attempts = Ok true)
    ∧ (entry = None → r ≠ Ok true)).
  { destruct entry as [[| |]|].
    - destruct He as (_ & d & Hd & Ht). rewrite Hm in Hd. injection Hd as <-.
      split; [done|]. split; [done|]. done.
    - destruct He as (_ & d & Hd & Ht). rewrite Hm in Hd. injection Hd as <-.
      split; [done|]. split; [|done]. split; [done|]. intros Ht'. by destruct Ht.
    - destruct He as ([?|Hn] & _); [done|]. by rewrite Hm in Hn.
    - destruct He as (_ & Hne & d & Hd & Ht). rewrite Hm in Hd. injection Hd as <-.
      split; [done|]. split; [|done]. split; [done|]. intros Ht'. by destruct Ht. }
  assert (Hmoved : match fst attempts with
    | Ok true => books_moved bot bot' 1 0 0 {[code]}
    | Ok false | Raise (Exc _) => books_moved bot bot' 0 1 0 ∅
    | Raise _ => books_moved bot bot' 0 0 0 ∅ ∧ r ≠ Ok true
    end).
  { destruct (fst attempts) as [[|]|[x| |c]].
    - by apply Hsucc.
    - by apply Hfail.
    - apply Hfail. by destruct Hb.
    - destruct Hb as [Hb1 Hb2]. split; [by apply Hsame|done].
    - destruct Hb as [Hb1 Hb2]. split; [by apply Hsame|done]. }
  split_and!.
  - by exists entry.
  - exact Hr.
  - exact Hgo.
  - exact Hmoved.
  - intros Hf.
    pose proof (ticket_attempts_never_true config _ _ _ Hf
                  (Z.to_nat (MAX_RETRIES config)) 0 env1) as Hn.
    fold attempts in Hn.
    destruct (fst attempts) as [[|]|[x| |c]]; [done|by split; [|left]..| |].
    + destruct Hb as [Hb1 Hb2]. split; [done|by right].
    + destruct Hb as [Hb1 Hb2]. split; [done|by right].
  - intros Ht.
    destruct attempts as [ra enva] eqn:Ea. cbn [fst snd] in *. subst ra.
    by apply ticket_attempts_true_last in Ea.
  - intros k e e' Hs Hk Hrun.
    pose proof (attempt_starts_index _ _ _ _ _ _ _ Hs) as H0.
    assert (Ha : attempts = (Ok true, e')).
    { unfold attempts. rewrite (ticket_attempts_from _ _ _ _ _ _ _ Hs Hk).
      replace (Z.to_nat (MAX_RETRIES config - k))
        with (S (Z.to_nat (MAX_RETRIES config - k - 1))) by lia.
      by apply ticket_attempts_first. }
    split; [done|]. by rewrite Ha in Hmoved.
  - intros k e e' Hs Hk Hrun.
    pose proof (attempt_starts_index _ _ _ _ _ _ _ Hs) as H0.
    assert (Ha : attempts = (Ok false, e')).
    { unfold attempts. rewrite (ticket_attempts_from _ _ _ _ _ _ _ Hs) by lia.
      replace (Z.to_nat (MAX_RETRIES config - k)) with 1%nat by lia.
      by apply ticket_attempts_last. }
    split; [done|]. by rewrite Ha in Hmoved.
Qed.

(** On the page without a filter button all three attempts of the
    budget fail, each but the last followed by a refresh, and [failed]
    is 1.  On a page that gains the filter button and the row at the
    first refresh, the first attempt fails and the second succeeds:
    [successful] is 1 and the code is in the processed set. *)
Lemma retry_budget_counts_once_witness :
  let master_data : gmap string DataManager.master_entry :=
    {[ "DP001" := DataManager.MasterEntry "X" "Y" 2 ]} in
  (let out := item_turn Sim.default_config master_data 1 1 "DP001"
                (new_bot, Sim.env_of Sim.bare_page) in
   fst out = Ok true ∧ books_moved new_bot (fst (snd out)) 0 1 0 ∅)
  ∧ (let out := item_turn Sim.default_config master_data 1 1 "DP001"
                  (new_bot,
                   Reloading.env_of Sim.bare_page (Sim.dp_page "DP001" [])) in
     fst out = Ok true ∧ books_moved new_bot (fst (snd out)) 1 0 0 {["DP001"]}).
Proof.
  cbv zeta.
  assert (Hp : "DP001" ∉ processed_dps new_bot) by (cbn; set_solver).
  assert (Hm : ({[ "DP001" := DataManager.MasterEntry "X" "Y" 2 ]}
                : gmap string DataManager.master_entry) !! "DP001"
               = Some (DataManager.MasterEntry "X" "Y" 2)) by (by vm_compute).
  split; (split; [by vm_compute|]).
  - pose proof (retry_budget_counts_once Sim.default_config
                  {[ "DP001" := DataManager.MasterEntry "X" "Y" 2 ]} 1 1 "DP001"
                  (DataManager.MasterEntry "X" "Y" 2) new_bot
                  (Sim.env_of Sim.bare_page) Hp Hm) as T.
    cbv zeta in T. destruct T as (_ & _ & _ & _ & _ & _ & _ & T8).
    pose (engine := process_ticket_creation (W := Sim.World) Sim.default_config
                      "X" "Y" "DP001").
    pose (recover := λ k (e : Env Sim.World),
            snd (sleep (1000 * RETRY_DELAY Sim.default_config)
                   (snd (handle_page_refresh_and_navigation Sim.default_config
                           (snd (log WARNING (MsgAttemptFailed (k + 1))
                                   (snd (engine e)))))))).
    pose (env1 := snd (log INFO (MsgProcessing 1 1 "DP001")
                         (Sim.env_of Sim.bare_page))).
    pose (env2 := recover 0 env1).
    pose (env3 := recover (0 + 1) env2).
    assert (S1 : attempt_starts Sim.default_config "X" "Y" "DP001" env1
                   (0 + 1) env2).
    { apply (next_attempt Sim.default_config "X" "Y" "DP001" env1 0 env1
               (snd (engine env1))
               (snd (handle_page_refresh_and_navigation Sim.default_config
                       (snd (log WARNING (MsgAttemptFailed (0 + 1))
                               (snd (engine env1))))))
               env2); [constructor|by vm_compute..]. }
    assert (S2 : attempt_starts Sim.default_config "X" "Y" "DP001" env1
                   (0 + 1 + 1) env3).
    { apply (next_attempt Sim.default_config "X" "Y" "DP001" env1 (0 + 1) env2
               (snd (engine env2))
               (snd (handle_page_refresh_and_navigation Sim.default_config
                       (snd (log WARNING (MsgAttemptFailed (0 + 1 + 1))
                               (snd (engine env2))))))
               env3); [exact S1|by vm_compute..]. }
    assert (S3 : 0 + 1 + 1 = MAX_RETRIES Sim.default_config - 1) by (by vm_compute).
    assert (S4 : engine env3 = (Ok false, snd (engine env3))) by (by vm_compute).
    exact (proj2 (T8 (0 + 1 + 1) env3 (snd (engine env3)) S2 S3 S4)).
  - pose proof (retry_budget_counts_once Sim.default_config
                  {[ "DP001" := DataManager.MasterEntry "X" "Y" 2 ]} 1 1 "DP001"
                  (DataManager.MasterEntry "X" "Y" 2) new_bot
                  (Reloading.env_of Sim.bare_page (Sim.dp_page "DP001" []))
                  Hp Hm) as T.
    cbv zeta in T. destruct T as (_ & _ & _ & _ & _ & _ & T7 & _).
    pose (engine := process_ticket_creation (W := Reloading.World)
                      Sim.default_config "X" "Y" "DP001").
    pose (env1 := snd (log INFO (MsgProcessing 1 1 "DP001")
                         (Reloading.env_of Sim.bare_page (Sim.dp_page "DP001" [])))).
    pose (env2 :=
            snd (sleep (1000 * RETRY_DELAY Sim.default_config)
                   (snd (handle_page_refresh_and_navigation Sim.default_config
                           (snd (log WARNING (MsgAttemptFailed (0 + 1))
                                   (snd (engine env1)))))))).
    assert (S1 : attempt_starts Sim.default_config "X" "Y" "DP001" env1
                   (0 + 1) env2).
    { apply (next_attempt Sim.default_config "X" "Y" "DP001" env1 0 env1
               (snd (engine env1))
               (snd (handle_page_refresh_and_navigation Sim.default_config
                       (snd (log WARNING (MsgAttemptFailed (0 + 1))
                               (snd (engine env1))))))
               env2); [constructor|by vm_compute..]. }
    assert (S2 : 0 + 1 < MAX_RETRIES Sim.default_config) by (by vm_compute).
    assert (S3 : engine env2 = (Ok true, snd (engine env2))) by (by vm_compute).
    exact (proj2 (T7 (0 + 1) env2 (snd (engine env2)) S1 S2 S3)).
Defined.

(** ** The dropdown driver and the navigation: what success means *)

Section Selection.
Context {W : Type} `{Driver W}.
Variable config : Config.

(** [if b then return True], else go on with [k]. *)
Lemma ew_bind_or good (m : M (Env W) bool) (k : M (Env W) bool) :
  ends_with (λ b, b = true) good m →
  ends_with (λ b, b = true) good k →
  ends_with (λ b, b = true) good (let* b := m in if b then ret true else k).
Proof.
  intros Hm Hk env. unfold bind. destruct (Hm env) as (t1 & E1 & L1).
  destruct (m env) as [[[|]|e] env1]; cbn [fst snd] in *.
  - exists t1. split; [done|]. intros a _ _. by apply (L1 true).
  - destruct (Hk env1) as (t2 & E2 & L2). exists (t1 ++ t2)%list.
    split; [by rewrite E2, E1, app_assoc|].
    intros a Ea Ha. destruct (L2 a Ea Ha) as (ev & Hl & Hev). exists ev.
    split; [|done]. destruct t2 as [|x t2]; [done|]. by rewrite last_app, Hl.
  - exists t1. split; [done|]. intros a [=].
Qed.

Lemma click_option_ends (option : option Elem) :
  ends_with (λ b, b = true) selection_made
    (match option with
     | None => ret false
     | Some option =>
         let* clicked := safe_click config (Located option) false 3 in
         if clicked then sleep 500 >> ret true else ret false
     end).
Proof.
  destruct option as [o|]; [|by apply ew_ret].
  apply ew_bind_silent with (want' := λ b, b = true).
  - eapply ew_mono; [| |apply safe_click_ends]; [done|].
    intros ev (e & He & _). left. by exists e.
  - intros []; emits_auto.
  - intros [|] env c; [done|cbn; congruence].
Qed.

Lemma select_option_ends input value :
  ends_with (λ b, b = true) selection_made (select_option config input value).
Proof.
  unfold select_option. apply ew_bind_or; [|apply ew_bind_or].
  - unfold select_exact.
    apply ew_bind; [apply wait_for_element_helper; done|]. intros o.
    apply click_option_ends.
  - unfold select_containing.
    apply ew_bind; [apply wait_for_element_helper; done|]. intros o.
    apply click_option_ends.
  - unfold select_by_keyboard. apply ew_try_except.
    + apply ew_bind; [apply emits_do_act; done|]. intros _.
      apply ew_bind; [apply emits_sleep|]. intros _.
      apply ew_bind_silent with (want' := λ _, True).
      * apply ew_do_act. right. by exists input.
      * intros _. emits_auto.
      * done.
    + intros e h [= <-]. by apply ew_ret.
Qed.

Lemma handle_vue_select_dropdown_ends sels value retries :
  ends_with (λ b, b = true) selection_made
    (handle_vue_select_dropdown config sels value retries).
Proof.
  unfold handle_vue_select_dropdown.
  induction (Z.to_nat (retries_or_default config retries)) as [|k IH];
    cbn [dropdown_loop]; [by apply ew_ret|].
  apply ew_bind_or; [|exact IH].
  unfold dropdown_attempt. apply ew_try_except.
  - apply ew_bind; [apply wait_for_element_helper; done|].
    intros [input|]; [|by apply ew_ret].
    apply ew_bind; [apply emits_do_act; done|]. intros _.
    apply ew_bind; [apply emits_sleep|]. intros _.
    apply ew_bind; [apply emits_do_act; done|]. intros _.
    apply ew_bind; [apply emits_sleep|]. intros _.
    apply ew_bind; [emits_auto|]. intros _.
    apply ew_bind; [apply type_chars_helper; done|]. intros _.
    apply ew_bind; [apply emits_sleep|]. intros _.
    apply ew_bind_or; [apply select_option_ends|].
    apply ew_unwanted; [emits_auto|].
    intros env a Ea. apply bind_ok_inv in Ea as (? & ? & _ & Ea).
    cbn in Ea. congruence.
  - intros e h E. unfold except_Exception in E.
    destruct e as [x| |]; simpl in E; simplify_eq.
    apply ew_unwanted.
    + emits_auto. apply wait_for_element_helper. done.
    + intros env a Ea. apply bind_ok_inv in Ea as (? & ? & _ & Ea).
      apply bind_ok_inv in Ea as (? & ? & _ & Ea).
      cbn in Ea. congruence.
Qed.

(** *** Typing the value *)

Lemma type_chars_run input value : ∀ env : Env W,
  ∃ tr, trace (snd (type_chars input value env)) = (trace env ++ tr)%list
        ∧ (length tr ≤ String.length value)%nat
        ∧ (fst (type_chars input value env) = Ok tt → tr = keystrokes input value).
Proof.
  induction value as [|c r IH]; intros env; cbn [type_chars keystrokes String.length].
  - exists []. split; [by rewrite app_nil_r|]. by split.
  - unfold bind.
    destruct (do_act_trace (SendKeys input (Text (String c ""))) env)
      as (a & Et & Ha).
    destruct (do_act (SendKeys input (Text (String c ""))) env)
      as [[[]|e] env1]; cbn [fst snd] in *.
    2:{ eexists [_]. split; [exact Et|]. split; [cbn; lia|done]. }
    rewrite (proj1 Ha eq_refl) in Et.
    destruct (sleep 50 env1) as [[[]|e] env2] eqn:Es.
    2:{ destruct (emits_sleep (λ _, False) 50 env1) as (t0 & E0 & F0).
        rewrite Es in E0. cbn [fst snd] in *.
        destruct t0 as [|x t0]; [|by apply Forall_cons in F0 as [[] _]].
        rewrite app_nil_r in E0. eexists [_]. split; [by rewrite E0, Et|].
        split; [cbn; lia|done]. }
    assert (Ht2 : trace env2 = trace env1).
    { pose proof (emits_silent_trace (sleep 50) env1 (emits_sleep _ 50)) as E0.
      by rewrite Es in E0. }
    destruct (IH env2) as (tr & Etr & Hlen & Hok).
    exists (EAct (SendKeys input (Text (String c ""))) (Returns tt) :: tr).
    split; [by rewrite Etr, Ht2, Et, <- app_assoc|].
    split; [cbn; lia|]. intros Hr. by rewrite (Hok Hr).
Qed.

End Selection.

(** X17.  [handle_vue_select_dropdown] reports a selection only right
    after the browser accepted a click on an option or the ENTER key.
    No exception of the [Exception] family leaves it, and with a retry
    count that is not positive it returns [False] without a command. *)
Theorem dropdown_true_after_selection {W : Type} `{Driver W} (config : Config)
    (input_selectors : selectors) (value_to_select : string)
    (max_retries : option Z) (env : Env W) :
  let out :=
    handle_vue_select_dropdown config input_selectors value_to_select
      max_retries env in
  (fst out = Ok true →
   ∃ ev, last (new_trace env (snd out)) = Some ev ∧ selection_made ev)
  ∧ (∀ x, fst out ≠ Raise (Exc x))
  ∧ (retries_or_default config max_retries ≤ 0 → out = (Ok false, env)).
Proof.
  cbv zeta. split_and!.
  - intros Ht.
    destruct (handle_vue_select_dropdown_ends config input_selectors
                value_to_select max_retries env) as (tr & E & L).
    rewrite (new_trace_app _ _ _ E). by apply (L true).
  - apply oi_handle_vue_select_dropdown.
  - intros Hr. unfold handle_vue_select_dropdown.
    by replace (Z.to_nat (retries_or_default config max_retries)) with 0%nat by lia.
Qed.

Lemma dropdown_true_after_selection_witness :
  let env := Sim.env_of (Sim.dropdown_page [(41, "ABC")]%nat) in
  let out := handle_vue_select_dropdown Sim.default_config
               (SelList SELECTORS.city_input) "ABC" None env in
  ∃ ev, last (new_trace env (snd out)) = Some ev ∧ selection_made ev.
Proof.
  cbv zeta.
  refine (proj1 (dropdown_true_after_selection Sim.default_config
                   (SelList SELECTORS.city_input) "ABC" None
                   (Sim.env_of (Sim.dropdown_page [(41, "ABC")]%nat))) _).
  vm_compute. reflexivity.
Defined.

(** X18.  The loop that types the value (lines 350-352) sends one key
    event per character, in order, to the input field: when it
    completes, what it added to the trace is exactly the keystrokes of
    the value, all accepted; it never sends more events than the
    value has characters. *)
Theorem type_chars_keystrokes {W : Type} `{Driver W} (input_field : Elem)
    (value : string) (env : Env W) :
  let out := type_chars input_field value env in
  (length (new_trace env (snd out)) ≤ String.length value)%nat
  ∧ (fst out = Ok tt → new_trace env (snd out) = keystrokes input_field value).
Proof.
  cbv zeta. destruct (type_chars_run input_field value env) as (tr & E & Hl & Hok).
  by rewrite (new_trace_app _ _ _ E).
Qed.

(** *** Navigation *)

Section Navigation.
Context {W : Type} `{Driver W}.
Variable config : Config.
Import Locator.

Lemma in_order_found timeout clickable sels tr e :
  in_order timeout clickable sels tr (Some e) →
  ∃ pre selector,
    selector ∈ sels ∧ tr = (pre ++ found_usable timeout clickable selector e)%list.
Proof.
  intros Hin. remember (Some e) as r eqn:Er.
  induction Hin as [|selector rest seg e' Hc|selector rest seg tr r Hc Hin IH].
  - done.
  - injection Er as ->. inversion Hc; subst.
    exists [], selector. split; [by left|done].
  - destruct (IH Er) as (pre & sel & Hsel & ->).
    exists (seg ++ pre)%list, sel. split; [by right|by rewrite app_assoc].
Qed.

Lemma step_trace {A} (m : M (Env W) A) (s s1 : Env W) a :
  emits (λ _, True) m → m s = (Ok a, s1) →
  ∃ t, trace s1 = (trace s ++ t)%list.
Proof. intros Hm E. destruct (Hm s) as (t & Et & _). rewrite E in Et. by exists t. Qed.

Lemma navigate_to_dp_menu_run (env : Env W) :
  fst (navigate_to_dp_menu config env) = Ok true →
  ∃ pre selector e,
    selector ∈ SELECTORS.city_input
    ∧ new_trace env (snd (navigate_to_dp_menu config env))
      = (pre ++ found_usable 5 true selector e)%list
    ∧ last (logs (snd (navigate_to_dp_menu config env)))
      = Some (INFO, Msg "Navigated to DP page").
Proof.
  unfold navigate_to_dp_menu, try_except.
  match goal with |- context [match ?b env with _ => _ end] =>
    destruct (b env) as [[r|e] env'] eqn:Eb end; cbn [fst snd].
  2:{ unfold except_Exception. destruct (is_Exception e); cbn; done. }
  intros [= ->].
  apply bind_ok_inv_state in Eb as (cm & s1 & E1 & Eb).
  apply bind_ok_inv_state in Eb as (bad1 & s2 & E2 & Eb).
  destruct bad1; [done|].
  apply bind_ok_inv_state in Eb as ([] & s3 & E3 & Eb).
  apply bind_ok_inv_state in Eb as (dm & s4 & E4 & Eb).
  apply bind_ok_inv_state in Eb as (bad2 & s5 & E5 & Eb).
  destruct bad2; [done|].
  apply bind_ok_inv_state in Eb as (loaded & s6 & E6 & Eb).
  apply bind_ok_inv_state in Eb as ([] & s7 & E7 & Eb).
  apply bind_ok_inv_state in Eb as (ci & s8 & E8 & Eb).
  destruct ci as [e|]; [|done].
  unfold bind, log, ret in Eb. cbn in Eb. injection Eb as <-.
  apply step_trace in E1 as [t1 T1]; [|apply wait_for_element_helper; done].
  apply step_trace in E2 as [t2 T2]; [|apply missing_or_unclicked_helper; done].
  apply step_trace in E3 as [t3 T3]; [|apply emits_sleep].
  apply step_trace in E4 as [t4 T4]; [|apply wait_for_element_helper; done].
  apply step_trace in E5 as [t5 T5]; [|apply missing_or_unclicked_helper; done].
  apply step_trace in E6 as [t6 T6]; [|apply wait_for_page_load_helper; done].
  apply step_trace in E7 as [t7 T7]; [|destruct (negb loaded); emits_auto].
  destruct (wait_for_element_loop_in_order (as_list (SelList SELECTORS.city_input))
              (timeout_or_default config (Some 5)) true s7)
    as (r & t8 & s8' & E8' & T8 & Hin).
  unfold wait_for_element in E8. rewrite E8' in E8. injection E8 as -> ->.
  apply in_order_found in Hin as (pre & sel & Hsel & ->).
  exists (t1 ++ t2 ++ t3 ++ t4 ++ t5 ++ t6 ++ t7 ++ pre)%list, sel, e.
  split; [exact Hsel|]. split.
  - apply new_trace_app. cbn [trace].
    rewrite T8, T7, T6, T5, T4, T3, T2, T1. by rewrite <- !app_assoc.
  - cbn [logs]. by rewrite last_snoc.
Qed.

End Navigation.

(** X19.  [navigate_to_dp_menu] returns [True] only when, as the last
    thing it did, it found the city input usable: a candidate of the
    city-input list answered the 5-second clickable wait and reported
    itself displayed and enabled; "Navigated to DP page" is then the
    last line logged.  No exception of the [Exception] family leaves
    it, nor [handle_page_refresh_and_navigation]. *)
Theorem navigate_true_after_city_input {W : Type} `{Driver W} (config : Config)
    (env : Env W) :
  let out := navigate_to_dp_menu config env in
  (fst out = Ok true →
   ∃ pre selector e,
     selector ∈ SELECTORS.city_input
     ∧ new_trace env (snd out) = (pre ++ found_usable 5 true selector e)%list
     ∧ last (logs (snd out)) = Some (INFO, Msg "Navigated to DP page"))
  ∧ (∀ x, fst out ≠ Raise (Exc x))
  ∧ (∀ x, fst (handle_page_refresh_and_navigation config env) ≠ Raise (Exc x)).
Proof.
  cbv zeta. split_and!.
  - apply navigate_to_dp_menu_run.
  - apply oi_navigate_to_dp_menu.
  - apply oi_handle_page_refresh_and_navigation.
Qed.

Lemma navigate_true_after_city_input_witness :
  let env := Sim.env_of (Sim.dp_page "DP001" []) in
  let out := navigate_to_dp_menu Sim.default_config env in
  ∃ pre selector e,
    selector ∈ SELECTORS.city_input
    ∧ new_trace env (snd out) = (pre ++ found_usable 5 true selector e)%list
    ∧ last (logs (snd out)) = Some (INFO, Msg "Navigated to DP page").
Proof.
  cbv zeta.
  refine (proj1 (navigate_true_after_city_input Sim.default_config
                   (Sim.env_of (Sim.dp_page "DP001" []))) _).
  vm_compute. reflexivity.
Defined.

(** ** The order of the dropdown strategies *)

Section SelectionOrder.
Context {W : Type} `{Driver W}.
Variable config : Config.
Import Dropdown.

Ltac answers :=
  repeat match goal with
  | |- context [act ?c ?w] =>
      let a := fresh "a" in
      destruct (act c w) as [[[]|a|] ?]; cbn
  | |- context [sleeping ?ms ?w] => destruct (sleeping ms w) as [[|] ?]; cbn
  | |- context [handler_installed ?e] => destruct (handler_installed e); cbn
  | |- context [match ?x with StaleElementReferenceException => _ | _ => _ end] =>
      destruct x; cbn
  end.

Ltac shown :=
  eexists _, _, _; split; [reflexivity|]; cbn;
  split; [rewrite <- ?app_assoc; reflexivity|]; cbn;
  split; [repeat constructor|].

Lemma safe_click_attempt_aimed o js attempt (env : Env W) :
  ∃ r env' tr,
    safe_click_attempt config (Located o) o js attempt env = (r, env')
    ∧ trace env' = (trace env ++ tr)%list
    ∧ Forall (aimed_at o) tr
    ∧ match r with
      | Ok (Return true) =>
          ∃ pre ev, tr = (pre ++ [ev])%list ∧ clicked pre = []
                    ∧ accepted_click o ev
      | Ok (Return false) => clicked tr = []
      | Ok (Continue el) => el = o ∧ clicked tr = []
      | Raise e => is_Exception e = false ∧ clicked tr = []
      end.
Proof.
  unfold safe_click_attempt. destruct (js || (attempt >? 0));
    unfold try_except, bind, do_act, sleep, answered, ret, raise, signal_handler;
    cbn; answers; shown;
    try done;
    first [ by eexists [_], _; split; [reflexivity|]; split; [reflexivity|];
               first [by left|by right]
          | by eexists [_; _], _; split; [reflexivity|]; split; [reflexivity|];
               first [by left|by right] ].
Qed.

Lemma clicked_app t1 t2 : clicked (t1 ++ t2) = (clicked t1 ++ clicked t2)%list.
Proof. apply omap_app. Qed.

Lemma safe_click_loop_aimed o js k : ∀ attempt (env : Env W),
  ∃ r env' tr,
    safe_click_loop config k attempt (Located o) o js env = (r, env')
    ∧ trace env' = (trace env ++ tr)%list
    ∧ Forall (aimed_at o) tr
    ∧ match r with
      | Ok true =>
          ∃ pre ev, tr = (pre ++ [ev])%list ∧ clicked pre = []
                    ∧ accepted_click o ev
      | Ok false => clicked tr = []
      | Raise e => is_Exception e = false ∧ clicked tr = []
      end.
Proof.
  induction k as [|k IH]; intros attempt env; cbn [safe_click_loop].
  - exists (Ok false), env, []. split; [done|]. split; [by rewrite app_nil_r|].
    by split.
  - unfold bind.
    destruct (safe_click_attempt_aimed o js attempt env)
      as (r1 & env1 & t1 & E1 & T1 & F1 & H1).
    rewrite E1. destruct r1 as [[[|]|el]|e].
    + by exists (Ok true), env1, t1.
    + by exists (Ok false), env1, t1.
    + destruct H1 as [-> C1].
      destruct (IH (attempt + 1) env1) as (r & env2 & t2 & E2 & T2 & F2 & H2).
      exists r, env2, (t1 ++ t2)%list. split; [done|].
      split; [by rewrite T2, T1, app_assoc|]. split; [by apply Forall_app|].
      destruct r as [[|]|e].
      * destruct H2 as (pre & ev & -> & Hpre & Hev).
        exists (t1 ++ pre)%list, ev. split; [by rewrite app_assoc|].
        split; [|done]. by rewrite clicked_app, C1, Hpre.
      * by rewrite clicked_app, C1, H2.
      * destruct H2 as [He C2]. split; [done|]. by rewrite clicked_app, C1, C2.
    + by exists (Raise e), env1, t1.
Qed.

(** One click strategy: the wait on its query, then the click on the
    option found. *)
Lemma click_strategy_run query timeout (env : Env W) :
  timeout ≠ 0 → by_of query = XPATH →
  ∃ r env' seg picked,
    (let* option :=
       wait_for_element config (SelList [query]) (Some timeout) true in
     match option with
     | None => ret false
     | Some option =>
         let* clicked := safe_click config (Located option) false 3 in
         if clicked then sleep 500 >> ret true else ret false
     end) env = (r, env')
    ∧ trace env' = (trace env ++ seg)%list
    ∧ click_strategy query timeout seg picked
    ∧ match picked with
      | Some _ => selected_or_interrupted r
      | None => r = Ok false ∨ ∃ e, r = Raise e ∧ is_Exception e = false
      end.
Proof.
  intros Ht Hby. unfold bind at 1. unfold wait_for_element. simpl as_list.
  assert (timeout_or_default config (Some timeout) = timeout) as ->.
  { unfold timeout_or_default. by destruct (Z.eqb_spec timeout 0). }
  destruct (wait_for_element_loop_in_order [query] timeout true env)
    as (found & t1 & env1 & E1 & T1 & C1).
  rewrite E1.
  assert (C : Locator.candidate (UntilClickable XPATH query timeout) t1 found).
  { inversion C1 as [|? ? ? ? Hc|? ? ? ? ? Hc Hrest]; subst;
      unfold Locator.wait_cmd in Hc; rewrite Hby in Hc; [done|].
    inversion Hrest; subst. by rewrite app_nil_r. }
  destruct found as [o|].
  2:{ exists (Ok false), env1, t1, None. split; [done|]. split; [done|].
      split; [|by left]. exists t1, None, []. by rewrite app_nil_r. }
  unfold bind at 1. rewrite safe_click_located_eq.
  destruct (safe_click_loop_aimed o false (Z.to_nat 3) 0 env1)
    as (r2 & env2 & t2 & E2 & T2 & F2 & H2).
  rewrite E2. destruct r2 as [[|]|e].
  - destruct (sleep_run 500 env2) as (r3 & env3 & E3 & T3 & H3); [lia|].
    exists (match r3 with Ok _ => Ok true | Raise e => Raise e end), env3,
      (t1 ++ t2)%list, (Some o).
    split; [unfold bind; rewrite E3; by destruct r3|].
    split; [by rewrite T3, T2, T1, app_assoc|].
    split; [by exists t1, (Some o), t2|].
    destruct H3 as [->|(e & -> & He)]; [by left|right; by exists e].
  - exists (Ok false), env2, (t1 ++ t2)%list, None. split; [done|].
    split; [by rewrite T2, T1, app_assoc|].
    split; [by exists t1, (Some o), t2|by left].
  - destruct H2 as [He C2].
    exists (Raise e), env2, (t1 ++ t2)%list, None. split; [done|].
    split; [by rewrite T2, T1, app_assoc|].
    split; [by exists t1, (Some o), t2|right; by exists e].
Qed.

Lemma select_by_keyboard_run input (env : Env W) :
  ∃ confirmed env' seg,
    select_by_keyboard input env = (Ok confirmed, env')
    ∧ trace env' = (trace env ++ seg)%list
    ∧ keyboard_confirm input seg confirmed.
Proof.
  unfold select_by_keyboard, try_except, bare, bind, do_act, sleep, answered,
    ret, raise, signal_handler.
  cbn. answers; eexists _, _, _; (split; [reflexivity|]); cbn;
    (split; [rewrite <- ?app_assoc; reflexivity|]); cbn;
    first [ by left; eexists | right; eexists; by split ].
Qed.

Lemma select_option_selection input value (env : Env W) :
  let out := select_option config input value env in
  selection input value (new_trace env (snd out)) (fst out).
Proof.
  cbv zeta.
  destruct (select_option config input value env) as [r env'] eqn:E.
  cbn [fst snd].
  unfold select_option, select_exact, select_containing in E.
  unfold bind at 1 in E.
  destruct (click_strategy_run (exact_match_xpath value) 5 env)
    as (r1 & env1 & s1 & p1 & E1 & T1 & S1 & H1); [done|apply by_of_exact|].
  rewrite E1 in E. destruct p1 as [e1|].
  { destruct H1 as [->|(e & -> & He)]; unfold ret in E; simplify_eq;
      rewrite (new_trace_app _ _ _ T1); (eapply by_exact; [exact S1|]);
      [by left|right; by exists e]. }
  destruct H1 as [->|(e & -> & He)].
  2:{ simplify_eq. rewrite (new_trace_app _ _ _ T1). by apply cut_in_exact. }
  unfold bind at 1 in E.
  destruct (click_strategy_run (contains_xpath value) 3 env1)
    as (r2 & env2 & s2 & p2 & E2 & T2 & S2 & H2); [done|apply by_of_contains|].
  rewrite E2 in E. rewrite T1, <- app_assoc in T2. destruct p2 as [e2|].
  { destruct H2 as [->|(e & -> & He)]; unfold ret in E; simplify_eq;
      rewrite (new_trace_app _ _ _ T2);
      (eapply by_containing; [exact S1|exact S2|]);
      [by left|right; by exists e]. }
  destruct H2 as [->|(e & -> & He)].
  2:{ simplify_eq. rewrite (new_trace_app _ _ _ T2).
      by apply cut_in_containing. }
  destruct (select_by_keyboard_run input env2) as (b & env3 & s3 & E3 & T3 & K3).
  rewrite E3 in E. simplify_eq. rewrite T2, <- !app_assoc in T3.
  rewrite (new_trace_app _ _ _ T3). by apply by_keyboard.
Qed.

End SelectionOrder.

(** C2 (amended).  Whatever the browser answers, [select_option]
    (lines 356-377 of the dropdown driver) runs its strategies in one
    order, and its trace is a [selection]: the exact-text strategy
    first, which ends the selection when it picks an option, that is,
    when its query yields a usable option and the browser accepts a
    click on it, all clicks going to that option; the substring
    strategy only after the exact one picked nothing; the keyboard
    confirm only after both picked nothing, saying [True] only when
    arrow-down and ENTER were both accepted.  On a page listing ABC
    and ABCD, in either order, with clicks accepted, the driver asked
    for ABC clicks the input (7) and the option ABC (41), never ABCD
    (42), and opens the exact strategy only; ABCD alone would be taken
    by the substring query. *)
Theorem dropdown_match_precedence {W : Type} `{Driver W} (config : Config)
    (input_field : Elem) (value_to_select : string) (env : Env W) :
  (let out := select_option config input_field value_to_select env in
   let tried :=
     Dropdown.attempted input_field value_to_select (new_trace env (snd out)) in
   (tried = [Dropdown.Exact] ∧ fst out ≠ Ok false)
   ∨ (tried = [Dropdown.Exact; Dropdown.Containing] ∧ fst out ≠ Ok false)
   ∨ (tried = [Dropdown.Exact; Dropdown.Containing; Dropdown.Keyboard]
      ∧ ∃ selected, fst out = Ok selected))
  ∧ (let out := select_option config input_field value_to_select env in
     selection input_field value_to_select (new_trace env (snd out)) (fst out))
  ∧ Forall (λ opts,
       let env := Sim.env_of (Sim.dropdown_page opts) in
       let out := handle_vue_select_dropdown Sim.default_config
                    (SelList SELECTORS.city_input) "ABC" None env in
       fst out = Ok true
       ∧ Dropdown.clicked (trace (snd out)) = [7; 41]%nat
       ∧ Dropdown.attempted 7%nat "ABC" (trace (snd out)) = [Dropdown.Exact])
      [ [(41, "ABC"); (42, "ABCD")]%nat; [(42, "ABCD"); (41, "ABC")]%nat ]
  ∧ (let env := Sim.env_of (Sim.dropdown_page [(42, "ABCD")]%nat) in
     let out := handle_vue_select_dropdown Sim.default_config
                  (SelList SELECTORS.city_input) "ABC" None env in
     fst out = Ok true
     ∧ Dropdown.clicked (trace (snd out)) = [7; 42]%nat
     ∧ Dropdown.attempted 7%nat "ABC" (trace (snd out))
       = [Dropdown.Exact; Dropdown.Containing]).
Proof.
  split_and!.
  - apply select_option_order.
  - apply select_option_selection.
  - repeat constructor; by vm_compute.
  - by vm_compute.
Qed.

(** C2 as stated fails when the browser refuses the click on the
    option the exact query found.  The page lists ABCD before ABC and
    refuses every click on ABC (element 41): the exact query does find
    41, its three click attempts are refused, so the substring query
    runs, finds ABCD (42) first, and the driver selects ABCD and
    returns [True]. *)
Lemma dropdown_refused_click_counterexample :
  let env := Sim.env_of refused_option_page in
  let out := handle_vue_select_dropdown Sim.default_config
               (SelList SELECTORS.city_input) "ABC" None env in
  Sim.options refused_option_page = [(42, "ABCD"); (41, "ABC")]%nat
  ∧ fst (find (UntilClickable XPATH (exact_match_xpath "ABC") 5) (world env))
    = Returns 41%nat
  ∧ fst out = Ok true
  ∧ Dropdown.clicked (trace (snd out)) = [7; 42]%nat
  ∧ Dropdown.attempted 7%nat "ABC" (trace (snd out))
    = [Dropdown.Exact; Dropdown.Containing].
Proof. cbv zeta. split_and!; by vm_compute. Qed.

(** ** Environment validation and the process tracker *)

Module EnvironmentFacts.
Import Environment.

Lemma unset_false environ var :
  unset environ var = false ↔ ∃ value, environ !! var = Some value ∧ value ≠ "".
Proof.
  unfold unset. destruct (environ !! var) as [value|].
  - split.
    + intros Hf. exists value. split; [done|]. intros ->. done.
    + intros (v & [= <-] & Hne). by destruct value.
  - split; [done|]. by intros (v & [=] & _).
Qed.

Lemma missing_vars_nil environ :
  missing_vars environ = []
  ↔ ∀ var, var ∈ required_vars → ∃ value, environ !! var = Some value ∧ value ≠ "".
Proof.
  unfold missing_vars. split.
  - intros Hf var Hv. apply unset_false.
    destruct (unset environ var) eqn:Eu; [|done].
    by destruct (filter_nil_not_elem_of _ _ var Hf Eu).
  - intros Hall. apply DailyInputMore.filter_none, Forall_forall.
    intros var Hv Hu. apply Hall, unset_false in Hv. congruence.
Qed.

Lemma default_unset environ var :
  unset environ var = false → PyStr.falsy (default "" (environ !! var)) = false.
Proof. unfold unset. by destruct (environ !! var). Qed.

End EnvironmentFacts.

(** X20.  [_validate_environment] accepts exactly the environments in
    which USERNAME, PASSWORD and LOGIN_URL are all set to a text that
    is not empty; otherwise the error names the ones that are not, in
    that order.  A configuration whose three attributes were read from
    an accepted environment never takes the "Missing login
    credentials" exit of [login]: it goes straight to the attempts. *)
Theorem validated_environment_has_credentials {W : Type} `{Driver W}
    (environ : gmap string string) (config : Config) :
  (Environment.validate_environment environ = Environment.Valid
   ↔ ∀ var, var ∈ Environment.required_vars →
            ∃ value, environ !! var = Some value ∧ value ≠ "")
  ∧ (∀ missing,
       Environment.validate_environment environ
       = Environment.MissingEnvironmentVariables missing →
       missing ≠ []
       ∧ missing `sublist_of` Environment.required_vars
       ∧ ∀ var, var ∈ missing ↔
                var ∈ Environment.required_vars
                ∧ Environment.unset environ var = true)
  ∧ (Environment.validate_environment environ = Environment.Valid →
     Environment.reads_credentials environ config →
     ∀ env : Env W, login config env = login_loop config 3 0 env).
Proof.
  assert (Hvalid : Environment.validate_environment environ = Environment.Valid
                   ↔ Environment.missing_vars environ = []).
  { unfold Environment.validate_environment.
    by destruct (Environment.missing_vars environ). }
  split_and!.
  - by rewrite Hvalid, EnvironmentFacts.missing_vars_nil.
  - intros missing Hm. unfold Environment.validate_environment in Hm.
    destruct (Environment.missing_vars environ) as [|v vs] eqn:Em; [done|].
    injection Hm as <-. rewrite <- Em. split; [by rewrite Em|].
    unfold Environment.missing_vars. split; [apply sublist_filter|].
    intros var. rewrite list_elem_of_filter. tauto.
  - intros Hv (Hu & Hp & Hl) env.
    apply Hvalid in Hv.
    pose proof (proj1 (EnvironmentFacts.missing_vars_nil environ) Hv) as Hall.
    assert (Hset : ∀ var, var ∈ Environment.required_vars →
              PyStr.falsy (default "" (environ !! var)) = false).
    { intros var Hin. apply EnvironmentFacts.default_unset.
      by apply EnvironmentFacts.unset_false, Hall. }
    unfold login. rewrite Hu, Hp, Hl.
    rewrite !Hset; [done|unfold Environment.required_vars; set_solver..].
Qed.

Lemma validated_environment_has_credentials_witness :
  let env := Sim.env_of Sim.bare_page in
  login Sim.default_config env = login_loop Sim.default_config 3 0 env.
Proof.
  cbv zeta.
  refine (proj2 (proj2 (validated_environment_has_credentials
            {[ "USERNAME" := "user"; "PASSWORD" := "secret";
               "LOGIN_URL" := "https://dp.example/login" ]}
            Sim.default_config)) _ _ (Sim.env_of Sim.bare_page)).
  - vm_compute. reflexivity.
  - vm_compute. done.
Defined.

(** *** ProcessTracker *)

Section TrackerFacts.

Lemma mark_all_items items : ∀ tracker,
  processed_items (mark_all items tracker)
  = list_to_set items ∪ processed_items tracker
  ∧ session_start (mark_all items tracker) = session_start tracker.
Proof.
  unfold mark_all.
  induction items as [|x items IH]; intros tracker; cbn [foldl].
  - split; [set_solver|done].
  - destruct (IH (mark_processed x tracker)) as [-> ->]. cbn.
    split; [set_solver|done].
Qed.

End TrackerFacts.

(** X21.  The process tracker remembers exactly what it was told.
    After any sequence of [mark_processed] calls on a new tracker,
    [is_processed] holds for the marked items and no others, marking
    twice is marking once, the session start is untouched, and
    [get_session_stats] reports the number of distinct items marked,
    a list of them without repetition, and the time since the start. *)
Theorem tracker_remembers_marked_items {W : Type} `{Driver W}
    (items : list string) (env : Env W) :
  let created := new_tracker env in
  let start_us := fst (clock (world env)) in
  let tracker := mark_all items (MkTracker start_us ∅) in
  let report := get_session_stats tracker (snd created) in
  fst created = Ok (MkTracker start_us ∅)
  ∧ (∀ item, is_processed item tracker = true ↔ item ∈ items)
  ∧ (∀ item, mark_processed item (mark_processed item tracker)
             = mark_processed item tracker)
  ∧ session_start tracker = start_us
  ∧ ∃ stats,
      fst report = Ok stats
      ∧ processed_count stats = Z.of_nat (length (remove_dups items))
      ∧ NoDup (processed_list stats)
      ∧ (∀ item, item ∈ processed_list stats ↔ item ∈ items)
      ∧ session_duration stats = fst (clock (world (snd created))) - start_us.
Proof.
  cbv zeta.
  destruct (mark_all_items items (MkTracker (fst (clock (world env))) ∅))
    as [Hitems Hstart]. cbn [processed_items session_start] in *.
  split_and!.
  - unfold new_tracker, bind, now, ret. by destruct (clock (world env)).
  - intros item. unfold is_processed. rewrite bool_decide_eq_true, Hitems.
    set_solver.
  - intros item. unfold mark_processed. cbn. f_equal. set_solver.
  - exact Hstart.
  - unfold get_session_stats, bind, now, ret.
    destruct (clock (world (snd (new_tracker env)))) as [t w] eqn:Ec.
    eexists. split; [reflexivity|]. cbn. rewrite Hitems, Hstart.
    split_and!.
    + f_equal. rewrite union_empty_r_L.
      assert (Hd : list_to_set items =@{gset string} list_to_set (remove_dups items)).
      { apply set_eq. intros x.
        by rewrite !elem_of_list_to_set, elem_of_remove_dups. }
      rewrite Hd. apply size_list_to_set, NoDup_remove_dups.
    + apply NoDup_elements.
    + intros item. rewrite elem_of_elements. set_solver.
    + done.
Qed.

(** ** The run always releases the session *)

Section RunReleases.
Context {W : Type} `{Driver W}.
Variable config : Config.

Lemma nr_cleanup : never_raises (cleanup (W := W)).
Proof.
  intros [bot env]. destruct (cleanup_run bot env) as (bot' & env' & -> & _).
  by exists tt.
Qed.

Lemma oi_run_automation master_file daily_file :
  only_interrupts (run_automation (W := W) config master_file daily_file).
Proof.
  unfold run_automation. apply oi_try_finally.
  - apply oi_try_catch.
    + intros x. unfold except_Exception. cbn. by eexists.
    + intros e h E. unfold except_Exception in E.
      destruct e as [x| |]; simpl in E; simplify_eq.
      apply oi_bind; [apply oi_lift, oi_never_raises, nr_log|].
      intros _. apply oi_ret.
  - apply oi_never_raises, nr_cleanup.
Qed.

Lemma run_automation_releases master_file daily_file (s : Bot * Env W) :
  driver_manager (fst (snd (run_automation config master_file daily_file s)))
  = MkManager false false.
Proof.
  unfold run_automation, try_finally.
  match goal with |- context [let '(r, s') := ?body s in _] =>
    destruct (body s) as [r [bot1 env1]] end.
  by destruct (cleanup_run bot1 env1) as (bot2 & env2 & -> & Hd).
Qed.

End RunReleases.

(** X22.  [run_automation] releases the session however it ends: by
    returning, by an exception inside, or by an interrupt, the bot is
    left with neither driver nor service.  No exception of the
    [Exception] family leaves it: it returns a boolean, or an
    interrupt ends it. *)
Theorem run_automation_always_releases {W : Type} `{Driver W} (config : Config)
    (master_file : option DataManager.csv_file)
    (daily_file : option (list string)) (s : Bot * Env W) :
  let out := run_automation config master_file daily_file s in
  driver_manager (fst (snd out)) = MkManager false false
  ∧ (∀ x, fst out ≠ Raise (Exc x))
  ∧ ((∃ b, fst out = Ok b) ∨ fst out = Raise KeyboardInterrupt
     ∨ ∃ code, fst out = Raise (SystemExit code)).
Proof.
  cbv zeta. split_and!.
  - apply run_automation_releases.
  - apply oi_run_automation.
  - pose proof (oi_run_automation config master_file daily_file s) as Hoi.
    destruct (fst (run_automation config master_file daily_file s))
      as [b|[x| |c]].
    + left. by exists b.
    + by destruct (Hoi x).
    + right. by left.
    + right. right. by exists c.
Qed.

(** ** The item turn and the recovery between attempts *)

Section ItemTurn.
Context {W : Type} `{Driver W}.
Variable config : Config.

Lemma oi_process_item master_data index total code :
  0 ≤ RETRY_DELAY config →
  only_interrupts (process_item (W := W) config master_data index total code).
Proof.
  intros Hd. unfold process_item.
  repeat first
    [ simple apply oi_lift; first [ by apply oi_ticket_attempts
                                  | simple apply oi_sleep; lia
                                  | simple apply oi_never_raises, nr_log ]
    | oi_step ].
Qed.

Lemma navigate_to_dp_menu_emits :
  emits (W := W) (λ _, True) (navigate_to_dp_menu config).
Proof.
  unfold navigate_to_dp_menu.
  repeat first
    [ apply wait_for_element_helper; done
    | apply wait_for_page_load_helper; done
    | apply missing_or_unclicked_helper; done
    | emits_step ].
Qed.

Lemma handle_page_refresh_and_navigation_opens :
  opens_with (W := W) (λ ev, ∃ a, ev = EAct Refresh a) (λ _, True)
    (handle_page_refresh_and_navigation config).
Proof.
  unfold handle_page_refresh_and_navigation. apply opens_try_except.
  - apply opens_bind; [apply opens_do_act|]. intros _.
    repeat first
      [ apply wait_for_page_load_helper; done
      | apply navigate_to_dp_menu_emits
      | emits_step ].
  - intros e h E. unfold except_Exception in E.
    destruct e as [x| |]; simpl in E; simplify_eq. emits_auto.
Qed.

Lemma handle_page_refresh_and_navigation_true (env : Env W) :
  fst (handle_page_refresh_and_navigation config env) = Ok true →
  0 ≤ RETRY_DELAY config
  ∧ ∃ pre selector e,
      selector ∈ SELECTORS.city_input
      ∧ new_trace env (snd (handle_page_refresh_and_navigation config env))
        = (pre ++ found_usable 5 true selector e)%list.
Proof.
  unfold handle_page_refresh_and_navigation, try_except.
  match goal with |- context [match ?b env with _ => _ end] =>
    destruct (b env) as [[r|e] env'] eqn:Eb end; cbn [fst snd].
  2:{ unfold except_Exception. destruct (is_Exception e); cbn; done. }
  intros [= ->].
  apply bind_ok_inv_state in Eb as ([] & s1 & E1 & Eb).
  apply bind_ok_inv_state in Eb as ([] & s2 & E2 & Eb).
  apply bind_ok_inv_state in Eb as (loaded & s3 & E3 & Eb).
  split.
  { unfold sleep in E2. destruct (Z.ltb_spec (1000 * RETRY_DELAY config) 0); [done|lia]. }
  apply step_trace in E1 as [t1 T1]; [|apply emits_do_act; done].
  apply step_trace in E2 as [t2 T2]; [|apply emits_sleep].
  apply step_trace in E3 as [t3 T3]; [|apply wait_for_page_load_helper; done].
  pose proof (navigate_to_dp_menu_run config s3) as Hn.
  destruct (navigate_to_dp_menu_emits s3) as (t4 & T4 & _).
  rewrite Eb in Hn, T4. cbn [fst snd] in *.
  destruct (Hn eq_refl) as (pre & sel & e & Hsel & Htr & _).
  rewrite (new_trace_app _ _ _ T4) in Htr. subst t4.
  exists (t1 ++ t2 ++ t3 ++ pre)%list, sel, e. split; [done|].
  apply new_trace_app. rewrite T4, T3, T2, T1. by rewrite <- !app_assoc.
Qed.

End ItemTurn.

(** X23.  With a retry delay that is not negative, nothing the
    processing of an item does raises an exception of the [Exception]
    family, so the [except Exception] clause of the item loop never
    fires: a turn returns what the processing left when that
    returned, logs the interruption and breaks on [KeyboardInterrupt],
    and lets [SystemExit] through; it never adds a failure of its
    own. *)
Theorem item_turn_never_catches_exception {W : Type} `{Driver W}
    (config : Config) (master_data : gmap string DataManager.master_entry)
    (index total_items : Z) (code : string) (s : Bot * Env W) :
  0 ≤ RETRY_DELAY config →
  let body := process_item config master_data index total_items code s in
  let out := item_turn config master_data index total_items code s in
  match fst body with
  | Ok _ => out = (Ok true, snd body)
  | Raise KeyboardInterrupt =>
      out = (Ok false,
             (fst (snd body),
              snd (log INFO (Msg "Process interrupted by user") (snd (snd body)))))
  | Raise (SystemExit exit_code) => out = (Raise (SystemExit exit_code), snd body)
  | Raise (Exc _) => False
  end.
Proof.
  intros Hd. cbv zeta.
  pose proof (oi_process_item config master_data index total_items code Hd s) as Hoi.
  unfold item_turn, try_except, bind.
  destruct (process_item config master_data index total_items code s)
    as [[[]|[x| |c]] [bot1 env1]]; cbn [fst snd] in *.
  - reflexivity.
  - by destruct (Hoi x).
  - reflexivity.
  - reflexivity.
Qed.

Lemma item_turn_never_catches_exception_witness :
  let master_data : gmap string DataManager.master_entry :=
    {[ "DP001" := DataManager.MasterEntry "X" "Y" 2 ]} in
  let s := (new_bot, Sim.env_of (Sim.dp_page "DP001" [])) in
  item_turn Sim.default_config master_data 1 1 "DP001" s
  = (Ok true, snd (process_item Sim.default_config master_data 1 1 "DP001" s)).
Proof.
  cbv zeta.
  pose proof (item_turn_never_catches_exception Sim.default_config
                {[ "DP001" := DataManager.MasterEntry "X" "Y" 2 ]} 1 1 "DP001"
                (new_bot, Sim.env_of (Sim.dp_page "DP001" []))) as Hturn.
  cbv zeta in Hturn.
  assert (Hbody : fst (process_item Sim.default_config
                         {[ "DP001" := DataManager.MasterEntry "X" "Y" 2 ]}
                         1 1 "DP001"
                         (new_bot, Sim.env_of (Sim.dp_page "DP001" []))) = Ok tt)
    by (vm_compute; reflexivity).
  rewrite Hbody in Hturn. apply Hturn. vm_compute. discriminate.
Defined.

(** X24.  The recovery between two attempts,
    [handle_page_refresh_and_navigation], always begins by sending
    [refresh()].  It returns [True] only when the retry delay is not
    negative and the navigation that ends it found the city input
    usable. *)
Theorem refresh_comes_first {W : Type} `{Driver W} (config : Config)
    (env : Env W) :
  let out := handle_page_refresh_and_navigation config env in
  (∃ a rest, new_trace env (snd out) = EAct Refresh a :: rest)
  ∧ (fst out = Ok true →
     0 ≤ RETRY_DELAY config
     ∧ ∃ pre selector e,
         selector ∈ SELECTORS.city_input
         ∧ new_trace env (snd out)
           = (pre ++ found_usable 5 true selector e)%list).
Proof.
  cbv zeta. split.
  - destruct (handle_page_refresh_and_navigation_opens config env)
      as (ev & rest & E & (a & ->) & _).
    exists a, rest. by apply new_trace_app.
  - apply handle_page_refresh_and_navigation_true.
Qed.

Lemma refresh_comes_first_witness :
  let env := Sim.env_of (Sim.dp_page "DP001" []) in
  let out := handle_page_refresh_and_navigation Sim.default_config env in
  0 ≤ RETRY_DELAY Sim.default_config
  ∧ ∃ pre selector e,
      selector ∈ SELECTORS.city_input
      ∧ new_trace env (snd out) = (pre ++ found_usable 5 true selector e)%list.
Proof.
  cbv zeta.
  refine (proj2 (refresh_comes_first Sim.default_config
                   (Sim.env_of (Sim.dp_page "DP001" []))) _).
  vm_compute. reflexivity.
Defined.

